(* ===== verification/_CoqProject ===== *)
-Q . S2P
Prelude.v
GoLib.v
Errors.v
Rpc.v
External.v
Configd.v
LogLevel.v
Sample.v
Session.v
StateTree.v
Load.v
EditConfig.v
Commit.v
RunLoop.v
SessionServer.v
SessionApi.v
SessionMgr.v
Expand.v
GoFmt.v
CliFormat.v
Service.v
Daemon.v
Progress.v
Server.v
ConfigMgmt.v
Dispatcher.v
CommitRpc.v
Templates.v
Compare.v
RpcCall.v
LoadKeys.v
Conn.v
Methods.v
Commands.v
Confined.v
Answers.v
Client.v
Connect.v
Cli.v
CliComplete.v
CliRun.v
CliSafe.v
CliMain.v
NetAddr.v
Normalize.v
Components.v
Yangd.v
Tools.v
ServerIO.v
ConfigdMain.v
Process.v
StartUp.v
SmallTools.v
ToolMains.v
GetPass.v
Checks.v
TestSpec.v
