(* ===== verification/Prelude.v ===== *)
(** A verification library for configd, the configuration daemon of a network
    operating system.

    ** The program

    configd keeps the running configuration of a device.  Clients connect to a
    socket and work in _sessions_: a session holds a candidate tree, which
    requests set, delete, load, merge, edit (NETCONF <edit-config>), validate
    and commit.  Each session is one goroutine that serves requests from a
    channel; a request that needs a schema validation, a state script or a
    commit starts another goroutine and meanwhile keeps serving requests.  A
    lock word in the session says who may change it.  Commits of all sessions
    go through one commit manager, which runs one at a time, applies the
    changes to an "effective" session and publishes the new running tree.  A
    session manager holds the table of sessions.

    In front of the sessions is a server: a connection decodes JSON requests,
    looks the method up by name, checks the arguments and calls a method of the
    dispatcher, which authorises and accounts the command and sends requests to
    sessions.  The client library is the other end of the connection, and
    cfgcli, the configuration mode of the command line, is its main user: it is
    started for every line, completes or runs it, and answers bash in text that
    bash evaluates.  The packages of danos/config (trees, schemas, union, diff,
    load, commit), danos/utils, danos/mgmterror and danos/vci are other
    repositories.

    ** The files: the sessions (package session)

    - Prelude.v (this file): computations with a state, the reasoning rules for
      them ([preserves], [returns]), tactics, list helpers.
    - GoLib.v, GoFmt.v: the parts of Go's standard library that are used.
    - Errors.v (session/errors.go and the error values), Rpc.v (rpc/rpc.go),
      Configd.v (configd.go): plain data.
    - External.v: the packages of other repositories, as the fields of one
      class, [ConfigLib].  Everything is proved for every instance; Sample.v is
      a small concrete one, used to evaluate the model in the witnesses.
    - LogLevel.v (common/configd_log.go): the debug settings.
    - Session.v (session/session_internal.go): the state of a session, its lock,
      authorisation, and the handlers that do not involve the commit manager.
    - StateTree.v (session/session_state.go and [getfulltree]): configuration
      with operational state.
    - Load.v (session/load.go), EditConfig.v (session/edit_config.go).
    - Commit.v (session/commit.go, session/commitmgr.go): the commit context and
      one commit; RunLoop.v: the loop that serialises commits.
    - SessionServer.v ([processreq], [run], [validate], [commit], and
      session/sessionreq.go): what a session serves; SessionApi.v
      (session/session.go): the calls of its clients.
    - SessionMgr.v (session/sessionmgr.go): the table of sessions.

    ** The files: the server (package server)

    - Service.v: what the methods use of the sessions, as classes with the laws
      they rely on ([SessionService]; [Confined]: sessions a client may not
      access are out of its sight; [Answering]: sessions always answer).
      Daemon.v implements them with the session manager, the sessions and the
      commit manager above as one state; Progress.v shows that it answers.
    - Server.v (server/aaa.go, server/confirmed_commit.go): what the methods
      share ([disp_st]), authorisation, accounting, confirmed commits.
    - ConfigMgmt.v (server/config_mgmt.go, server/user_process.go): loading and
      saving, the sandbox.  LoadKeys.v (server/load_keys.go): ssh keys.
    - The methods of server/dispatcher.go, by what they are for: Expand.v
      ([expandPath]), Dispatcher.v (sessions, reading, changing, validating),
      CommitRpc.v (commit, confirmed commit, rollback), Compare.v (differences
      and files), Templates.v (templates, allowed values, completions),
      RpcCall.v (schemas, encodings, RPCs of components).
    - CliFormat.v (common/cli_format.go): the texts of errors and warnings.
    - Conn.v (server/server.go, server/conn.go): the method table, the call of a
      method, responses, the life of a connection.  Methods.v: the methods above
      behind that table, so that a server is one computation from the requests
      of all connections, in any order, to the sessions.  Commands.v: which
      methods are commands of the user, and for which command line each is
      authorised and accounted.  Confined.v and Answers.v: two theorems about
      the whole computation.

    ** The files: the clients

    - Client.v (client/client.go): the outcome of a call, the decoding of its
      result, the table of the calls the library offers.  Connect.v: the options
      and the connection, and a conversation with the server's side of it.
    - Cli.v (cmd/cfgcli/commands.go and the validation part of completefns.go),
      CliComplete.v (the completion part, and what bash is sent), CliRun.v
      (runfns.go, main.go, shellinit.go), CliSafe.v (no index of a completion is
      out of range), CliMain.v (the program around them): the configuration mode.  GetPass.v (getpass.go): the password prompt.

    ** The files: the rest

    - Components.v (cmd/configd/component_validation.go): the checks of the
      files that describe the components; Yangd.v (cmd/configd/yangd.go): the
      service that validates and converts data of RPCs and notifications.
    - Normalize.v (cmd/normalize): canonical texts of MAC and IP addresses and
      prefixes, over NetAddr.v, the parts of Go's package net it uses.
    - Process.v: a program as a process, what it does in order and how it ends;
      must not be loaded together with Cli.v, which has the same notations.
    - Tools.v: what some of the smaller programs compute (cmd/configdcaps,
      cmd/cfgcmds, cmd/yang2path, cmd/yangc, cmd/gettree, cmd/callrpc);
      ToolMains.v: their [main] functions.  SmallTools.v: the programs around one
      call of a library or of the daemon (cmd/platform-setup, cmd/featcaps,
      cmd/cfgdiff, cmd/cfgread, cmd/cfgdbg, cmd/cfgparse, cmd/args2cpath,
      cmd/yang2rev, cmd/yanggraph, cmd/cfgcli-args-encoder).
    - ServerIO.v: the goroutines that read a process the server started
      (server/user_process.go), accepting connections ([Srv.Serve]).
    - ConfigdMain.v (cmd/configd/main.go): the component manager given to the
      sessions, what asks it for which data, the error log.  StartUp.v: from the
      options to the accept loop.
    - Checks.v, TestSpec.v (session/sessiontest): the checks the test suites are
      written with, over SessionApi.v, and the server they run against.

    ** How code is modelled

    A handler is a function of type [M S A]: from the state it shares to its
    result and the state it leaves, [None] for a run-time panic, which ends the
    process.  Go's result-and-error pairs are pairs or sums; a Go [panic] with
    an error value that is recovered (edit-config) is a value too.  Pointers
    matter in one place, the candidate tree: [replace_candidate] leaves the old
    tree to whoever holds a pointer to it, [set_candidate] is a change in
    place.  The interleaving of requests is explicit: [h_blk] lists, for each
    waiting point of a handler, what the requests served there do to the world;
    SessionServer.v builds these from trees of requests ([arrival]), in which
    every waiting request has the requests served meanwhile, which may wait in
    turn.  What is observable outside (hooks, accounting records, files, the
    published running tree) is a trace of events.  The int32 lock word, process
    and user ids are [Z]: the code only compares them.

    The command line is a process that may end at any point: its computations
    (Cli.v) return a value, exit, or panic, over the trace of what was written
    and called.  Go ranges over a map in an unspecified order; where that can
    be seen (Cli*.v, RpcCall.v) the order is a parameter [range], of which only
    that it is a permutation is known.

    ** What is shown

    - Locks: the session lock refines a mutex with an owner
      ([lock_refines_mutex]); it protects the candidate against every
      interleaving of foreign requests ([locked_session_protected]) but for
      loads ([load_ignores_lock]) and for a set that was already waiting
      ([set_after_lock_taken]); through the whole server, from the JSON of
      requests to the sessions, no client but its owner changes a locked session,
      loads apart ([server_respects_lock]); nor does a client that may not access
      a session change it, or learn anything of it but through the scripts that
      find the allowed values for whatever session it names ([session_confined],
      [script_tells]); validations and commits give it back
      ([validate_restores], [commit_session_effect]).
    - Commits: they exclude each other and are all answered (RunLoop.v); one
      that fails changes nothing, one that succeeds has its effects in one
      order ([mgr_commit_failed], [mgr_commit_success]); they return.
    - Answers: a session answers every tree of requests served within requests
      ([requests_answered]), and the server every request of every client, four
      kinds of requests apart, which end the daemon ([server_answers]).
    - Edits: authorisation, the three error options, test-only, accounting, one
      case per choice, termination (EditConfig.v); sets are guarded
      ([set_guarded]); a merge does what setting the paths
      of the merged tree one by one would, where they are not there yet
      ([merge_tree_reference]).
    - Sessions: who gets at which, what the table always satisfies
      (SessionMgr.v); the running session is out of the reach of clients
      ([running_session_protected]).
    - Server: expansion of abbreviated paths, without a completion prefix
      ([expandPath_completes]); what each method that is a command is authorised
      and accounted for, and which are only accounted ([commands_authorised]); every method leaves the sessions
      it is not asked about alone ([methods_isolated]); confirmed commits block
      others, what they schedule and how that fails ([commit_blocked],
      [confirmed_commit_scheduling], [rollback_refused], the bounds of
      [newCommitInfo]); files of sandboxed users ([sandbox_absolute],
      [sandbox_escape]); secrets in comparisons ([compare_confidential]); RPCs
      of components are authorised, and their arguments decoded with the schema
      unless they are said to be RFC 7951 ([CallRpc_guarded]); completing a
      leafref sets one node in the session and deletes its missing part again
      ([leafref_completion_clean]); a key file with a bad line is reported with
      the line, and nothing is committed, though the keys before it stay in the
      candidate ([loadkeys_failed]).
    - Connections: every method of the table is there with its types
      ([methods_typed]); when a method is called at all ([Call_spec]), what is undone
      when a client goes ([connection_cleanup]); the calls of the client library
      fit the methods ([client_calls_fit]), and each gets what its method returned
      ([conversation]).
    - The daemon: it comes to serve exactly when its run directory, the YANG model
      and the socket could be made, the socket is a Unix one and its user exists;
      it panics when all was made but one of these two does not hold ([main_serves]).
    - Command line: which command a word means ([ExpandCommand_spec]), what is
      offered for completion ([candidates_sound]) and that help texts reach the
      terminal as they are, through the quoting of bash
      ([output_printed_literally]); no options, words or answers make a run-time
      panic of the program ([main_returns]), up with an empty edit level and an
      index of the current word that is not one of the words apart; file
      arguments reach the server as absolute names ([file_arguments_absolute]);
      commit-confirm and its timeout ([commit_confirm_timeout]).
    - Operational state: gathering it terminates (StateTree.v).
    - Other programs: normalised addresses are canonical and normalising again
      changes nothing ([NormalizeIP_canonical], [normalize_stable]), a prefix
      keeps the bits it should ([prefix_network]); component files pass exactly
      when nothing comes twice ([validateComponents_spec]); what yangd accepts
      was read against the schema ([ConvertRpcInput_spec],
      [ValidateRpcInput_spec]), and the dispatcher finds it too
      ([validated_call]); what the small programs print ([setFeatures_spec],
      [buildpaths_branches], [walk_shown], [validateArgs_spec]), and that they
      either show something or report an error ([tools_honest]); the terminal is
      given back as it was ([GetPass_restores]); a table of checks passes
      exactly when the session did what its rows say ([table_passes]), and the
      server of a test answers as the daemon's does ([Init_ready]); what is read of
      a process is what it wrote ([ReadAll_process]) and connections are served
      in the order they come ([Serve_spec]).

    ** Fuel

    [setAllOperState] (StateTree.v) takes fuel: the depth of the union tree,
    which the schema bounds; [addStateToTree_returns] shows that fuel for that
    depth is enough.  The recursive normalisers take the length
    of the token, and [norm_eq] is their recursive equation without fuel; the
    loops over an address turn at most eight times.  All other recursion is structural.

    ** What is not modelled

    Log messages and timings; sockets, the XML and JSON coders beyond the
    struct tags (parameters); a commit's own reading of the session is one step
    between two waiting points.  Of the daemon's start the registration on D-Bus
    and the tuning of the garbage collector are left out, of the small programs
    the texts of their usage that the flag package prints and the constant text
    around the picture of yanggraph, of the test harness the loggers.  Beyond
    that the source has only constant texts (the script in the picture of
    yanggraph is by far the longest), declarations and comments. *)

From Stdlib Require Export Ascii ZArith Lia.
From stdpp Require Export prelude strings list gmap pretty.

Declare Scope go_scope.
Delimit Scope go_scope with go.
Open Scope go_scope.

(** ** Go computations with a state

    A handler of the program is a function from the state it shares with the
    rest of the process to its result and the state it leaves.  [None] is a Go
    run-time panic that nobody recovers: the whole process is gone, so there
    is no state left to speak of. *)

Definition M (S A : Type) : Type := S -> option (A * S).

Definition ret {S A} (a : A) : M S A := fun s => Some (a, s).

Definition bind {S A B} (m : M S A) (k : A -> M S B) : M S B :=
  fun s => match m s with
           | Some (a, s') => k a s'
           | None => None
           end.

Definition go_panic {S A} : M S A := fun _ => None.

Definition get {S} : M S S := fun s => Some (s, s).

Definition gets {S A} (f : S -> A) : M S A := fun s => Some (f s, s).

Definition modify {S} (f : S -> S) : M S unit := fun s => Some (tt, f s).

Notation "x <- c ;; k" := (bind c (fun x => k))
  (at level 100, c at next level, right associativity) : go_scope.
Notation "c ;;; k" := (bind c (fun _ => k))
  (at level 100, right associativity) : go_scope.

(** Run a handler for each element of a slice, in order, collecting results. *)
Section ForM.
Context {S A B : Type} (f : A -> M S B).
Fixpoint mapM_go (l : list A) : M S (list B) :=
  match l with
  | [] => ret []
  | x :: l' => b <- f x ;; bs <- mapM_go l' ;; ret (b :: bs)
  end.
End ForM.
Abbreviation forM l f := (mapM_go f l).

(** ** Reasoning about handlers

    [preserves I m]: whenever [m] starts in a state satisfying [I] and returns,
    it leaves such a state.  Closed under sequencing, which is how every "this
    handler never touches that field" lemma is proved (take [I] to be "related
    to the initial state"). *)

Definition preserves {S A} (I : S -> Prop) (m : M S A) : Prop :=
  forall s a s', I s -> m s = Some (a, s') -> I s'.

(** [returns I m]: from a state satisfying [I] the handler does return (it
    neither panics nor loops), in such a state. *)
Definition returns {S A} (I : S -> Prop) (m : M S A) : Prop :=
  forall s, I s -> exists a s', m s = Some (a, s') /\ I s'.

Create HintDb go discriminated.

Section Preserves.
Context {S : Type} (I : S -> Prop).

Lemma preserves_ret {A} (a : A) : preserves I (ret a).
Proof. intros s b s' Hs [= <- <-]. exact Hs. Qed.

Lemma preserves_gets {A} (f : S -> A) : preserves I (gets f).
Proof. intros s b s' Hs [= <- <-]. exact Hs. Qed.

Lemma preserves_panic {A} : preserves I (@go_panic S A).
Proof. intros s b s' _ [=]. Qed.

Lemma preserves_bind {A B} (m : M S A) (k : A -> M S B) :
  preserves I m -> (forall a, preserves I (k a)) -> preserves I (bind m k).
Proof.
  intros Hm Hk s b s' Hs. unfold bind.
  destruct (m s) as [[a s1]|] eqn:E; [|discriminate].
  intros Hk'. eapply Hk; [|exact Hk']. by eapply Hm.
Qed.

(** The continuation of a read may use what [I] says of the state read. *)
Lemma preserves_gets_bind {A B} (f : S -> A) (k : A -> M S B) :
  (forall s, I s -> preserves I (k (f s))) -> preserves I (bind (gets f) k).
Proof. intros Hk s b s' Hs Hr. by eapply (Hk s). Qed.

Lemma preserves_modify (f : S -> S) : (forall s, I s -> I (f s)) -> preserves I (modify f).
Proof. intros Hf s b s' Hs [= <- <-]. by apply Hf. Qed.

Lemma preserves_forM {A B} (l : list A) (f : A -> M S B) :
  (forall x, preserves I (f x)) -> preserves I (mapM_go f l).
Proof.
  intros Hf. induction l as [|x l IH]; simpl; [apply preserves_ret|].
  apply preserves_bind; [apply Hf|]. intros b.
  apply preserves_bind; [apply IH|]. intros bs. apply preserves_ret.
Qed.
End Preserves.

Lemma bind_Some {S A B} (m : M S A) (k : A -> M S B) s b s' :
  bind m k s = Some (b, s') <->
  exists a s1, m s = Some (a, s1) /\ k a s1 = Some (b, s').
Proof.
  unfold bind. split.
  - destruct (m s) as [[a s1]|]; [|discriminate]. eauto.
  - intros (a & s1 & -> & Hk). exact Hk.
Qed.

Lemma bind_eq {S A B} (m : M S A) (k : A -> M S B) s a s1 :
  m s = Some (a, s1) -> bind m k s = k a s1.
Proof. intros E. unfold bind. by rewrite E. Qed.

Section Returns.
Context {S : Type} (I : S -> Prop).

Lemma returns_ret {A} (a : A) : returns I (ret a).
Proof. intros s Hs. by exists a, s. Qed.

Lemma returns_gets {A} (f : S -> A) : returns I (gets f).
Proof. intros s Hs. by exists (f s), s. Qed.

Lemma returns_modify (f : S -> S) : (forall s, I s -> I (f s)) -> returns I (modify f).
Proof. intros Hf s Hs. exists tt, (f s). auto. Qed.

Lemma returns_bind {A B} (m : M S A) (k : A -> M S B) :
  returns I m -> (forall a, returns I (k a)) -> returns I (bind m k).
Proof.
  intros Hm Hk s Hs. destruct (Hm s Hs) as (a & s1 & E1 & H1).
  destruct (Hk a s1 H1) as (b & s2 & E2 & H2). exists b, s2.
  split; [|done]. apply bind_Some. eauto.
Qed.

Lemma returns_forM {A B} (l : list A) (f : A -> M S B) :
  (forall x, x ∈ l -> returns I (f x)) -> returns I (mapM_go f l).
Proof.
  intros Hf. induction l as [|x l IH]; cbn; [apply returns_ret|].
  apply returns_bind; [apply Hf; by left|]. intros b.
  apply returns_bind; [apply IH; intros y Hy; apply Hf; by right|].
  intros bs. apply returns_ret.
Qed.
End Returns.

#[export] Hint Resolve preserves_ret preserves_gets preserves_panic
  returns_ret returns_gets : go.

(** Two runs side by side: [related R m n] when from states related by [R]
    both handlers return the same value in related states, or both panic. *)
Definition same_outcome {S A} (R : S -> S -> Prop) (x y : option (A * S)) : Prop :=
  match x, y with
  | Some (a, s), Some (b, t) => a = b /\ R s t
  | None, None => True
  | _, _ => False
  end.

Definition related {S A} (R : S -> S -> Prop) (m n : M S A) : Prop :=
  forall s t, R s t -> same_outcome R (m s) (n t).

Section Related.
Context {S : Type} (R : S -> S -> Prop).

Lemma related_ret {A} (a : A) : related R (ret a) (ret a).
Proof. by intros s t H. Qed.

Lemma related_panic {A} : related R (@go_panic S A) go_panic.
Proof. by intros s t H. Qed.

Lemma related_modify (f g : S -> S) : (forall s t, R s t -> R (f s) (g t)) ->
  related R (modify f) (modify g).
Proof. intros H s t Hs. split; [done|by apply H]. Qed.

Lemma related_bind {A B} (m n : M S A) (k l : A -> M S B) :
  related R m n -> (forall a, related R (k a) (l a)) -> related R (bind m k) (bind n l).
Proof.
  intros Hm Hk s t Hs. specialize (Hm s t Hs). unfold bind.
  destruct (m s) as [[a s1]|], (n t) as [[b t1]|]; cbn in Hm; try done.
  destruct Hm as [<- H1]. by apply Hk.
Qed.

(** What is read may differ, as long as the rest makes the same of it. *)
Lemma related_gets_bind {A B} (f : S -> A) (k l : A -> M S B) :
  (forall s t, R s t -> related R (k (f s)) (l (f t))) -> related R (bind (gets f) k) (bind (gets f) l).
Proof. intros H s t Hs. by apply (H s t Hs). Qed.

Lemma related_gets {A} (f : S -> A) : (forall s t, R s t -> f s = f t) ->
  related R (gets f) (gets f).
Proof. intros H s t Hs. split; [by apply H|done]. Qed.

Lemma related_forM {A B} (l : list A) (f : A -> M S B) :
  (forall x, related R (f x) (f x)) -> related R (mapM_go f l) (mapM_go f l).
Proof.
  intros Hf. induction l as [|x l IH]; cbn; [apply related_ret|].
  apply related_bind; [apply Hf|]. intros b. apply related_bind; [exact IH|].
  intros bs. apply related_ret.
Qed.
End Related.

#[export] Hint Resolve related_ret related_panic : go.

(** ** Tactics *)

(** Take the successful run of a sequence of handlers apart. *)
Ltac inv_run :=
  repeat match goal with
  | H : bind _ _ _ = Some (_, _) |- _ =>
      apply bind_Some in H; destruct H as (? & ? & ? & H)
  | H : ret _ _ = Some (_, _) |- _ => unfold ret in H; injection H as ? ?; subst
  | H : gets _ _ = Some (_, _) |- _ => unfold gets in H; injection H as ? ?; subst
  | H : get _ = Some (_, _) |- _ => unfold get in H; injection H as ? ?; subst
  | H : modify _ _ = Some (_, _) |- _ => unfold modify in H; injection H as ? ?; subst
  | H : go_panic _ = Some (_, _) |- _ => discriminate H
  end.

(** One step into a handler's body, for [preserves] goals: sequencing and the
    case analyses of the code; the leaves are left to the caller. *)
Ltac go_step :=
  match goal with
  | |- preserves _ (bind _ _) => apply preserves_bind; [|intros ?]
  | |- preserves _ (if ?b then _ else _) => destruct b eqn:?
  | |- preserves _ (match ?x with _ => _ end) => destruct x eqn:?
  | |- preserves _ (let _ := _ in _) => cbv zeta
  | |- returns _ (bind _ _) => apply returns_bind; [|intros ?]
  | |- returns _ (if ?b then _ else _) => destruct b eqn:?
  | |- returns _ (match ?x with _ => _ end) => destruct x eqn:?
  | |- returns _ (let _ := _ in _) => cbv zeta
  | |- preserves _ _ => solve [eauto with go]
  | |- returns _ _ => solve [eauto with go]
  end.

(** The same for two runs of one handler. *)
Ltac rel_step :=
  match goal with
  | |- related _ (bind _ _) (bind _ _) => apply related_bind; [|intros ?]
  | |- related _ (if ?b then _ else _) (if ?b then _ else _) => destruct b eqn:?
  | |- related _ (match ?x with _ => _ end) (match ?x with _ => _ end) => destruct x eqn:?
  | |- related _ (let _ := _ in _) (let _ := _ in _) => cbv zeta
  | |- related _ _ _ => solve [eauto with go]
  end.

(** Split every [match] and [if] of the goal. *)
Ltac split_matches :=
  repeat match goal with
  | |- context [match ?x with _ => _ end] => destruct x eqn:?
  end.

(** Split the [match]es of a hypothesis on a successful run. *)
Ltac split_run H :=
  repeat match type of H with
  | context [match ?x with _ => _ end] => destruct x eqn:?
  end.

(** ** Lists *)

Definition last_opt {A} (l : list A) : option A := last l.

(** Go's [l[:len(l)-1]], which panics on an empty slice. *)
Definition init_opt {A} (l : list A) : option (list A) :=
  match l with
  | [] => None
  | _ => Some (take (length l - 1) l)
  end.

Definition elem_b {A} `{EqDecision A} (x : A) (l : list A) : bool :=
  bool_decide (x ∈ l).
