(* ===== verification/GoLib.v ===== *)
(** The parts of Go's standard library the program uses: [strings],
    [strconv] and the [%v] printing of string slices, on [string] (a Go
    string is its bytes), with the lemmas the components share. *)

From S2P Require Import Prelude.

(** ** strings *)

Definition HasPrefix (s p : string) : bool := String.prefix p s.

Fixpoint rev_string_aux (s acc : string) : string :=
  match s with
  | EmptyString => acc
  | String c s' => rev_string_aux s' (String c acc)
  end.
Definition rev_string (s : string) : string := rev_string_aux s "".

Definition HasSuffix (s p : string) : bool :=
  HasPrefix (rev_string s) (rev_string p).

(** [strings.Contains]. *)
Definition Contains (s sub : string) : bool :=
  match String.index 0 sub s with Some _ => true | None => false end.

(** [strings.Join]. *)
Fixpoint Join (l : list string) (sep : string) : string :=
  match l with
  | [] => ""
  | [s] => s
  | s :: l' => s +:+ sep +:+ Join l' sep
  end.

(** [strings.Split(s, sep)] for a one-byte separator: always non-empty. *)
Fixpoint Split (s : string) (sep : ascii) : list string :=
  match s with
  | EmptyString => [""]
  | String c s' =>
      if Ascii.eqb c sep then "" :: Split s' sep
      else match Split s' sep with
           | w :: ws => String c w :: ws
           | [] => [String c ""]
           end
  end.

(** [s[n:]] of a string ([n] no larger than the length). *)
Fixpoint str_drop (n : nat) (s : string) : string :=
  match n, s with
  | S n', String _ s' => str_drop n' s'
  | _, _ => s
  end.

(** [s[:n]] of a string. *)
Fixpoint str_take (n : nat) (s : string) : string :=
  match n, s with
  | S n', String c s' => String c (str_take n' s')
  | _, _ => ""
  end.

(** [strings.Repeat]. *)
Fixpoint Repeat (s : string) (n : nat) : string :=
  match n with O => "" | S n' => s +:+ Repeat s n' end.

(** Remove the leading bytes that satisfy [f]. *)
Fixpoint trim_left (f : ascii -> bool) (s : string) : string :=
  match s with
  | String c s' => if f c then trim_left f s' else s
  | EmptyString => s
  end.
Definition trim_right (f : ascii -> bool) (s : string) : string :=
  rev_string (trim_left f (rev_string s)).

Definition is_space (c : ascii) : bool :=
  let n := nat_of_ascii c in
  bool_decide (n = 32 \/ (9 <= n <= 13))%nat.

(** [strings.TrimSpace], on ASCII white space. *)
Definition TrimSpace (s : string) : string :=
  trim_right is_space (trim_left is_space s).

Fixpoint map_string (f : ascii -> ascii) (s : string) : string :=
  match s with
  | EmptyString => EmptyString
  | String c s' => String (f c) (map_string f s')
  end.

(** [strings.ToLower], on ASCII letters. *)
Definition lower_ascii (c : ascii) : ascii :=
  let n := nat_of_ascii c in
  if bool_decide (65 <= n <= 90)%nat then ascii_of_nat (n + 32) else c.
Definition ToLower : string -> string := map_string lower_ascii.

(** [strings.Replace(s, c, by, -1)] for a single byte. *)
Fixpoint replace_byte (c : ascii) (by_ : string) (s : string) : string :=
  match s with
  | EmptyString => ""
  | String x s' => (if Ascii.eqb x c then by_ else String x "") +:+ replace_byte c by_ s'
  end.

(** [fmt.Sprint] of a []string: [[a b c]]. *)
Definition SprintSlice (l : list string) : string := "[" +:+ Join l " " +:+ "]".

Definition nl : string := String "010"%char "".
Definition tab : string := String "009"%char "".

(** ** strconv *)

(** [strconv.Itoa]. *)
Definition Itoa (z : Z) : string := pretty z.

Definition digit_val (c : ascii) : option Z :=
  let n := Z.of_nat (nat_of_ascii c) in
  if (48 <=? n)%Z && (n <=? 57)%Z then Some (n - 48)%Z
  else if (97 <=? n)%Z && (n <=? 122)%Z then Some (n - 87)%Z
  else if (65 <=? n)%Z && (n <=? 90)%Z then Some (n - 55)%Z
  else None.

(** The value of the digits [s] in [base], without any bound. *)
Fixpoint digits_val (base : Z) (s : string) (acc : Z) : option Z :=
  match s with
  | EmptyString => Some acc
  | String c s' =>
      match digit_val c with
      | Some d => if (d <? base)%Z then digits_val base s' (acc * base + d)%Z else None
      | None => None
      end
  end.

(** [strconv.ParseUint(s, base, bits)] for an explicit base: [None] for its
    syntax and its range errors. *)
Definition ParseUint (s : string) (base bits : Z) : option Z :=
  match s with
  | EmptyString => None
  | _ => match digits_val base s 0 with
         | Some n => if (n <? 2 ^ bits)%Z then Some n else None
         | None => None
         end
  end.

(** [strconv.Atoi] on a 64-bit platform. *)
Definition Atoi (s : string) : option Z :=
  match s with
  | String "-"%char s' =>
      match s' with
      | EmptyString => None
      | _ => match digits_val 10 s' 0 with
             | Some n => if (n <=? 2 ^ 63)%Z then Some (- n)%Z else None
             | None => None
             end
      end
  | String "+"%char s' =>
      match s' with
      | EmptyString => None
      | _ => match digits_val 10 s' 0 with
             | Some n => if (n <? 2 ^ 63)%Z then Some n else None
             | None => None
             end
      end
  | EmptyString => None
  | _ => match digits_val 10 s 0 with
         | Some n => if (n <? 2 ^ 63)%Z then Some n else None
         | None => None
         end
  end.

(** ** Lemmas *)

Lemma append_empty_r s : s +:+ "" = s.
Proof.
  induction s as [|c s IH]; [done|]. change (String c (s +:+ "") = String c s). by rewrite IH.
Qed.

Lemma append_assoc a b c : (a +:+ b) +:+ c = a +:+ b +:+ c.
Proof. induction a as [|x a IH]; [done|]. exact (f_equal (String x) IH). Qed.

Lemma str_drop_app a b : str_drop (String.length a) (a +:+ b) = b.
Proof. induction a as [|c a IH]; [by destruct b|exact IH]. Qed.

Lemma length_append a b : String.length (a +:+ b) = (String.length a + String.length b)%nat.
Proof.
  induction a as [|c a IH]; [done|]. change (String c a +:+ b) with (String c (a +:+ b)). cbn. by rewrite IH.
Qed.

Lemma HasPrefix_refl s : HasPrefix s s = true.
Proof.
  unfold HasPrefix. induction s as [|c s IH]; simpl; [done|].
  destruct (ascii_dec c c); [done|congruence].
Qed.

Lemma HasPrefix_spec s p : HasPrefix s p = true <-> exists t, s = p +:+ t.
Proof.
  unfold HasPrefix. revert s. induction p as [|c p IH]; intros s; simpl.
  - split; [eauto|]. by destruct s.
  - destruct s as [|c' s]; simpl.
    + split; [done|]. intros [t [=]].
    + destruct (ascii_dec c c') as [<-|Hne].
      * rewrite IH. split; intros [t Ht]; exists t; [by rewrite Ht|by injection Ht].
      * split; [done|]. intros [t [= Hc _]]. congruence.
Qed.

Lemma digits_val_nonneg base s acc n :
  (0 <= base)%Z -> (0 <= acc)%Z -> digits_val base s acc = Some n -> (0 <= n)%Z.
Proof.
  intros Hb. revert acc. induction s as [|c s IH]; intros acc Ha; simpl.
  - by intros [= <-].
  - destruct (digit_val c) as [d|] eqn:Ed; [|discriminate].
    destruct (d <? base)%Z eqn:El; [|discriminate].
    apply IH. unfold digit_val in Ed.
    enough (0 <= d)%Z by nia.
    repeat (case_match; simplify_eq); lia.
Qed.

Lemma ParseUint_bounds s base bits n :
  (0 <= base)%Z -> ParseUint s base bits = Some n -> (0 <= n < 2 ^ bits)%Z.
Proof.
  unfold ParseUint. intros Hb. destruct s as [|c s]; [discriminate|].
  destruct (digits_val base (String c s) 0) as [m|] eqn:E; [|discriminate].
  destruct (m <? 2 ^ bits)%Z eqn:El; [|discriminate].
  intros [= <-].
  apply digits_val_nonneg in E; lia.
Qed.
