(* ===== verification/Errors.v ===== *)
(** Error values.  Go's [error] interface as one inductive type: the error
    types declared by the program ([server/conn.go], [rpc/rpc.go],
    [session/edit_config.go]) and, as plain data, the ones its packages build
    for it.  [session/errors.go] is modelled here.

    The package mgmterror is not part of the repository: a management error is
    the constructor that was called with its arguments, and the [Message] and
    [Path] fields the program assigned afterwards ([None] is the package's own
    default, which is not modelled). *)

From S2P Require Import Prelude GoLib.

(** The constructors of package mgmterror the program calls. *)
Inductive mgmt_kind :=
  | OperationFailedApplication
  | OperationFailedProtocol
  | OperationNotSupportedApplication
  | AccessDeniedApplication
  | ResourceDeniedProtocol
  | LockDenied (sess : string)
  | UnknownElementApplication (elem : string)
  | UnknownElementProtocol (elem : string)
  | UnknownNamespaceApplication (path ns : string)
  | UnknownNamespaceProtocol (attr ns : string)
  | UnknownAttrProtocol (op attr : string)
  | InvalidValueApplication
  | InvalidValueProtocol
  | MissingElementApplication (elem : string)
  | BadElementApplication (elem : string)
  | MalformedMessage
  | DataExists
  | DataMissing
  | PathAmbiguous (path : list string) (matches : list (string * string)).

#[export] Instance mgmt_kind_eq_dec : EqDecision mgmt_kind.
Proof. solve_decision. Defined.

Record mgmt_error := MgmtError {
  me_kind : mgmt_kind;
  me_message : option string;   (** [err.Message = ...] *)
  me_path : option string       (** [err.Path = ...] *)
}.

#[export] Instance mgmt_error_eq_dec : EqDecision mgmt_error.
Proof. solve_decision. Defined.

(** The errors package yang/schema builds for a path. *)
Inductive yang_kind := NodeExists | NodeNotExists | InvalidPath.

#[export] Instance yang_kind_eq_dec : EqDecision yang_kind.
Proof. solve_decision. Defined.

Inductive error :=
  | EMgmt (m : mgmt_error)
  | EMgmtList (es : list error)             (** mgmterror.MgmtErrorList *)
  | EPerform (es : list error)              (** perform_error of edit_config.go *)
  | EYang (k : yang_kind) (path : list string)
  | EGo (msg : string)                      (** errors.New, fmt.Errorf *)
  | EMeth (name : string)                   (** rpc.MethErr *)
  | EArg (meth typ etyp : string)           (** rpc.ArgErr *)
  | EArgN (meth : string) (len elen : nat)  (** rpc.ArgNErr *)
  | ELoginPid (pid : Z).                    (** server.LoginPidError *)

(** [mgmterror.NewXxxError()] with no field assigned. *)
Definition new_error (k : mgmt_kind) : error := EMgmt (MgmtError k None None).
(** ... and then [err.Message = msg]. *)
Definition error_msg (k : mgmt_kind) (msg : string) : error :=
  EMgmt (MgmtError k (Some msg) None).
(** ... or [err.Path = p]. *)
Definition error_path (k : mgmt_kind) (p : string) : error :=
  EMgmt (MgmtError k None (Some p)).
Definition error_path_msg (k : mgmt_kind) (p msg : string) : error :=
  EMgmt (MgmtError k (Some msg) (Some p)).

Definition NewNodeExistsError (p : list string) : error := EYang NodeExists p.
Definition NewNodeNotExistsError (p : list string) : error := EYang NodeNotExists p.
Definition NewInvalidPathError (p : list string) : error := EYang InvalidPath p.

(** ** session/errors.go *)

Definition lockDenied (sess : string) : error :=
  error_msg (LockDenied sess) ("session is locked by " +:+ sess).

Definition nilSessionMgrError : error :=
  error_msg OperationFailedApplication "cannot get a session on a nil manager".

Definition sessTermError : error :=
  error_msg OperationFailedApplication "session terminated".

Definition access_denied : error := new_error AccessDeniedApplication.

(** A denial because of a lock: what a client that loses the race sees. *)
Definition is_lock_denied (e : error) : bool :=
  match e with
  | EMgmt (MgmtError (LockDenied _) _ _) => true
  | _ => false
  end.

Lemma lockDenied_is_lock_denied s : is_lock_denied (lockDenied s) = true.
Proof. reflexivity. Qed.
