(* ===== verification/Rpc.v ===== *)
(** [rpc/rpc.go]: the vocabulary of the JSON RPC between the clients and the
    server: datastores, node types and statuses (Go integers, so that values a
    client makes up are representable), requests, responses, script output and
    the argument errors with their texts. *)

From S2P Require Import Prelude GoLib Errors.

Open Scope Z_scope.

(** [type DB int] with its constants. *)
Abbreviation DB := Z.
Definition AUTO : DB := 0.
Definition RUNNING : DB := 1.
Definition CANDIDATE : DB := 2.
Definition EFFECTIVE : DB := 3.

(** [type NodeType int]. *)
Abbreviation NodeType := Z.
Definition LEAF : NodeType := 0.
Definition LEAF_LIST : NodeType := 1.
Definition CONTAINER : NodeType := 2.
Definition LIST : NodeType := 3.

Definition NodeType_String (typ : NodeType) : string :=
  if typ =? LEAF then "leaf"
  else if typ =? LEAF_LIST then "leaf-list"
  else if typ =? CONTAINER then "container"
  else if typ =? LIST then "list"
  else "unknown".

(** [type NodeStatus int]. *)
Abbreviation NodeStatus := Z.
Definition UNCHANGED : NodeStatus := 0.
Definition CHANGED : NodeStatus := 1.
Definition ADDED : NodeStatus := 2.
Definition DELETED : NodeStatus := 3.

Definition NodeStatus_String (s : NodeStatus) : string :=
  if s =? UNCHANGED then "UNCHANGED"
  else if s =? CHANGED then "CHANGED"
  else if s =? ADDED then "ADDED"
  else if s =? DELETED then "DELETED"
  else "unknown".

(** The output of one executed script; [exec.Output] has the same fields. *)
Record ExecOutput := { eo_Path : option (list string); eo_Output : string }.

(** [ExecOutputs.String]: [fmt.Sprintln] of the path when there is one. *)
Definition ExecOutputs_String (outs : list ExecOutput) : string :=
  String.concat "" (map (fun out =>
    match eo_Path out with Some p => SprintSlice p +:+ nl | None => "" end
    +:+ eo_Output out +:+ nl) outs).

Record ExecError := { ee_Path : option (list string); ee_Err : string }.

Definition ExecErrors_Error (errs : list ExecError) : string :=
  String.concat "" (map (fun err =>
    match ee_Path err with Some p => SprintSlice p +:+ nl | None => "" end
    +:+ nl +:+ ee_Err err +:+ nl +:+ nl +:+ "["
    +:+ SprintSlice (default [] (ee_Path err)) +:+ "] failed." +:+ nl) errs).

Definition MethErr_Error (name : string) : string := "unknown method " +:+ name.

(** [ArgErr]: the argument as [%v] and [%T] print it. *)
Record ArgErr := { ae_Method : string; ae_Farg_v : string; ae_Farg_T : string; ae_Typ : string; ae_Etyp : string }.
Definition ArgErr_Error (e : ArgErr) : string :=
  "cannot use " +:+ ae_Farg_v e +:+ " (type "
  +:+ (if bool_decide (ae_Typ e = "") then ae_Farg_T e else ae_Typ e)
  +:+ ") as type " +:+ ae_Etyp e +:+ " in call to " +:+ ae_Method e.

Definition ArgNErr_Error (meth : string) (len elen : nat) : string :=
  if (elen <? len)%nat
  then "too many arguments in call to " +:+ meth +:+ " expected "
       +:+ pretty elen +:+ " got " +:+ pretty len
  else "too few arguments in call to " +:+ meth +:+ " expected "
       +:+ pretty elen +:+ " got " +:+ pretty len.
