(* ===== verification/External.v ===== *)
(** The packages of other repositories the program calls (danos/config,
    danos/yang, danos/utils, danos/vci): the values that cross the boundary as
    data, and the functions as the fields of one type class, [ConfigLib], over
    which the whole development is parametric.  Nothing is assumed of them here;
    a theorem that needs a documented behaviour of one of them names it. *)

From S2P Require Import Prelude GoLib Errors Rpc.

(** ** danos/utils/pathutil, danos/config/auth *)

(** [pathutil.PathElementAttrs] and [pathutil.PathAttrs]: the program builds
    and concatenates their lists of attributes. *)
Record PathElementAttrs := { Secret : bool }.
Abbreviation PathAttrs := (list PathElementAttrs).

(** [auth.AuthPerm]. *)
Inductive AuthPerm := P_CREATE | P_UPDATE | P_DELETE | P_READ.

(** The decisions of [auth.Auther], the access-control service a connection
    holds: user id, groups, path and its attributes (nil when unknown). *)
Record Auth := {
  AuthorizeRead : Z -> list string -> list string -> option PathAttrs -> bool;
  AuthorizeCreate : Z -> list string -> list string -> option PathAttrs -> bool;
  AuthorizeUpdate : Z -> list string -> list string -> option PathAttrs -> bool;
  AuthorizeDelete : Z -> list string -> list string -> option PathAttrs -> bool;
  AuthorizePath : Z -> list string -> list string -> option PathAttrs -> AuthPerm -> bool;
  AuthorizeCommand : Z -> list string -> list string -> option PathAttrs -> bool;
  AuthorizeFn : Z -> list string -> string -> bool;
  AuthorizeRPC : Z -> list string -> string -> string -> bool
}.

(** ** danos/config/schema *)

(** The Go types of schema nodes the program distinguishes by type switch. *)
Inductive node_kind :=
  | KTree | KContainer | KList | KListEntry | KLeaf | KLeafList | KLeafValue
  | KChoice | KCase | KOther.

#[export] Instance node_kind_eq_dec : EqDecision node_kind.
Proof. solve_decision. Defined.

(** The YANG types it distinguishes. *)
Inductive yang_type := TEmpty | TInteger | TUinteger | TBoolean | TLeafref | TOther.

#[export] Instance yang_type_eq_dec : EqDecision yang_type.
Proof. solve_decision. Defined.

(** A schema node as the tree of what its accessor methods return. *)
Inductive snode := SNode {
  sn_kind : node_kind;
  sn_name : string;               (** Name() *)
  sn_namespace : string;          (** Namespace() *)
  sn_presence : bool;             (** HasPresence() *)
  sn_type : yang_type;            (** Type() *)
  sn_keys : list string;          (** Keys(), of lists and list entries *)
  sn_help : string;               (** ConfigdExt().Help *)
  sn_subst : list string;         (** ConfigdExt().Subst *)
  sn_children : list snode;       (** Children() *)
  sn_choices : list snode         (** Choices() *)
}.

(** ** danos/config/union *)

(** [union.Auther], the interface session's Auther implements. *)
Record UnionAuther := {
  AuthRead : list string -> bool;
  AuthCreate : list string -> bool;
  AuthUpdate : list string -> bool;
  AuthDelete : list string -> bool;
  AuthReadSecrets : list string -> bool
}.

Inductive union_option :=
  | Authorizer (a : UnionAuther) | HideSecrets | IncludeDefaults | ForceShowSecrets.

(** [union.DontCheckAuth] and [union.CheckAuth]. *)
Inductive auth_check := DontCheckAuth | CheckAuth.

(** A union tree read back from a file or a message, in the order
    [SortedChildren] lists it. *)
Inductive utree := UT {
  ut_name : string;               (** Name() *)
  ut_schema : option snode;       (** GetSchema(), nil for an invalid path *)
  ut_default : bool;              (** Default() *)
  ut_children : list utree        (** SortedChildren() *)
}.

(** What happens inside [commit.Commit] as its caller sees it: the calls it
    makes to the effective database, then its four results. *)
Inductive commit_prog :=
  | CSet (path : list string) (k : option error -> commit_prog)
  | CDelete (path : list string) (k : option error -> commit_prog)
  | CDone (outs : list ExecOutput) (errs : list error) (successes failures : Z).

Class ConfigLib := {
  (** data.Node trees and schema.ModelSet *)
  data : Type;
  data_New : string -> data;
  data_NumChildren : data -> Z;
  ModelSet : Type;
  ms_node : ModelSet -> snode;                     (** a ModelSet is a Node *)
  (** pathutil *)
  Makepath : string -> list string;
  Pathstr : list string -> string;
  CopyAppend : list string -> string -> list string;
  (** schema navigation *)
  AttrsForPath : ModelSet -> list string -> option PathAttrs;
  Descendant : ModelSet -> list string -> option snode;
  SchemaChild : snode -> string -> option snode;
  Child : snode -> string -> option snode;
  PathDescendant : ModelSet -> list string -> option snode;
  NormalizePath : ModelSet -> list string -> list string + error;
  (** ModelSet.Validate: model set, session id, Noexec, IncompletePathIsValid, path *)
  Validate : ModelSet -> string -> bool -> bool -> list string -> option error;
  (** exec.Exec of one substitution script: session id, path, script *)
  ExecSubst : string -> list string -> string -> option error;
  (** union.NewNode(candidate, running, schema) and its methods; Set and
      Delete work in place: they return the candidate tree they leave *)
  u_Set : option data -> data -> ModelSet -> UnionAuther -> list string ->
          data * option error;
  u_Delete : option data -> data -> ModelSet -> UnionAuther -> list string ->
             auth_check -> data * option error;
  u_Exists : option data -> data -> ModelSet -> UnionAuther -> list string -> option error;
  u_IsDefault : option data -> data -> ModelSet -> UnionAuther -> list string ->
                bool * option error;
  u_Get : option data -> data -> ModelSet -> UnionAuther -> list string ->
          list string * option error;
  u_GetHelp : option data -> data -> ModelSet -> UnionAuther -> bool -> list string ->
              list (string * string);
  u_Show : option data -> data -> ModelSet -> list string -> list union_option ->
           string * option error;
  u_Merge : option data -> data -> ModelSet -> data;
  u_MergeWithoutDefaults : option data -> data -> ModelSet -> data;
  u_SortedChildren : option data -> data -> ModelSet -> list utree;
  (** the union.Node returned by Descendant *)
  UNode : Type;
  u_Descendant : option data -> data -> ModelSet -> UnionAuther -> list string ->
                 option UNode * option error;
  un_Merge : UNode -> data;
  (** load.Load / load.LoadFile: file name, contents when a reader is given *)
  load_Load : string -> option string -> ModelSet ->
              (data + error) * list error;
  (** union.NewUnmarshaller(enc).Unmarshal *)
  um_Unmarshal : string -> ModelSet -> string -> list utree + error;
  (** diff.Node *)
  DiffNode : Type;
  diff_NewNode : option data -> option data -> option snode -> option DiffNode;
  dn_Descendant : DiffNode -> list string -> option DiffNode;
  dn_kind : DiffNode -> node_kind;
  dn_Parent : DiffNode -> option DiffNode;
  dn_Deleted : DiffNode -> bool;
  dn_Added : DiffNode -> bool;
  dn_Changed : DiffNode -> bool
}.

Arguments u_Set {_} _ _ _ _ _.
