(* ===== verification/Configd.v ===== *)
(** [configd.go]: lock identities, the per-connection context every handler
    receives, and membership of the secrets group. *)

From S2P Require Import Prelude GoLib Errors Rpc External.

Open Scope Z_scope.

(** [type LockId int32]: the two lock owners that are not process ids. *)
Definition COMMIT : Z := -1.
Definition SYSTEM : Z := -2.

Definition LockId_String (l : Z) : string :=
  if l =? COMMIT then "commit" else if l =? SYSTEM then "system" else "unknown".

(** [configd.Config]. *)
Record Config := {
  cf_User : string;
  cf_Runfile : string;
  cf_Logfile : string;
  cf_Pidfile : string;
  cf_Yangdir : string;
  cf_Socket : string;
  cf_SecretsGroup : string;
  cf_SuperGroup : string;
  cf_Capabilities : string
}.

(** [configd.Context] without its loggers and component manager. *)
Record Context := {
  Configd : bool;
  cx_Auth : Auth;
  Pid : Z;            (** int32 *)
  Uid : Z;            (** uint32 *)
  User : string;
  UserHome : string;
  Groups : list string;
  Superuser : bool;
  cx_Config : Config;
  Noexec : bool
}.

Definition with_Configd (c : Context) (b : bool) : Context :=
  {| Configd := b; cx_Auth := cx_Auth c; Pid := Pid c; Uid := Uid c;
     User := User c; UserHome := UserHome c; Groups := Groups c;
     Superuser := Superuser c; cx_Config := cx_Config c; Noexec := Noexec c |}.

Definition RaisePrivileges (c : Context) : Context := with_Configd c true.
Definition DropPrivileges (c : Context) : Context := with_Configd c false.

Definition InSecretsGroup (ctx : Context) : bool :=
  Configd ctx
  || existsb (fun g => bool_decide (g = cf_SecretsGroup (cx_Config ctx))) (Groups ctx).
