(* ===== verification/LogLevel.v ===== *)
(** [common/configd_log.go]: the debug settings of the daemon, one entry per
    log type, read on every commit and changed at run time by the
    [SetConfigDebug] RPC.  The settings map is the state; a handler returns the
    new map beside its two Go results. *)

From S2P Require Import Prelude GoLib Errors.

Open Scope Z_scope.

(** ** Data *)

(** [type LogLevel int]: least to most verbose. *)
Definition LevelNone : Z := 0.
Definition LevelError : Z := 1.
Definition LevelDebug : Z := 2.
Definition LevelLast : Z := 3.

(** [type LogType int]. *)
Definition TypeNone : Z := 0.
Definition TypeCommit : Z := 1.
Definition TypeState : Z := 2.
Definition TypeMust : Z := 3.
Definition TypeLast : Z := 4.

(** [type ValueType int]. *)
Inductive ValueType := StringVal | IntVal.

#[export] Instance ValueType_eq_dec : EqDecision ValueType.
Proof. solve_decision. Defined.

Record cfgDebugSetting := Setting { valType : ValueType; level : Z; value : Z }.

(** The zero value a lookup of a missing key yields in Go. *)
Definition zeroSetting : cfgDebugSetting := Setting StringVal 0 0.

Abbreviation Settings := (gmap Z cfgDebugSetting).

Definition setting_of (m : Settings) (t : Z) : cfgDebugSetting :=
  default zeroSetting (m !! t).

(** The initial value of the package variable [cfgDebugSettings]. *)
Definition cfgDebugSettings : Settings :=
  <[TypeNone := Setting StringVal LevelNone 0]>
  (<[TypeCommit := Setting StringVal LevelError 0]>
  (<[TypeState := Setting StringVal LevelNone 0]>
  (<[TypeMust := Setting IntVal LevelNone 0]> ∅))).

(** ** Names *)

Definition MapLevelNameToLevel (l : string) : Z + error :=
  let s := ToLower l in
  if bool_decide (s = "debug") then inl LevelDebug
  else if bool_decide (s = "error") then inl LevelError
  else if bool_decide (s = "none") then inl LevelNone
  else inr (EGo ("LogLevel '" +:+ l +:+ "' not recognised. Use <none|error|debug>.")).

Definition MapLogLevelToName (l : Z) : string :=
  if l =? LevelDebug then "debug"
  else if l =? LevelError then "error"
  else "none".

Definition MapLogNameToType (name : string) : Z + error :=
  let s := ToLower name in
  if bool_decide (s = "commit") then inl TypeCommit
  else if bool_decide (s = "state") then inl TypeState
  else if bool_decide (s = "must") then inl TypeMust
  else inr (EGo ("LogType '" +:+ name +:+ "' not recognised. Use <validate|commit|state>.")).

Definition MapLogTypeToName (t : Z) : string :=
  if t =? TypeCommit then "commit"
  else if t =? TypeState then "state"
  else if t =? TypeMust then "must"
  else "none".

(** ** Queries *)

Definition LoggingIsEnabledAtLevel (m : Settings) (lvl logType : Z) : bool :=
  if (TypeLast <=? logType) || (LevelLast <=? lvl) then false
  else lvl <=? level (setting_of m logType).

Definition LoggingValueAndStatus (m : Settings) (logType : Z) : Z * bool :=
  if TypeLast <=? logType then (0, false)
  else match valType (setting_of m logType) with
       | StringVal => (0, false)
       | IntVal => (value (setting_of m logType),
                    negb (level (setting_of m logType) =? LevelNone))
       end.

(** ** The status text and the setter

    Go ranges over the map in an unspecified order: [range] enumerates it. *)
Section Setter.
Variable range : Settings -> list (Z * cfgDebugSetting).

(** [fmt.Sprintf("%-8s")]. *)
Definition pad8 (s : string) : string := s +:+ Repeat " " (8 - String.length s).

Definition CurrentLogStatus (m : Settings) : string :=
  nl +:+ "Current Debug Status:" +:+ nl +:+ nl +:+
  String.concat "" (map (fun '(t, s) =>
    if t =? TypeNone then ""
    else pad8 (MapLogTypeToName t) +:+ tab +:+
         match valType s with
         | StringVal => MapLogLevelToName (level s)
         | IntVal => Itoa (value s)
         end +:+ nl) (range m))
  +:+ nl +:+ "Valid levels: none, error, debug" +:+ nl.

Definition SetConfigDebug (logName levelOrValue : string) (m : Settings)
  : (string * option error) * Settings :=
  if bool_decide (logName = "") && bool_decide (levelOrValue = "")
  then ((CurrentLogStatus m, None), m)
  else
    match MapLogNameToType logName with
    | inr (EGo te) =>
        ((CurrentLogStatus m, Some (EGo (te +:+ nl +:+ CurrentLogStatus m))), m)
    | inr e => ((CurrentLogStatus m, Some e), m)
    | inl logType =>
        match valType (setting_of m logType) with
        | StringVal =>
            match MapLevelNameToLevel levelOrValue with
            | inr (EGo le) =>
                ((CurrentLogStatus m, Some (EGo (le +:+ nl +:+ CurrentLogStatus m))), m)
            | inr e => ((CurrentLogStatus m, Some e), m)
            | inl logLevel =>
                let m' := <[logType := Setting StringVal logLevel 0]> m in
                ((CurrentLogStatus m', None), m')
            end
        | IntVal =>
            match Atoi levelOrValue with
            | Some v =>
                if v <? 0 then
                  ((CurrentLogStatus m, Some (EGo ("Use +ve integer value for " +:+
                     logName +:+ " (0 = disable)" +:+ nl +:+ CurrentLogStatus m))), m)
                else
                  let newLevel := if v =? 0 then LevelNone else LevelDebug in
                  let m' := <[logType := Setting IntVal newLevel v]> m in
                  ((CurrentLogStatus m', None), m')
            | None =>
                ((CurrentLogStatus m, Some (EGo ("Use +ve integer value for " +:+
                   logName +:+ " (0 = disable)" +:+ nl +:+ CurrentLogStatus m))), m)
            end
        end
    end.
End Setter.

(** ** Well-formed settings *)

(** Every entry keeps the kind of its log type, a level in range and a
    non-negative value; the integer setting is enabled exactly when its value
    is not zero. *)
Definition wf_setting (t : Z) (s : cfgDebugSetting) : Prop :=
  (TypeNone <= t < TypeLast) /\
  (LevelNone <= level s < LevelLast) /\
  match valType s with
  | StringVal => t <> TypeMust /\ value s = 0
  | IntVal => t = TypeMust /\ 0 <= value s /\ (level s = LevelNone <-> value s = 0)
  end.

Definition wf_settings (m : Settings) : Prop :=
  dom m = {[TypeNone; TypeCommit; TypeState; TypeMust]} /\
  map_Forall wf_setting m.

(** A name the setter accepts for a log type, in any case. *)
Definition names_type (name : string) (t : Z) : Prop := MapLogNameToType name = inl t.

(** ** Lemmas *)

Lemma cfgDebugSettings_wf : wf_settings cfgDebugSettings.
Proof.
  split; [reflexivity|].
  repeat (apply map_Forall_insert_2; [unfold wf_setting; cbn; unfold_leibniz|]);
    repeat split; (lia || done).
Qed.

Lemma wf_setting_of m t :
  wf_settings m -> t ∈ ({[TypeNone; TypeCommit; TypeState; TypeMust]} : gset Z) ->
  wf_setting t (setting_of m t).
Proof.
  intros [Hd Hm] Ht. rewrite <- Hd in Ht. apply elem_of_dom in Ht as [s Hs].
  unfold setting_of. rewrite Hs. by apply Hm.
Qed.

Lemma MapLogNameToType_range name t :
  MapLogNameToType name = inl t -> t = TypeCommit \/ t = TypeState \/ t = TypeMust.
Proof. unfold MapLogNameToType. repeat case_match; intros [= <-]; auto. Qed.

Lemma MapLevelNameToLevel_range name l :
  MapLevelNameToLevel name = inl l -> LevelNone <= l < LevelLast.
Proof.
  unfold MapLevelNameToLevel, LevelNone, LevelLast, LevelDebug, LevelError.
  repeat case_match; intros [= <-]; lia.
Qed.

Lemma wf_settings_insert m t s :
  wf_settings m -> t ∈ ({[TypeNone; TypeCommit; TypeState; TypeMust]} : gset Z) ->
  wf_setting t s -> wf_settings (<[t := s]> m).
Proof.
  intros [Hd Hm] Ht Hs. split.
  - rewrite dom_insert_L, Hd. by apply subseteq_union_1_L, singleton_subseteq_l.
  - by apply map_Forall_insert_2.
Qed.

Lemma MapLogNameToType_dom name t :
  MapLogNameToType name = inl t ->
  t ∈ ({[TypeNone; TypeCommit; TypeState; TypeMust]} : gset Z).
Proof. intros H. apply MapLogNameToType_range in H as [-> | [-> | ->]]; by apply (bool_decide_unpack _). Qed.

Lemma setting_of_insert m t s t' :
  setting_of (<[t := s]> m) t' = if decide (t = t') then s else setting_of m t'.
Proof. unfold setting_of. rewrite lookup_insert. by case_decide. Qed.

(** ** Properties *)

(** The debug settings stay well formed: whatever name and value an
    operator sends, every setting keeps its kind, a level in range and a
    non-negative value, and the integer setting is enabled exactly when its
    value is not zero. *)
Theorem SetConfigDebug_wf range name v m :
  wf_settings m -> wf_settings (SetConfigDebug range name v m).2.
Proof.
  intros Hm. unfold SetConfigDebug. case_match; [done|].
  destruct (MapLogNameToType name) as [t|e] eqn:Ht; [|by destruct e].
  pose proof (MapLogNameToType_dom _ _ Ht) as Hin.
  destruct (wf_setting_of m t Hm Hin) as (Ht' & Hl & Hk).
  destruct (valType (setting_of m t)).
  - destruct (MapLevelNameToLevel v) as [l|e] eqn:Hv; [|by destruct e].
    apply wf_settings_insert; [done..|]. apply MapLevelNameToLevel_range in Hv.
    repeat split; cbn; (lia || apply Hk || done).
  - destruct (Atoi v) as [n|]; [|done]. destruct (n <? 0) eqn:Hn; [done|].
    apply wf_settings_insert; [done..|].
    unfold wf_setting, LevelNone, LevelDebug, LevelLast in *; cbn.
    destruct (n =? 0) eqn:E; repeat split; try lia; apply Hk.
Qed.

Lemma SetConfigDebug_wf_witness :
  wf_settings cfgDebugSettings /\
  wf_settings (SetConfigDebug map_to_list "must" "250" cfgDebugSettings).2.
Proof.
  split; [exact cfgDebugSettings_wf|].
  exact (SetConfigDebug_wf map_to_list "must" "250" _ cfgDebugSettings_wf).
Defined.

(** What the setter does.  An error leaves the settings alone; a request
    with a name and no error changes the setting of the named type and no other,
    a level name sets exactly the levels reported enabled, and an integer sets
    the value reported by [LoggingValueAndStatus], enabled iff it is not zero. *)
Theorem SetConfigDebug_effect range name v m out e m' :
  wf_settings m ->
  SetConfigDebug range name v m = ((out, e), m') ->
  match e with
  | Some _ => m' = m
  | None =>
      (name = "" /\ v = "" /\ m' = m) \/
      exists t, names_type name t /\
        (forall t', t' <> t -> setting_of m' t' = setting_of m t') /\
        if decide (t = TypeMust)
        then exists n, Atoi v = Some n /\ 0 <= n /\
               LoggingValueAndStatus m' t = (n, negb (n =? 0))
        else exists l, MapLevelNameToLevel v = inl l /\
               forall lvl, lvl < LevelLast ->
                 LoggingIsEnabledAtLevel m' lvl t = (lvl <=? l)
  end.
Proof.
  intros Hm. unfold SetConfigDebug.
  destruct (bool_decide (name = "") && bool_decide (v = "")) eqn:Hn.
  { intros [= <- <- <-]. left.
    apply andb_true_iff in Hn as [->%bool_decide_eq_true ->%bool_decide_eq_true]. done. }
  destruct (MapLogNameToType name) as [t|te] eqn:Ht;
    [|by destruct te; intros [= <- <- <-]].
  pose proof (MapLogNameToType_dom _ _ Ht) as Hin.
  pose proof (MapLogNameToType_range _ _ Ht) as Hr.
  destruct (wf_setting_of m t Hm Hin) as (Ht' & Hl & Hk).
  assert (Hlast : (TypeLast <=? t) = false)
    by (unfold TypeLast, TypeNone in *; lia).
  destruct (valType (setting_of m t)).
  - destruct (MapLevelNameToLevel v) as [l|le] eqn:Hv;
      [|by destruct le; intros [= <- <- <-]].
    intros [= <- <- <-]. right. exists t. split; [done|]. split.
    { intros t' Hne. rewrite setting_of_insert. apply decide_False. congruence. }
    rewrite decide_False by apply Hk. exists l. split; [done|]. intros lvl Hlvl.
    unfold LoggingIsEnabledAtLevel. rewrite setting_of_insert, decide_True by done.
    rewrite Hlast. by replace (LevelLast <=? lvl) with false by lia.
  - destruct (Atoi v) as [n|] eqn:Hv; [|by intros [= <- <- <-]].
    destruct (n <? 0) eqn:Hneg; [by intros [= <- <- <-]|].
    intros [= <- <- <-]. right. exists t. split; [done|]. split.
    { intros t' Hne. rewrite setting_of_insert. apply decide_False. congruence. }
    rewrite decide_True by apply Hk. exists n. repeat split; [lia|].
    unfold LoggingValueAndStatus. rewrite Hlast, setting_of_insert, decide_True by done.
    cbn. by destruct (n =? 0).
Qed.

Lemma SetConfigDebug_effect_witness :
  SetConfigDebug map_to_list "COMMIT" "Debug" cfgDebugSettings =
    ((CurrentLogStatus map_to_list
        (<[TypeCommit := Setting StringVal LevelDebug 0]> cfgDebugSettings), None),
     <[TypeCommit := Setting StringVal LevelDebug 0]> cfgDebugSettings) /\
  exists t, names_type "COMMIT" t.
Proof.
  split; [reflexivity|].
  pose proof (SetConfigDebug_effect map_to_list "COMMIT" "Debug" cfgDebugSettings _ _ _
    cfgDebugSettings_wf eq_refl) as [(H & _) | (t & Ht & _)]; [discriminate H|by exists t].
Defined.
