(* ===== verification/Sample.v ===== *)
(** A concrete instance of the external packages: configuration trees as lists
    of paths over a small schema.  It only serves to evaluate the model on
    concrete inputs and to show that the hypotheses of the theorems can hold;
    nothing is proved about it. *)

From S2P Require Import Prelude GoLib Errors Rpc External Configd.

Module Sample.

(** ** A schema: system { host-name; login { user <name> { level } } } and a
    container with presence. *)
Definition leaf (name : string) : snode :=
  SNode KLeaf name "urn:s" true TOther [] "" [] [] [].
Definition container (name : string) (presence : bool) (chs : list snode) : snode :=
  SNode KContainer name "urn:s" presence TOther [] "" [] chs [].
Definition list_node (name key : string) (chs : list snode) : snode :=
  SNode KList name "urn:s" true TOther [key] "" [] (leaf key :: chs) [].

Definition root : snode :=
  SNode KTree "root" "" false TOther [] "" []
    [container "system" false
       [leaf "host-name"; leaf "domain-name";
        container "login" false [list_node "user" "name" [leaf "level"; leaf "full-name"]]];
     container "service" true [leaf "port"]] [].

Definition child (n : snode) (x : string) : option snode :=
  match sn_kind n with
  | KList => Some (SNode KListEntry x (sn_namespace n) true TOther (sn_keys n) "" []
                     (sn_children n) [])
  | KLeaf | KLeafList => Some (SNode KLeafValue x (sn_namespace n) true TOther [] "" [] [] [])
  | KLeafValue => None
  | _ => find (fun c => bool_decide (sn_name c = x)) (sn_children n)
  end.

Fixpoint descend (n : snode) (p : list string) : option snode :=
  match p with
  | [] => Some n
  | x :: p' => match child n x with Some c => descend c p' | None => None end
  end.

(** The root of a model set is a tree; a list without keys is no schema. *)
Definition as_tree (n : snode) : snode :=
  SNode KTree (sn_name n) (sn_namespace n) (sn_presence n) (sn_type n) (sn_keys n) (sn_help n)
    (sn_subst n) (sn_children n) (sn_choices n).
Definition keyed (n : snode) : bool :=
  negb (bool_decide (sn_kind n = KList)) || negb (bool_decide (sn_keys n = [])).
Definition descendant (n : snode) (p : list string) : option snode :=
  match descend (as_tree n) p with
  | Some c => if keyed c then Some c else None
  | None => None
  end.

(** ** Trees as lists of paths *)

Definition is_prefix (p q : list string) : bool := bool_decide (p = take (length p) q).
Definition has (d : list (list string)) (p : list string) : bool :=
  bool_decide (p = []) || existsb (is_prefix p) d.
Definition trees (c : option (list (list string))) (r : list (list string)) :=
  default [] c ++ r.

Fixpoint chain (n : snode) (p : list string) : list utree :=
  match p with
  | [] => []
  | x :: p' =>
      [UT x (child n x) false
         (match child n x with Some c => chain c p' | None => [] end)]
  end.

#[export] Instance lib : ConfigLib := {|
  data := list (list string);
  data_New _ := [];
  data_NumChildren d := Z.of_nat (length d);
  ModelSet := snode;
  ms_node := as_tree;
  Makepath s := filter (fun x => x <> "") (Split s "/"%char);
  Pathstr l := String.concat "" (map (fun x => "/" +:+ x) l);
  CopyAppend l x := l ++ [x];
  AttrsForPath _ p := Some (map (fun _ => {| Secret := false |}) p);
  Descendant := descendant;
  SchemaChild := child;
  Child n x := find (fun c => bool_decide (sn_name c = x)) (sn_children n);
  PathDescendant := descendant;
  NormalizePath _ p := inl p;
  Validate n _ _ incomplete p :=
    match descend n p with Some _ => None | None => Some (EGo "invalid path") end;
  ExecSubst _ _ _ := None;
  u_Set c r _ _ p := (p :: default [] c, None);
  u_Delete c r _ _ p _ := (filter (fun q => is_prefix p q = false) (default [] c), None);
  u_Exists c r _ _ p := if has (trees c r) p then None else Some (EGo "no such node");
  u_IsDefault _ _ _ _ _ := (false, None);
  u_Get c r _ _ p := ([], None);
  u_GetHelp _ _ _ _ _ _ := [];
  u_Show c r _ p _ := (Join (map (fun q => Join q " ") (trees c r)) nl, None);
  u_Merge c r _ := trees c r;
  u_MergeWithoutDefaults c r _ := trees c r;
  u_SortedChildren c r n := flat_map (chain n) (trees c r);
  UNode := list (list string);
  u_Descendant c r _ _ p :=
    if has (trees c r) p then (Some (trees c r), None) else (None, Some (EGo "no such node"));
  un_Merge d := d;
  load_Load f _ _ := (inl [filter (fun x => x <> "") (Split f "/"%char)], []);
  um_Unmarshal _ n s := inl (chain n (filter (fun x => x <> "") (Split s "/"%char)));
  DiffNode := list (list string);
  diff_NewNode c r _ := Some (trees c (default [] r));
  dn_Descendant d p := if has d p then Some d else None;
  dn_kind _ := KContainer;
  dn_Parent _ := None;
  dn_Deleted _ := false;
  dn_Added _ := true;
  dn_Changed _ := true
|}.

Lemma descendant_keyed n p sch : descendant n p = Some sch -> sn_kind sch = KList -> sn_keys sch <> [].
Proof.
  unfold descendant. destruct (descend _ p) as [c|]; [|done]. destruct (keyed c) eqn:Ek; [|done].
  intros [= <-] Hk Hn. unfold keyed in Ek. by rewrite !bool_decide_true in Ek.
Qed.
Lemma descendant_root n : descendant n [] <> None.
Proof. done. Qed.

(** An access-control service that allows everything but reading the secrets
    of others, and one that denies everything. *)
Definition allow : Auth := {|
  AuthorizeRead _ _ _ _ := true; AuthorizeCreate _ _ _ _ := true;
  AuthorizeUpdate _ _ _ _ := true; AuthorizeDelete _ _ _ _ := true;
  AuthorizePath _ _ _ _ _ := true; AuthorizeCommand _ _ _ _ := true;
  AuthorizeFn _ _ _ := true; AuthorizeRPC _ _ _ _ := true |}.
Definition deny : Auth := {|
  AuthorizeRead _ _ _ _ := false; AuthorizeCreate _ _ _ _ := false;
  AuthorizeUpdate _ _ _ _ := false; AuthorizeDelete _ _ _ _ := false;
  AuthorizePath _ _ _ _ _ := false; AuthorizeCommand _ _ _ _ := false;
  AuthorizeFn _ _ _ := false; AuthorizeRPC _ _ _ _ := false |}.

Definition config : Config :=
  {| cf_User := "configd"; cf_Runfile := "/run/configd/running.config"; cf_Logfile := "";
     cf_Pidfile := ""; cf_Yangdir := ""; cf_Socket := ""; cf_SecretsGroup := "secrets";
     cf_SuperGroup := ""; cf_Capabilities := "" |}.

(** The context of a client process. *)
Definition client (pid uid : Z) (a : Auth) : Context :=
  {| Configd := false; cx_Auth := a; Pid := pid; Uid := uid; User := "user";
     UserHome := "/home/user"; Groups := []; Superuser := false; cx_Config := config;
     Noexec := false |}.
End Sample.
