(* ===== verification/Session.v ===== *)
(** [session/session_internal.go], the state of one session and the handlers
    its goroutine runs to serve a request (the handlers that involve the commit
    manager are in SessionServer.v, the load handlers in Load.v, the NETCONF
    edit-config handlers in EditConfig.v).

    A session is served by one goroutine.  Some handlers start a second
    goroutine (a schema validation that may run scripts, a substitution, a
    commit) and meanwhile keep serving other requests from the same channel: at
    such a point every other request may run.  A handler is a function on
    [hst]: the shared [world] and, for each of its waiting points in turn, what
    the requests served there do to the world ([h_blk]).  SessionServer.v builds
    these from trees of requests; the handlers do not look inside. *)

From S2P Require Import Prelude GoLib Errors Rpc External Configd LogLevel Sample.

Open Scope Z_scope.

Section Session.
Context {L : ConfigLib}.

(** ** State *)

(** [type session struct], without its channels. *)
Record session := Session {
  s_sid : string;
  s_owner : option Z;      (** [owner *uint32]; nil for a shared session *)
  s_lpid : Z;              (** [lpid int32]: 0 unlocked, else the lock owner *)
  s_saved : bool;
  s_candidate : data;      (** the tree [candidate] points to *)
  s_retired : list data;   (** the trees it pointed to before, oldest first *)
  s_schema : ModelSet;
  s_schemaFull : ModelSet
}.

(** [type CommitMgr struct] and the [inCommit] variable of its [run]. *)
Record cmgr := CMgr {
  cm_running : data;
  cm_effective : option session;
  cm_schema : ModelSet;
  cm_hadcommit : bool;
  cm_inCommit : bool
}.

(** Effects on the outside, in the order they happen. *)
Inductive event :=
  | EvAcctStart (cmd : list string) (attrs : option PathAttrs)
  | EvAcctStop (cmd : list string) (err : option error)
  | EvHooks (dir : string) (env : list string)
  | EvComponentsSetRunning
  | EvNotify
  | EvStoreRunning (d : data)
  (** what got into the running file, and the error *)
  | EvWriteRunning (file : string) (out : string * option error).

Record world := World {
  w_sess : session;
  w_cm : cmgr;
  w_log : Settings;        (** [common.cfgDebugSettings] *)
  w_rodisk : bool;         (** [syscall.Access("/", O_RDWR)] fails with EROFS *)
  w_trace : list event     (** most recent first *)
}.

Record hst := Hst {
  h_world : world;
  h_blk : list (option DiffNode -> world -> option world)
}.

Definition set_sess (s : session) (w : world) : world :=
  World s (w_cm w) (w_log w) (w_rodisk w) (w_trace w).
Definition set_cm (c : cmgr) (w : world) : world :=
  World (w_sess w) c (w_log w) (w_rodisk w) (w_trace w).
Definition add_event (e : event) (w : world) : world :=
  World (w_sess w) (w_cm w) (w_log w) (w_rodisk w) (e :: w_trace w).

(** An in-place change of the candidate tree. *)
Definition set_candidate (d : data) (s : session) : session :=
  Session (s_sid s) (s_owner s) (s_lpid s) (s_saved s) d (s_retired s)
    (s_schema s) (s_schemaFull s).
(** [s.candidate = d]: the field points to another tree, the old one stays for
    whoever still holds a pointer to it. *)
Definition replace_candidate (d : data) (s : session) : session :=
  Session (s_sid s) (s_owner s) (s_lpid s) (s_saved s) d (s_retired s ++ [s_candidate s])
    (s_schema s) (s_schemaFull s).
Definition set_lpid (p : Z) (s : session) : session :=
  Session (s_sid s) (s_owner s) p (s_saved s) (s_candidate s) (s_retired s)
    (s_schema s) (s_schemaFull s).
Definition set_saved (b : bool) (s : session) : session :=
  Session (s_sid s) (s_owner s) (s_lpid s) b (s_candidate s) (s_retired s)
    (s_schema s) (s_schemaFull s).

(** The pointer value of [s.candidate], and the tree behind such a pointer. *)
Definition candidate_ptr (s : session) : nat := length (s_retired s).
Definition tree_at (p : nat) (s : session) : data :=
  match s_retired s !! p with Some d => d | None => s_candidate s end.

(** [NewSession] with its [WithOwner] option. *)
Definition NewSession (sid : string) (st stFull : ModelSet) (owner : option Z) : session :=
  Session sid owner 0 false (data_New "root") [] st stFull.

Definition IsShared (s : session) : bool :=
  match s_owner s with None => true | Some _ => false end.
Definition OwnedBy (s : session) (uid : Z) : bool :=
  match s_owner s with None => false | Some o => o =? uid end.

(** ** Access to the state from a handler *)

Definition the_world : M hst world := gets h_world.
Definition sess : M hst session := gets (fun h => w_sess (h_world h)).
Definition on_world (f : world -> world) : M hst unit :=
  modify (fun h => Hst (f (h_world h)) (h_blk h)).
Definition on_sess (f : session -> session) : M hst unit :=
  on_world (fun w => set_sess (f (w_sess w)) w).
Definition emit (e : event) : M hst unit := on_world (add_event e).

(** A loop [select { case <-done: ...; case req := <-s.reqch: s.processreq(req, dc) }]:
    the requests served until the other goroutine is done. *)
Definition serve_while_waiting (dc : option DiffNode) : M hst unit := fun h =>
  match h_blk h with
  | [] => Some (tt, h)
  | b :: bs =>
      match b dc (h_world h) with
      | Some w => Some (tt, Hst w bs)
      | None => None
      end
  end.

(** ** Authorisation: [Auther] and its methods *)

Definition newAutherSec (s : session) (ctx : Context) (showSecrets : bool) : UnionAuther := {|
  AuthRead path :=
    let attrs := AttrsForPath (s_schemaFull s) path in
    Configd ctx || AuthorizeRead (cx_Auth ctx) (Uid ctx) (Groups ctx) path attrs;
  AuthCreate path :=
    let attrs := AttrsForPath (s_schemaFull s) path in
    Configd ctx || AuthorizeCreate (cx_Auth ctx) (Uid ctx) (Groups ctx) path attrs;
  AuthUpdate path :=
    let attrs := AttrsForPath (s_schemaFull s) path in
    Configd ctx || AuthorizeUpdate (cx_Auth ctx) (Uid ctx) (Groups ctx) path attrs;
  AuthDelete path :=
    let attrs := AttrsForPath (s_schemaFull s) path in
    Configd ctx || AuthorizeDelete (cx_Auth ctx) (Uid ctx) (Groups ctx) path attrs;
  AuthReadSecrets path := showSecrets || Configd ctx || InSecretsGroup ctx
|}.

Definition newAuther (s : session) (ctx : Context) : UnionAuther := newAutherSec s ctx false.
Definition newShowSecAuther (s : session) (ctx : Context) : UnionAuther := newAutherSec s ctx true.

(** ** Union trees *)

(** [union.NewNode(candidate, running, schema, nil, 0)]. *)
Record Union := NewNode { un_cand : option data; un_run : data; un_ms : ModelSet }.

Definition Running (c : cmgr) : data := cm_running c.

Definition getUnion (w : world) : Union :=
  NewNode (Some (s_candidate (w_sess w))) (Running (w_cm w)) (s_schema (w_sess w)).

Definition Merge (u : Union) : data := u_Merge (un_cand u) (un_run u) (un_ms u).
Definition MergeWithoutDefaults (u : Union) : data :=
  u_MergeWithoutDefaults (un_cand u) (un_run u) (un_ms u).

Definition getUnionFull (w : world) : Union :=
  NewNode (Some (Merge (getUnion w))) (data_New "state") (s_schemaFull (w_sess w)).

Definition getRunning (w : world) : data :=
  Merge (NewNode None (Running (w_cm w)) (s_schema (w_sess w))).

Definition mergetree (defaults : bool) : M hst data :=
  gets (fun h => if negb defaults then MergeWithoutDefaults (getUnion (h_world h))
                 else Merge (getUnion (h_world h))).

(** ** The session lock *)

Definition lock_owner_name (lpid : Z) : string :=
  if lpid <? 0 then LockId_String lpid else Itoa lpid.

Definition lock (pid : Z) (s : session) : (Z * option error) * session :=
  if s_lpid s =? 0 then ((pid, None), set_lpid pid s)
  else if s_lpid s =? pid then ((pid, Some (lockDenied (Itoa (s_lpid s)))), s)
  else if s_lpid s <? 0 then ((s_lpid s, Some (lockDenied (LockId_String (s_lpid s)))), s)
  else ((s_lpid s, Some (lockDenied (Itoa (s_lpid s)))), s).

Definition trylock (pid : Z) (s : session) : option error :=
  if s_lpid s =? 0 then None
  else if s_lpid s =? pid then None
  else if s_lpid s <? 0 then Some (lockDenied (LockId_String (s_lpid s)))
  else Some (lockDenied (Itoa (s_lpid s))).

Definition locked (s : session) : Z * option error := (s_lpid s, None).

Definition unlock (pid : Z) (s : session) : (Z * option error) * session :=
  if s_lpid s =? 0 then
    ((s_lpid s, Some (error_msg OperationFailedProtocol "session is not locked")), s)
  else if s_lpid s =? pid then ((pid, None), set_lpid 0 s)
  else if s_lpid s <? 0 then ((s_lpid s, Some (lockDenied (LockId_String (s_lpid s)))), s)
  else ((s_lpid s, Some (lockDenied (Itoa (s_lpid s)))), s).

(** Run a state function of the session as a handler. *)
Definition sess_op {A} (f : session -> A * session) : M hst A :=
  s <- sess ;; on_sess (fun s => snd (f s)) ;;; ret (fst (f s)).

(** ** Handlers *)

(** [existsInTree]: with [def] false a node that only has its default value
    does not exist. *)
Definition existsInTree (s : session) (ut : Union) (ctx : Context)
    (path : list string) (def : bool) : bool :=
  let sauth := newAuther s ctx in
  let exists_ := bool_decide (u_Exists (un_cand ut) (un_run ut) (un_ms ut) sauth path = None) in
  if def then exists_
  else if negb (fst (u_IsDefault (un_cand ut) (un_run ut) (un_ms ut) sauth path))
       then exists_ else false.

Definition incompletePathIsValid := true.
Definition incompletePathIsInvalid := false.
Definition fullSchema := true.
Definition cfgSchemaOnly := false.

(** Validation runs in its own goroutine; requests are served meanwhile. *)
Definition validateSetPath (ctx : Context) (path : list string)
    (allowIncompletePaths useFullSchema : bool) : M hst (option error) :=
  s <- sess ;;
  serve_while_waiting None ;;;
  ret (Validate (if useFullSchema then s_schemaFull s else s_schema s)
         (s_sid s) (Noexec ctx) allowIncompletePaths path).

(** Run the substitution scripts until one fails. *)
Fixpoint run_substs (sid : string) (path subst : list string) : option error :=
  match subst with
  | [] => None
  | sub :: subst' =>
      match ExecSubst sid path sub with
      | Some e => Some e
      | None => run_substs sid path subst'
      end
  end.

(** [cerr := NewUnknownElementApplicationError(path[len(path)-1])] with the
    rest of the path; indexing an empty path panics. *)
Definition unknown_last (path : list string) : option error :=
  match last_opt path, init_opt path with
  | Some x, Some p => Some (error_path (UnknownElementApplication x) (Pathstr p))
  | _, _ => None
  end.

Definition _set (ctx : Context) (path : list string) : M hst (option error) :=
  err <- validateSetPath ctx path incompletePathIsInvalid cfgSchemaOnly ;;
  match err with
  | Some e => ret (Some e)
  | None =>
      s <- sess ;;
      match Descendant (s_schema s) path with
      | None =>
          match unknown_last path with
          | Some e => ret (Some e)
          | None => go_panic
          end
      | Some sch =>
          match sn_subst sch with
          | _ :: _ =>
              serve_while_waiting None ;;;
              ret (run_substs (s_sid s) path (sn_subst sch))
          | [] =>
              w <- the_world ;;
              let ut := getUnion w in
              let r := u_Set (un_cand ut) (un_run ut) (un_ms ut)
                         (newAuther (w_sess w) ctx) path in
              on_sess (set_candidate (fst r)) ;;;
              ret (snd r)
          end
      end
  end.

Definition set (ctx : Context) (path : list string) : M hst (option error) :=
  w <- the_world ;;
  let s := w_sess w in
  match trylock (Pid ctx) s with
  | Some e => ret (Some e)
  | None =>
      let sauth := newAuther s ctx in
      if existsInTree s (getUnion w) ctx path false then
        if negb (AuthUpdate sauth path) then ret (Some access_denied) else _set ctx path
      else
        if negb (AuthCreate sauth path) then ret (Some access_denied) else _set ctx path
  end.

(** [s.getUnion().Delete(auther, path, check)]. *)
Definition delete_path (ctx : Context) (path : list string) (check : auth_check)
  : M hst (option error) :=
  w <- the_world ;;
  let ut := getUnion w in
  let r := u_Delete (un_cand ut) (un_run ut) (un_ms ut)
             (newAuther (w_sess w) ctx) path check in
  on_sess (set_candidate (fst r)) ;;;
  ret (snd r).

Definition del (ctx : Context) (path : list string) : M hst (option error) :=
  s <- sess ;;
  match trylock (Pid ctx) s with
  | Some e => ret (Some e)
  | None => delete_path ctx path DontCheckAuth
  end.

Definition get (ctx : Context) (path : list string) : M hst (list string * option error) :=
  gets (fun h => let w := h_world h in let ut := getUnion w in
    u_Get (un_cand ut) (un_run ut) (un_ms ut) (newAuther (w_sess w) ctx) path).

(** A mapping to the node types of the external API. *)
Definition gettype (path : list string) : M hst (NodeType * option error) :=
  gets (fun h =>
    match Descendant (s_schema (w_sess (h_world h))) path with
    | Some sch =>
        match sn_kind sch with
        | KTree | KContainer => (CONTAINER, None)
        | KList => (LIST, None)
        | KListEntry => (CONTAINER, None)
        | KLeaf => (LEAF, None)
        | KLeafList => (LEAF_LIST, None)
        | KLeafValue => (LEAF, None)
        | _ => (CONTAINER, None)
        end
    | None => (CONTAINER, None)
    end).

(** The status of a node of the diff, as the old API clients expect it. *)
Definition diff_status (d : DiffNode) : NodeStatus :=
  let isLeafVal := bool_decide (dn_kind d = KLeafValue) in
  let parentIs k := match dn_Parent d with
                    | Some p => bool_decide (dn_kind p = k)
                    | None => false
                    end in
  let parentChanged := match dn_Parent d with
                       | Some p => dn_Changed p
                       | None => false
                       end in
  if dn_Deleted d then DELETED
  else if isLeafVal && parentIs KLeaf then CHANGED
  else if dn_Added d then ADDED
  else if dn_Changed d then CHANGED
  else if isLeafVal && parentIs KLeafList && parentChanged then CHANGED
  else UNCHANGED.

Definition getstatus (ctx : Context) (path : list string) (diffCache : option DiffNode)
  : M hst (NodeStatus * option error) :=
  gets (fun h =>
    let w := h_world h in
    let sauth := newAuther (w_sess w) ctx in
    match init_opt path with
    | None => (UNCHANGED, None)      (* the root is always unchanged *)
    | Some ppath =>
        let lookup d p :=
          match dn_Descendant d p with
          | Some dn => (diff_status dn, None)
          | None => (UNCHANGED, Some (NewNodeNotExistsError p))
          end in
        match diffCache with
        | Some d => lookup d path
        | None =>
            let ut := getUnion w in
            let candidate :=
              option_map un_Merge
                (fst (u_Descendant (un_cand ut) (un_run ut) (un_ms ut) sauth ppath)) in
            let running :=
              option_map un_Merge
                (fst (u_Descendant None (Running (w_cm w)) (s_schema (w_sess w)) sauth ppath)) in
            match diff_NewNode candidate running (Descendant (s_schema (w_sess w)) ppath) with
            | None => (UNCHANGED, Some (NewNodeNotExistsError ppath))
            | Some d => lookup d (drop (length path - 1) path)
            end
        end
    end).

Definition isdefault (ctx : Context) (path : list string) : M hst (bool * option error) :=
  gets (fun h =>
    match path with
    | [] => (false, None)
    | _ => let w := h_world h in let ut := getUnion w in
           u_IsDefault (un_cand ut) (un_run ut) (un_ms ut) (newAuther (w_sess w) ctx) path
    end).

(** Comparison of two paths, element by element. *)
Fixpoint pathsEqual_loop (first second : list string) : bool :=
  match first, second with
  | a :: first', b :: second' =>
      if bool_decide (a <> b) then false else pathsEqual_loop first' second'
  | _, _ => true
  end.
Definition pathsEqual (first second : list string) : bool :=
  if bool_decide (length first <> length second) then false
  else pathsEqual_loop first second.

(** [type TreeOpts]. *)
Record TreeOpts := { Defaults : bool; Secrets : bool; CouldExistIsAllowed : bool }.

(** A value of an RPC flags map: the booleans are the ones the options use. *)
Inductive flag_value := FBool (b : bool) | FOther.

Definition set_flag (opts : TreeOpts) (f : string * flag_value) : TreeOpts :=
  match f with
  | (_, FOther) => opts
  | (flag, FBool v) =>
      if bool_decide (flag = "Defaults") then
        {| Defaults := v; Secrets := Secrets opts; CouldExistIsAllowed := CouldExistIsAllowed opts |}
      else if bool_decide (flag = "Secrets") then
        {| Defaults := Defaults opts; Secrets := v; CouldExistIsAllowed := CouldExistIsAllowed opts |}
      else if bool_decide (flag = "CouldExist") then
        {| Defaults := Defaults opts; Secrets := Secrets opts; CouldExistIsAllowed := v |}
      else opts
  end.

(** [NewTreeOpts]: the flags in whatever order the map is ranged over. *)
Definition NewTreeOpts (flags : list (string * flag_value)) : TreeOpts :=
  fold_left set_flag flags {| Defaults := false; Secrets := false; CouldExistIsAllowed := false |}.

Definition AllowCouldExist (t : TreeOpts) : TreeOpts :=
  {| Defaults := Defaults t; Secrets := Secrets t; CouldExistIsAllowed := true |}.

Definition ToUnionOptions (t : TreeOpts) : list union_option :=
  (if Defaults t then [IncludeDefaults] else [])
  ++ (if negb (Secrets t) then [HideSecrets] else []).

(** [gettree]: the subtree at a path, nil when it could exist and that is
    allowed, an error otherwise. *)
Definition gettree (ctx : Context) (path : list string) (opts : TreeOpts)
  : M hst (option UNode * option error) :=
  w <- the_world ;;
  let ut := getUnion w in
  let sauth := newAuther (w_sess w) ctx in
  let not_there : M hst (option UNode * option error) :=
    match unknown_last path with
    | Some e => ret (None, Some e)
    | None => go_panic
    end in
  if negb (existsInTree (w_sess w) ut ctx path (Defaults opts)) then
    if CouldExistIsAllowed opts then
      err <- validateSetPath ctx path incompletePathIsValid cfgSchemaOnly ;;
      match err with
      | None => ret (None, None)
      | Some _ => not_there
      end
    else not_there
  else
    (* the union tree was created before, over the candidate as it was *)
    ret (u_Descendant (un_cand ut) (un_run ut) (un_ms ut) sauth path).

Definition marksaved (ctx : Context) (saved : bool) : M hst (option error) :=
  s <- sess ;;
  match trylock (Pid ctx) s with
  | Some e => ret (Some e)
  | None => on_sess (set_saved saved) ;;; ret None
  end.

Definition comment (ctx : Context) (path : list string) : M hst (option error) :=
  s <- sess ;; ret (trylock (Pid ctx) s).

(** The options [show] builds from its flags. *)
Definition show_options (s : session) (ctx : Context)
    (hideSecrets showDefaults forceShowSecrets : bool) : list union_option :=
  [Authorizer (newAuther s ctx)]
  ++ (if hideSecrets then [HideSecrets] else [])
  ++ (if showDefaults then [IncludeDefaults] else [])
  ++ (if forceShowSecrets then [ForceShowSecrets] else []).

Definition show (ctx : Context) (path : list string)
    (hideSecrets showDefaults forceShowSecrets : bool) : M hst (string * option error) :=
  gets (fun h =>
    let w := h_world h in let ut := getUnion w in
    match u_Show (un_cand ut) (un_run ut) (un_ms ut) path
            (show_options (w_sess w) ctx hideSecrets showDefaults forceShowSecrets) with
    | (_, Some e) => ("", Some e)
    | (out, None) => (out, None)
    end).

Definition discard (ctx : Context) : M hst (option error) :=
  s <- sess ;;
  match trylock (Pid ctx) s with
  | Some e => ret (Some e)
  | None => on_sess (replace_candidate (data_New "root")) ;;; ret None
  end.

Definition gethelp (ctx : Context) (fromSchema : bool) (path : list string)
  : M hst (list (string * string)) :=
  gets (fun h => let w := h_world h in let ut := getUnion w in
    u_GetHelp (un_cand ut) (un_run ut) (un_ms ut) (newAuther (w_sess w) ctx) fromSchema path).

(** [preCommitChecks]: a commit is refused on a read-only disk, unless nothing
    is running yet. *)
Definition preCommitChecks (w : world) : option error :=
  if w_rodisk w then
    if bool_decide (data_NumChildren (Running (w_cm w)) <> 0) then
      Some (error_msg OperationFailedProtocol "Commit blocked, disk is read-only")
    else None
  else None.
End Session.

(** ** Invariants of handlers

    [hinv I B]: the world satisfies [I] and what is served at each remaining
    waiting point satisfies [B]. *)
Section Invariants.
Context {L : ConfigLib}.

Abbreviation blk := (option DiffNode -> world -> option world).

Definition blk_preserves (I : world -> Prop) (b : blk) : Prop :=
  forall dc w w', I w -> b dc w = Some w' -> I w'.

Definition hinv (I : world -> Prop) (B : blk -> Prop) (h : hst) : Prop :=
  I (h_world h) /\ Forall B (h_blk h).

Lemma serve_while_waiting_inv I B dc :
  (forall b, B b -> blk_preserves I b) ->
  preserves (hinv I B) (serve_while_waiting dc).
Proof.
  intros HB [w bs] a h' [Hw Hbs]. unfold serve_while_waiting. cbn.
  destruct bs as [|b bs]; [by intros [= <- <-]|].
  apply Forall_cons in Hbs as [Hb Hbs].
  destruct (b dc w) as [w'|] eqn:E; [|discriminate].
  intros [= <- <-]. split; [|done]. by eapply HB.
Qed.

Lemma on_world_inv I B f : (forall w, I w -> I (f w)) -> preserves (hinv I B) (on_world f).
Proof. intros Hf. apply preserves_modify. intros h [Hw Hb]. split; cbn; auto. Qed.

Lemma on_sess_inv I B f :
  (forall w, I w -> I (set_sess (f (w_sess w)) w)) -> preserves (hinv I B) (on_sess f).
Proof. intros Hf. by apply on_world_inv. Qed.

Lemma sess_bind_inv {A} I B (k : session -> M hst A) :
  (forall w, I w -> preserves (hinv I B) (k (w_sess w))) ->
  preserves (hinv I B) (bind sess k).
Proof. intros Hk. apply preserves_gets_bind. intros h [Hw _]. by apply Hk. Qed.

Lemma the_world_bind_inv {A} I B (k : world -> M hst A) :
  (forall w, I w -> preserves (hinv I B) (k w)) ->
  preserves (hinv I B) (bind the_world k).
Proof. intros Hk. apply preserves_gets_bind. intros h [Hw _]. by apply Hk. Qed.

Lemma sess_inv I B : preserves (hinv I B) sess.
Proof. apply preserves_gets. Qed.
Lemma the_world_inv I B : preserves (hinv I B) the_world.
Proof. apply preserves_gets. Qed.

Lemma validateSetPath_inv I B ctx path a f :
  (forall b, B b -> blk_preserves I b) ->
  preserves (hinv I B) (validateSetPath ctx path a f).
Proof.
  intros HB. unfold validateSetPath.
  apply preserves_bind; [apply sess_inv|intros s].
  apply preserves_bind; [by apply serve_while_waiting_inv|intros _]. apply preserves_ret.
Qed.

(** [_set] changes nothing of the session but its candidate. *)
Lemma _set_inv I B ctx path :
  (forall b, B b -> blk_preserves I b) ->
  (forall w d, I w -> I (set_sess (set_candidate d (w_sess w)) w)) ->
  preserves (hinv I B) (_set ctx path).
Proof.
  intros HB HI. unfold _set.
  apply preserves_bind; [by apply validateSetPath_inv|intros [e|]; [apply preserves_ret|]].
  apply preserves_bind; [apply sess_inv|intros s].
  destruct (Descendant _ path) as [sch|].
  - destruct (sn_subst sch).
    + apply preserves_bind; [apply the_world_inv|intros w].
      apply preserves_bind; [|intros _; apply preserves_ret].
      apply on_sess_inv. intros w' Hw'. by apply HI.
    + apply preserves_bind; [by apply serve_while_waiting_inv|intros _]. apply preserves_ret.
  - destruct (unknown_last path); [apply preserves_ret|apply preserves_panic].
Qed.

Lemma set_inv I B ctx path :
  (forall b, B b -> blk_preserves I b) ->
  (forall w d, I w -> I (set_sess (set_candidate d (w_sess w)) w)) ->
  preserves (hinv I B) (set ctx path).
Proof.
  intros HB HI. unfold set. apply preserves_bind; [apply the_world_inv|intros w].
  repeat go_step; by apply _set_inv.
Qed.

Lemma delete_path_inv I B ctx path c :
  (forall w d, I w -> I (set_sess (set_candidate d (w_sess w)) w)) ->
  preserves (hinv I B) (delete_path ctx path c).
Proof.
  intros HI. unfold delete_path. apply preserves_bind; [apply the_world_inv|intros w].
  apply preserves_bind; [|intros _; apply preserves_ret].
  apply on_sess_inv. intros w' Hw'. by apply HI.
Qed.

Lemma del_inv I B ctx path :
  (forall w d, I w -> I (set_sess (set_candidate d (w_sess w)) w)) ->
  preserves (hinv I B) (del ctx path).
Proof.
  intros HI. unfold del. apply preserves_bind; [apply sess_inv|intros s].
  repeat go_step. by apply delete_path_inv.
Qed.

Lemma gettree_inv I B ctx path opts :
  (forall b, B b -> blk_preserves I b) ->
  preserves (hinv I B) (gettree ctx path opts).
Proof.
  intros HB. unfold gettree. apply preserves_bind; [apply the_world_inv|intros w].
  repeat go_step. by apply validateSetPath_inv.
Qed.

Lemma marksaved_inv I B ctx b :
  (forall w b, I w -> I (set_sess (set_saved b (w_sess w)) w)) ->
  preserves (hinv I B) (marksaved ctx b).
Proof.
  intros HI. unfold marksaved. apply preserves_bind; [apply sess_inv|intros s].
  repeat go_step. apply on_sess_inv. intros w Hw. by apply HI.
Qed.

Lemma discard_inv I B ctx :
  (forall w d, I w -> I (set_sess (replace_candidate d (w_sess w)) w)) ->
  preserves (hinv I B) (discard ctx).
Proof.
  intros HI. unfold discard. apply preserves_bind; [apply sess_inv|intros s].
  repeat go_step. apply on_sess_inv. intros w Hw. by apply HI.
Qed.

(** ** Handlers return

    A handler returns when what is served at its waiting points does, and its
    path is one Go can take the last element of.  What is served may rely on
    something of the commit manager ([ok]), which it then has to keep. *)

Definition blk_live (ok : world -> Prop) (b : blk) : Prop :=
  forall dc w, ok w -> exists w', b dc w = Some w' /\ ok w'.
Definition live (ok : world -> Prop) (h : hst) : Prop :=
  ok (h_world h) /\ Forall (blk_live ok) (h_blk h).
(** Nothing is relied on. *)
Definition hready : hst -> Prop := live (fun _ => True).

Section Live.
Context (ok : world -> Prop).
Hypothesis Hcm : forall w w', w_cm w = w_cm w' -> ok w -> ok w'.

Lemma live_same_cm h h' : w_cm (h_world h) = w_cm (h_world h') -> h_blk h = h_blk h' ->
  live ok h -> live ok h'.
Proof. intros Hw Hb [Ho Hl]. split; [by apply (Hcm (h_world h))|by rewrite <- Hb]. Qed.

Lemma serve_while_waiting_returns dc : returns (live ok) (serve_while_waiting dc).
Proof.
  intros [w bs] [Hw Hb]. cbn in Hw, Hb. destruct bs as [|b bs]; cbn.
  - by exists tt, (Hst w []).
  - apply Forall_cons in Hb as [Hb Hbs]. destruct (Hb dc w Hw) as (w' & -> & Hw').
    by exists tt, (Hst w' bs).
Qed.

Lemma on_world_returns f : (forall w, w_cm (f w) = w_cm w) -> returns (live ok) (on_world f).
Proof. intros Hf. apply returns_modify. intros h. apply live_same_cm; cbn; by rewrite ?Hf. Qed.
Lemma on_sess_returns f : returns (live ok) (on_sess f).
Proof. by apply on_world_returns. Qed.

Lemma validateSetPath_returns ctx path a f : returns (live ok) (validateSetPath ctx path a f).
Proof.
  unfold validateSetPath, sess. go_step; [apply returns_gets|].
  go_step; [apply serve_while_waiting_returns|apply returns_ret].
Qed.

Lemma unknown_last_Some path : path <> [] -> exists e, unknown_last path = Some e.
Proof.
  intros H. unfold unknown_last, last_opt, init_opt.
  destruct (last path) as [x|] eqn:E; [|by apply last_None in E].
  destruct path; [done|]. eauto.
Qed.

(** Go takes the last element of a path the schema does not have. *)
Definition nameable (path : list string) : Prop :=
  path = [] -> forall ms, Descendant ms [] <> None.
Lemma path_nameable path : path <> [] -> nameable path.
Proof. intros Hp E. by apply Hp in E. Qed.

Lemma _set_returns ctx path : nameable path -> returns (live ok) (_set ctx path).
Proof.
  intros Hp. unfold _set. go_step; [apply validateSetPath_returns|].
  go_step; [apply returns_ret|]. unfold sess at 1, the_world. go_step; [apply returns_gets|].
  destruct (Descendant (s_schema a0) path) as [sch|] eqn:Ed.
  - repeat first [apply serve_while_waiting_returns | apply on_sess_returns | go_step].
  - destruct (unknown_last_Some path) as [e ->]; [|apply returns_ret].
    intros ->. by apply (Hp eq_refl (s_schema a0)).
Qed.

Lemma set_returns ctx path : nameable path -> returns (live ok) (set ctx path).
Proof.
  intros Hp. unfold set, the_world. go_step; [apply returns_gets|]. cbv zeta.
  repeat first [by apply _set_returns | go_step].
Qed.

Lemma delete_path_returns ctx path c : returns (live ok) (delete_path ctx path c).
Proof.
  unfold delete_path, the_world. repeat first [apply on_sess_returns | go_step].
Qed.

Lemma del_returns ctx path : returns (live ok) (del ctx path).
Proof.
  unfold del, sess. go_step; [apply returns_gets|].
  repeat first [apply delete_path_returns | go_step].
Qed.
End Live.

(** ** The lock *)

Lemma trylock_None pid s : trylock pid s = None <-> s_lpid s = 0 \/ s_lpid s = pid.
Proof.
  unfold trylock. repeat case_match; split; intros H'; try done;
    rewrite ?Z.eqb_eq, ?Z.eqb_neq in *; tauto.
Qed.

Lemma trylock_foreign pid s :
  s_lpid s <> 0 -> s_lpid s <> pid ->
  exists e, trylock pid s = Some e /\ is_lock_denied e = true.
Proof.
  intros H0 Hp. destruct (trylock pid s) as [e|] eqn:E.
  - exists e. split; [done|]. revert E. unfold trylock.
    repeat case_match; intros [= <-]; done.
  - apply trylock_None in E. tauto.
Qed.

Lemma lock_free pid s : s_lpid s = 0 -> lock pid s = ((pid, None), set_lpid pid s).
Proof. intros H. unfold lock. by rewrite H. Qed.

Lemma lock_held pid s : s_lpid s <> 0 -> snd (lock pid s) = s /\ snd (fst (lock pid s)) <> None.
Proof.
  intros H. unfold lock. apply Z.eqb_neq in H. rewrite H.
  repeat case_match; done.
Qed.

Lemma unlock_own pid s : s_lpid s <> 0 -> s_lpid s = pid -> unlock pid s = ((pid, None), set_lpid 0 s).
Proof.
  intros H <-. unfold unlock. apply Z.eqb_neq in H. by rewrite H, Z.eqb_refl.
Qed.

Lemma unlock_foreign pid s :
  s_lpid s <> pid -> snd (unlock pid s) = s /\ snd (fst (unlock pid s)) <> None.
Proof.
  intros H. unfold unlock. apply Z.eqb_neq in H. rewrite H.
  repeat case_match; done.
Qed.

Lemma set_lpid_lpid p q s : set_lpid p (set_lpid q s) = set_lpid p s.
Proof. done. Qed.

Lemma set_lpid_id p s : s_lpid s = p -> set_lpid p s = s.
Proof. intros <-. by destruct s. Qed.

(** A client that does not hold a taken lock is refused, whatever it asks for. *)
Section Foreign.
Context (ctx : Context) (s : session).
Hypothesis Hlocked : s_lpid s <> 0.
Hypothesis Hforeign : s_lpid s <> Pid ctx.

Lemma set_foreign path h :
  w_sess (h_world h) = s ->
  exists e, set ctx path h = Some (Some e, h) /\ is_lock_denied e = true.
Proof.
  intros Hs. destruct (trylock_foreign (Pid ctx) s Hlocked Hforeign) as (e & He & Hd).
  exists e. split; [|done]. unfold set, bind, the_world, gets. by rewrite Hs, He.
Qed.

Lemma del_foreign path h :
  w_sess (h_world h) = s ->
  exists e, del ctx path h = Some (Some e, h) /\ is_lock_denied e = true.
Proof.
  intros Hs. destruct (trylock_foreign (Pid ctx) s Hlocked Hforeign) as (e & He & Hd).
  exists e. split; [|done]. unfold del, bind, sess, gets. by rewrite Hs, He.
Qed.

Lemma marksaved_foreign b h :
  w_sess (h_world h) = s ->
  exists e, marksaved ctx b h = Some (Some e, h) /\ is_lock_denied e = true.
Proof.
  intros Hs. destruct (trylock_foreign (Pid ctx) s Hlocked Hforeign) as (e & He & Hd).
  exists e. split; [|done]. unfold marksaved, bind, sess, gets. by rewrite Hs, He.
Qed.

Lemma discard_foreign h :
  w_sess (h_world h) = s ->
  exists e, discard ctx h = Some (Some e, h) /\ is_lock_denied e = true.
Proof.
  intros Hs. destruct (trylock_foreign (Pid ctx) s Hlocked Hforeign) as (e & He & Hd).
  exists e. split; [|done]. unfold discard, bind, sess, gets. by rewrite Hs, He.
Qed.
End Foreign.

(** ** Properties *)

(** A set is guarded: it does nothing at all unless the client may change
    the session (it is not locked by another) and is authorised, to update a
    node that exists with a value of its own, to create one that does not. *)
Theorem set_guarded ctx path h r h' :
  set ctx path h = Some (r, h') ->
  let s := w_sess (h_world h) in
  let authorised :=
    if existsInTree s (getUnion (h_world h)) ctx path false
    then AuthUpdate (newAuther s ctx) path else AuthCreate (newAuther s ctx) path in
  match trylock (Pid ctx) s with
  | Some e => r = Some e /\ h' = h
  | None => if authorised then _set ctx path h = Some (r, h')
            else r = Some access_denied /\ h' = h
  end.
Proof.
  intros H s authorised. unfold set in H. erewrite bind_eq in H by reflexivity. cbv zeta in H.
  fold s in H. destruct (trylock (Pid ctx) s); [by injection H as <- <-|].
  unfold authorised. destruct (existsInTree _ _ _ _ _).
  - destruct (AuthUpdate _ _); cbn [negb] in H; [exact H|by injection H as <- <-].
  - destruct (AuthCreate _ _); cbn [negb] in H; [exact H|by injection H as <- <-].
Qed.
End Invariants.

(** A concrete session, with a change in its candidate, and its world. *)
Definition sample_session (lpid : Z) : session :=
  Session (L := Sample.lib) "s1" (Some 1000) lpid false [["system"; "host-name"; "a"]] []
    Sample.root Sample.root.
Definition sample_effective : session :=
  Session (L := Sample.lib) "EFFECTIVE" None SYSTEM true [] [] Sample.root Sample.root.
Definition sample_world (lpid : Z) : world :=
  World (sample_session lpid)
    (CMgr (L := Sample.lib) [["service"]] (Some sample_effective) Sample.root false false)
    cfgDebugSettings false [].

(** The lock holder may set, but here access control denies it. *)
Lemma set_guarded_witness :
  set (Sample.client 10 1000 Sample.deny) ["service"] (Hst (sample_world 10) [])
    = Some (Some access_denied, Hst (sample_world 10) []) /\
  Some access_denied = Some access_denied /\ Hst (sample_world 10) [] = Hst (sample_world 10) [].
Proof.
  split; [reflexivity|].
  exact (set_guarded (Sample.client 10 1000 Sample.deny) ["service"] (Hst (sample_world 10) [])
    (Some access_denied) (Hst (sample_world 10) []) eq_refl).
Defined.
