(* ===== verification/StateTree.v ===== *)
(** [session/session_state.go] and [session.getfulltree]: the tree of
    configuration and operational state.  The state scripts of the nodes on the
    way to a path and below it are run and their output is merged into a copy
    of the configuration; the components add theirs; the result is validated
    and filtered.  The union tree that is filled is a mutable object of
    danos/config: its nodes are pointers and its contents a heap. *)

From S2P Require Import Prelude GoLib Errors Rpc External Configd LogLevel Sample Session.

Open Scope Z_scope.

(** ** What the code calls *)

Class StateLib {L : ConfigLib} := {
  FHeap : Type;
  FNode : Type;
  (** [getUnionFull] as a fresh mutable tree *)
  f_New : option data -> data -> ModelSet -> FNode * FHeap;
  f_Name : FNode -> string;
  f_Schema : FNode -> snode;
  f_StateChildren : FNode -> list string;
  f_Parent : FNode -> FNode;
  f_Child : FNode -> string -> FHeap -> option FNode;
  f_Children : FNode -> FHeap -> list FNode;
  f_AddChild : FNode -> string -> FHeap -> FHeap;
  f_GetStateJson : FNode -> list string -> FHeap -> list string * list error;
  f_UnmarshalJSON : FNode -> string -> FHeap -> FHeap * option string;
  json_Valid : string -> bool;
  TypeOf : snode -> string;
  (** the rfc7951 data tree, the components and the way back *)
  FTree : Type;
  ft_ToTree : FNode -> FHeap -> UnionAuther -> FTree + error;
  ComponentGetState : ModelSet -> FTree -> FTree + error;
  ft_Marshal : FTree -> string + error;
  ft_Unmarshal : ModelSet -> string -> Union + error;
  (** [ModelSet.FindOrWalk] with a visitor: found, continue *)
  FindOrWalk : ModelSet -> (snode -> list string -> bool * bool) -> option snode
}.

Section StateTree.
Context {L : ConfigLib} {SL : StateLib}.

(** ** Helpers *)

Definition isEmptyJson (jsonState : string) : bool :=
  let jsonStr := TrimSpace jsonState in
  bool_decide (jsonStr = "") || bool_decide (jsonStr = "{}").

Definition msgPadToLength : nat := 40.
Definition msgPad (msg : string) : string :=
  let msgLen := String.length msg in
  let padLen := if bool_decide (msgLen < msgPadToLength)%nat
                then (msgPadToLength - msgLen)%nat else O in
  msg +:+ ": " +:+ Repeat " " padLen.

Definition nodeFinder (toFind : list string) (targetNode : snode) (path : list string)
  : bool * bool :=
  if negb (pathsEqual (path ++ [sn_name targetNode]) toFind) then (false, true)
  else (true, true).

Definition pathCouldExist (ms : ModelSet) (path : list string) : bool :=
  bool_decide (FindOrWalk ms (nodeFinder path) <> None).

(** ** State scripts *)

(** One result of the scripts of a node. *)
Definition set_one_state (ut context : FNode) (path : list string) (v : string)
  : M FHeap (list error) :=
  if isEmptyJson v then ret []
  else if negb (json_Valid v) then
    ret [error_path_msg OperationFailedApplication (Pathstr path)
           ("Invalidly formatted data returned for (" +:+ TypeOf (f_Schema ut) +:+ ")"
            +:+ sn_name (f_Schema ut) +:+ ": " +:+ v)]
  else fun h =>
    let r := f_UnmarshalJSON context v h in
    Some (match snd r with
          | None => []
          | Some warn =>
              [error_path_msg OperationFailedApplication (Pathstr path)
                 ("Failed to process returned data for (" +:+ TypeOf (f_Schema ut) +:+ ")"
                  +:+ sn_name (f_Schema ut) +:+ ": " +:+ warn +:+ nl +:+ v)]
          end, fst r).

Definition setOperState (ut : FNode) (path : list string) : M FHeap (list error) :=
  let run (context : FNode) : M FHeap (list error) :=
    r <- gets (f_GetStateJson ut path) ;;
    ws <- forM (fst r) (set_one_state ut context path) ;;
    ret (snd r ++ concat ws) in
  match sn_kind (f_Schema ut) with
  | KLeaf | KLeafList => run (f_Parent ut)
  | KLeafValue | KListEntry => ret []
  | _ => run ut
  end.

Definition getOperChild (ut : FNode) (name : string) : M FHeap (option FNode) :=
  c <- gets (f_Child ut name) ;;
  match c with
  | Some child => ret (Some child)
  | None =>
      if elem_b name (f_StateChildren ut) then
        modify (f_AddChild ut name) ;;;
        gets (f_Child ut name)
      else ret None
  end.

(** The state-only children to create: those that have not run, but not the
    key of a list entry, and none on a list itself. *)
Definition state_only (ut : FNode) (has_run : list string) : list string :=
  match sn_kind (f_Schema ut) with
  | KList => []
  | _ =>
      filter (fun name =>
        (name ∉ has_run) /\
        ~ (sn_kind (f_Schema ut) = KListEntry /\ head (sn_keys (f_Schema ut)) = Some name))
        (f_StateChildren ut)
  end.

(** [setChildrenOperState], over the function that treats one child. *)
Definition set_children_state (all : FNode -> list string -> M FHeap (list error))
    (ut : FNode) (path : list string) : M FHeap (list error) :=
  children <- gets (f_Children ut) ;;
  w1 <- forM children (fun v => all v (path ++ [f_Name v])) ;;
  w2 <- forM (state_only ut (map f_Name children)) (fun name =>
    modify (f_AddChild ut name) ;;;
    c <- gets (f_Child ut name) ;;
    match c with
    | Some v => all v (path ++ [name])
    | None => go_panic              (* a method of a nil node *)
    end) ;;
  ret (concat w1 ++ concat w2).

(** The fuel bounds the depth of the tree. *)
Fixpoint setAllOperState (fuel : nat) (ut : FNode) (path : list string)
  : M FHeap (list error) :=
  match fuel with
  | O => go_panic
  | S fuel' =>
      warns <- setOperState ut path ;;
      ws <- set_children_state (setAllOperState fuel') ut path ;;
      ret (warns ++ ws)
  end.

Definition setChildrenOperState (fuel : nat) (ut : FNode) (path : list string)
  : M FHeap (list error) := set_children_state (setAllOperState fuel) ut path.

(** [addStateToTree]: walk to the node, running the scripts on the way. *)
Fixpoint addState_walk (fuel : nat) (ut : FNode) (current rest path : list string)
    (warns : list error) : M FHeap (option error * list error) :=
  match rest with
  | [] =>
      ws <- setChildrenOperState fuel ut path ;;
      ret (None, warns ++ ws)
  | p :: rest' =>
      c <- getOperChild ut p ;;
      match c with
      | None => ret (Some (error_path (UnknownElementApplication p) (Pathstr current)), warns)
      | Some ut' =>
          ws <- setOperState ut' (CopyAppend current (f_Name ut')) ;;
          addState_walk fuel ut' (current ++ [p]) rest' path (warns ++ ws)
      end
  end.

Definition addStateToTree (fuel : nat) (ut : FNode) (path : list string)
  : M FHeap (option error * list error) :=
  addState_walk fuel ut [] path path [].

(** ** [getfulltree] *)

Context (fuel : nat).

(** Steps 2 to 5, once the legacy scripts have run. *)
Definition finish_fulltree (s : session) (ctx : Context) (path : list string) (opts : TreeOpts)
    (ut : FNode) (heap : FHeap) (warns : list error)
  : option (option UNode * option error * list error) :=
  let sauth := newAuther s ctx in
  match ft_ToTree ut heap sauth with
  | inr e => Some (None, Some e, [])
  | inl ft =>
      match ComponentGetState (s_schemaFull s) ft with
      | inr e => Some (None, Some e, [])
      | inl ft =>
          match ft_Marshal ft with
          | inr e => Some (None, Some e, [])
          | inl d =>
              match ft_Unmarshal (s_schemaFull s) d with
              | inr e => Some (None, Some e, [])
              | inl ut =>
                  if negb (existsInTree s ut ctx path (Defaults opts)) then
                    if CouldExistIsAllowed opts && pathCouldExist (s_schemaFull s) path
                    then Some (None, None, warns)
                    else
                      (* the error for the last element is built, then dropped *)
                      match unknown_last path with
                      | Some _ => Some (None, None, warns)
                      | None => None
                      end
                  else
                    let r := u_Descendant (un_cand ut) (un_run ut) (un_ms ut) sauth path in
                    Some (fst r, snd r, warns)
              end
          end
      end
  end.

Definition getfulltree (ctx : Context) (path : list string) (opts : TreeOpts)
  : M hst (option UNode * option error * list error) :=
  w <- the_world ;;
  let u := getUnionFull w in
  let '(ut, heap) := f_New (un_cand u) (un_run u) (un_ms u) in
  match addStateToTree fuel ut path heap with
  | None => go_panic
  | Some ((err, warns), heap') =>
      serve_while_waiting None ;;;
      fail <- (match err with
               | Some _ =>
                   if CouldExistIsAllowed opts
                   then validateSetPath ctx path incompletePathIsValid fullSchema
                   else ret None
               | None => ret None
               end) ;;
      match fail, err with
      | Some _, Some e => ret (None, Some e, warns)
      | _, _ =>
          s <- sess ;;
          match finish_fulltree s ctx path opts ut heap' warns with
          | Some r => ret r
          | None => go_panic
          end
      end
  end.

(** ** Lemmas *)

Lemma getfulltree_inv I B ctx path opts :
  (forall b, B b -> blk_preserves I b) ->
  preserves (hinv I B) (getfulltree ctx path opts).
Proof.
  intros HB. unfold getfulltree. apply preserves_bind; [apply the_world_inv|intros w].
  cbv zeta. destruct (f_New _ _ _) as [ut heap].
  destruct (addStateToTree fuel ut path heap) as [[[err warns] heap']|]; [|apply preserves_panic].
  apply preserves_bind; [by apply serve_while_waiting_inv|intros _].
  apply preserves_bind.
  { destruct err; [|apply preserves_ret].
    destruct (CouldExistIsAllowed opts); [by apply validateSetPath_inv|apply preserves_ret]. }
  intros fail. repeat (go_step || apply sess_inv).
Qed.

(** A tree of bounded depth: the rank of a node bounds what is below it, in
    whatever state the tree is, and a child that was just added is there. *)
Section Depth.
Context (rank : FNode -> nat).
Hypothesis Hchildren : forall n h c, c ∈ f_Children n h -> (rank c < rank n)%nat.
Hypothesis Hadd : forall n name h, name ∈ f_StateChildren n ->
  exists c, f_Child n name (f_AddChild n name h) = Some c /\ (rank c < rank n)%nat.
Hypothesis Hchild : forall n name h c, f_Child n name h = Some c -> (rank c < rank n)%nat.

Abbreviation anyheap := (fun _ : FHeap => True).

Lemma set_one_state_returns ut context path v : returns anyheap (set_one_state ut context path v).
Proof.
  unfold set_one_state. go_step; [apply returns_ret|]. go_step; [apply returns_ret|].
  intros h _. eexists _, _. split; [reflexivity|done].
Qed.

Lemma setOperState_returns ut path : returns anyheap (setOperState ut path).
Proof.
  unfold setOperState. cbv zeta.
  destruct (sn_kind (f_Schema ut)); try apply returns_ret;
    (go_step; [apply returns_gets|];
     go_step; [apply returns_forM; intros; apply set_one_state_returns|apply returns_ret]).
Qed.

Lemma set_children_state_returns all ut path :
  (forall v p, (rank v < rank ut)%nat -> returns anyheap (all v p)) ->
  returns anyheap (set_children_state all ut path).
Proof.
  intros Hall h _. unfold set_children_state. erewrite bind_eq by reflexivity.
  assert (Hc : forall l, (forall c, c ∈ l -> (rank c < rank ut)%nat) ->
    returns anyheap (mapM_go (fun v => all v (path ++ [f_Name v])) l)).
  { intros l Hl. apply returns_forM. intros v Hv. apply Hall, Hl, Hv. }
  assert (Hgo : returns anyheap
    (w1 <- mapM_go (fun v => all v (path ++ [f_Name v])) (f_Children ut h) ;;
     w2 <- forM (state_only ut (map f_Name (f_Children ut h))) (fun name =>
       modify (f_AddChild ut name) ;;;
       c <- gets (f_Child ut name) ;;
       match c with Some v => all v (path ++ [name]) | None => go_panic end) ;;
     ret (concat w1 ++ concat w2))); [|by apply Hgo].
  go_step; [apply Hc; intros c; apply Hchildren|].
  go_step; [|apply returns_ret]. apply returns_forM. intros name Hname h' _.
  assert (Hin : name ∈ f_StateChildren ut).
  { unfold state_only in Hname. destruct (sn_kind (f_Schema ut)); try (by apply not_elem_of_nil in Hname);
      by apply list_elem_of_filter in Hname as [_ Hname]. }
  destruct (Hadd ut name h' Hin) as (c & Hc' & Hr).
  erewrite bind_eq by reflexivity. unfold gets. erewrite bind_eq by (by rewrite Hc').
  by apply Hall.
Qed.

Lemma setAllOperState_returns n : forall ut path,
  (rank ut < n)%nat -> returns anyheap (setAllOperState n ut path).
Proof.
  induction n as [|n IH]; intros ut path Hr; [lia|]. cbn [setAllOperState].
  go_step; [apply setOperState_returns|].
  go_step; [|apply returns_ret]. apply set_children_state_returns.
  intros v p Hv. apply IH. lia.
Qed.

Lemma getOperChild_run ut p h :
  (exists h', getOperChild ut p h = Some (None, h')) \/
  (exists c h', getOperChild ut p h = Some (Some c, h') /\ (rank c < rank ut)%nat).
Proof.
  unfold getOperChild. rewrite (bind_eq _ _ h _ h eq_refl).
  destruct (f_Child ut p h) as [c|] eqn:E; [right; exists c, h; eauto|].
  unfold elem_b. destruct (bool_decide_reflect (p ∈ f_StateChildren ut)) as [Hin|_]; [|left; by eexists].
  destruct (Hadd ut p h Hin) as (c & Hc & Hr). right. exists c, (f_AddChild ut p h).
  rewrite (bind_eq _ _ h tt (f_AddChild ut p h) eq_refl). unfold gets. by rewrite Hc.
Qed.

Lemma addState_walk_returns rest : forall ut current path warns,
  (rank ut <= fuel)%nat -> returns anyheap (addState_walk fuel ut current rest path warns).
Proof.
  induction rest as [|p rest IH]; intros ut current path warns Hr; cbn [addState_walk].
  - go_step; [|apply returns_ret]. apply set_children_state_returns.
    intros v q Hv. apply setAllOperState_returns. lia.
  - intros h _. destruct (getOperChild_run ut p h) as [[h' E]|(c & h' & E & Hc)].
    + erewrite bind_eq by exact E. by eexists _, _.
    + erewrite bind_eq by exact E.
      apply (returns_bind anyheap); [apply setOperState_returns|intros ws|done].
      apply IH. lia.
Qed.
End Depth.

(** ** Properties *)

(** Gathering operational state terminates and never dereferences a missing
    node, whatever the state scripts return: on a union tree whose depth is
    bounded (as the schema bounds it), fuel for that depth is enough. *)
Theorem addStateToTree_returns (rank : FNode -> nat) ut path heap :
  (forall n h c, c ∈ f_Children n h -> (rank c < rank n)%nat) ->
  (forall n name h, name ∈ f_StateChildren n ->
     exists c, f_Child n name (f_AddChild n name h) = Some c /\ (rank c < rank n)%nat) ->
  (forall n name h c, f_Child n name h = Some c -> (rank c < rank n)%nat) ->
  (rank ut <= fuel)%nat ->
  exists r heap', addStateToTree fuel ut path heap = Some (r, heap').
Proof.
  intros H1 H2 H3 Hr.
  destruct (addState_walk_returns rank H1 H2 H3 path ut [] path [] Hr heap I)
    as (a & h & E & _). by exists a, h.
Qed.
End StateTree.

(** ** A concrete state tree *)

Module SampleState.
Abbreviation node := (list string * nat)%type.

(** A node is its path and the levels that may be below it; every inner node
    has a state child [status]; the heap lists the nodes there are.  A script
    of a [status] node prints a value that is not JSON. *)
Definition child (n : node) (name : string) (h : list (list string)) : option node :=
  match snd n with
  | O => None
  | S m => if elem_b (fst n ++ [name]) h then Some (fst n ++ [name], m) else None
  end.

#[export] Instance statelib : StateLib (L := Sample.lib) := {|
  FHeap := list (list string);
  FNode := node;
  f_New _ _ _ := (([], 2%nat), [["system"]]);
  f_Name n := default "" (last (fst n));
  f_Schema n := match snd n with O => Sample.leaf "status" | S _ => Sample.container "c" true [] end;
  f_StateChildren n := match snd n with O => [] | S _ => ["status"] end;
  f_Parent n := (removelast (fst n), S (snd n));
  f_Child := child;
  f_Children n h :=
    match snd n with
    | O => []
    | S m => map (fun p => (p, m)) (filter (fun p => removelast p = fst n /\ p <> []) h)
    end;
  f_AddChild n name h := h ++ [fst n ++ [name]];
  f_GetStateJson n _ _ := match snd n with O => (["not json"], []) | S _ => ([], []) end;
  f_UnmarshalJSON _ _ h := (h, None);
  json_Valid _ := false;
  TypeOf _ := "schema.leaf";
  FTree := unit;
  ft_ToTree _ _ _ := inl tt;
  ComponentGetState _ t := inl t;
  ft_Marshal _ := inl "";
  ft_Unmarshal ms _ := inl (NewNode None (data_New "root") ms);
  FindOrWalk _ _ := None
|}.

(** The second component of a node bounds the depth below it. *)
Lemma children_below n h c : c ∈ f_Children (StateLib := statelib) n h -> (snd c < snd n)%nat.
Proof.
  destruct n as [p [|n]], c as [q m]; intros Hc; [by apply not_elem_of_nil in Hc|].
  apply list_elem_of_fmap in Hc as (y & [= -> ->] & _). cbn. lia.
Qed.
Lemma added_below n name h : name ∈ f_StateChildren (StateLib := statelib) n ->
  exists c, f_Child (StateLib := statelib) n name (f_AddChild (StateLib := statelib) n name h) = Some c /\
    (snd c < snd n)%nat.
Proof.
  destruct n as [p [|n]]; intros Hin; [by apply not_elem_of_nil in Hin|].
  exists (p ++ [name], n). split; [|cbn; lia]. cbn -[elem_b]. unfold child, elem_b.
  cbn -[bool_decide]. rewrite bool_decide_true; [done|]. apply elem_of_app. right. by left.
Qed.
Lemma child_below n name h c : f_Child (StateLib := statelib) n name h = Some c -> (snd c < snd n)%nat.
Proof.
  destruct n as [p [|n]], c as [q m]; cbn; unfold child; cbn; [done|].
  destruct (elem_b _ _); [|done]. intros [= <- <-]. lia.
Qed.

Lemma addStateToTree_returns_witness :
  exists r heap', addStateToTree 2 (([], 2%nat) : @FNode _ statelib) ["system"] [["system"]]
    = Some (r, heap').
Proof.
  apply (addStateToTree_returns (SL := statelib) 2 snd);
    [apply children_below|apply added_below|apply child_below|cbn; lia].
Defined.
End SampleState.
