(* ===== verification/Load.v ===== *)
(** [session/load.go]: loading, merging and copying a whole configuration into
    a session. *)

From S2P Require Import Prelude GoLib Errors Rpc External Configd LogLevel Sample Session.

Open Scope Z_scope.

Section Load.
Context {L : ConfigLib}.

(** [lderrs.Error], one line per error text. *)
Definition lderrs_Error (msgs : list string) : string :=
  String.concat "" (map (fun m => m +:+ nl) msgs).

(** [readFile]: the tree of the file, or its error, and the invalid paths. *)
Definition readFile (file : string) (r : option string) (s : session)
  : (list utree + error) * list error :=
  match load_Load file r (s_schema s) with
  | (inr e, invalidPaths) => (inr e, invalidPaths)
  | (inl can, invalidPaths) => (inl (u_SortedChildren None can (s_schema s)), invalidPaths)
  end.

(** [merge_tree]'s [setFn]: create one node of the loaded tree, unless it has no
    presence (setting it would be an error) or is there already.  The union is
    the one of when the merge started: of the candidate tree [ptr] points to,
    as it is by now, and of the running tree [run] of then. *)
Definition setFn (ctx : Context) (ptr : nat) (run : data) (sch : snode) (path : list string)
  : M hst (list error) :=
  if negb (sn_presence sch) then ret []
  else
    w <- the_world ;;
    let s := w_sess w in
    let ut := NewNode (Some (tree_at ptr s)) run (s_schema s) in
    if existsInTree s ut ctx path false then ret []
    else
      err <- set ctx path ;;
      ret (option_list err).

(** [merge_tree]'s [preord]: a preorder walk that stops at invalid and at
    default nodes. *)
Fixpoint preord (ctx : Context) (ptr : nat) (run : data) (n : utree) (curPath : list string)
  : M hst (list error) :=
  match ut_schema n with
  | None => ret []
  | Some sch =>
      if ut_default n then ret []
      else
        let curPath := CopyAppend curPath (ut_name n) in
        e <- setFn ctx ptr run sch curPath ;;
        es <- forM (ut_children n) (fun ch => preord ctx ptr run ch curPath) ;;
        ret (e ++ concat es)
  end.

Definition merge_tree (ctx : Context) (ltree : list utree) : M hst (option error) :=
  w <- the_world ;;
  let ptr := candidate_ptr (w_sess w) in
  let run := Running (w_cm w) in
  es <- forM ltree (fun ch => preord ctx ptr run ch []) ;;
  match concat es with
  | [] => ret None
  | errors => ret (Some (EMgmtList errors))
  end.

Definition delete_then_merge_tree (ctx : Context) (ltree : list utree) : M hst (option error) :=
  delete_path ctx [] CheckAuth ;;;
  merge_tree ctx ltree.

Definition merge (ctx : Context) (file : string) (r : option string)
  : M hst (option error * list error) :=
  s <- sess ;;
  match readFile file r s with
  | (inr err, invalidPaths) => ret (Some err, invalidPaths)
  | (inl ltree, invalidPaths) =>
      e <- merge_tree ctx ltree ;; ret (e, invalidPaths)
  end.

Definition load (ctx : Context) (file : string) (r : option string)
  : M hst (option error * list error) :=
  s <- sess ;;
  match readFile file r s with
  | (inr err, invalidPaths) => ret (Some err, invalidPaths)
  | (inl ltree, invalidPaths) =>
      e <- delete_then_merge_tree ctx ltree ;; ret (e, invalidPaths)
  end.

(** [encType]; the encodings are named by their text. *)
Definition encType (encode : string) : string + error :=
  if bool_decide (encode = "json") then inl "json"
  else if bool_decide (encode = "rfc7951") then inl "rfc7951"
  else if bool_decide (encode = "xml") then inl "xml"
  else inr (error_msg OperationFailedApplication ("Unknown encoding '" +:+ encode +:+ "'")).

Definition loadFromStringUsingEncoding (input enc : string) (s : session) : list utree + error :=
  um_Unmarshal enc (s_schema s) input.

(** [copyConfig]: only an inline source and the candidate target. *)
Definition copyConfig (ctx : Context)
    (sourceDatastore sourceEncoding sourceConfig sourceURL targetDatastore targetURL : string)
  : M hst (option error) :=
  if bool_decide (sourceURL <> "") || bool_decide (targetURL <> "") then
    ret (Some (error_msg OperationNotSupportedApplication "URL capability is not supported"))
  else if bool_decide (sourceDatastore <> "") then
    ret (Some (error_msg InvalidValueApplication "Source must be specified in <config> tags."))
  else if bool_decide (sourceConfig = "") then
    ret (Some (new_error (MissingElementApplication "<source>")))
  else if bool_decide (targetDatastore <> "candidate") then
    ret (Some (error_msg InvalidValueApplication
      ("Target datastore only supports candidate, not " +:+ targetDatastore)))
  else
    match encType sourceEncoding with
    | inr e => ret (Some e)
    | inl enc =>
        s <- sess ;;
        match loadFromStringUsingEncoding sourceConfig enc s with
        | inr e => ret (Some e)
        | inl ltree => delete_then_merge_tree ctx ltree
        end
    end.

(** ** Reference definition: the nodes a merge creates

    The paths of the loaded tree that have presence, in preorder, with nothing
    below an invalid or default node. *)
Fixpoint presence_paths (n : utree) (curPath : list string) : list (list string) :=
  match ut_schema n with
  | None => []
  | Some sch =>
      if ut_default n then []
      else
        let curPath := CopyAppend curPath (ut_name n) in
        (if sn_presence sch then [curPath] else [])
        ++ flat_map (fun ch => presence_paths ch curPath) (ut_children n)
  end.

Definition tree_paths (ltree : list utree) : list (list string) :=
  flat_map (fun ch => presence_paths ch []) ltree.

(** The client sees the path, with a value of its own, in the candidate that was
    there when the merge started, as it is now, over the running tree of then. *)
Definition there (ctx : Context) (ptr : nat) (run : data) (path : list string) (s : session) : bool :=
  let tree := tree_at ptr s in
  bool_decide (u_Exists (Some tree) run (s_schema s) (newAuther s ctx) path = None)
  && negb (fst (u_IsDefault (Some tree) run (s_schema s) (newAuther s ctx) path)).

(** The merge of a list of paths: those that are not there are set, one after
    the other; an error does not stop it, and none is lost. *)
Fixpoint merge_paths (ctx : Context) (ptr : nat) (run : data) (paths : list (list string)) (h : hst)
  : option (list error * hst) :=
  match paths with
  | [] => Some ([], h)
  | path :: paths' =>
      if there ctx ptr run path (w_sess (h_world h)) then merge_paths ctx ptr run paths' h
      else
        '(e, h1) ← set ctx path h;
        '(es, h2) ← merge_paths ctx ptr run paths' h1;
        Some (option_list e ++ es, h2)
  end.

(** ** Lemmas *)

Lemma utree_nested_ind (P : utree -> Prop) :
  (forall n, Forall P (ut_children n) -> P n) -> forall n, P n.
Proof.
  intros H. fix IH 1. intros [name sch def chs]. apply H. cbn.
  induction chs as [|c chs IHc]; constructor; [apply IH|exact IHc].
Qed.

Lemma setFn_no_presence ctx ptr run sch path : sn_presence sch = false -> setFn ctx ptr run sch path = ret [].
Proof. intros H. unfold setFn. by rewrite H. Qed.

(** A node with presence: there, or set. *)
Lemma setFn_presence ctx ptr run sch path h : sn_presence sch = true ->
  setFn ctx ptr run sch path h =
  if there ctx ptr run path (w_sess (h_world h)) then Some ([], h)
  else '(e, h1) ← set ctx path h; Some (option_list e, h1).
Proof.
  intros H. unfold setFn, there, existsInTree. rewrite H. cbn [negb un_cand un_run un_ms].
  unfold bind, the_world, gets, ret. cbv zeta.
  destruct (bool_decide _), (fst (u_IsDefault _ _ _ _ _)); cbn [negb andb];
    try reflexivity; by destruct (set ctx path h) as [[e h1]|].
Qed.

(** A sequence of computations and their concatenated errors. *)
Definition collect {A} (f : A -> M hst (list error)) (l : list A) (h : hst)
  : option (list error * hst) :=
  match forM l f h with
  | Some (es, h') => Some (concat es, h')
  | None => None
  end.

Lemma collect_cons {A} (f : A -> M hst (list error)) x l h :
  collect f (x :: l) h = '(e, h1) ← f x h; '(es, h2) ← collect f l h1; Some (e ++ es, h2).
Proof.
  unfold collect. cbn. unfold bind. destruct (f x h) as [[e h1]|]; [|done]. cbn.
  by destruct (mapM_go f l h1) as [[es h2]|].
Qed.

Lemma merge_paths_app ctx ptr run l1 l2 : forall h,
  merge_paths ctx ptr run (l1 ++ l2) h =
  '(e, h1) ← merge_paths ctx ptr run l1 h; '(es, h2) ← merge_paths ctx ptr run l2 h1; Some (e ++ es, h2).
Proof.
  induction l1 as [|x l1 IH]; intros h; cbn [app merge_paths].
  - cbn. by destruct (merge_paths ctx ptr run l2 h) as [[es h2]|].
  - destruct (there _ _ _ _ _); [apply IH|]. destruct (set ctx x h) as [[e h1]|]; [|done]. cbn.
    rewrite IH. destruct (merge_paths ctx ptr run l1 h1) as [[e1 h2]|]; [|done]. cbn.
    destruct (merge_paths ctx ptr run l2 h2) as [[e2 h3]|]; [|done]. cbn. by rewrite app_assoc.
Qed.

Lemma collect_paths {A} ctx ptr run (f : A -> M hst (list error)) (k : A -> list (list string)) l :
  Forall (fun x => forall h, f x h = merge_paths ctx ptr run (k x) h) l ->
  forall h, collect f l h = merge_paths ctx ptr run (flat_map k l) h.
Proof.
  induction 1 as [|x l Hx _ IH]; intros h; [done|].
  rewrite collect_cons. cbn [flat_map]. rewrite merge_paths_app, Hx.
  destruct (merge_paths ctx ptr run (k x) h) as [[e h1]|]; [|done]. cbn. by rewrite IH.
Qed.

(** The walk is the merge of its paths. *)
Lemma preord_paths ctx ptr run n : forall cur h,
  preord ctx ptr run n cur h = merge_paths ctx ptr run (presence_paths n cur) h.
Proof.
  induction n as [n IH] using utree_nested_ind. intros cur h.
  destruct n as [name [sch|] def chs]; [|done]. cbn. destruct def; [done|].
  assert (Hch : forall h1, collect (fun ch => preord ctx ptr run ch (CopyAppend cur name)) chs h1 =
    merge_paths ctx ptr run (flat_map (fun ch => presence_paths ch (CopyAppend cur name)) chs) h1).
  { apply collect_paths. eapply Forall_impl; [exact IH|]. intros ch Hc h'. apply Hc. }
  unfold bind. unfold collect in Hch. destruct (sn_presence sch) eqn:Hp; cbn [app merge_paths].
  - rewrite setFn_presence by done. destruct (there _ _ _ _ _).
    + rewrite <- Hch. by destruct (mapM_go _ chs h) as [[es h2]|].
    + destruct (set ctx (CopyAppend cur name) h) as [[e h1]|]; [|done]. cbn. rewrite <- Hch.
      by destruct (mapM_go _ chs h1) as [[es h2]|].
  - rewrite setFn_no_presence by done. unfold ret. rewrite <- Hch.
    by destruct (mapM_go _ chs h) as [[es h2]|].
Qed.

(** The result of a merge, from the errors its sets returned. *)
Definition merge_result (errs : list error) : option error :=
  match errs with [] => None | _ => Some (EMgmtList errs) end.

Lemma merge_tree_paths ctx ltree h :
  merge_tree ctx ltree h =
  '(errs, h') ← merge_paths ctx (candidate_ptr (w_sess (h_world h))) (Running (w_cm (h_world h)))
      (tree_paths ltree) h;
  Some (merge_result errs, h').
Proof.
  unfold merge_tree, tree_paths, bind, the_world, gets. cbv zeta.
  set (ptr := candidate_ptr _). set (run := Running _).
  rewrite <- (collect_paths ctx ptr run (fun ch => preord ctx ptr run ch [])).
  2: { apply Forall_forall. intros n _ h'. apply preord_paths. }
  unfold collect. destruct (mapM_go _ ltree h) as [[es h']|]; [|done]. cbn.
  by destruct (concat es).
Qed.

(** Every set of a merge by a client that does not hold the lock is refused. *)
Lemma merge_paths_foreign ctx ptr run ps s h :
  s_lpid s <> 0 -> s_lpid s <> Pid ctx -> w_sess (h_world h) = s ->
  exists errs, merge_paths ctx ptr run ps h = Some (errs, h) /\ Forall is_lock_denied errs.
Proof.
  intros Hl Hf Hs. induction ps as [|p ps (es & IH & Hes)]; [by exists []|]. cbn [merge_paths].
  destruct (there _ _ _ _ _); [by exists es|].
  destruct (set_foreign ctx s Hl Hf p h Hs) as (e & -> & He). cbn. rewrite IH.
  exists (e :: es). split; [done|]. constructor; [by rewrite He|done].
Qed.

Lemma merge_tree_foreign ctx ltree s h :
  s_lpid s <> 0 -> s_lpid s <> Pid ctx -> w_sess (h_world h) = s ->
  exists errs, merge_tree ctx ltree h = Some (merge_result errs, h) /\
    Forall is_lock_denied errs.
Proof.
  intros Hl Hf Hs. rewrite merge_tree_paths.
  destruct (merge_paths_foreign ctx (candidate_ptr (w_sess (h_world h))) (Running (w_cm (h_world h)))
    (tree_paths ltree) s h Hl Hf Hs) as (es & -> & He). by exists es.
Qed.

(** Loading changes nothing of a session but its candidate. *)
Section LoadInv.
Context (I : world -> Prop) (B : (option DiffNode -> world -> option world) -> Prop).
Hypothesis HB : forall b, B b -> blk_preserves I b.
Hypothesis HI : forall w d, I w -> I (set_sess (set_candidate d (w_sess w)) w).

Lemma preord_inv ctx ptr run n : forall cur, preserves (hinv I B) (preord ctx ptr run n cur).
Proof.
  induction n as [n IH] using utree_nested_ind. intros cur.
  destruct n as [name [sch|] def chs]; cbn; [|apply preserves_ret].
  destruct def; [apply preserves_ret|].
  apply preserves_bind.
  - unfold setFn. go_step; [apply preserves_ret|].
    apply preserves_bind; [apply the_world_inv|intros w].
    go_step; [apply preserves_ret|].
    apply preserves_bind; [by apply set_inv|intros e; apply preserves_ret].
  - intros e. apply preserves_bind; [|intros es; apply preserves_ret].
    clear e. cbn in IH. induction IH as [|c l Hc _ IHl]; cbn; [apply preserves_ret|].
    apply preserves_bind; [apply Hc|intros b].
    apply preserves_bind; [apply IHl|intros bs; apply preserves_ret].
Qed.

Lemma merge_tree_inv ctx ltree : preserves (hinv I B) (merge_tree ctx ltree).
Proof.
  unfold merge_tree. apply preserves_bind; [apply the_world_inv|intros w].
  apply preserves_bind; [|intros es; destruct (concat es); apply preserves_ret].
  apply preserves_forM. intros n. apply preord_inv.
Qed.

Lemma merge_inv ctx file r : preserves (hinv I B) (merge ctx file r).
Proof.
  unfold merge. apply preserves_bind; [apply sess_inv|intros s].
  destruct (readFile file r s) as [[t|e] inv]; [|apply preserves_ret].
  apply preserves_bind; [apply merge_tree_inv|intros e; apply preserves_ret].
Qed.

Lemma delete_then_merge_tree_inv ctx ltree :
  preserves (hinv I B) (delete_then_merge_tree ctx ltree).
Proof.
  apply preserves_bind; [by apply delete_path_inv|intros _; apply merge_tree_inv].
Qed.

Lemma load_inv ctx file r : preserves (hinv I B) (load ctx file r).
Proof.
  unfold load. apply preserves_bind; [apply sess_inv|intros s].
  destruct (readFile file r s) as [[t|e] inv]; [|apply preserves_ret].
  apply preserves_bind; [apply delete_then_merge_tree_inv|intros e; apply preserves_ret].
Qed.

Lemma copyConfig_inv ctx sd se sc su td tu : preserves (hinv I B) (copyConfig ctx sd se sc su td tu).
Proof.
  unfold copyConfig. repeat go_step.
  all: first [apply sess_inv | apply delete_then_merge_tree_inv].
Qed.
End LoadInv.

(** ** Properties *)

(** C32: what a merge does, against its reference definition: of the nodes with
    presence outside invalid and default subtrees, in preorder, each is looked
    for, in the candidate as it is by then over the running tree of when the
    merge started, and set if the client does not see it there with a value of
    its own; a set that fails does not stop the others, and the result is nil
    exactly when none has failed, else all their errors in order. *)
Theorem merge_tree_reference ctx ltree h :
  merge_tree ctx ltree h =
  '(errs, h') ← merge_paths ctx (candidate_ptr (w_sess (h_world h))) (Running (w_cm (h_world h)))
      (tree_paths ltree) h;
  Some (match errs with [] => None | _ => Some (EMgmtList errs) end, h').
Proof. exact (merge_tree_paths ctx ltree h). Qed.

(** Loading a configuration does not respect the session lock.  While the
    session is locked by another process (or by a commit), a client that does
    not hold the lock and loads a readable file still deletes the candidate
    configuration; only the sets that should have put the file's nodes in its
    place are refused. *)
Theorem load_ignores_lock ctx file r h s ltree invalid :
  w_sess (h_world h) = s -> s_lpid s <> 0 -> s_lpid s <> Pid ctx ->
  readFile file r s = (inl ltree, invalid) ->
  let ut := getUnion (h_world h) in
  let wiped := fst (u_Delete (un_cand ut) (un_run ut) (un_ms ut) (newAuther s ctx) [] CheckAuth) in
  exists errs,
    load ctx file r h =
      Some ((merge_result errs, invalid),
            Hst (set_sess (set_candidate wiped s) (h_world h)) (h_blk h)) /\
    Forall is_lock_denied errs.
Proof.
  intros Hs Hl Hf Hr ut wiped. unfold load, delete_then_merge_tree, delete_path.
  unfold bind at 1, sess at 1, gets at 1. rewrite Hs, Hr.
  unfold bind, the_world, gets, on_sess, on_world, modify, ret at 1. rewrite Hs.
  destruct (merge_tree_foreign ctx ltree (set_candidate wiped s)
    (Hst (set_sess (set_candidate wiped s) (h_world h)) (h_blk h)) Hl Hf eq_refl)
    as (errs & Hm & He).
  exists errs. split; [|done]. cbn [h_world h_blk fst snd]. fold ut wiped.
  by rewrite Hm.
Qed.
End Load.

Lemma load_ignores_lock_witness :
  exists errs,
    load (Sample.client 200 1001 Sample.allow) "/system/host-name/b" None (Hst (sample_world COMMIT) []) =
    Some ((merge_result errs, []),
          Hst (set_sess (set_candidate ([] : @data Sample.lib) (sample_session COMMIT)) (sample_world COMMIT)) []) /\
    Forall is_lock_denied errs.
Proof.
  exact (load_ignores_lock (Sample.client 200 1001 Sample.allow) "/system/host-name/b" None
    (Hst (sample_world COMMIT) []) (sample_session COMMIT) _ []
    eq_refl ltac:(discriminate) ltac:(discriminate) eq_refl).
Defined.

(** A merge into the sample session, by the process that has locked it: the
    value of the host name that is not there is set. *)
Module SampleLoad.
#[local] Existing Instance Sample.lib.
Definition client : Context := Sample.client 10 1001 Sample.allow.
Definition loaded : list utree :=
  u_SortedChildren None ([["system"; "host-name"; "b"]] : @data Sample.lib) Sample.root.
Definition start : hst (L := Sample.lib) := Hst (sample_world 10) [].
Definition candidate_of (r : option (option error * hst (L := Sample.lib))) : option (list (list string)) :=
  match r with Some (None, h) => Some (s_candidate (w_sess (h_world h))) | _ => None end.

Lemma merge_tree_reference_witness :
  tree_paths loaded = [["system"; "host-name"]; ["system"; "host-name"; "b"]] /\
  candidate_of ('(errs, h') ← merge_paths client (candidate_ptr (w_sess (h_world start)))
      (Running (w_cm (h_world start))) (tree_paths loaded) start;
    Some (match errs with [] => None | _ => Some (EMgmtList errs) end, h')) =
    Some [["system"; "host-name"; "b"]; ["system"; "host-name"; "a"]].
Proof.
  split; [vm_compute; reflexivity|].
  rewrite <- (merge_tree_reference client loaded start). vm_compute. reflexivity.
Defined.
End SampleLoad.
