(* ===== verification/EditConfig.v ===== *)
(** [session/edit_config.go]: the NETCONF <edit-config> operation.  The XML
    document becomes a tree of nodes, the tree a list of operations on paths,
    and each operation is tested, authorised, accounted and applied to the
    candidate.  A Go [panic] with an error value is an ordinary result of the
    traversal (it is recovered by [EditConfig]); a run-time error is not. *)

From S2P Require Import Prelude GoLib Errors Rpc External Configd LogLevel Sample Session.

Open Scope Z_scope.

(** ** Options, [Set] on an unset variable *)

Inductive config_target := target_notset | target_candidate | target_running.
Inductive default_operation := defop_notset | defop_merge | defop_replace | defop_none.
Inductive test_option := testopt_notset | testopt_testset | testopt_set | testopt_testonly.
Inductive error_option := erropt_notset | erropt_stop | erropt_cont | erropt_rollback.
Inductive operation :=
  | op_notset | op_merge | op_replace | op_create | op_delete | op_remove.

#[export] Instance operation_eq_dec : EqDecision operation.
Proof. solve_decision. Defined.
#[export] Instance default_operation_eq_dec : EqDecision default_operation.
Proof. solve_decision. Defined.
#[export] Instance test_option_eq_dec : EqDecision test_option.
Proof. solve_decision. Defined.

(** A lookup in one of the tables of names. *)
Fixpoint lookup_name {A} (values : list (string * A)) (s : string) : option A :=
  match values with
  | [] => None
  | (k, v) :: values' => if bool_decide (k = s) then Some v else lookup_name values' s
  end.

Definition or_error {A} (o : option A) (e : error) : A + error :=
  match o with Some a => inl a | None => inr e end.

Definition config_target_Set (target : string) : config_target + error :=
  or_error (lookup_name [("candidate", target_candidate); ("running", target_running)] target)
    (new_error (UnknownElementProtocol target)).

Definition default_operation_Set (op : string) : default_operation + error :=
  or_error (lookup_name [("merge", defop_merge); ("replace", defop_replace); ("none", defop_none)] op)
    (error_msg InvalidValueProtocol "Invalid default-operation").

(** [default_operation.Get] *)
Definition default_operation_Get (o : default_operation) : operation :=
  match o with
  | defop_merge => op_merge
  | defop_replace => op_replace
  | defop_none => op_notset
  | defop_notset => op_notset           (* not in the table: the zero value *)
  end.

Definition test_option_Set (opt : string) : test_option + error :=
  or_error (lookup_name [("test-then-set", testopt_testset); ("set", testopt_set);
                         ("test-only", testopt_testonly)] opt)
    (error_msg InvalidValueProtocol "Invalid test-option").

Definition error_option_Set (opt : string) : error_option + error :=
  or_error (lookup_name [("stop-on-error", erropt_stop); ("continue-on-error", erropt_cont);
                         ("rollback-on-error", erropt_rollback)] opt)
    (error_msg InvalidValueProtocol "Invalid error-option").

Definition operation_set (op : string) : operation + error :=
  or_error (lookup_name [("merge", op_merge); ("replace", op_replace); ("create", op_create);
                         ("delete", op_delete); ("remove", op_remove)] op)
    (new_error (UnknownAttrProtocol op "operation")).

Definition netconfNS : string := "urn:ietf:params:xml:ns:netconf:base:1.0".

(** An XML name: namespace, local name. *)
Record xml_name := XName { Space : string; Local : string }.

Definition UnmarshalXMLAttr (attr : xml_name * string) : operation + error :=
  if bool_decide (Space (fst attr) <> netconfNS) then
    inr (new_error (UnknownNamespaceProtocol "operation" (Space (fst attr))))
  else operation_set (snd attr).

(** ** Nodes *)

(** An element as the XML decoder meets it: its name, its attributes named
    [operation], its character data and its child elements. *)
Inductive xml_elem := XElem {
  xe_name : xml_name;
  xe_operation : list (xml_name * string);
  xe_chardata : string;
  xe_children : list xml_elem
}.

(** [type edit_node]; its fields [Path] and [Type] are never read. *)
Inductive edit_node := EditNode {
  en_XMLName : xml_name;
  en_Operation : operation;
  en_Value : string;
  en_Children : list edit_node
}.

(** The [operation] attributes, in order: the last one counts, the first bad
    one is the error. *)
Fixpoint decode_operation (attrs : list (xml_name * string)) (o : operation) : operation + error :=
  match attrs with
  | [] => inl o
  | a :: attrs' =>
      match UnmarshalXMLAttr a with
      | inl o' => decode_operation attrs' o'
      | inr e => inr e
      end
  end.

(** The decoding of [edit_node] by its struct tags. *)
Fixpoint decode_node (x : xml_elem) : edit_node + error :=
  match decode_operation (xe_operation x) op_notset with
  | inr e => inr e
  | inl o =>
      let chs := (fix go (l : list xml_elem) : list edit_node + error :=
        match l with
        | [] => inl []
        | c :: l' =>
            match decode_node c with
            | inr e => inr e
            | inl n => match go l' with inr e => inr e | inl ns => inl (n :: ns) end
            end
        end) (xe_children x) in
      match chs with
      | inr e => inr e
      | inl ns => inl (EditNode (xe_name x) o (xe_chardata x) ns)
      end
  end.

Fixpoint decode_nodes (l : list xml_elem) : list edit_node + error :=
  match l with
  | [] => inl []
  | c :: l' =>
      match decode_node c with
      | inr e => inr e
      | inl n => match decode_nodes l' with inr e => inr e | inl ns => inl (n :: ns) end
      end
  end.

Definition getOperation (en : edit_node) (parentop : operation) : operation :=
  if bool_decide (en_Operation en = op_notset) then parentop else en_Operation en.

Definition is_delete (op : operation) : bool :=
  bool_decide (op = op_delete) || bool_decide (op = op_remove).

Record edit_op := EditOp { eo_op : operation; eo_path : list string }.

(** ** Traversal *)

Section Traverse.
Context {L : ConfigLib} (ms : ModelSet).

(** The operations collected, or the error a Go [panic] carries, or a run-time
    panic (an index out of range). *)
Inductive trav := Ops (l : list edit_op) | Panic (e : error) | Crash.

Definition trav_app (a : trav) (b : trav) : trav :=
  match a with
  | Ops l => match b with Ops l' => Ops (l ++ l') | Panic e => Panic e | Crash => Crash end
  | Panic e => Panic e
  | Crash => Crash
  end.

(** [choiceNodesToRemove] and [caseNodesToRemove] for one node, then for a
    list: the names that may no longer appear beside [name]. *)
Fixpoint choice_remove (name : string) (choice : snode) (rslt : gset string) : gset string :=
  match sn_kind choice, Child choice name with
  | KChoice, Some _ => fold_left (fun r c => case_remove name c r) (sn_choices choice) rslt
  | _, _ => rslt
  end
with case_remove (name : string) (choice : snode) (rslt : gset string) : gset string :=
  match sn_kind choice with
  | KCase =>
      match Child choice name with
      | Some _ => fold_left (fun r c => choice_remove name c r) (sn_choices choice) rslt
      | None => fold_left (fun r ch => {[sn_name ch]} ∪ r) (sn_children choice) rslt
      end
  | _ => if bool_decide (sn_name choice <> name) then {[sn_name choice]} ∪ rslt else rslt
  end.

Definition choiceNodesToRemove (chcs : list snode) (name : string) (rslt : gset string) : gset string :=
  fold_left (fun r choice => choice_remove name choice r) chcs rslt.
Definition caseNodesToRemove (chcs : list snode) (name : string) (rslt : gset string) : gset string :=
  fold_left (fun r choice => case_remove name choice r) chcs rslt.

Definition one_case_error (curpath : list string) (name : string) : error :=
  error_path_msg (BadElementApplication name) (Pathstr curpath) "Only one case is allowed per choice".

Definition checkNode (en : edit_node) (curpath : list string) (parentop : operation)
    (sch : snode) (exclude : gset string) : gset string + error :=
  if is_delete (getOperation en parentop) then inl exclude
  else if decide (Local (en_XMLName en) ∈ exclude)
  then inr (one_case_error curpath (Local (en_XMLName en)))
  else inl (choiceNodesToRemove (sn_choices sch) (Local (en_XMLName en)) exclude).

(** The loop of the two [validateChoices]; [None] when it passes. *)
Fixpoint check_nodes (children : list edit_node) (curpath : list string) (parentop : operation)
    (sch : snode) (exclude : gset string) : option error :=
  match children with
  | [] => None
  | c :: cs =>
      match checkNode c curpath parentop sch exclude with
      | inr e => Some e
      | inl exclude' => check_nodes cs curpath parentop sch exclude'
      end
  end.

Definition validateChoices (children : list edit_node) (curpath : list string)
    (parentop : operation) (sch : snode) : option error :=
  match sn_choices sch with
  | [] => None                          (* no choices to evaluate *)
  | _ => check_nodes children curpath parentop sch ∅
  end.

(** [ec.Add]. *)
Definition Add (op : operation) (path : list string) : trav := Ops [EditOp op path].

(** The panic for an unknown path: the index never is out of range, [traverse]
    has put a name on the path. *)
Definition panic_unknown (curpath : list string) : trav :=
  match unknown_last curpath with Some e => Panic e | None => Crash end.

Definition panic_namespace (curpath : list string) (ns : string) : trav :=
  Panic (new_error (UnknownNamespaceApplication (Pathstr curpath) ns)).

(** The schema of a node, checked against its XML namespace. *)
Definition with_schema (en : edit_node) (curpath : list string) (k : snode -> trav) : trav :=
  match Descendant ms curpath with
  | None => panic_unknown curpath
  | Some sch =>
      if bool_decide (sn_namespace sch <> Space (en_XMLName en))
      then panic_namespace curpath (Space (en_XMLName en)) else k sch
  end.

(** [traverseSubtree]: deepest first for a deletion, else the node first;
    [kids] traverses the children with an operation. *)
Definition traverseSubtree (en : edit_node) (kids : operation -> trav)
    (parentop : operation) (curpath : list string) : trav :=
  let op := getOperation en parentop in
  if is_delete parentop then trav_app (kids op) (Add op curpath)
  else trav_app (Add op curpath) (kids op).

Definition traverseContainer (en : edit_node) (kids : operation -> trav)
    (parentop : operation) (curpath : list string) : trav :=
  let op := getOperation en parentop in
  with_schema en curpath (fun sch =>
    match validateChoices (en_Children en) curpath parentop sch with
    | Some e => Panic e
    | None =>
        if negb (sn_presence sch) && negb (bool_decide (en_Children en = []))
           && negb (is_delete op)
        then kids parentop
        else traverseSubtree en kids parentop curpath
    end).

Definition traverseLeaf (en : edit_node) (parentop : operation) (curpath : list string) : trav :=
  with_schema en curpath (fun sch =>
    let op := getOperation en parentop in
    if negb (bool_decide (sn_type sch = TEmpty)) && negb (bool_decide (en_Value en = ""))
    then Add op (curpath ++ [en_Value en])
    else Add op curpath).

(** The search for the key among the children of a list. *)
Inductive key_search := NoKey | KeyLater | KeyFirst (value : string).

Fixpoint find_key_later (key : string) (children : list edit_node) : bool :=
  match children with
  | [] => false
  | c :: cs => bool_decide (Local (en_XMLName c) = key) || find_key_later key cs
  end.

Definition find_key (keys : list string) (children : list edit_node) : option key_search :=
  match children, keys with
  | [], _ => Some NoKey
  | _ :: _, [] => None                  (* n.Keys()[0] *)
  | c :: cs, key :: _ =>
      if bool_decide (Local (en_XMLName c) = key) then Some (KeyFirst (en_Value c))
      else if find_key_later key cs then Some KeyLater else Some NoKey
  end.

(** [kids_at] traverses the children from the n-th on, below a path. *)
Definition traverseList (en : edit_node) (kids_at : nat -> list string -> operation -> trav)
    (parentop : operation) (curpath : list string) : trav :=
  with_schema en curpath (fun sch =>
    if negb (bool_decide (sn_kind sch = KList)) then Ops []
    else
      match validateChoices (en_Children en) curpath parentop sch with
      | Some e => Panic e
      | None =>
          match find_key (sn_keys sch) (en_Children en) with
          | None => Crash
          | Some KeyLater => Ops []
          | Some NoKey =>
              if is_delete (getOperation en parentop)
              then traverseSubtree en (kids_at 0%nat curpath) parentop curpath else Ops []
          | Some (KeyFirst value) =>
              let path := curpath ++ [value] in
              match Descendant ms path with
              | None => panic_unknown curpath
              | Some sch' =>
                  if bool_decide (sn_namespace sch' <> Space (en_XMLName en))
                  then panic_namespace curpath (Space (en_XMLName en))
                  else traverseSubtree en (kids_at 1%nat path) parentop path
              end
          end
      end).

Fixpoint traverse (en : edit_node) (parentop : operation) (curpath : list string) : trav :=
  let path := curpath ++ [Local (en_XMLName en)] in
  let op := getOperation en parentop in
  let kids_at := fun n path' op' =>
    (fix go (k : nat) (l : list edit_node) : trav :=
       match l with
       | [] => Ops []
       | c :: l' =>
           match k with
           | S k' => go k' l'
           | O => trav_app (traverse c op' path') (go O l')
           end
       end) n (en_Children en) in
  match Descendant ms path with
  | None => Ops []                      (* invalid path; bail *)
  | Some sch =>
      match sn_kind sch with
      | KList => traverseList en kids_at op path
      | KLeaf | KLeafList | KLeafValue => traverseLeaf en op path
      | _ => traverseContainer en (kids_at 0%nat path) op path
      end
  end.

Definition traverse_all (children : list edit_node) (op : operation) (path : list string) : trav :=
  fold_right (fun c t => trav_app (traverse c op path) t) (Ops []) children.
End Traverse.

(** ** Operations *)

Section Edit.
Context {L : ConfigLib}.
(** [xml.Unmarshal] of a <config> document, up to the struct tags. *)
Context (xml_config : string -> list xml_elem + error).

Record edit_config := EC {
  ec_Children : list edit_node;
  Target : config_target;
  DefaultOperation : default_operation;
  TestOption : test_option;
  ErrorOption : error_option;
  ec_ctx : Context
}.

Definition excludeDefault := false.

(** [ec.sess.existsInTree(ec.sess.getUnion(), ec.ctx, e.path, excludeDefault)] *)
Definition exists_op (ec : edit_config) (e : edit_op) (w : world) : bool :=
  existsInTree (w_sess w) (getUnion w) (ec_ctx ec) (eo_path e) excludeDefault.

(** [getPathAttrsForPerm]: [None] is a nil dereference (a path without
    attributes), [Some (_, None)] the nil attributes of an unknown permission.
    The receiver is a value: the attributes it computes are lost to its caller. *)
Definition getPathAttrsForPerm (e : edit_op) (perm : AuthPerm) (s : session)
  : option (list string * option PathAttrs) :=
  let with_cmd perm_cmd :=
    match AttrsForPath (s_schemaFull s) (eo_path e) with
    | None => None
    | Some attrs => Some (perm_cmd :: eo_path e, Some ({| Secret := false |} :: attrs))
    end in
  match perm with
  | P_CREATE | P_UPDATE => with_cmd "set"
  | P_DELETE => with_cmd "delete"
  | P_READ => Some ([], None)
  end.

(** Run a task between [AccountStart] and [AccountStop]. *)
Definition accounted (perm : AuthPerm) (e : edit_op) (m : M hst (option error))
    (stop : option error -> option error) : M hst (option error) :=
  s <- sess ;;
  match getPathAttrsForPerm e perm s with
  | None => go_panic
  | Some (cmd, attrs) =>
      emit (EvAcctStart cmd attrs) ;;;
      err <- m ;;
      emit (EvAcctStop cmd (stop err)) ;;;
      ret err
  end.

Definition authorize (ec : edit_config) (perm : AuthPerm) (e : edit_op) : M hst bool :=
  let ctx := ec_ctx ec in
  s <- sess ;;
  match getPathAttrsForPerm e perm s with
  | None => go_panic
  | Some (_, None) => ret false
  | Some (cmd, Some attrs) =>
      if negb (AuthorizeCommand (cx_Auth ctx) (Uid ctx) (Groups ctx) cmd (Some attrs))
      then ret false
      else
        (* [e.pathAttrs] is still nil here *)
        let pathAuthed :=
          AuthorizePath (cx_Auth ctx) (Uid ctx) (Groups ctx) (eo_path e) None perm in
        (if negb pathAuthed && negb (bool_decide (TestOption ec = testopt_testonly)) then
           emit (EvAcctStart cmd (Some attrs)) ;;;
           emit (EvAcctStop cmd (Some access_denied))
         else ret tt) ;;;
        ret pathAuthed
  end.

Definition edit_op_Auth (ec : edit_config) (e : edit_op) : M hst bool :=
  w <- the_world ;;
  let exist := exists_op ec e w in
  match eo_op e with
  | op_merge => authorize ec (if exist then P_UPDATE else P_CREATE) e
  | op_replace =>
      ok <- (if exist then authorize ec P_DELETE e else ret true) ;;
      if negb ok then ret false else authorize ec P_CREATE e
  | op_create => authorize ec P_CREATE e
  | op_delete | op_remove => authorize ec P_DELETE e
  | op_notset => ret true
  end.

(** The walk down the schema at the end of [Test]: [i] elements are done. *)
Fixpoint schema_walk (sn : snode) (path : list string) (i : nat) (rest : list string) : option error :=
  match rest with
  | [] => None
  | p :: rest' =>
      match SchemaChild sn p with
      | None => Some (error_path (UnknownElementApplication p) (Pathstr (take i path)))
      | Some sn' => schema_walk sn' path (S i) rest'
      end
  end.

Definition edit_op_Test (ec : edit_config) (e : edit_op) : M hst (option error) :=
  ok <- edit_op_Auth ec e ;;
  if negb ok then ret (Some access_denied)
  else
    w <- the_world ;;
    let s := w_sess w in
    let exist := exists_op ec e w in
    let path_ok := match PathDescendant (s_schema s) (eo_path e) with
                   | None => Some (NewInvalidPathError (eo_path e))
                   | Some _ => None
                   end in
    let early :=
      match eo_op e with
      | op_create => if exist then Some (NewNodeExistsError (eo_path e)) else None
      | op_delete => if negb exist then Some (NewNodeNotExistsError (eo_path e)) else path_ok
      | op_remove => path_ok
      | _ => None
      end in
    match early with
    | Some err => ret (Some err)
    | None =>
        match NormalizePath (s_schema s) (eo_path e) with
        | inr err => ret (Some err)
        | inl path => ret (schema_walk (ms_node (s_schema s)) path 0 path)
        end
    end.

(** The small methods do the work, the capitalised ones account for it. *)
Definition merge_op (ec : edit_config) (e : edit_op) : M hst (option error) :=
  w <- the_world ;;
  if exists_op ec e w then ret None else _set (ec_ctx ec) (eo_path e).
Definition edit_op_Merge (ec : edit_config) (e : edit_op) : M hst (option error) :=
  accounted P_UPDATE e (merge_op ec e) id.

(** [removeInternal]: succeeds even when the deletion fails. *)
Definition removeInternal (ec : edit_config) (e : edit_op) (doAcct : bool) : M hst (option error) :=
  let run : M hst (option error) :=
    delete_path (ec_ctx ec) (eo_path e) DontCheckAuth ;;; ret None in
  if doAcct then accounted P_DELETE e run (fun _ => None) else run.

Definition edit_op_Replace (ec : edit_config) (e : edit_op) : M hst (option error) :=
  w <- the_world ;;
  let doAcct := exists_op ec e w in
  err <- removeInternal ec e doAcct ;;
  match err with
  | Some err => ret (Some err)
  | None => edit_op_Merge ec e
  end.

Definition create_op (ec : edit_config) (e : edit_op) : M hst (option error) :=
  w <- the_world ;;
  if exists_op ec e w then ret (Some (NewNodeExistsError (eo_path e)))
  else _set (ec_ctx ec) (eo_path e).
Definition edit_op_Create (ec : edit_config) (e : edit_op) : M hst (option error) :=
  accounted P_CREATE e (create_op ec e) id.

Definition delete_op (ec : edit_config) (e : edit_op) : M hst (option error) :=
  w <- the_world ;;
  if negb (exists_op ec e w) then ret (Some (NewNodeNotExistsError (eo_path e)))
  else removeInternal ec e false.
Definition edit_op_Delete (ec : edit_config) (e : edit_op) : M hst (option error) :=
  accounted P_DELETE e (delete_op ec e) id.

Definition edit_op_Remove (ec : edit_config) (e : edit_op) : M hst (option error) :=
  removeInternal ec e true.

Definition edit_op_Set (ec : edit_config) (e : edit_op) : M hst (option error) :=
  match eo_op e with
  | op_merge => edit_op_Merge ec e
  | op_replace => edit_op_Replace ec e
  | op_create => edit_op_Create ec e
  | op_delete => edit_op_Delete ec e
  | op_remove => edit_op_Remove ec e
  | op_notset =>
      if bool_decide (DefaultOperation ec = defop_none) then ret None
      else ret (Some (new_error OperationFailedApplication))
  end.

Definition edit_op_Perform (ec : edit_config) (e : edit_op) : M hst (option error) :=
  match TestOption ec with
  | testopt_notset | testopt_testset =>
      err <- edit_op_Test ec e ;;
      match err with
      | Some err => ret (Some err)
      | None => edit_op_Set ec e
      end
  | testopt_set =>
      ok <- edit_op_Auth ec e ;;
      if negb ok then ret (Some access_denied) else edit_op_Set ec e
  | testopt_testonly => edit_op_Test ec e
  end.

(** ** The whole edit *)

Definition newEditConfigXML (ctx : Context)
    (target def_operation test_opt error_opt config : string) : edit_config + error :=
  match config_target_Set target with
  | inr e => inr e
  | inl t =>
      match default_operation_Set def_operation with
      | inr e => inr e
      | inl d =>
          match test_option_Set test_opt with
          | inr e => inr e
          | inl o =>
              match error_option_Set error_opt with
              | inr e => inr e
              | inl eo =>
                  match xml_config config with
                  | inr e => inr e
                  | inl xs =>
                      match decode_nodes xs with
                      | inr e => inr e
                      | inl ns => inl (EC ns t d o eo ctx)
                      end
                  end
              end
          end
      end
  end.

Fixpoint ec_test (ec : edit_config) (ops : list edit_op) : M hst (option error) :=
  match ops with
  | [] => ret None
  | o :: ops' =>
      err <- edit_op_Test ec o ;;
      match err with
      | Some err => ret (Some err)
      | None => ec_test ec ops'
      end
  end.

(** [perform] with the errors collected so far: no case of the switch is for
    rollback-on-error. *)
Fixpoint perform_from (ec : edit_config) (ops : list edit_op) (perr : list error)
  : M hst (option error) :=
  match ops with
  | [] => ret (match perr with [] => None | _ => Some (EPerform perr) end)
  | o :: ops' =>
      err <- edit_op_Perform ec o ;;
      match err with
      | None => perform_from ec ops' perr
      | Some err =>
          match ErrorOption ec with
          | erropt_stop | erropt_notset => ret (Some err)
          | erropt_cont => perform_from ec ops' (perr ++ [err])
          | erropt_rollback => perform_from ec ops' perr
          end
      end
  end.
Definition perform (ec : edit_config) (ops : list edit_op) : M hst (option error) :=
  perform_from ec ops [].

Definition ec_validateChoices (ec : edit_config) (ms : ModelSet) : option error :=
  match Descendant ms [] with
  | None => None
  | Some sch => validateChoices (ec_Children ec) [] (default_operation_Get (DefaultOperation ec)) sch
  end.

Definition EditConfig (ec : edit_config) : M hst (option error) :=
  s <- sess ;;
  let ms := s_schema s in
  match ec_validateChoices ec ms with
  | Some e => ret (Some e)
  | None =>
      match traverse_all ms (ec_Children ec) (default_operation_Get (DefaultOperation ec)) [] with
      | Crash => go_panic
      | Panic e => ret (Some e)
      | Ops ops =>
          pre <- (match ErrorOption ec with
                  | erropt_rollback => ec_test ec ops
                  | _ => ret None
                  end) ;;
          match pre with
          | Some err => ret (Some err)
          | None => perform ec ops
          end
      end
  end.

Definition editConfigXML (ctx : Context) (target def_operation test_opt error_opt config : string)
  : M hst (option error) :=
  s <- sess ;;
  match trylock (Pid ctx) s with
  | Some e => ret (Some e)
  | None =>
      match newEditConfigXML ctx target def_operation test_opt error_opt config with
      | inr e => ret (Some e)
      | inl ec => EditConfig ec
      end
  end.

(** ** Lemmas *)

(** What authorisation comes to, as a function of the state: both decisions of
    the access-control service, for the permissions the operation needs. *)
Definition allowed (ec : edit_config) (e : edit_op) (w : world) (perm : AuthPerm) : option bool :=
  let ctx := ec_ctx ec in
  match getPathAttrsForPerm e perm (w_sess w) with
  | None => None
  | Some (_, None) => Some false
  | Some (cmd, Some attrs) =>
      Some (AuthorizeCommand (cx_Auth ctx) (Uid ctx) (Groups ctx) cmd (Some attrs)
            && AuthorizePath (cx_Auth ctx) (Uid ctx) (Groups ctx) (eo_path e) None perm)
  end.

Definition needed (ec : edit_config) (e : edit_op) (w : world) : list AuthPerm :=
  let exist := exists_op ec e w in
  match eo_op e with
  | op_merge => [if exist then P_UPDATE else P_CREATE]
  | op_replace => if exist then [P_DELETE; P_CREATE] else [P_CREATE]
  | op_create => [P_CREATE]
  | op_delete | op_remove => [P_DELETE]
  | op_notset => []
  end.

(** All of them, asked in order until one is refused. *)
Fixpoint all_allowed (ec : edit_config) (e : edit_op) (w : world) (perms : list AuthPerm)
  : option bool :=
  match perms with
  | [] => Some true
  | p :: ps =>
      match allowed ec e w p with
      | None => None
      | Some false => Some false
      | Some true => all_allowed ec e w ps
      end
  end.

(** A handler that only adds to the trace. *)
Definition only_events (h h' : hst) : Prop :=
  exists evs, h' = Hst (World (w_sess (h_world h)) (w_cm (h_world h)) (w_log (h_world h))
    (w_rodisk (h_world h)) (evs ++ w_trace (h_world h))) (h_blk h).

Lemma only_events_refl h : only_events h h.
Proof. exists []. by destruct h as [[] ?]. Qed.

Lemma only_events_trans h1 h2 h3 : only_events h1 h2 -> only_events h2 h3 -> only_events h1 h3.
Proof. intros [e1 ->] [e2 ->]. exists (e2 ++ e1). cbn. by rewrite app_assoc. Qed.

Lemma only_events_session h h' : only_events h h' ->
  w_sess (h_world h') = w_sess (h_world h) /\ w_cm (h_world h') = w_cm (h_world h) /\
  h_blk h' = h_blk h.
Proof. by intros [evs ->]. Qed.

Lemma authorize_run ec perm e h :
  match allowed ec e (h_world h) perm with
  | None => authorize ec perm e h = None
  | Some b => exists h', authorize ec perm e h = Some (b, h') /\ only_events h h' /\
                (TestOption ec = testopt_testonly -> h' = h)
  end.
Proof.
  unfold allowed, authorize, sess. rewrite (bind_eq _ _ h _ h eq_refl).
  destruct (getPathAttrsForPerm e perm _) as [[cmd [attrs|]]|]; [| |done].
  - destruct (AuthorizeCommand _ _ _ _ _); cbn [negb andb];
      [|exists h; split; [done|]; split; [apply only_events_refl|done]].
    destruct (AuthorizePath _ _ _ _ _ _); cbn [negb andb].
    { exists h. split; [done|]. split; [apply only_events_refl|done]. }
    destruct (bool_decide_reflect (TestOption ec = testopt_testonly)) as [Ht|Ht]; cbn [negb].
    { exists h. split; [done|]. split; [apply only_events_refl|done]. }
    eexists. split; [reflexivity|]. split; [|done].
    by exists [EvAcctStop cmd (Some access_denied); EvAcctStart cmd (Some attrs)].
  - exists h. split; [done|]. split; [apply only_events_refl|done].
Qed.

Lemma allowed_only_events ec e perm h h' :
  only_events h h' -> allowed ec e (h_world h') perm = allowed ec e (h_world h) perm.
Proof. by intros [evs ->]. Qed.

Lemma edit_op_Auth_run ec e h :
  match all_allowed ec e (h_world h) (needed ec e (h_world h)) with
  | None => edit_op_Auth ec e h = None
  | Some b => exists h', edit_op_Auth ec e h = Some (b, h') /\ only_events h h' /\
                (TestOption ec = testopt_testonly -> h' = h)
  end.
Proof.
  unfold edit_op_Auth, the_world. rewrite (bind_eq _ _ h _ h eq_refl). unfold needed.
  assert (Hone : forall perm,
    match all_allowed ec e (h_world h) [perm] with
    | None => authorize ec perm e h = None
    | Some b => exists h', authorize ec perm e h = Some (b, h') /\ only_events h h' /\
                  (TestOption ec = testopt_testonly -> h' = h)
    end).
  { intros perm. pose proof (authorize_run ec perm e h) as Hr. cbn.
    destruct (allowed ec e (h_world h) perm) as [[]|]; done. }
  destruct (eo_op e); try apply Hone.
  - cbn. exists h. split; [done|]. split; [apply only_events_refl|done].
  - destruct (exists_op ec e (h_world h)).
    2: { erewrite bind_eq by reflexivity. cbn [negb]. apply Hone. }
    cbn [all_allowed]. pose proof (authorize_run ec P_DELETE e h) as Hd.
    destruct (allowed ec e (h_world h) P_DELETE) as [[]|].
    + destruct Hd as (h1 & E1 & Hev1 & Ht1).
      pose proof (authorize_run ec P_CREATE e h1) as Hc.
      rewrite (allowed_only_events _ _ _ _ _ Hev1) in Hc.
      erewrite !bind_eq by exact E1. cbn [negb].
      destruct (allowed ec e (h_world h) P_CREATE) as [[]|]; [| |done];
        destruct Hc as (h2 & E2 & Hev2 & Ht2); exists h2; (split; [done|]);
        (split; [by eapply only_events_trans|]); intros Ht; by rewrite Ht2, Ht1.
    + destruct Hd as (h1 & E1 & Hev1 & Ht1). erewrite bind_eq by exact E1. by exists h1.
    + unfold bind. by rewrite Hd.
Qed.

(** Testing only asks for authorisation. *)
Lemma edit_op_Test_run ec e h r h' :
  edit_op_Test ec e h = Some (r, h') ->
  only_events h h' /\ (TestOption ec = testopt_testonly -> h' = h) /\
  (all_allowed ec e (h_world h) (needed ec e (h_world h)) = Some false -> r = Some access_denied).
Proof.
  unfold edit_op_Test. intros H. apply bind_Some in H as (ok & h1 & H1 & H).
  pose proof (edit_op_Auth_run ec e h) as Ha.
  destruct (all_allowed ec e (h_world h) (needed ec e (h_world h))) as [b|];
    [|by rewrite Ha in H1].
  destruct Ha as (h2 & E & Hev & Ht). rewrite E in H1. injection H1 as -> ->.
  destruct ok; cbn [negb] in H.
  - apply bind_Some in H as (w & h2 & H2 & H). injection H2 as <- <-.
    assert (h' = h1) as -> by (split_run H; by injection H as _ <-). done.
  - injection H as <- <-. done.
Qed.

Lemma edit_op_Perform_denied ec e h r h' :
  edit_op_Perform ec e h = Some (r, h') ->
  all_allowed ec e (h_world h) (needed ec e (h_world h)) = Some false ->
  r = Some access_denied /\ only_events h h'.
Proof.
  unfold edit_op_Perform. intros H Hd.
  assert (Htest : forall k, bind (edit_op_Test ec e) (fun err => match err with
      | Some err => ret (Some err) | None => k end) h = Some (r, h') ->
    r = Some access_denied /\ only_events h h').
  { intros k Hk. apply bind_Some in Hk as (err & h1 & H1 & Hk).
    destruct (edit_op_Test_run ec e h err h1 H1) as (Hev & _ & Hr).
    rewrite (Hr Hd) in Hk. injection Hk as <- <-. done. }
  destruct (TestOption ec).
  - by eapply Htest.
  - by eapply Htest.
  - pose proof (edit_op_Auth_run ec e h) as Ha. rewrite Hd in Ha.
    destruct Ha as (h2 & E & Hev & _). erewrite bind_eq in H by exact E.
    injection H as <- <-. done.
  - destruct (edit_op_Test_run ec e h r h' H) as (Hev & _ & Hr). auto.
Qed.

Lemma edit_op_Test_session ec e s : preserves (fun h => w_sess (h_world h) = s) (edit_op_Test ec e).
Proof.
  intros h r h' Hs H. destruct (edit_op_Test_run ec e h r h' H) as (Hev & _).
  apply only_events_session in Hev as [-> _]. done.
Qed.

Lemma ec_test_session ec ops s : preserves (fun h => w_sess (h_world h) = s) (ec_test ec ops).
Proof.
  induction ops as [|o ops IH]; cbn; [apply preserves_ret|].
  apply preserves_bind; [apply edit_op_Test_session|intros [e|]; [apply preserves_ret|apply IH]].
Qed.

Section TestOnly.
Context (ec : edit_config) (Ht : TestOption ec = testopt_testonly) (h0 : hst).

Lemma edit_op_Test_only e : preserves (eq h0) (edit_op_Test ec e).
Proof.
  intros h r h' <- H. destruct (edit_op_Test_run ec e h0 r h' H) as (_ & Hr & _).
  by rewrite Hr.
Qed.

Lemma perform_test_only ops : forall perr, preserves (eq h0) (perform_from ec ops perr).
Proof.
  induction ops as [|o ops IH]; intros perr; cbn; [apply preserves_ret|].
  apply preserves_bind.
  - unfold edit_op_Perform. rewrite Ht. apply edit_op_Test_only.
  - intros [e|]; [|apply IH]. destruct (ErrorOption ec); first [apply preserves_ret | apply IH].
Qed.

Lemma ec_test_only ops : preserves (eq h0) (ec_test ec ops).
Proof.
  induction ops as [|o ops IH]; cbn; [apply preserves_ret|].
  apply preserves_bind; [apply edit_op_Test_only|intros [e|]; [apply preserves_ret|apply IH]].
Qed.

Lemma EditConfig_test_only : preserves (eq h0) (EditConfig ec).
Proof.
  unfold EditConfig. apply preserves_bind; [apply preserves_gets|intros s].
  cbv zeta. destruct (ec_validateChoices _ _); [apply preserves_ret|].
  destruct (traverse_all _ _ _ _) as [ops|e|]; [|apply preserves_ret|apply preserves_panic].
  apply preserves_bind.
  - destruct (ErrorOption ec); try apply preserves_ret.
    apply ec_test_only.
  - intros [e|]; [apply preserves_ret|apply perform_test_only].
Qed.
End TestOnly.

Lemma perform_rollback ec ops : ErrorOption ec = erropt_rollback ->
  forall h r h', perform_from ec ops [] h = Some (r, h') -> r = None.
Proof.
  intros He. induction ops as [|o ops IH]; intros h r h'; cbn; [by intros [= <- <-]|].
  intros H. apply bind_Some in H as ([e|] & h1 & _ & H); [rewrite He in H|]; by eapply IH.
Qed.

Lemma perform_stop ec ops : ErrorOption ec = erropt_stop ->
  forall h e h', perform ec ops h = Some (Some e, h') ->
  exists pre o post h1, ops = pre ++ o :: post /\ perform ec pre h = Some (None, h1) /\
    edit_op_Perform ec o h1 = Some (Some e, h').
Proof.
  intros He. unfold perform. induction ops as [|o ops IH]; intros h e h'; cbn; [done|].
  intros H. apply bind_Some in H as ([e'|] & h1 & H1 & H).
  - rewrite He in H. injection H as -> ->. exists [], o, ops, h. done.
  - destruct (IH h1 e h' H) as (pre & o' & post & h2 & -> & Hp & Ho).
    exists (o :: pre), o', post, h2. split; [done|]. split; [|done].
    cbn. by erewrite bind_eq by exact H1.
Qed.

(** ** Invariants *)

Section EditInv.
Context (I : world -> Prop) (B : (option DiffNode -> world -> option world) -> Prop).
Hypothesis Hcand : forall w d, I w -> I (set_sess (set_candidate d (w_sess w)) w).
(** [J]: between the start and the stop of an accounted task *)
Context (J : list string -> world -> Prop).
Hypothesis HJ : forall b cmd, B b -> blk_preserves (J cmd) b.
Hypothesis Jcand : forall cmd w d, J cmd w -> J cmd (set_sess (set_candidate d (w_sess w)) w).
Hypothesis Hstart : forall cmd attrs w, I w -> J cmd (add_event (EvAcctStart cmd attrs) w).
Hypothesis Hstop : forall cmd err w, J cmd w -> I (add_event (EvAcctStop cmd err) w).

Lemma accounted_inv perm e m stop :
  (forall cmd, preserves (hinv (J cmd) B) m) -> preserves (hinv I B) (accounted perm e m stop).
Proof.
  intros Hm. unfold accounted. apply preserves_bind; [apply sess_inv|intros s].
  destruct (getPathAttrsForPerm e perm s) as [[cmd attrs]|]; [|apply preserves_panic].
  intros h r h' [Hi Hb] H. apply bind_Some in H as ([] & h1 & H1 & H).
  apply bind_Some in H as (err & h2 & H2 & H). apply bind_Some in H as ([] & h3 & H3 & H).
  injection H1 as <-. injection H3 as <-. injection H as <- <-.
  assert (Hh : hinv (J cmd) B (Hst (add_event (EvAcctStart cmd attrs) (h_world h)) (h_blk h)))
    by (split; [by apply Hstart|done]).
  destruct (Hm cmd _ _ _ Hh H2) as [Hj Hb2].
  split; [by apply Hstop|done].
Qed.

Lemma removeInternal_run_inv (K : world -> Prop) ec e :
  (forall w d, K w -> K (set_sess (set_candidate d (w_sess w)) w)) ->
  preserves (hinv K B) (delete_path (ec_ctx ec) (eo_path e) DontCheckAuth ;;;
                        ret (None : option error)).
Proof. intros HK. apply preserves_bind; [by apply delete_path_inv|intros; apply preserves_ret]. Qed.

Lemma removeInternal_inv ec e b : preserves (hinv I B) (removeInternal ec e b).
Proof.
  unfold removeInternal. destruct b.
  - apply accounted_inv. intros cmd. apply removeInternal_run_inv, Jcand.
  - apply removeInternal_run_inv, Hcand.
Qed.

Lemma edit_op_Merge_inv ec e : preserves (hinv I B) (edit_op_Merge ec e).
Proof.
  apply accounted_inv. intros cmd. unfold merge_op.
  apply preserves_bind; [apply the_world_inv|intros w].
  go_step; [apply preserves_ret|]. apply _set_inv; [intros b; apply HJ|apply Jcand].
Qed.

Lemma edit_op_Set_inv ec e : preserves (hinv I B) (edit_op_Set ec e).
Proof.
  unfold edit_op_Set. destruct (eo_op e).
  - go_step; apply preserves_ret.
  - apply edit_op_Merge_inv.
  - unfold edit_op_Replace. apply preserves_bind; [apply the_world_inv|intros w].
    apply preserves_bind; [apply removeInternal_inv|intros [err|]];
      [apply preserves_ret|apply edit_op_Merge_inv].
  - apply accounted_inv. intros cmd. unfold create_op.
    apply preserves_bind; [apply the_world_inv|intros w].
    go_step; [apply preserves_ret|]. apply _set_inv; [intros b; apply HJ|apply Jcand].
  - apply accounted_inv. intros cmd. unfold delete_op.
    apply preserves_bind; [apply the_world_inv|intros w].
    go_step; [apply preserves_ret|]. apply removeInternal_run_inv, Jcand.
  - apply removeInternal_inv.
Qed.

Lemma authorize_inv ec perm e : preserves (hinv I B) (authorize ec perm e).
Proof.
  unfold authorize. apply preserves_bind; [apply sess_inv|intros s].
  destruct (getPathAttrsForPerm e perm s) as [[cmd [attrs|]]|];
    [|apply preserves_ret|apply preserves_panic].
  go_step; [apply preserves_ret|]. apply preserves_bind; [|intros; apply preserves_ret].
  go_step; [|apply preserves_ret].
  intros h r h' [Hi Hb] H. apply bind_Some in H as ([] & h1 & H1 & H).
  injection H1 as <-. injection H as <- <-. split; [by apply Hstop, Hstart|done].
Qed.

Lemma edit_op_Auth_inv ec e : preserves (hinv I B) (edit_op_Auth ec e).
Proof.
  unfold edit_op_Auth. apply preserves_bind; [apply the_world_inv|intros w].
  destruct (eo_op e); try apply authorize_inv; [apply preserves_ret|].
  apply preserves_bind; [go_step; [apply authorize_inv|apply preserves_ret]|intros ok].
  go_step; [apply preserves_ret|apply authorize_inv].
Qed.

Lemma edit_op_Test_inv ec e : preserves (hinv I B) (edit_op_Test ec e).
Proof.
  unfold edit_op_Test. apply preserves_bind; [apply edit_op_Auth_inv|intros ok].
  go_step; [apply preserves_ret|]. apply preserves_bind; [apply the_world_inv|intros w].
  repeat go_step.
Qed.

Lemma edit_op_Perform_inv ec e : preserves (hinv I B) (edit_op_Perform ec e).
Proof.
  unfold edit_op_Perform. destruct (TestOption ec).
  1,2: apply preserves_bind; [apply edit_op_Test_inv|intros [err|]];
       [apply preserves_ret|apply edit_op_Set_inv].
  - apply preserves_bind; [apply edit_op_Auth_inv|intros ok].
    go_step; [apply preserves_ret|apply edit_op_Set_inv].
  - apply edit_op_Test_inv.
Qed.

Lemma EditConfig_inv ec : preserves (hinv I B) (EditConfig ec).
Proof.
  unfold EditConfig. apply preserves_bind; [apply sess_inv|intros s].
  cbv zeta. go_step; [apply preserves_ret|].
  destruct (traverse_all _ _ _ _) as [ops|e|]; [|apply preserves_ret|apply preserves_panic].
  apply preserves_bind.
  - assert (Ht : preserves (hinv I B) (ec_test ec ops)).
    { induction ops as [|o ops IH]; cbn; [apply preserves_ret|].
      apply preserves_bind; [apply edit_op_Test_inv|intros [e|]; [apply preserves_ret|apply IH]]. }
    destruct (ErrorOption ec); try apply preserves_ret. exact Ht.
  - intros [e|]; [apply preserves_ret|]. unfold perform. generalize (@nil error) as perr.
    induction ops as [|o ops IH]; intros perr; cbn; [apply preserves_ret|].
    apply preserves_bind; [apply edit_op_Perform_inv|intros [e|]; [|apply IH]].
    destruct (ErrorOption ec); first [apply preserves_ret | apply IH].
Qed.

Lemma editConfigXML_inv ctx t d o e c : preserves (hinv I B) (editConfigXML ctx t d o e c).
Proof.
  unfold editConfigXML. apply preserves_bind; [apply sess_inv|intros s].
  go_step; [apply preserves_ret|]. go_step; [apply EditConfig_inv|apply preserves_ret].
Qed.
End EditInv.

Lemma editConfigXML_foreign ctx s t d o e c h :
  s_lpid s <> 0 -> s_lpid s <> Pid ctx -> w_sess (h_world h) = s ->
  exists err, editConfigXML ctx t d o e c h = Some (Some err, h) /\ is_lock_denied err = true.
Proof.
  intros Hl Hf Hs. destruct (trylock_foreign (Pid ctx) s Hl Hf) as (err & He & Hd).
  exists err. split; [|done]. unfold editConfigXML, bind, sess, gets. by rewrite Hs, He.
Qed.

(** Accounting records, oldest first: every start is followed by its stop. *)
Fixpoint acct_pairs (evs : list event) : Prop :=
  match evs with
  | [] => True
  | EvAcctStart cmd _ :: EvAcctStop cmd' _ :: evs' => cmd = cmd' /\ acct_pairs evs'
  | _ => False
  end.

Lemma acct_pairs_snoc evs cmd attrs err :
  acct_pairs evs -> acct_pairs (evs ++ [EvAcctStart cmd attrs; EvAcctStop cmd err]).
Proof.
  intros H. remember (length evs) as n eqn:Hn.
  revert evs H Hn. induction (lt_wf n) as [n _ IH]. intros evs H ->.
  destruct evs as [|[] [|[] evs]]; cbn in H |- *; try done. destruct H as [-> H].
  split; [done|]. eapply (IH (length evs)); [cbn; lia|exact H|done].
Qed.

(** The events since [w0] are complete pairs, or complete pairs and a start. *)
Definition accounted_since (w0 w : world) : Prop :=
  exists evs, rev (w_trace w) = rev (w_trace w0) ++ evs /\ acct_pairs evs.
Definition accounting_since (w0 : world) (cmd : list string) (w : world) : Prop :=
  exists evs attrs, rev (w_trace w) = rev (w_trace w0) ++ evs ++ [EvAcctStart cmd attrs] /\
    acct_pairs evs.

Lemma EditConfig_accounts ec w0 h r h' :
  h_blk h = [] -> accounted_since w0 (h_world h) ->
  EditConfig ec h = Some (r, h') -> accounted_since w0 (h_world h').
Proof.
  intros Hb Hw H.
  assert (HB : forall K, forall b, (fun _ : option DiffNode -> world -> option world => False) b ->
    blk_preserves K b) by done.
  apply (EditConfig_inv (accounted_since w0) (fun _ => False) (fun w d Hi => Hi)
    (accounting_since w0) (fun b c => HB _ b) (fun c w d Hi => Hi)) in H.
  - apply H.
  - intros cmd attrs w (evs & He & Hp). exists evs, attrs. cbn. by rewrite He, <- app_assoc.
  - intros cmd err w (evs & attrs & He & Hp).
    exists (evs ++ [EvAcctStart cmd attrs; EvAcctStop cmd err]).
    split; [|by apply acct_pairs_snoc]. cbn [w_trace add_event rev].
    rewrite He, <- !app_assoc. done.
  - split; [done|]. rewrite Hb. constructor.
Qed.

(** ** Choices *)

Section snode_ind.
Context (P : snode -> Prop).
Hypothesis Hnode : forall k n ns pr t ks h sb chs chcs,
  Forall P chcs -> P (SNode k n ns pr t ks h sb chs chcs).

Fixpoint snode_choices_ind (s : snode) : P s :=
  match s with
  | SNode k n ns pr t ks h sb chs chcs =>
      Hnode k n ns pr t ks h sb chs chcs
        ((fix go (l : list snode) : Forall P l :=
            match l with
            | [] => Forall_nil_2 P
            | c :: l' => Forall_cons_2 P c l' (snode_choices_ind c) (go l')
            end) chcs)
  end.
End snode_ind.

(** A fold of functions that only add adds what each of them adds. *)
Lemma fold_adds (f : snode -> gset string -> gset string) l :
  Forall (fun c => forall r, f c r = f c ∅ ∪ r) l ->
  forall r, fold_left (fun r c => f c r) l r = fold_left (fun r c => f c r) l ∅ ∪ r.
Proof.
  intros Hl. induction Hl as [|c l Hc _ IH]; intros r; cbn; [by rewrite union_empty_l_L|].
  rewrite IH, (IH (f c ∅)), Hc. by rewrite union_assoc_L.
Qed.

Lemma choice_remove_adds name c :
  (forall r, choice_remove name c r = choice_remove name c ∅ ∪ r) /\
  (forall r, case_remove name c r = case_remove name c ∅ ∪ r).
Proof.
  induction c as [k n ns pr t ks h sb chs chcs IH] using snode_choices_ind.
  assert (IH1 : forall r, fold_left (fun r c => choice_remove name c r) chcs r =
    fold_left (fun r c => choice_remove name c r) chcs ∅ ∪ r).
  { apply fold_adds. eapply Forall_impl; [exact IH|]. by intros x []. }
  assert (IH2 : forall r, fold_left (fun r c => case_remove name c r) chcs r =
    fold_left (fun r c => case_remove name c r) chcs ∅ ∪ r).
  { apply fold_adds. eapply Forall_impl; [exact IH|]. by intros x []. }
  assert (Hn : forall r : gset string,
    fold_left (fun r ch => {[sn_name ch]} ∪ r) chs r =
    fold_left (fun r ch => {[sn_name ch]} ∪ r) chs ∅ ∪ r).
  { apply (fold_adds (fun ch (r : gset string) => {[sn_name ch]} ∪ r)). apply Forall_forall. set_solver. }
  assert (Hadd : forall r, (if bool_decide (n <> name) then {[n]} ∪ r else r) =
    (if bool_decide (n <> name) then {[n]} ∪ (∅ : gset string) else ∅) ∪ r).
  { intros r. destruct (bool_decide _); set_solver. }
  split; intros r; cbn.
  - destruct k; repeat case_match; first [apply IH2 | by rewrite union_empty_l_L].
  - destruct k; first [apply Hadd | repeat case_match; first [apply IH1 | apply Hn]].
Qed.

Lemma choiceNodesToRemove_adds chcs name r :
  choiceNodesToRemove chcs name r = choiceNodesToRemove chcs name ∅ ∪ r.
Proof.
  apply (fold_adds (choice_remove name)). apply Forall_forall. intros c _.
  apply choice_remove_adds.
Qed.

(** The names that may not follow [name] among the children of a node. *)
Definition excluded_by (sch : snode) (name : string) : gset string :=
  choiceNodesToRemove (sn_choices sch) name ∅.

(** The children that are kept, by name. *)
Definition kept_names (children : list edit_node) (parentop : operation) : list string :=
  map (fun c => Local (en_XMLName c))
    (filter (fun c => is_delete (getOperation c parentop) = false) children).

Fixpoint compatible (sch : snode) (names : list string) : Prop :=
  match names with
  | [] => True
  | n :: names' => Forall (fun m => m ∉ excluded_by sch n) names' /\ compatible sch names'
  end.

Lemma check_nodes_spec children curpath op sch : forall ex,
  check_nodes children curpath op sch ex = None <->
  Forall (fun m => m ∉ ex) (kept_names children op) /\ compatible sch (kept_names children op).
Proof.
  unfold kept_names. induction children as [|c cs IH]; intros ex; [by repeat constructor|].
  cbn [check_nodes].
  unfold checkNode.
  destruct (is_delete (getOperation c op)) eqn:Ed.
  { rewrite filter_cons_False by congruence. apply IH. }
  rewrite filter_cons_True by congruence. cbn [map compatible]. rewrite Forall_cons.
  destruct (decide _) as [Hin|Hin].
  { split; [done|]. by intros [[Hni _] _]. }
  rewrite IH, choiceNodesToRemove_adds. fold (excluded_by sch (Local (en_XMLName c))).
  rewrite !Forall_forall. set_solver.
Qed.

Lemma check_nodes_error children curpath op sch : forall ex e,
  check_nodes children curpath op sch ex = Some e ->
  exists n, n ∈ kept_names children op /\ e = one_case_error curpath n.
Proof.
  unfold kept_names. induction children as [|c cs IH]; intros ex e; [done|].
  cbn [check_nodes].
  unfold checkNode.
  destruct (is_delete (getOperation c op)) eqn:Ed.
  { rewrite filter_cons_False by congruence. apply IH. }
  rewrite filter_cons_True by congruence. cbn [map]. destruct (decide _).
  - intros [= <-]. eexists. split; [by left|done].
  - intros H. apply IH in H as (n' & Hn & ->). exists n'. split; [by right|done].
Qed.

(** ** The edit returns *)

Section edit_node_ind.
Context (P : edit_node -> Prop).
Hypothesis Hnode : forall x o v chs, Forall P chs -> P (EditNode x o v chs).

Fixpoint edit_node_nested_ind (n : edit_node) : P n :=
  match n with
  | EditNode x o v chs =>
      Hnode x o v chs
        ((fix go (l : list edit_node) : Forall P l :=
            match l with
            | [] => Forall_nil_2 P
            | c :: l' => Forall_cons_2 P c l' (edit_node_nested_ind c) (go l')
            end) chs)
  end.
End edit_node_ind.

(** No index out of range, and only operations on non-empty paths. *)
Definition good (t : trav) : Prop :=
  match t with
  | Ops l => Forall (fun o => eo_path o <> []) l
  | Panic _ => True
  | Crash => False
  end.

Lemma good_app a b : good a -> good b -> good (trav_app a b).
Proof. destruct a, b; cbn; try done. intros H1 H2. by apply Forall_app. Qed.

Section Good.
Context (ms : ModelSet).
Hypothesis Hkeys : forall p sch, Descendant ms p = Some sch -> sn_kind sch = KList -> sn_keys sch <> [].

Lemma good_Add op path : path <> [] -> good (Add op path).
Proof. intros H. by repeat constructor. Qed.

Lemma good_unknown path : path <> [] -> good (panic_unknown path).
Proof. intros H. unfold panic_unknown. by destruct (unknown_last_Some path H) as [e ->]. Qed.

Lemma good_with_schema en path k :
  path <> [] -> (forall sch, Descendant ms path = Some sch -> good (k sch)) ->
  good (with_schema ms en path k).
Proof.
  intros Hp Hk. unfold with_schema. destruct (Descendant ms path) as [sch|] eqn:E;
    [|by apply good_unknown]. destruct (bool_decide _); [done|by apply Hk].
Qed.

Lemma good_subtree en kids op path :
  path <> [] -> (forall o, good (kids o)) -> good (traverseSubtree en kids op path).
Proof.
  intros Hp Hk. unfold traverseSubtree. cbv zeta.
  destruct (is_delete op); apply good_app; auto using good_Add.
Qed.

Lemma good_container en kids op path :
  path <> [] -> (forall o, good (kids o)) -> good (traverseContainer ms en kids op path).
Proof.
  intros Hp Hk. apply good_with_schema; [done|intros sch _].
  destruct (validateChoices _ _ _ _); [done|].
  destruct (_ && _); [apply Hk|by apply good_subtree].
Qed.

Lemma good_leaf en op path : path <> [] -> good (traverseLeaf ms en op path).
Proof.
  intros Hp. apply good_with_schema; [done|intros sch _]. cbv zeta.
  destruct (_ && _); apply good_Add; [|done]. by destruct path.
Qed.

Lemma good_list en kids_at op path :
  path <> [] -> (forall n p o, p <> [] -> good (kids_at n p o)) ->
  good (traverseList ms en kids_at op path).
Proof.
  intros Hp Hk. apply good_with_schema; [done|intros sch Hsch].
  destruct (bool_decide_reflect (sn_kind sch = KList)) as [Hl|_]; cbn [negb]; [|constructor].
  specialize (Hkeys path sch Hsch Hl).
  destruct (validateChoices _ _ _ _); [done|]. unfold find_key.
  destruct (en_Children en) as [|c cs].
  { destruct (is_delete _); [|constructor]. apply good_subtree; auto. }
  destruct (sn_keys sch) as [|key ks]; [done|].
  destruct (bool_decide _).
  - cbv zeta. destruct (Descendant ms (path ++ [en_Value c])); [|by apply good_unknown].
    destruct (bool_decide _); [done|]. apply good_subtree; [by destruct path|].
    intros o. apply Hk. by destruct path.
  - destruct (find_key_later key cs); [constructor|].
    destruct (is_delete _); [|constructor]. apply good_subtree; auto.
Qed.

Lemma traverse_good en : forall op cur, good (traverse ms en op cur).
Proof.
  induction en as [x o v chs IH] using edit_node_nested_ind. intros op cur.
  cbn [traverse en_XMLName en_Children]. set (path := cur ++ [Local x]).
  assert (Hp : path <> []) by (by destruct cur).
  destruct (Descendant ms path) as [sch|]; [|constructor].
  match goal with |- context [traverseList ms _ ?K] => set (kids := K) end.
  assert (Hk : forall n p o', good (kids n p o')).
  { intros n p o'. unfold kids. clear -IH. revert n.
    induction IH as [|c l Hc _ IHl]; intros n; [constructor|].
    destruct n; [apply good_app; [apply Hc|apply IHl]|apply IHl]. }
  destruct (sn_kind sch);
    first [apply good_leaf | apply good_list | apply good_container]; try exact Hp;
    intros; apply Hk.
Qed.

Lemma traverse_all_good children op path : good (traverse_all ms children op path).
Proof.
  induction children as [|c cs IH]; cbn; [constructor|].
  apply good_app; [apply traverse_good|exact IH].
Qed.
End Good.

Section EditReturns.
Context (ok : world -> Prop).
Hypothesis Hcm : forall w w', w_cm w = w_cm w' -> ok w -> ok w'.
Hypothesis Hattrs : forall ms p, AttrsForPath ms p <> None.

Lemma getPathAttrs_Some e perm s : exists r, getPathAttrsForPerm e perm s = Some r.
Proof.
  unfold getPathAttrsForPerm. cbv zeta.
  destruct (AttrsForPath _ _) eqn:E; [|by apply Hattrs in E]. destruct perm; eauto.
Qed.

Lemma accounted_returns perm e m stop : returns (live ok) m -> returns (live ok) (accounted perm e m stop).
Proof.
  intros Hm. unfold accounted, sess, emit, on_world.
  go_step; [apply returns_gets|]. destruct (getPathAttrs_Some e perm a) as [[cmd attrs] ->].
  repeat first [exact Hm | by apply on_world_returns | go_step].
Qed.

Lemma edit_op_Auth_returns ec e : returns (live ok) (edit_op_Auth ec e).
Proof.
  intros h Hh. pose proof (edit_op_Auth_run ec e h) as Hr.
  destruct (all_allowed ec e (h_world h) (needed ec e (h_world h))) as [b|] eqn:E.
  - destruct Hr as (h' & Hr & Hev & _). exists b, h'. split; [done|].
    apply only_events_session in Hev as (_ & Hc & Hb). by apply (live_same_cm ok Hcm h).
  - exfalso. revert E. generalize (needed ec e (h_world h)) as ps.
    induction ps as [|p ps IH]; cbn; [done|]. unfold allowed at 1.
    destruct (getPathAttrs_Some e p (w_sess (h_world h))) as [[cmd [attrs|]] ->]; [|done].
    by destruct (_ && _).
Qed.

Lemma edit_op_Test_returns ec e : returns (live ok) (edit_op_Test ec e).
Proof.
  unfold edit_op_Test, the_world. apply returns_bind; [apply edit_op_Auth_returns|].
  intros b. repeat go_step.
Qed.

Lemma edit_op_Set_returns ec e : eo_path e <> [] -> returns (live ok) (edit_op_Set ec e).
Proof.
  intros Hp. unfold edit_op_Set.
  assert (Hd : forall c, returns (live ok) (delete_path (ec_ctx ec) (eo_path e) c ;;; ret (None : option error))).
  { intros c. apply returns_bind; [by apply delete_path_returns|intros; apply returns_ret]. }
  assert (Hr : forall b, returns (live ok) (removeInternal ec e b)).
  { intros []; [apply accounted_returns|]; apply Hd. }
  assert (Hm : returns (live ok) (edit_op_Merge ec e)).
  { apply accounted_returns. unfold merge_op, the_world. go_step; [apply returns_gets|].
    go_step; [apply returns_ret|apply _set_returns; [done|by apply path_nameable]]. }
  destruct (eo_op e).
  - go_step; apply returns_ret.
  - exact Hm.
  - unfold edit_op_Replace, the_world. go_step; [apply returns_gets|].
    apply returns_bind; [apply Hr|intros [?|]]; [apply returns_ret|exact Hm].
  - apply accounted_returns. unfold create_op, the_world. go_step; [apply returns_gets|].
    go_step; [apply returns_ret|apply _set_returns; [done|by apply path_nameable]].
  - apply accounted_returns. unfold delete_op, the_world. go_step; [apply returns_gets|].
    go_step; [apply returns_ret|apply Hr].
  - apply Hr.
Qed.

Lemma edit_op_Perform_returns ec e : eo_path e <> [] -> returns (live ok) (edit_op_Perform ec e).
Proof.
  intros Hp. unfold edit_op_Perform. destruct (TestOption ec).
  1,2: apply returns_bind; [apply edit_op_Test_returns|intros [?|]];
       [apply returns_ret|by apply edit_op_Set_returns].
  - apply returns_bind; [apply edit_op_Auth_returns|intros b].
    go_step; [apply returns_ret|by apply edit_op_Set_returns].
  - apply edit_op_Test_returns.
Qed.

Lemma perform_returns ec ops : Forall (fun o => eo_path o <> []) ops ->
  forall perr, returns (live ok) (perform_from ec ops perr).
Proof.
  induction 1 as [|o ops Ho _ IH]; intros perr; cbn; [apply returns_ret|].
  apply returns_bind; [by apply edit_op_Perform_returns|intros [e|]; [|apply IH]].
  destruct (ErrorOption ec); first [apply returns_ret | apply IH].
Qed.

Lemma ec_test_returns ec ops : returns (live ok) (ec_test ec ops).
Proof.
  induction ops as [|o ops IH]; cbn; [apply returns_ret|].
  apply returns_bind; [apply edit_op_Test_returns|intros [e|]; [apply returns_ret|apply IH]].
Qed.

Lemma EditConfig_returns ec h :
  (forall p sch, Descendant (s_schema (w_sess (h_world h))) p = Some sch ->
     sn_kind sch = KList -> sn_keys sch <> []) ->
  live ok h -> exists r h', EditConfig ec h = Some (r, h') /\ live ok h'.
Proof.
  intros Hkeys Hh. unfold EditConfig. erewrite bind_eq by reflexivity.
  cbv zeta. destruct (ec_validateChoices _ _); [by eexists _, _; split|].
  pose proof (traverse_all_good _ Hkeys (ec_Children ec)
    (default_operation_Get (DefaultOperation ec)) []) as Hg.
  destruct (traverse_all _ _ _ _) as [ops|e|]; [|by eexists _, _; split|done].
  assert (Hr : returns (live ok)
    (pre <- match ErrorOption ec with erropt_rollback => ec_test ec ops | _ => ret None end ;;
     match pre with Some err => ret (Some err) | None => perform ec ops end)).
  { apply returns_bind.
    - destruct (ErrorOption ec); try apply returns_ret. apply ec_test_returns.
    - intros [e|]; [apply returns_ret|]. by apply perform_returns. }
  exact (Hr h Hh).
Qed.

Lemma editConfigXML_returns ctx target defop testopt erropt config h :
  (forall p sch, Descendant (s_schema (w_sess (h_world h))) p = Some sch ->
     sn_kind sch = KList -> sn_keys sch <> []) ->
  live ok h ->
  exists r h', editConfigXML ctx target defop testopt erropt config h = Some (r, h') /\ live ok h'.
Proof.
  intros Hk Hh. unfold editConfigXML. erewrite bind_eq by reflexivity.
  destruct (trylock _ _); [by eexists _, _; split|].
  destruct (newEditConfigXML _ _ _ _ _ _); [|by eexists _, _; split]. by apply EditConfig_returns.
Qed.
End EditReturns.

(** ** Properties *)

(** An edit with test-option "test-only" changes nothing: not the session,
    not the accounting trail, and it runs no other request meanwhile. *)
Theorem edit_test_only_unchanged ctx target defop erropt config h r h' :
  editConfigXML ctx target defop "test-only" erropt config h = Some (r, h') -> h' = h.
Proof.
  unfold editConfigXML. intros H. apply bind_Some in H as (s & h1 & H1 & H).
  injection H1 as _ <-. destruct (trylock (Pid ctx) s); [by injection H as _ <-|].
  unfold newEditConfigXML in H. change (test_option_Set "test-only") with
    (inl testopt_testonly : test_option + error) in H.
  destruct (config_target_Set target); [|by injection H as _ <-].
  destruct (default_operation_Set defop); [|by injection H as _ <-].
  destruct (error_option_Set erropt); [|by injection H as _ <-].
  destruct (xml_config config) as [xs|]; [|by injection H as _ <-].
  destruct (decode_nodes xs) as [ns|]; [|by injection H as _ <-].
  symmetry. eapply EditConfig_test_only; [|reflexivity|exact H]. reflexivity.
Qed.

(** C10: an operation whose permissions the access-control service does not all
    grant (the command and the path, as the state stands when the operation is
    reached) answers access-denied and leaves the session and the commit
    manager alone, under every test option; nothing is merged, created,
    replaced or deleted. *)
Theorem edit_op_unauthorised ec e h r h' :
  edit_op_Perform ec e h = Some (r, h') ->
  all_allowed ec e (h_world h) (needed ec e (h_world h)) = Some false ->
  r = Some access_denied /\ w_sess (h_world h') = w_sess (h_world h) /\
  w_cm (h_world h') = w_cm (h_world h).
Proof.
  intros H Hd. destruct (edit_op_Perform_denied ec e h r h' H Hd) as [-> Hev].
  apply only_events_session in Hev as (-> & -> & _). done.
Qed.

(** Stop-on-error stops: when [perform] fails, the operations before the
    failing one have all succeeded, the error is that of the failing one, and
    the state is the one it left: no later operation has run. *)
Theorem edit_stop_on_error ec ops h e h' :
  ErrorOption ec = erropt_stop -> perform ec ops h = Some (Some e, h') ->
  exists pre o post h1, ops = pre ++ o :: post /\ perform ec pre h = Some (None, h1) /\
    edit_op_Perform ec o h1 = Some (Some e, h').
Proof. intros He. by apply perform_stop. Qed.

(** C28: rollback-on-error is all or nothing as far as the client can tell: an
    edit that reports an error has not changed the session. *)
Theorem edit_rollback_atomic ec h e h' :
  ErrorOption ec = erropt_rollback -> EditConfig ec h = Some (Some e, h') ->
  w_sess (h_world h') = w_sess (h_world h).
Proof.
  intros He H. unfold EditConfig in H. apply bind_Some in H as (s & h1 & H1 & H).
  injection H1 as <- <-. cbv zeta in H.
  destruct (ec_validateChoices _ _); [by injection H as _ <-|].
  destruct (traverse_all _ _ _ _) as [ops|e'|]; [|by injection H as _ <-|done].
  rewrite He in H. apply bind_Some in H as ([e'|] & h1 & H1 & H).
  - injection H as _ <-. by eapply (ec_test_session ec ops).
  - apply perform_rollback in H; done.
Qed.

(** ... but the price is that an error met while applying the operations is
    not reported at all: after the test phase [perform] always answers nil. *)
Theorem edit_rollback_swallows ec ops h r h' :
  ErrorOption ec = erropt_rollback -> perform ec ops h = Some (r, h') -> r = None.
Proof. intros He. by apply perform_rollback. Qed.

(** Accounting is balanced: what one edit adds to the accounting trail is a
    sequence of tasks, each stopped right after it was started, and a task
    that is stopped has the command it was started with.  (Requests other
    clients may get served in between account for themselves.) *)
Theorem edit_accounting_balanced ec h r h' :
  h_blk h = [] -> EditConfig ec h = Some (r, h') ->
  exists evs, rev (w_trace (h_world h')) = rev (w_trace (h_world h)) ++ evs /\ acct_pairs evs.
Proof.
  intros Hb H. apply (EditConfig_accounts ec (h_world h) h r h' Hb); [|exact H].
  exists []. by rewrite app_nil_r.
Qed.

(** One case per choice: an edit passes the check of a node's children
    exactly when no child it keeps is excluded by an earlier one (it belongs
    to another case of a choice the earlier one has a case in); otherwise the
    error names such a child. *)
Theorem one_case_per_choice children curpath op sch :
  (validateChoices children curpath op sch = None <->
   compatible sch (kept_names children op)) /\
  (forall e, validateChoices children curpath op sch = Some e ->
   exists n, n ∈ kept_names children op /\ e = one_case_error curpath n).
Proof.
  unfold validateChoices. destruct (sn_choices sch) as [|c cs] eqn:E.
  - split; [|done]. split; [intros _|done].
    induction (kept_names children op) as [|n l IH]; [done|]. split; [|exact IH].
    apply Forall_forall. intros m _. unfold excluded_by. rewrite E. cbn. set_solver.
  - split; [|by apply check_nodes_error]. rewrite check_nodes_spec.
    split; [by intros []|]. intros H. split; [|exact H]. apply Forall_forall. set_solver.
Qed.

(** An edit always returns: with a schema that gives paths their attributes
    and lists a key, and whatever document, options and other requests, it
    neither panics nor loops. *)
Theorem edit_returns ctx target defop testopt erropt config h :
  (forall ms p, AttrsForPath ms p <> None) ->
  (forall p sch, Descendant (s_schema (w_sess (h_world h))) p = Some sch ->
     sn_kind sch = KList -> sn_keys sch <> []) ->
  hready h ->
  exists r h', editConfigXML ctx target defop testopt erropt config h = Some (r, h').
Proof.
  intros Ha Hk Hh.
  destruct (editConfigXML_returns (fun _ => True) (fun _ _ _ _ => I) Ha ctx target defop testopt erropt
    config h Hk Hh) as (r & h' & E & _). eauto.
Qed.
End Edit.

(** ** Concrete edits *)

Module SampleEdit.
Definition xname (local : string) : xml_name := XName "urn:s" local.
Definition delete_attr : xml_name * string := (XName netconfNS "operation", "delete").
(** <system><host-name>b</host-name></system>, or the deletion of the host name. *)
Definition xml (doc : string) : list xml_elem + error :=
  if bool_decide (doc = "set")
  then inl [XElem (xname "system") [] "" [XElem (xname "host-name") [] "b" []]]
  else inl [XElem (xname "system") [] "" [XElem (xname "host-name") [delete_attr] "" []]].

Definition h0 : @hst Sample.lib := Hst (sample_world 10) [].
Definition ec (a : Auth) (t : test_option) (eo : error_option) (ns : list edit_node) : edit_config :=
  EC ns target_candidate defop_merge t eo (Sample.client 10 1000 a).
Definition host_a : list string := ["system"; "host-name"; "a"].

Lemma edit_test_only_unchanged_witness :
  exists r h', editConfigXML xml (Sample.client 10 1000 Sample.allow) "candidate" "merge" "test-only"
    "stop-on-error" "set" h0 = Some (r, h') /\ h' = h0.
Proof.
  exists None, h0. split; [reflexivity|].
  exact (edit_test_only_unchanged xml (Sample.client 10 1000 Sample.allow) "candidate" "merge"
    "stop-on-error" "set" h0 None h0 eq_refl).
Defined.

(** A document that does change the candidate when it is not only tested. *)
Example edit_set_changes :
  option_map (fun r => (fst r, s_candidate (w_sess (h_world (snd r)))))
    (editConfigXML xml (Sample.client 10 1000 Sample.allow) "candidate" "merge" "set"
       "stop-on-error" "set" h0)
  = Some (None, [["system"; "host-name"; "b"]; host_a] : @data Sample.lib).
Proof. reflexivity. Qed.

Lemma edit_op_unauthorised_witness :
  exists h', edit_op_Perform (ec Sample.deny testopt_set erropt_stop [])
      (EditOp op_delete host_a) h0 = Some (Some access_denied, h') /\
    w_sess (h_world h') = w_sess (h_world h0).
Proof.
  exists h0. split; [reflexivity|].
  exact (proj1 (proj2 (edit_op_unauthorised (ec Sample.deny testopt_set erropt_stop [])
    (EditOp op_delete host_a) h0 (Some access_denied) h0 eq_refl eq_refl))).
Defined.

(** The accounting of one operation that fails with [err]. *)
Definition after_task (cmd : string) (path : list string) (err : option error) : @hst Sample.lib :=
  Hst (add_event (EvAcctStop (cmd :: path) err)
        (add_event (EvAcctStart (cmd :: path)
           (Some ({| Secret := false |} :: map (fun _ => {| Secret := false |}) path)))
           (sample_world 10))) [].

Lemma edit_stop_on_error_witness :
  exists pre o post h1,
    [EditOp op_create host_a; EditOp op_merge ["service"]] = pre ++ o :: post /\
    perform (ec Sample.allow testopt_set erropt_stop []) pre h0 = Some (None, h1) /\
    edit_op_Perform (ec Sample.allow testopt_set erropt_stop []) o h1 =
      Some (Some (NewNodeExistsError host_a), after_task "set" host_a (Some (NewNodeExistsError host_a))).
Proof.
  exact (edit_stop_on_error (ec Sample.allow testopt_set erropt_stop [])
    [EditOp op_create host_a; EditOp op_merge ["service"]] h0 (NewNodeExistsError host_a)
    (after_task "set" host_a (Some (NewNodeExistsError host_a))) eq_refl eq_refl).
Defined.

(** Deleting the same leaf twice: the test phase passes for the first. *)
Definition del_ghost : list edit_node :=
  [EditNode (xname "system") op_notset "" [EditNode (xname "domain-name") op_delete "x" []]].

Lemma edit_rollback_atomic_witness :
  EditConfig (ec Sample.allow testopt_testset erropt_rollback del_ghost) h0 =
    Some (Some (NewNodeNotExistsError ["system"; "domain-name"; "x"]), h0) /\
  w_sess (h_world h0) = w_sess (h_world h0).
Proof.
  split; [reflexivity|].
  exact (edit_rollback_atomic (ec Sample.allow testopt_testset erropt_rollback del_ghost) h0
    (NewNodeNotExistsError ["system"; "domain-name"; "x"]) h0 eq_refl eq_refl).
Defined.

Lemma edit_rollback_swallows_witness :
  exists r h', perform (ec Sample.allow testopt_set erropt_rollback []) [EditOp op_create host_a] h0
      = Some (r, h') /\
    edit_op_Perform (ec Sample.allow testopt_set erropt_rollback []) (EditOp op_create host_a) h0
      = Some (Some (NewNodeExistsError host_a), h') /\ r = None.
Proof.
  exists None, (after_task "set" host_a (Some (NewNodeExistsError host_a))).
  split; [reflexivity|]. split; [reflexivity|].
  exact (edit_rollback_swallows (ec Sample.allow testopt_set erropt_rollback [])
    [EditOp op_create host_a] h0 None _ eq_refl
    (eq_refl : _ = Some (None, after_task "set" host_a (Some (NewNodeExistsError host_a))))).
Defined.

Lemma edit_accounting_balanced_witness :
  exists h' evs, EditConfig (ec Sample.allow testopt_set erropt_stop
      [EditNode (xname "system") op_notset "" [EditNode (xname "host-name") op_create "a" []]]) h0
      = Some (Some (NewNodeExistsError host_a), h') /\
    rev (w_trace (h_world h')) = [] ++ evs /\ acct_pairs evs.
Proof.
  exists (after_task "set" host_a (Some (NewNodeExistsError host_a))).
  destruct (edit_accounting_balanced (ec Sample.allow testopt_set erropt_stop
      [EditNode (xname "system") op_notset "" [EditNode (xname "host-name") op_create "a" []]]) h0
      (Some (NewNodeExistsError host_a)) (after_task "set" host_a (Some (NewNodeExistsError host_a)))
      eq_refl eq_refl) as (evs & He & Hp).
  exists evs. split; [reflexivity|]. split; [exact He|exact Hp].
Defined.

Lemma edit_returns_witness :
  exists r h', editConfigXML xml (Sample.client 10 1000 Sample.allow) "candidate" "merge"
    "test-then-set" "continue-on-error" "delete" h0 = Some (r, h').
Proof.
  apply edit_returns; [done| |split; constructor].
  intros p sch. apply Sample.descendant_keyed.
Defined.
(** A choice between a case with leaf [a] and a case with leaf [b]. *)
Definition case_ (name child : string) : snode :=
  SNode KCase name "urn:s" true TOther [] "" [] [Sample.leaf child] [Sample.leaf child].
Definition choice_schema : snode :=
  SNode KContainer "c" "urn:s" false TOther [] "" [] [Sample.leaf "a"; Sample.leaf "b"]
    [SNode KChoice "ch" "urn:s" true TOther [] "" [] [Sample.leaf "a"; Sample.leaf "b"]
       [case_ "ca" "a"; case_ "cb" "b"]].
Definition both : list edit_node :=
  [EditNode (xname "a") op_notset "1" []; EditNode (xname "b") op_notset "2" []].

Lemma one_case_per_choice_witness :
  validateChoices (L := Sample.lib) both ["c"] op_merge choice_schema = Some (one_case_error (L := Sample.lib) ["c"] "b") /\
  exists n, n ∈ kept_names both op_merge /\ one_case_error (L := Sample.lib) ["c"] "b" = one_case_error (L := Sample.lib) ["c"] n.
Proof.
  split; [reflexivity|].
  exact (proj2 (one_case_per_choice (L := Sample.lib) xml both ["c"] op_merge choice_schema) _ eq_refl).
Defined.
End SampleEdit.
