(* ===== verification/Commit.v ===== *)
(** [session/commit.go] and [session/commitmgr.go]: the commit context, one
    commit from validation to the post-commit hooks, and (module [RunLoop]) the
    goroutine that lets one commit run at a time. *)

From S2P Require Import Prelude GoLib Errors Rpc External Configd LogLevel Sample Session.

Open Scope Z_scope.

(** ** The commit context *)

Section CommitCtx.
Context {L : ConfigLib}.

Record commitctx := CommitCtx {
  cc_debug : bool;
  cc_mustDebugThreshold : Z;
  cc_effective : option session;
  cc_candidate : data;
  cc_running : data;
  cc_schema : ModelSet;
  cc_sid : string;
  cc_sctx : Context;      (** the context of the client *)
  cc_ctx : Context;       (** the raised context of the system itself *)
  cc_message : string
}.

Definition newctx (sid : string) (sctx : Context) (effective : option session)
    (candidate running : data) (sch : ModelSet) (message : string)
    (debug : bool) (mustDebugThreshold : Z) : commitctx := {|
  cc_debug := debug;
  cc_mustDebugThreshold := mustDebugThreshold;
  cc_effective := effective;
  cc_candidate := candidate;
  cc_running := running;
  cc_schema := sch;
  cc_sid := sid;
  cc_sctx := sctx;
  cc_ctx := {|
    Configd := true;
    cx_Config := cx_Config sctx;
    Pid := SYSTEM;
    cx_Auth := cx_Auth sctx;
    Noexec := true;
    (* the fields the literal leaves out *)
    Uid := 0; User := ""; UserHome := ""; Groups := []; Superuser := false |};
  cc_message := message |}.

Definition padToLength : nat := 50.

(** [pad]: [msg + ": "] and spaces up to the fixed width. *)
Definition pad (msg : string) : string :=
  let msgLen := String.length msg in
  let padLen := if bool_decide (msgLen < padToLength)%nat then (padToLength - msgLen)%nat else O in
  msg +:+ ": " +:+ Repeat " " padLen.

Definition loggingEnabled (m : Settings) (c : commitctx) : bool :=
  if cc_debug c then true else LoggingIsEnabledAtLevel m LevelError TypeCommit.
End CommitCtx.

(** The packages a commit calls: danos/config/commit, the component manager,
    [run-parts] on a hook directory (its output, its standard error when it
    fails), the user database and the file system. *)
Class CommitLib {L : ConfigLib} := {
  commit_Changed : commitctx -> bool;
  commit_Validate : commitctx -> list ExecOutput * list error * bool;
  commit_Commit : commitctx -> commit_prog;
  ComponentSetRunning : ModelSet -> Union -> list ExecOutput;
  RunHooks : string -> list string -> string * option string;
  LookupId : Z -> option string;
  (** the running file: [os.Create], [File.Chmod], and [File.WriteString] with
      the part of the text that it has written *)
  CreateRunfile : string -> option error;
  ChmodRunfile : string -> Z -> option error;
  WriteRunfile : string -> string -> string * option error
}.

Record commitresp := CommitResp {
  cr_out : list ExecOutput;
  cr_err : list error;
  cr_ok : bool
}.

Definition MakeCommitError (e : error) : commitresp := CommitResp [] [e] false.

Section CommitMgr.
Context {L : ConfigLib} {CL : CommitLib}.

Definition emit_w (e : event) : M world unit := modify (add_event e).

(** A request to the effective session, served by its own goroutine; calling a
    method of a nil session panics. *)
Definition on_effective {A} (m : M hst A) : M world A := fun w =>
  match cm_effective (w_cm w) with
  | None => None
  | Some e =>
      match m (Hst (set_sess e w) []) with
      | None => None
      | Some (a, h) =>
          let w' := h_world h in
          let c := w_cm w' in
          Some (a, set_sess (w_sess w)
                     (set_cm (CMgr (cm_running c) (Some (w_sess w')) (cm_schema c)
                                (cm_hadcommit c) (cm_inCommit c)) w'))
      end
  end.

(** [commitctx.Set] and [commitctx.Delete] forward to the effective session,
    with the system's own context. *)
Definition cc_Set (c : commitctx) (path : list string) : M world (option error) :=
  on_effective (set (cc_ctx c) path).
Definition cc_Delete (c : commitctx) (path : list string) : M world (option error) :=
  on_effective (del (cc_ctx c) path).

Fixpoint run_commit (c : commitctx) (p : commit_prog)
  : M world (list ExecOutput * list error * Z * Z) :=
  match p with
  | CSet path k => e <- cc_Set c path ;; run_commit c (k e)
  | CDelete path k => e <- cc_Delete c path ;; run_commit c (k e)
  | CDone outs errs successes failures => ret (outs, errs, successes, failures)
  end.

(** [commitctx.commit]: apply the changes, notify when something succeeded, and
    add [COMMIT_STATUS] to the environment of the hooks. *)
Definition commit_status (successes failures : Z) : string :=
  "COMMIT_STATUS=" +:+
  (if 0 <? failures then (if 0 <? successes then "PARTIAL" else "FAILURE") else "SUCCESS").

Definition cc_commit (c : commitctx) (env : list string)
  : M world (list ExecOutput * list error * bool * list string) :=
  r <- run_commit c (commit_Commit c) ;;
  let '(outs, errs, successes, failures) := r in
  (if 0 <? successes then emit_w EvNotify else ret tt) ;;;
  ret (outs, errs, failures =? 0, env ++ [commit_status successes failures]).

(** [execute_hooks]: a failing [run-parts] gives an error with its stderr. *)
Definition execute_hooks (dir : string) (env : list string)
  : M world (ExecOutput * option error) :=
  emit_w (EvHooks dir env) ;;;
  let r := RunHooks dir env in
  ret ({| eo_Path := None; eo_Output := fst r |},
       option_map (error_msg OperationFailedApplication) (snd r)).

Definition store_running (d : data) : M world unit :=
  modify (fun w => add_event (EvStoreRunning d)
    (set_cm (CMgr d (cm_effective (w_cm w)) (cm_schema (w_cm w))
               (cm_hadcommit (w_cm w)) (cm_inCommit (w_cm w))) w)).

Definition set_hadcommit : M world unit :=
  modify (fun w => set_cm (CMgr (cm_running (w_cm w)) (cm_effective (w_cm w))
    (cm_schema (w_cm w)) true (cm_inCommit (w_cm w))) w).

Definition SetEffective (e : session) : M world unit :=
  modify (fun w => set_cm (CMgr (cm_running (w_cm w)) (Some e) (cm_schema (w_cm w))
    (cm_hadcommit (w_cm w)) (cm_inCommit (w_cm w))) w).

(** [writeRunning]; creating the file leaves it empty.  The error is ignored by
    the caller. *)
Definition writeRunning (ctx : Context) : M world (option error) :=
  let file := cf_Runfile (cx_Config ctx) in
  match CreateRunfile file with
  | Some e => ret (Some e)
  | None =>
      match ChmodRunfile file 384 (* 0600 *) with
      | Some e => emit_w (EvWriteRunning file ("", Some e)) ;;; ret (Some e)
      | None =>
          r <- on_effective (show ctx [] false false false) ;;
          match r with
          | (_, Some e) => emit_w (EvWriteRunning file ("", Some e)) ;;; ret (Some e)
          | (out, None) =>
              let written := WriteRunfile file out in
              emit_w (EvWriteRunning file written) ;;; ret (snd written)
          end
      end
  end.

Definition pre_hooks_dir : string := "/etc/commit/pre-hooks.d".
Definition post_hooks_dir : string := "/etc/commit/post-hooks.d".
Definition hooks_PATH : string :=
  "PATH=/bin:/usr/bin:/sbin:/usr/sbin:/opt/vyatta/bin:/opt/vyatta/sbin".

(** The second half of [CommitMgr.commit], once validation has succeeded. *)
Definition commit_apply (ctx : commitctx) (ucan : Union) (username : string)
    (outs : list ExecOutput) (errs : list error) : M world commitresp :=
  let env := ["COMMIT_USER=" +:+ username; hooks_PATH] in
  hook <- execute_hooks pre_hooks_dir env ;;
  emit_w EvComponentsSetRunning ;;;
  let couts := ComponentSetRunning (cc_schema ctx) ucan in
  r <- cc_commit ctx env ;;
  let '(couts', cerrs, _, env') := r in
  effective <- on_effective (mergetree false) ;;
  on_effective (discard (cc_ctx ctx)) ;;;
  store_running effective ;;;
  writeRunning (cc_ctx ctx) ;;;
  post <- execute_hooks post_hooks_dir (env' ++ ["COMMIT_COMMENT=" +:+ cc_message ctx]) ;;
  ret (CommitResp
    (outs ++ [fst hook] ++ couts ++ couts' ++ [fst post])
    (errs ++ option_list (snd hook) ++ cerrs ++ option_list (snd post))
    true).

(** [CommitMgr.commit].  The very first commit compares against the running
    tree without its defaults, so that defaults are configured too. *)
Definition commit_trees (w : world) (candidate : data) : data * Union * data :=
  let c := w_cm w in
  let rtree := Running c in
  let run := if negb (cm_hadcommit c)
             then MergeWithoutDefaults (NewNode None rtree (cm_schema c))
             else Merge (NewNode None rtree (cm_schema c)) in
  let ucan := NewNode (Some candidate) rtree (cm_schema c) in
  (run, ucan, Merge ucan).

(** The context a commit works with: what it compares, and how verbosely. *)
Definition commit_context (w : world) (sid : string) (sctx : Context) (candidate : data)
    (message : string) (debug : bool) : commitctx * Union :=
  let '(run, ucan, mcan) := commit_trees w candidate in
  let debug := debug || LoggingIsEnabledAtLevel (w_log w) LevelDebug TypeCommit in
  let mustThreshold := fst (LoggingValueAndStatus (w_log w) TypeMust) in
  (newctx sid sctx (cm_effective (w_cm w)) mcan run (cm_schema (w_cm w))
     message debug mustThreshold, ucan).

Definition mgr_commit (sid : string) (sctx : Context) (candidate : data)
    (message : string) (debug : bool) : M world commitresp :=
  w <- gets id ;;
  set_hadcommit ;;;
  let '(ctx, ucan) := commit_context w sid sctx candidate message debug in
  let '(outs, errs, ok) := commit_Validate ctx in
  if negb ok then ret (CommitResp outs errs ok)
  else
    match LookupId (Uid sctx) with
    | None =>
        ret (CommitResp outs
          (errs ++ [error_msg OperationFailedApplication "Could not lookup UID"]) false)
    | Some username => commit_apply ctx ucan username outs errs
    end.

(** ** Lemmas *)

(** The world with another effective session. *)
Definition with_effective (e : session) (w : world) : world :=
  set_cm (CMgr (cm_running (w_cm w)) (Some e) (cm_schema (w_cm w))
            (cm_hadcommit (w_cm w)) (cm_inCommit (w_cm w))) w.

(** A handler run on the effective session [e] of [w] leaves everything else of
    the world alone, and the lock of [e]. *)
Definition eff_frame (w : world) (e : session) (w1 : world) : Prop :=
  w_cm w1 = w_cm w /\ w_log w1 = w_log w /\ w_rodisk w1 = w_rodisk w /\
  w_trace w1 = w_trace w /\ s_lpid (w_sess w1) = s_lpid e.

Lemma eff_frame_init w e : hinv (eff_frame w e) (fun _ => False) (Hst (set_sess e w) []).
Proof. split; [by destruct w|constructor]. Qed.

Lemma on_effective_frame {A} (m : M hst A) w e a w' :
  cm_effective (w_cm w) = Some e ->
  preserves (hinv (eff_frame w e) (fun _ => False)) m ->
  on_effective m w = Some (a, w') ->
  exists h, m (Hst (set_sess e w) []) = Some (a, h) /\
    w' = with_effective (w_sess (h_world h)) w /\ s_lpid (w_sess (h_world h)) = s_lpid e.
Proof.
  intros He Hm. unfold on_effective. rewrite He.
  destruct (m _) as [[a' h]|] eqn:E; [|discriminate]. intros [= -> <-].
  destruct (Hm _ _ _ (eff_frame_init w e) E) as [(Hc & Hl & Hr & Ht & Hp) _].
  exists h. split; [done|]. split; [|done].
  destruct (h_world h) as [s1 c1 l1 r1 t1]. cbn in *. subst. by destruct w.
Qed.

Lemma eff_frame_candidate w e w1 d :
  eff_frame w e w1 -> eff_frame w e (set_sess (set_candidate d (w_sess w1)) w1).
Proof. done. Qed.

Lemma eff_frame_replace w e w1 d :
  eff_frame w e w1 -> eff_frame w e (set_sess (replace_candidate d (w_sess w1)) w1).
Proof. done. Qed.

Lemma run_commit_frame c p : forall w e r w',
  cm_effective (w_cm w) = Some e ->
  run_commit c p w = Some (r, w') ->
  exists e', w' = with_effective e' w /\ s_lpid e' = s_lpid e.
Proof.
  assert (Hself : forall w e, cm_effective (w_cm w) = Some e -> w = with_effective e w).
  { intros [s [r e' sc hc ic] l d t] e. cbn. intros ->. done. }
  assert (Hstep : forall w e (m : M hst (option error)) k r w',
    cm_effective (w_cm w) = Some e ->
    preserves (hinv (eff_frame w e) (fun _ => False)) m ->
    (forall x w e r w', cm_effective (w_cm w) = Some e ->
       run_commit c (k x) w = Some (r, w') ->
       exists e', w' = with_effective e' w /\ s_lpid e' = s_lpid e) ->
    bind (on_effective m) (fun x => run_commit c (k x)) w = Some (r, w') ->
    exists e', w' = with_effective e' w /\ s_lpid e' = s_lpid e).
  { intros w e m k r w' He Hm Hk H. apply bind_Some in H as (x & w1 & H1 & H2).
    destruct (on_effective_frame m w e x w1 He Hm H1) as (h & _ & -> & Hl).
    destruct (Hk x (with_effective (w_sess (h_world h)) w) (w_sess (h_world h)) _ _ eq_refl H2)
      as (e' & -> & Hl').
    exists e'. split; [done|congruence]. }
  induction p as [path k IH|path k IH|o er su fa]; intros w e r w' He H; cbn in H.
  - eapply (Hstep w e (set (cc_ctx c) path) k); try done.
    apply set_inv; [done|]. intros; by apply eff_frame_candidate.
  - eapply (Hstep w e (del (cc_ctx c) path) k); try done.
    apply del_inv. intros; by apply eff_frame_candidate.
  - unfold ret in H. injection H as <- <-. exists e. split; [by apply Hself|done].
Qed.

(** The effective session is locked by the system itself, so the commit can
    always reset it. *)
Lemma effective_discard w e ctx :
  cm_effective (w_cm w) = Some e -> s_lpid e = SYSTEM -> Pid ctx = SYSTEM ->
  on_effective (discard ctx) w = Some (None, with_effective (replace_candidate (data_New "root") e) w).
Proof.
  intros He Hl Hp. unfold on_effective. rewrite He.
  unfold discard, bind, sess, gets. cbn [h_world w_sess set_sess].
  assert (trylock (Pid ctx) e = None) as -> by (apply trylock_None; right; congruence).
  cbn. by destruct w.
Qed.

Lemma effective_mergetree w e :
  cm_effective (w_cm w) = Some e ->
  on_effective (mergetree false) w =
  Some (MergeWithoutDefaults (NewNode (Some (s_candidate e)) (cm_running (w_cm w)) (s_schema e)), w).
Proof.
  intros He. unfold on_effective. rewrite He. cbn.
  destruct w as [s [r e' sc hc ic] l d t]. cbn in *. by rewrite <- He.
Qed.

(** Writing the running file changes nothing but the trace. *)
Definition write_events (w w' : world) : Prop :=
  exists evs, w' = World (w_sess w) (w_cm w) (w_log w) (w_rodisk w) (evs ++ w_trace w) /\
    (evs = [] \/ exists f o, evs = [EvWriteRunning f o]).

Lemma effective_show w e ctx path a b c :
  cm_effective (w_cm w) = Some e ->
  exists r, on_effective (show ctx path a b c) w = Some (r, w).
Proof.
  intros He. unfold on_effective. rewrite He. unfold show, gets. eexists. f_equal. f_equal.
  destruct w as [s [r e' sc hc ic] l d t]. cbn in *. by rewrite <- He.
Qed.

Lemma writeRunning_events w e ctx :
  cm_effective (w_cm w) = Some e ->
  exists r w', writeRunning ctx w = Some (r, w') /\ write_events w w'.
Proof.
  intros He. unfold writeRunning. destruct (CreateRunfile _) as [er|].
  - eexists _, _. split; [reflexivity|]. exists []. split; [by destruct w|by left].
  - destruct (ChmodRunfile _ _) as [er|];
      [|destruct (effective_show w e ctx [] false false false He) as ([out [er|]] & Hs); unfold bind; rewrite Hs];
      unfold emit_w, modify, add_event, bind, ret; eexists _, _;
      (split; [reflexivity|]); eexists [_]; (split; [reflexivity|right; eauto]).
Qed.

Lemma cc_commit_run c env w e r w' :
  cm_effective (w_cm w) = Some e -> cc_commit c env w = Some (r, w') ->
  exists o er su fa e1,
    run_commit c (commit_Commit c) w = Some ((o, er, su, fa), with_effective e1 w) /\
    s_lpid e1 = s_lpid e /\
    r = (o, er, fa =? 0, env ++ [commit_status su fa]) /\
    w' = (if 0 <? su then add_event EvNotify (with_effective e1 w) else with_effective e1 w).
Proof.
  intros He H. unfold cc_commit in H. apply bind_Some in H as ([[[o er] su] fa] & w1 & H1 & H).
  destruct (run_commit_frame _ _ _ _ _ _ He H1) as (e1 & -> & Hl).
  exists o, er, su, fa, e1. split; [done|]. split; [done|].
  apply bind_Some in H as ([] & w2 & H2 & H). injection H as <- <-. split; [done|].
  destruct (0 <? su); by injection H2 as <-.
Qed.

(** The environment of the pre-commit hooks, and what they precede. *)
Definition hooks_env (username : string) : list string :=
  ["COMMIT_USER=" +:+ username; hooks_PATH].
Definition after_pre_hooks (username : string) (w : world) : world :=
  add_event EvComponentsSetRunning (add_event (EvHooks pre_hooks_dir (hooks_env username)) w).

(** The running tree a commit stores, from the effective session it leaves. *)
Definition new_running (w : world) (e1 : session) : data :=
  MergeWithoutDefaults (NewNode (Some (s_candidate e1)) (cm_running (w_cm w)) (s_schema e1)).

Lemma commit_apply_run c ucan user outs errs w e resp w' :
  cm_effective (w_cm w) = Some e -> s_lpid e = SYSTEM -> Pid (cc_ctx c) = SYSTEM ->
  commit_apply c ucan user outs errs w = Some (resp, w') ->
  exists o er su fa e1 wr,
    run_commit c (commit_Commit c) (after_pre_hooks user w) =
      Some ((o, er, su, fa), with_effective e1 (after_pre_hooks user w)) /\
    s_lpid e1 = SYSTEM /\ cr_ok resp = true /\
    w' = World (w_sess w)
      (CMgr (new_running w e1) (Some (replace_candidate (data_New "root") e1))
         (cm_schema (w_cm w)) (cm_hadcommit (w_cm w)) (cm_inCommit (w_cm w)))
      (w_log w) (w_rodisk w)
      (EvHooks post_hooks_dir
         (hooks_env user ++ [commit_status su fa; "COMMIT_COMMENT=" +:+ cc_message c])
       :: wr ++ EvStoreRunning (new_running w e1)
       :: (if 0 <? su then [EvNotify] else [])
       ++ EvComponentsSetRunning :: EvHooks pre_hooks_dir (hooks_env user) :: w_trace w) /\
    (wr = [] \/ exists f o, wr = [EvWriteRunning f o]).
Proof.
  intros He Hl Hp H. unfold commit_apply in H.
  apply bind_Some in H as (hook & w1 & H1 & H). injection H1 as <- <-.
  apply bind_Some in H as ([] & w1 & H1 & H). injection H1 as <-.
  cbv zeta in H. apply bind_Some in H as (r & w1 & H1 & H).
  destruct (cc_commit_run _ _ (after_pre_hooks user w) e _ _ He H1)
    as (o & er & su & fa & e1 & Hrun & Hl1 & -> & ->).
  set (wc := if 0 <? su then add_event EvNotify (with_effective e1 (after_pre_hooks user w))
             else with_effective e1 (after_pre_hooks user w)) in *.
  assert (Hwc : cm_effective (w_cm wc) = Some e1) by (unfold wc; by destruct (0 <? su)).
  cbn beta iota in H. apply bind_Some in H as (d & w2 & H2 & H).
  rewrite (effective_mergetree wc e1 Hwc) in H2. injection H2 as <- <-.
  apply bind_Some in H as (x & w3 & H3 & H).
  rewrite (effective_discard wc e1 _ Hwc) in H3; [|congruence..]. injection H3 as <- <-.
  apply bind_Some in H as ([] & w4 & H4 & H). unfold store_running, modify in H4.
  injection H4 as <-. apply bind_Some in H as (wres & w5 & H5 & H).
  set (w4 := add_event _ _) in H5.
  destruct (writeRunning_events w4 _ (cc_ctx c) eq_refl) as (r' & w5' & H5' & evs & -> & Hevs).
  rewrite H5' in H5. injection H5 as <- <-.
  apply bind_Some in H as (post & w6 & H6 & H). injection H6 as <- <-.
  injection H as <- <-.
  exists o, er, su, fa, e1, evs. split; [exact Hrun|]. split; [congruence|]. split; [done|].
  split; [|exact Hevs]. unfold w4, wc, add_event, emit_w. cbn.
  unfold new_running.
  destruct (0 <? su); reflexivity.
Qed.

(** A commit program whose sets name a node (Go indexes the last element). *)
Fixpoint prog_ok (p : commit_prog) : Prop :=
  match p with
  | CSet path k => path <> [] /\ forall e, prog_ok (k e)
  | CDelete _ k => forall e, prog_ok (k e)
  | CDone _ _ _ _ => True
  end.

Definition with_hadcommit (w : world) : world :=
  set_cm (CMgr (cm_running (w_cm w)) (cm_effective (w_cm w)) (cm_schema (w_cm w)) true
            (cm_inCommit (w_cm w))) w.

Lemma on_effective_returns {A} (m : M hst A) w e :
  cm_effective (w_cm w) = Some e -> returns hready m ->
  preserves (hinv (eff_frame w e) (fun _ => False)) m ->
  exists a e', on_effective m w = Some (a, with_effective e' w).
Proof.
  intros He Hm Hf. destruct (Hm (Hst (set_sess e w) [])) as (a & h & E & _); [split; constructor|].
  exists a, (w_sess (h_world h)).
  destruct (on_effective m w) as [[a' w']|] eqn:Eo.
  - destruct (on_effective_frame m w e a' w' He Hf Eo) as (h' & E' & -> & _).
    rewrite E in E'. by injection E' as <- <-.
  - unfold on_effective in Eo. rewrite He, E in Eo. discriminate.
Qed.

Lemma run_commit_returns c p : prog_ok p -> forall w e,
  cm_effective (w_cm w) = Some e -> exists r w', run_commit c p w = Some (r, w').
Proof.
  induction p as [path k IH|path k IH|o er su fa]; intros Hok w e He; cbn.
  - destruct Hok as [Hp Hk].
    destruct (on_effective_returns (set (cc_ctx c) path) w e He) as (a & e' & E);
      [apply set_returns; [done|by apply path_nameable]|apply set_inv; [done|intros; by apply eff_frame_candidate]|].
    destruct (IH a (Hk a) (with_effective e' w) e' eq_refl) as (r & w' & E').
    exists r, w'. apply bind_Some. eauto.
  - destruct (on_effective_returns (del (cc_ctx c) path) w e He) as (a & e' & E);
      [by apply del_returns|apply del_inv; intros; by apply eff_frame_candidate|].
    destruct (IH a (Hok a) (with_effective e' w) e' eq_refl) as (r & w' & E').
    exists r, w'. apply bind_Some. eauto.
  - eauto.
Qed.

Lemma commit_apply_returns c ucan user outs errs w e :
  cm_effective (w_cm w) = Some e -> s_lpid e = SYSTEM -> Pid (cc_ctx c) = SYSTEM ->
  prog_ok (commit_Commit c) ->
  exists resp w', commit_apply c ucan user outs errs w = Some (resp, w').
Proof.
  intros He Hl Hp Hok.
  destruct (run_commit_returns c _ Hok (after_pre_hooks user w) e He) as ([[[o er] su] fa] & w1 & E).
  destruct (run_commit_frame _ _ (after_pre_hooks user w) e _ _ He E) as (e1 & -> & Hl1).
  unfold commit_apply, execute_hooks, emit_w, cc_commit.
  erewrite bind_eq by reflexivity. erewrite bind_eq by reflexivity. cbv zeta.
  set (wc := if 0 <? su then add_event EvNotify (with_effective e1 (after_pre_hooks user w))
             else with_effective e1 (after_pre_hooks user w)).
  assert (Hwc : cm_effective (w_cm wc) = Some e1) by (unfold wc; by destruct (0 <? su)).
  erewrite (bind_eq (bind _ _) _ _ _ wc).
  2: { erewrite bind_eq by exact E. cbv beta iota. unfold wc. by destruct (0 <? su). }
  cbv beta iota.
  erewrite bind_eq by (apply effective_mergetree; exact Hwc).
  erewrite bind_eq by (apply effective_discard; [exact Hwc|congruence|done]).
  erewrite bind_eq by reflexivity.
  match goal with |- exists _ _, bind (writeRunning _) _ ?w4 = _ =>
    destruct (writeRunning_events w4 _ (cc_ctx c) eq_refl) as (r' & w5 & H5 & _) end.
  erewrite bind_eq by exact H5. eauto.
Qed.

(** ** Properties *)

Section MgrCommit.
Context (sid : string) (sctx : Context) (candidate : data) (message : string) (debug : bool).
Context (w : world) (e : session).
Let c := fst (commit_context w sid sctx candidate message debug).
(** What [NewSrv] sets up: the effective session exists and is locked by the
    system. *)
Hypothesis Heff : cm_effective (w_cm w) = Some e.
Hypothesis Hsys : s_lpid e = SYSTEM.

(** A commit request is always answered: when the changes applied by the
    commit package name real nodes, the commit runs to its end. *)
Theorem mgr_commit_returns :
  prog_ok (commit_Commit c) ->
  exists resp w', mgr_commit sid sctx candidate message debug w = Some (resp, w').
Proof.
  intros Hok. unfold mgr_commit. erewrite bind_eq by reflexivity.
  erewrite bind_eq by reflexivity. unfold id.
  destruct (commit_context w sid sctx candidate message debug) as [ctx ucan] eqn:Ec.
  destruct (commit_Validate ctx) as [[outs errs] ok].
  destruct ok; cbn [negb]; [|by eexists _, _].
  destruct (LookupId (Uid sctx)) as [user|]; [|by eexists _, _].
  assert (Hp : Pid (cc_ctx ctx) = SYSTEM).
  { unfold commit_context, commit_trees in Ec. by injection Ec as <- _. }
  apply (commit_apply_returns ctx ucan user outs errs (with_hadcommit w) e); done.
Qed.

(** C8: a commit that does not succeed leaves the running and the effective
    configuration as they were and runs no hook; its only effect is that the
    next commit is no longer the first one. *)
Theorem mgr_commit_failed resp w' :
  mgr_commit sid sctx candidate message debug w = Some (resp, w') ->
  cr_ok resp = false -> w' = with_hadcommit w.
Proof.
  intros H Hok. unfold mgr_commit in H. erewrite bind_eq in H by reflexivity.
  erewrite bind_eq in H by reflexivity. unfold id in H.
  destruct (commit_context w sid sctx candidate message debug) as [ctx ucan] eqn:Ec.
  destruct (commit_Validate ctx) as [[outs errs] ok].
  destruct ok; cbn [negb] in H; [|by injection H as _ <-].
  destruct (LookupId (Uid sctx)) as [user|]; [|by injection H as _ <-].
  assert (Hp : Pid (cc_ctx ctx) = SYSTEM).
  { unfold commit_context, commit_trees in Ec. by injection Ec as <- _. }
  destruct (commit_apply_run ctx ucan user outs errs (with_hadcommit w) e resp w' Heff Hsys Hp H)
    as (o & er & su & fa & e1 & wr & _ & _ & Hok' & _). congruence.
Qed.

(** C7: a commit that succeeds: the validated changes are applied to the
    effective session in one run of the commit package, the new running tree
    is the effective tree it leaves, without defaults, the effective session
    is reset and still locked by the system.  Outside, exactly this happens,
    in this order: pre-commit hooks, components, (a notification when
    something was applied,) the new running tree is published, the running
    file is written, post-commit hooks with the status in their environment. *)
Theorem mgr_commit_success resp w' :
  mgr_commit sid sctx candidate message debug w = Some (resp, w') ->
  cr_ok resp = true ->
  exists user o er su fa e1 wr,
    LookupId (Uid sctx) = Some user /\
    run_commit c (commit_Commit c) (after_pre_hooks user (with_hadcommit w)) =
      Some ((o, er, su, fa), with_effective e1 (after_pre_hooks user (with_hadcommit w))) /\
    w_sess w' = w_sess w /\
    w_cm w' = CMgr (new_running w e1) (Some (replace_candidate (data_New "root") e1))
                (cm_schema (w_cm w)) true (cm_inCommit (w_cm w)) /\
    s_lpid e1 = SYSTEM /\
    (wr = [] \/ exists f out, wr = [EvWriteRunning f out]) /\
    rev (w_trace w') =
      rev (w_trace w)
      ++ [EvHooks pre_hooks_dir (hooks_env user); EvComponentsSetRunning]
      ++ (if 0 <? su then [EvNotify] else [])
      ++ [EvStoreRunning (new_running w e1)]
      ++ wr
      ++ [EvHooks post_hooks_dir
            (hooks_env user ++ [commit_status su fa; "COMMIT_COMMENT=" +:+ message])].
Proof.
  intros H Hok. unfold mgr_commit in H. erewrite bind_eq in H by reflexivity.
  erewrite bind_eq in H by reflexivity. unfold id in H. subst c.
  destruct (commit_context w sid sctx candidate message debug) as [ctx ucan] eqn:Ec.
  cbn [fst].
  destruct (commit_Validate ctx) as [[outs errs] ok].
  destruct ok; cbn [negb] in H; [|by injection H as <- _].
  destruct (LookupId (Uid sctx)) as [user|]; [|by injection H as <- _].
  assert (Hp : Pid (cc_ctx ctx) = SYSTEM /\ cc_message ctx = message).
  { unfold commit_context, commit_trees in Ec. by injection Ec as <- _. }
  destruct Hp as [Hp Hm].
  destruct (commit_apply_run ctx ucan user outs errs (with_hadcommit w) e resp w' Heff Hsys Hp H)
    as (o & er & su & fa & e1 & wr & Hrun & Hl1 & _ & -> & Hwr).
  exists user, o, er, su, fa, e1, wr. rewrite Hm.
  split; [done|]. split; [done|]. split; [done|]. split; [done|]. split; [done|].
  split; [done|]. cbn [w_trace]. unfold with_hadcommit, set_cm. cbn [w_trace].
  destruct Hwr as [-> | (f & out & ->)]; destruct (0 <? su); cbn [app];
    rewrite ?rev_unit; cbn [rev app]; rewrite <- ?app_assoc; reflexivity.
Qed.
End MgrCommit.
End CommitMgr.

(** ** A concrete commit *)

Module SampleCommit.
(** Validation accepts every candidate but the empty one; the commit sets the
    host name; no hook fails. *)
#[export] Instance commitlib : CommitLib (L := Sample.lib) := {|
  commit_Changed _ := true;
  commit_Validate c :=
    if bool_decide (@cc_candidate Sample.lib c = [] :> list (list string))
    then ([], [EGo "empty"], false) else ([], [], true);
  commit_Commit c := CSet ["system"; "host-name"; "a"] (fun _ => CDone [] [] 1 0);
  ComponentSetRunning _ _ := [];
  RunHooks _ _ := ("", None);
  LookupId uid := if bool_decide (uid = 1000) then Some "user" else None;
  CreateRunfile _ := None;
  ChmodRunfile _ _ := None;
  WriteRunfile _ text := (text, None)
|}.

Definition candidate : @data Sample.lib := [["system"; "host-name"; "a"]].

Abbreviation run uid :=
  (mgr_commit "s1" (Sample.client 10 uid Sample.allow) candidate "msg" false (sample_world 10)).

Lemma mgr_commit_returns_witness : exists resp w', run 1000 = Some (resp, w').
Proof.
  apply (mgr_commit_returns "s1" (Sample.client 10 1000 Sample.allow) candidate "msg" false (sample_world 10) sample_effective);
    [reflexivity|reflexivity|]. cbn. split; [discriminate|auto].
Defined.

Lemma mgr_commit_failed_witness :
  option_map snd (run 1001) = Some (with_hadcommit (sample_world 10)).
Proof.
  assert (H : run 1001 = Some (CommitResp []
    [error_msg OperationFailedApplication "Could not lookup UID"] false,
    with_hadcommit (sample_world 10))) by reflexivity.
  rewrite H. apply (f_equal Some).
  exact (mgr_commit_failed "s1" (Sample.client 10 1001 Sample.allow) candidate "msg" false (sample_world 10) sample_effective
    eq_refl eq_refl _ _ H eq_refl).
Defined.

(** What the commit of user 1000 leaves. *)
Definition committed : @data Sample.lib := [["system"; "host-name"; "a"]; ["service"]].
Definition resp : commitresp :=
  CommitResp [ {| eo_Path := None; eo_Output := "" |}; {| eo_Path := None; eo_Output := "" |} ]
    [] true.
Definition world' : @world Sample.lib := {|
  w_sess := sample_session 10;
  w_cm := CMgr committed
            (Some (replace_candidate (data_New "root") (set_candidate candidate sample_effective)))
            Sample.root true false;
  w_log := cfgDebugSettings;
  w_rodisk := false;
  w_trace :=
    [EvHooks post_hooks_dir
       (hooks_env "user" ++ ["COMMIT_STATUS=SUCCESS"; "COMMIT_COMMENT=msg"]);
     EvWriteRunning "/run/configd/running.config" ("system host-name a" +:+ nl +:+ "service", None);
     EvStoreRunning committed; EvNotify; EvComponentsSetRunning;
     EvHooks pre_hooks_dir (hooks_env "user")] |}.

Lemma mgr_commit_success_witness :
  run 1000 = Some (resp, world') /\
  exists e1, w_cm world' = CMgr (new_running (sample_world 10) e1)
    (Some (replace_candidate (data_New "root") e1)) Sample.root true false.
Proof.
  assert (H : run 1000 = Some (resp, world')) by reflexivity. split; [exact H|].
  destruct (mgr_commit_success "s1" (Sample.client 10 1000 Sample.allow)
    candidate "msg" false (sample_world 10) sample_effective eq_refl eq_refl
    resp world' H eq_refl) as (u & o & er & su & fa & e1 & wr & _ & _ & Hs & Hc & _).
  exists e1. exact Hc.
Defined.
End SampleCommit.
