(* ===== verification/RunLoop.v ===== *)
(** [session/commitmgr.go], [CommitMgr.run] and [CommitMgr.Commit]: the
    goroutine that serialises commits.  A request carries the channel its
    client waits on, here a number used once.  The loop is a step function on
    its state and the goroutines it has started; its executions are the
    reachable states. *)

From S2P Require Import Prelude.

(** What a client receives on its channel: the "Commit already in progress"
    error or the response of its own commit. *)
Inductive reply := Busy | Outcome.

#[export] Instance reply_eq_dec : EqDecision reply.
Proof. solve_decision. Defined.

Record loop := Loop {
  inCommit : bool;             (** the variable of [run] *)
  committing : list nat;       (** goroutines in [m.commit] or at [donech <- done] *)
  responding : list nat;       (** goroutines past it, at [r.resp <- resp] *)
  replies : list (nat * reply) (** what the clients have received *)
}.

Definition init : loop := Loop false [] [] [].

Inductive ev :=
  | Recv (r : nat)         (** [req := <-m.reqch] *)
  | CommitDone (r : nat)   (** [donech <- done] meets [<-donech] *)
  | Respond (r : nat).     (** [r.resp <- resp] *)

Definition known (s : loop) : list nat :=
  committing s ++ responding s ++ map fst (replies s).

Definition remove_req (r : nat) (l : list nat) : list nat := filter (fun x => x <> r) l.

(** One step of [run] or of a commit goroutine; [None] when it cannot happen. *)
Definition step (e : ev) (s : loop) : option loop :=
  match e with
  | Recv r =>
      if elem_b r (known s) then None      (* each request makes its own channel *)
      else if inCommit s then
        Some (Loop (inCommit s) (committing s) (responding s) ((r, Busy) :: replies s))
      else
        Some (Loop true (r :: committing s) (responding s) (replies s))
  | CommitDone r =>
      if elem_b r (committing s) then
        Some (Loop false (remove_req r (committing s)) (r :: responding s) (replies s))
      else None
  | Respond r =>
      if elem_b r (responding s) then
        Some (Loop (inCommit s) (committing s) (remove_req r (responding s))
                ((r, Outcome) :: replies s))
      else None
  end.

Fixpoint steps (es : list ev) (s : loop) : option loop :=
  match es with
  | [] => Some s
  | e :: es' => match step e s with Some s' => steps es' s' | None => None end
  end.

Inductive reachable : loop -> Prop :=
  | reach_init : reachable init
  | reach_step s e s' : reachable s -> step e s = Some s' -> reachable s'.

(** Events that need no new client request. *)
Definition internal (e : ev) : bool := match e with Recv _ => false | _ => true end.

(** ** Lemmas *)

Lemma elem_b_true {A} `{EqDecision A} (x : A) l : elem_b x l = true <-> x ∈ l.
Proof. apply bool_decide_eq_true. Qed.

Lemma elem_b_false {A} `{EqDecision A} (x : A) l : elem_b x l = false <-> x ∉ l.
Proof. apply bool_decide_eq_false. Qed.

Lemma remove_req_not_in r l : r ∉ l -> remove_req r l = l.
Proof.
  unfold remove_req. induction l as [|x l IH]; [done|].
  intros [Hx Hl]%not_elem_of_cons. rewrite filter_cons. rewrite decide_True; [f_equal; by apply IH|]. intros ->. by apply Hx.
Qed.

Lemma remove_req_perm r l : r ∈ l -> NoDup l -> l ≡ₚ r :: remove_req r l.
Proof.
  intros Hin Hnd. induction Hnd as [|x l Hx Hnd IH]; [by apply not_elem_of_nil in Hin|].
  destruct (decide (x = r)) as [->|Hne].
  - unfold remove_req. rewrite filter_cons_False by tauto.
    fold (remove_req r l). by rewrite remove_req_not_in.
  - apply elem_of_cons in Hin as [->|Hin]; [done|].
    unfold remove_req. rewrite filter_cons_True by done.
    fold (remove_req r l). rewrite (IH Hin) at 1. apply Permutation_swap.
Qed.

(** The invariant: at most one goroutine commits, and exactly when [inCommit];
    a request is in one place only. *)
Definition loop_inv (s : loop) : Prop :=
  length (committing s) = (if inCommit s then 1 else 0)%nat /\ NoDup (known s).

Lemma CommitDone_known s r :
  NoDup (known s) -> r ∈ committing s ->
  known (Loop false (remove_req r (committing s)) (r :: responding s) (replies s)) ≡ₚ known s.
Proof.
  intros Hnd Hin. unfold known in *. cbn.
  rewrite (remove_req_perm r (committing s) Hin) at 2
    by (apply NoDup_app in Hnd as (Hnd & _); exact Hnd).
  cbn. by rewrite <- Permutation_middle.
Qed.

Lemma Respond_known s r :
  NoDup (known s) -> r ∈ responding s ->
  known (Loop (inCommit s) (committing s) (remove_req r (responding s))
           ((r, Outcome) :: replies s)) ≡ₚ known s.
Proof.
  intros Hnd Hin. unfold known in *. cbn. f_equiv.
  rewrite (remove_req_perm r (responding s) Hin) at 2
    by (apply NoDup_app in Hnd as (_ & _ & Hnd); apply NoDup_app in Hnd as (Hnd & _); exact Hnd).
  cbn. by rewrite <- Permutation_middle.
Qed.

Lemma step_known e s s' :
  NoDup (known s) -> step e s = Some s' ->
  match e with
  | Recv r => (r ∉ known s) /\ (known s' ≡ₚ (r :: known s))
  | _ => (known s' ≡ₚ known s)
  end.
Proof.
  intros Hnd. destruct e as [r|r|r]; cbn.
  - destruct (elem_b r (known s)) eqn:E; [discriminate|]. apply elem_b_false in E.
    destruct (inCommit s); intros [= <-]; (split; [done|]); unfold known; cbn; [|done].
    rewrite app_assoc, <- Permutation_middle. by rewrite <- app_assoc.
  - destruct (elem_b r (committing s)) eqn:E; [|discriminate]. apply elem_b_true in E.
    intros [= <-]. by apply CommitDone_known.
  - destruct (elem_b r (responding s)) eqn:E; [|discriminate]. apply elem_b_true in E.
    intros [= <-]. by apply Respond_known.
Qed.

Lemma step_inv e s s' : loop_inv s -> step e s = Some s' -> loop_inv s'.
Proof.
  intros [Hlen Hnd] Hs. pose proof (step_known e s s' Hnd Hs) as Hk.
  assert (Hnd' : NoDup (known s')).
  { destruct e; [destruct Hk as [Hr Hk]|..]; rewrite Hk; [by constructor|done|done]. }
  split; [|done]. clear Hk Hnd'.
  destruct e as [r|r|r]; cbn in Hs; destruct (elem_b _ _) eqn:E; try discriminate.
  - destruct (inCommit s) eqn:Ei; injection Hs as <-; cbn; [exact Hlen|by rewrite Hlen].
  - injection Hs as <-. cbn. apply elem_b_true in E.
    assert (Hp := remove_req_perm r _ E ltac:(apply NoDup_app in Hnd as (Hnd & _); exact Hnd)).
    apply Permutation_length in Hp. cbn in Hp. destruct (inCommit s); lia.
  - by injection Hs as <-.
Qed.

Lemma reachable_inv s : reachable s -> loop_inv s.
Proof.
  induction 1 as [|s e s' _ IH Hs]; [split; [done|constructor]|by eapply step_inv].
Qed.

Lemma steps_app es1 es2 s : steps (es1 ++ es2) s =
  match steps es1 s with Some s' => steps es2 s' | None => None end.
Proof.
  revert s. induction es1 as [|e es1 IH]; intros s; cbn; [done|].
  destruct (step e s); [apply IH|done].
Qed.

(** The internal steps drain the goroutines, one at a time. *)
Lemma drain_responding n : forall s,
  length (responding s) = n -> NoDup (known s) ->
  exists es s', steps es s = Some s' /\ forallb internal es /\
    responding s' = [] /\ committing s' = committing s /\ inCommit s' = inCommit s /\
    known s' ≡ₚ known s.
Proof.
  induction n as [|n IH]; intros s Hn Hnd.
  - exists [], s. apply nil_length_inv in Hn. repeat split; done.
  - destruct (responding s) as [|r l] eqn:Er; [done|].
    assert (Hin : r ∈ responding s) by (rewrite Er; left).
    pose proof (Respond_known s r Hnd Hin) as Hk.
    set (s1 := Loop (inCommit s) (committing s) (remove_req r (responding s))
                 ((r, Outcome) :: replies s)) in *.
    assert (Hlen : length (responding s1) = n).
    { assert (Hp := remove_req_perm r (responding s) Hin
        ltac:(apply NoDup_app in Hnd as (_ & _ & Hnd); apply NoDup_app in Hnd as (Hnd & _); exact Hnd)).
      apply Permutation_length in Hp. rewrite Er in Hp at 1. cbn in *. lia. }
    destruct (IH s1 Hlen ltac:(by rewrite Hk)) as (es & s' & Hes & Hi & H1 & H2 & H3 & H4).
    exists (Respond r :: es), s'. cbn [steps step].
    replace (elem_b r (responding s)) with true by (symmetry; by apply elem_b_true).
    fold s1. repeat split; try done. by rewrite H4, Hk.
Qed.

(** ** Properties *)

(** C12: commits are mutually exclusive: in every reachable state the number of
    goroutines running a commit is one when [inCommit] is set and zero when it
    is not; no request is in two places or answered twice. *)
Theorem commit_mutual_exclusion s :
  reachable s ->
  length (committing s) = (if inCommit s then 1 else 0)%nat /\
  NoDup (committing s ++ responding s ++ map fst (replies s)).
Proof. apply reachable_inv. Qed.

Lemma steps_reachable es s s' : reachable s -> steps es s = Some s' -> reachable s'.
Proof.
  revert s. induction es as [|e es IH]; intros s Hr; cbn; [by intros [= <-]|].
  destruct (step e s) as [s1|] eqn:E; [|discriminate].
  apply IH. by eapply reach_step.
Qed.

Lemma commit_mutual_exclusion_witness :
  length (committing (Loop true [3] [] [(1, Outcome); (2, Busy)])) = 1%nat /\
  NoDup [3; 1; 2].
Proof.
  exact (commit_mutual_exclusion (Loop true [3] [] [(1, Outcome); (2, Busy)])
    (steps_reachable [Recv 1; Recv 2; CommitDone 1; Recv 3; Respond 1] init _
       reach_init eq_refl)).
Defined.

(** C26: every commit request is answered: from any reachable state, steps of
    the goroutines already started (no further request is needed) lead to a
    state where none is left, a new commit can start, and every request
    received so far has exactly one reply. *)
Theorem commit_requests_answered s :
  reachable s ->
  exists es s', steps es s = Some s' /\ forallb internal es /\
    committing s' = [] /\ responding s' = [] /\ inCommit s' = false /\
    map fst (replies s') ≡ₚ known s.
Proof.
  intros Hr. destruct (reachable_inv s Hr) as [Hlen Hnd].
  assert (Hfinish : exists es s1, steps es s = Some s1 /\ forallb internal es /\
    committing s1 = [] /\ inCommit s1 = false /\ known s1 ≡ₚ known s).
  { destruct (inCommit s) eqn:Ei; [|exists [], s; apply nil_length_inv in Hlen; done].
    destruct (committing s) as [|r [|]] eqn:Ec; try done.
    pose proof (CommitDone_known s r Hnd ltac:(rewrite Ec; left)) as Hk.
    eexists [CommitDone r], _. cbn [steps step].
    replace (elem_b r (committing s)) with true by (symmetry; apply elem_b_true; rewrite Ec; left).
    split; [reflexivity|]. split; [done|]. split; [|by split].
    cbn. unfold remove_req. rewrite Ec, filter_cons, decide_False by tauto. done. }
  destruct Hfinish as (es1 & s1 & H1 & Hi1 & Hc1 & Hic1 & Hk1).
  destruct (drain_responding _ s1 eq_refl ltac:(by rewrite Hk1))
    as (es2 & s2 & H2 & Hi2 & Hr2 & Hc2 & Hic2 & Hk2).
  exists (es1 ++ es2), s2. rewrite steps_app, H1, forallb_app.
  split; [done|]. split; [by apply andb_prop_intro|]. split; [congruence|].
  split; [done|]. split; [congruence|]. rewrite <- Hk1, <- Hk2.
  unfold known. by rewrite Hr2, Hc2, Hc1.
Qed.

Lemma commit_requests_answered_witness :
  exists es s', steps es (Loop true [3] [] [(1, Outcome); (2, Busy)]) = Some s' /\
    map fst (replies s') ≡ₚ [3; 1; 2].
Proof.
  destruct (commit_requests_answered (Loop true [3] [] [(1, Outcome); (2, Busy)])
    (steps_reachable [Recv 1; Recv 2; CommitDone 1; Recv 3; Respond 1] init _
       reach_init eq_refl)) as (es & s' & H & _ & _ & _ & _ & Hp).
  exists es, s'. split; assumption.
Defined.
