(* ===== verification/SessionServer.v ===== *)
(** [session/sessionreq.go], the dispatch of [session/session_internal.go]
    ([processreq], [run]) with the two handlers that involve the commit
    manager, and the client side in [session/session.go].

    A request carries the type of its answer, as the Go request carries the
    channel for it.  The requests a session serves form a tree: while one is
    being processed it may wait (see Session.v), and each of its waiting points
    has the list of the requests served there, which may wait in turn. *)

From S2P Require Import Prelude GoLib Errors Rpc External Configd LogLevel Sample Session.
From S2P Require Import StateTree Load EditConfig Commit.

Open Scope Z_scope.

Section Server.
Context {L : ConfigLib} {SL : StateLib} {CL : CommitLib}.
Context (xml_config : string -> list xml_elem + error) (fuel : nat).

(** ** Requests *)

(** What comes back on the channel of a request. *)
Definition getresp : Type := list string * option error.
Definition typeresp : Type := NodeType * option error.
Definition statusresp : Type := NodeStatus * option error.
Definition defaultresp : Type := bool * option error.
Definition gettreeresp : Type := option UNode * option error.
Definition getfulltreeresp : Type := option UNode * option error * list error.
Definition lockresp : Type := Z * option error.
Definition showresp : Type := string * option error.
Definition loadresp : Type := option error * list error.
Definition mergeresp : Type := option error * list error.

Inductive request : Type -> Type :=
  | mergetreereq (ctx : Context) (defaults : bool) : request data
  | setreq (ctx : Context) (path : list string) : request (option error)
  | validatesetreq (ctx : Context) (path : list string) : request (option error)
  | getreq (ctx : Context) (path : list string) : request getresp
  | typereq (ctx : Context) (path : list string) : request typeresp
  | statusreq (ctx : Context) (path : list string) : request statusresp
  | defaultreq (ctx : Context) (path : list string) : request defaultresp
  | gettreereq (ctx : Context) (path : list string) (opts : TreeOpts)
      : request gettreeresp
  | getfulltreereq (ctx : Context) (path : list string) (opts : TreeOpts)
      : request getfulltreeresp
  | existsreq (ctx : Context) (path : list string) : request bool
  | delreq (ctx : Context) (path : list string) : request (option error)
  | validatereq (ctx : Context) : request commitresp
  | lockreq (ctx : Context) : request lockresp
  | unlockreq (ctx : Context) : request lockresp
  | lockedreq (ctx : Context) : request lockresp
  | commentreq (ctx : Context) (path : list string) : request (option error)
  | savedreq (ctx : Context) : request bool
  | changedreq (ctx : Context) : request bool
  | marksavedreq (ctx : Context) (saved : bool) : request (option error)
  | showreq (ctx : Context) (path : list string)
      (hideSecrets showDefaults forceShowSecrets : bool) : request showresp
  | discardreq (ctx : Context) : request (option error)
  | loadreq (ctx : Context) (file : string) (reader : option string)
      : request loadresp
  | mergereq (ctx : Context) (file : string) : request mergeresp
  | commitreq (ctx : Context) (message : string) (debug : bool) : request commitresp
  | gethelpreq (ctx : Context) (schema : bool) (path : list string)
      : request (list (string * string))
  | editconfigreq (ctx : Context) (target defop testopt erropt config : string)
      : request (option error)
  | copyconfigreq (ctx : Context) (sourceDatastore sourceEncoding sourceConfig sourceURL
      targetDatastore targetURL : string) : request (option error).

(** ** The handlers that involve the commit manager *)

Definition changed_w (ctx : Context) (w : world) : bool :=
  let s := w_sess w in
  commit_Changed (newctx (s_sid s) ctx None (Merge (getUnion w)) (getRunning w)
                    (s_schema s) "" false 0).
Definition changed (ctx : Context) : M hst bool := gets (fun h => changed_w ctx (h_world h)).

(** "Lock the session from changes": the client's lock, if any, gives way to
    the COMMIT lock until the answer is there. *)
Definition with_commit_lock {A} (ctx : Context) (m : M hst A) : M hst A :=
  s <- sess ;;
  let pid := fst (locked s) in
  (if negb (pid =? 0) then on_sess (fun s => snd (unlock (Pid ctx) s)) else ret tt) ;;;
  on_sess (fun s => snd (lock COMMIT s)) ;;;
  a <- m ;;
  on_sess (fun s => snd (unlock COMMIT s)) ;;;
  (if negb (pid =? 0) then on_sess (fun s => snd (lock (Pid ctx) s)) else ret tt) ;;;
  ret a.

Definition validate (ctx : Context) : M hst commitresp :=
  s <- sess ;;
  match trylock (Pid ctx) s with
  | Some err => ret (MakeCommitError err)
  | None =>
      with_commit_lock ctx (
        w <- the_world ;;
        let s := w_sess w in
        let mustThreshold := fst (LoggingValueAndStatus (w_log w) TypeMust) in
        let c := newctx (s_sid s) ctx None (Merge (getUnion w)) (getRunning w) (s_schema s) ""
                   (LoggingIsEnabledAtLevel (w_log w) LevelDebug TypeCommit) mustThreshold in
        serve_while_waiting None ;;;
        let '(outs, errs, ok) := commit_Validate c in
        ret (CommitResp outs errs ok))
  end.

(** [CommitMgr.Commit], answered by [CommitMgr.run]: see RunLoop.v for the
    loop; here a commit of another session that is still running shows. *)
Definition set_inCommit (b : bool) (w : world) : world :=
  set_cm (CMgr (cm_running (w_cm w)) (cm_effective (w_cm w)) (cm_schema (w_cm w))
            (cm_hadcommit (w_cm w)) b) w.

Definition CommitMgr_Commit (sid : string) (ctx : Context) (candidate : data)
    (message : string) (debug : bool) : M world commitresp :=
  w <- gets id ;;
  if cm_inCommit (w_cm w) then
    ret (MakeCommitError (error_msg ResourceDeniedProtocol "Commit already in progress"))
  else
    modify (set_inCommit true) ;;;
    resp <- mgr_commit sid ctx candidate message debug ;;
    modify (set_inCommit false) ;;;
    ret resp.

Definition lift_world {A} (m : M world A) : M hst A := fun h =>
  match m (h_world h) with
  | None => None
  | Some (a, w) => Some (a, Hst w (h_blk h))
  end.

(** The commit runs in another goroutine: requests are served before it looks
    at the session (it reads the candidate and the running tree when it gets
    to run) and after it has stored the new running tree. *)
Definition commit (ctx : Context) (message : string) (debug : bool) : M hst commitresp :=
  w <- the_world ;;
  match trylock (Pid ctx) (w_sess w) with
  | Some err => ret (MakeCommitError err)
  | None =>
      if negb (changed_w ctx w) then
        ret (MakeCommitError
          (error_msg OperationFailedProtocol "No configuration changes to commit"))
      else
        match preCommitChecks w with
        | Some err => ret (MakeCommitError err)
        | None =>
            with_commit_lock ctx (
              w <- the_world ;;
              let diffCache := diff_NewNode (Some (Merge (getUnion w))) (Some (getRunning w))
                                 (Some (ms_node (s_schema (w_sess w)))) in
              serve_while_waiting diffCache ;;;
              s <- sess ;;
              resp <- lift_world
                (CommitMgr_Commit (s_sid s) ctx (s_candidate s) message debug) ;;
              serve_while_waiting diffCache ;;;
              (if negb (cr_ok resp) then ret tt
               else on_sess (replace_candidate (data_New "root"))) ;;;
              ret resp)
        end
  end.

(** ** Dispatch *)

(** [processreq]; note that a comment request is served by [set]. *)
Definition processreq {A} (req : request A) (diffCache : option DiffNode) : M hst A :=
  match req in request A return M hst A with
  | mergetreereq _ defaults => mergetree defaults
  | setreq ctx path => set ctx path
  | validatesetreq ctx path => validateSetPath ctx path incompletePathIsInvalid cfgSchemaOnly
  | delreq ctx path => del ctx path
  | existsreq ctx path =>
      gets (fun h => let w := h_world h in existsInTree (w_sess w) (getUnion w) ctx path true)
  | typereq _ path => gettype path
  | statusreq ctx path => getstatus ctx path diffCache
  | defaultreq ctx path => isdefault ctx path
  | getreq ctx path => get ctx path
  | gettreereq ctx path opts => gettree ctx path opts
  | getfulltreereq ctx path opts => getfulltree fuel ctx path opts
  | validatereq ctx => validate ctx
  | lockreq ctx => sess_op (lock (Pid ctx))
  | unlockreq ctx => sess_op (unlock (Pid ctx))
  | lockedreq _ => gets (fun h => locked (w_sess (h_world h)))
  | commentreq ctx path => set ctx path
  | savedreq _ => gets (fun h => s_saved (w_sess (h_world h)))
  | changedreq ctx => changed ctx
  | marksavedreq ctx saved => marksaved ctx saved
  | showreq ctx path hideSecrets showDefaults forceShowSecrets =>
      show ctx path hideSecrets showDefaults forceShowSecrets
  | discardreq ctx => discard ctx
  | loadreq ctx file reader => load ctx file reader
  | mergereq ctx file => merge ctx file None
  | commitreq ctx message debug => commit ctx message debug
  | gethelpreq ctx schema path => gethelp ctx schema path
  | editconfigreq ctx target defop testopt erropt config =>
      editConfigXML xml_config ctx target defop testopt erropt config
  | copyconfigreq ctx sourceDatastore sourceEncoding sourceConfig sourceURL targetDatastore targetURL =>
      copyConfig ctx sourceDatastore sourceEncoding sourceConfig sourceURL targetDatastore targetURL
  end.

(** What reaches a session: a request, with what is served at its waiting
    points, or a change another session's commit makes to the commit manager. *)
Inductive arrival : Type :=
  | Arr (A : Type) (req : request A) (nested : list (list arrival))
  | Env (c : cmgr).

(** [run] serves one arrival; nothing is left to serve at a waiting point the
    tree does not mention. *)
Fixpoint serve (a : arrival) (dc : option DiffNode) (w : world) : option world :=
  match a with
  | Env c => Some (set_cm c w)
  | Arr A req nested =>
      let blk := map (fun l dc' w' =>
        (fix go (l : list arrival) (w : world) : option world :=
           match l with
           | [] => Some w
           | b :: l' => match serve b dc' w with Some w1 => go l' w1 | None => None end
           end) l w') nested in
      match processreq req dc (Hst w blk) with
      | Some (_, h) => Some (h_world h)
      | None => None
      end
  end.

Definition serve_all (l : list arrival) (dc : option DiffNode) (w : world) : option world :=
  (fix go (l : list arrival) (w : world) : option world :=
     match l with
     | [] => Some w
     | b :: l' => match serve b dc w with Some w1 => go l' w1 | None => None end
     end) l w.

(** ** Invariants of what a session serves *)

Definition req_ctx {A} (r : request A) : Context :=
  match r with
  | mergetreereq ctx _ | setreq ctx _ | validatesetreq ctx _ | getreq ctx _ | typereq ctx _
  | statusreq ctx _ | defaultreq ctx _ | gettreereq ctx _ _ | getfulltreereq ctx _ _
  | existsreq ctx _ | delreq ctx _ | validatereq ctx | lockreq ctx | unlockreq ctx
  | lockedreq ctx | commentreq ctx _ | savedreq ctx | changedreq ctx | marksavedreq ctx _
  | showreq ctx _ _ _ _ | discardreq ctx | loadreq ctx _ _ | mergereq ctx _ | commitreq ctx _ _
  | gethelpreq ctx _ _ | editconfigreq ctx _ _ _ _ _ | copyconfigreq ctx _ _ _ _ _ _ => ctx
  end.

(** The requests that replace the whole configuration. *)
Definition is_load {A} (r : request A) : bool :=
  match r with loadreq _ _ _ | copyconfigreq _ _ _ _ _ _ _ => true | _ => false end.

(** Every request of a tree satisfies [P]. *)
Inductive arr_all (P : forall A, request A -> Prop) : arrival -> Prop :=
  | arr_env c : arr_all P (Env c)
  | arr_req A r nested : P A r -> Forall (Forall (arr_all P)) nested -> arr_all P (Arr A r nested).

Lemma arr_all_nested (P : forall A, request A -> Prop) (Q : arrival -> Prop) :
  (forall c, Q (Env c)) ->
  (forall A r nested, P A r -> Forall (Forall Q) nested -> Q (Arr A r nested)) ->
  forall a, arr_all P a -> Q a.
Proof.
  intros Henv Hreq. fix IH 2. intros a [c|A r nested Hr Hn]; [apply Henv|].
  apply Hreq; [exact Hr|]. clear Hr.
  induction Hn as [|l n Hl _ IHn]; constructor; [|exact IHn].
  induction Hl as [|b l Hb _ IHl]; constructor; [apply IH; exact Hb|exact IHl].
Qed.

(** The block a list of arrivals makes of a waiting point. *)
Definition blk_of (l : list arrival) : option DiffNode -> world -> option world :=
  fun dc w => serve_all l dc w.

Lemma serve_Arr A (r : request A) nested dc w :
  serve (Arr A r nested) dc w =
  match processreq r dc (Hst w (map blk_of nested)) with
  | Some (_, h) => Some (h_world h)
  | None => None
  end.
Proof. reflexivity. Qed.

Section ServeInv.
Context (I : world -> Prop) (P : forall A, request A -> Prop).
Hypothesis Hreq : forall A (r : request A) dc, P A r ->
  preserves (hinv I (blk_preserves I)) (processreq r dc).
Hypothesis Henv : forall c w, I w -> I (set_cm c w).

Lemma serve_inv a : arr_all P a -> blk_preserves I (serve a).
Proof.
  revert a. apply arr_all_nested.
  - intros c dc w w' Hw [= <-]. by apply Henv.
  - intros A r nested Hr Hn dc w w' Hw. rewrite serve_Arr.
    destruct (processreq r dc _) as [[x h]|] eqn:E; [|done]. intros [= <-].
    apply (Hreq A r dc Hr) in E; [apply E|]. split; [done|]. cbn.
    clear Hreq E. induction Hn as [|l n Hl _ IH]; [constructor|]. cbn. constructor; [|exact IH].
    clear IH.
    induction Hl as [|b l Hb _ IHl]; intros dc' w1 w2 H1; [by intros [= <-]|].
    unfold blk_of, serve_all. destruct (serve b dc' w1) as [w3|] eqn:E3; [|done]. intros H2.
    eapply IHl; [|exact H2]. by eapply Hb.
Qed.

Lemma serve_all_inv l : Forall (arr_all P) l -> blk_preserves I (serve_all l).
Proof.
  induction 1 as [|b l Hb _ IHl]; intros dc' w1 w2 H1; [by intros [= <-]|].
  unfold serve_all. destruct (serve b dc' w1) as [w3|] eqn:E3; [|done]. intros H2.
  eapply IHl; [|exact H2]. by eapply (serve_inv b).
Qed.
End ServeInv.

(** Requests of clients that do not hold the lock, while it is held by [p]:
    they leave an invariant about the locked session alone, unless they load
    a configuration and the invariant depends on the candidate. *)
Section ForeignServe.
Context (I : world -> Prop) (p : Z) (loads : bool).
Hypothesis Hp : p <> 0.
Hypothesis HI : forall w, I w -> s_lpid (w_sess w) = p.
Hypothesis Hcand : loads = true -> forall w d, I w -> I (set_sess (set_candidate d (w_sess w)) w).

Definition foreign A (r : request A) : Prop :=
  Pid (req_ctx r) <> p /\ (is_load r = true -> loads = true).

Abbreviation Inv := (hinv I (blk_preserves I)).

(** A handler that answers without touching anything. *)
Lemma refused_inv {A} (m : M hst A) :
  (forall h, I (h_world h) -> exists a, m h = Some (a, h)) -> preserves Inv m.
Proof.
  intros Hm h a h' [Hi Hb] E. destruct (Hm h Hi) as (a' & E').
  rewrite E' in E. injection E as _ <-. by split.
Qed.

Lemma sess_op_foreign_inv {A} (f : session -> A * session) :
  (forall s, s_lpid s = p -> snd (f s) = s) -> preserves Inv (sess_op f).
Proof.
  intros Hf. apply refused_inv. intros h Hi. exists (fst (f (w_sess (h_world h)))).
  unfold sess_op, bind, sess, gets, on_sess, on_world, modify, ret.
  rewrite Hf by by apply HI. destruct h as [[] ?]. done.
Qed.

Lemma with_trylock_foreign_inv {A} (ctx : Context) (e : error -> A) (k : M hst A) :
  Pid ctx <> p ->
  preserves Inv (s <- sess ;; match trylock (Pid ctx) s with Some er => ret (e er) | None => k end).
Proof.
  intros Hf. apply refused_inv. intros h Hi. apply HI in Hi.
  destruct (trylock_foreign (Pid ctx) (w_sess (h_world h))) as (er & E & _); [congruence..|].
  exists (e er). unfold bind, sess, gets. by rewrite E.
Qed.

Lemma processreq_foreign_inv A (r : request A) dc : foreign A r -> preserves Inv (processreq r dc).
Proof.
  intros [Hf Hl].
  assert (HB : forall b, blk_preserves I b -> blk_preserves I b) by done.
  assert (Hs : forall w, I w -> s_lpid (w_sess w) <> 0 /\ (Pid (req_ctx r) <> p ->
    s_lpid (w_sess w) <> Pid (req_ctx r))) by (intros w Hw; rewrite (HI w Hw); done).
  destruct r; cbn [processreq req_ctx is_load] in *;
    try (by apply preserves_gets); try (by apply validateSetPath_inv);
    try (by apply gettree_inv); try (by apply getfulltree_inv).
  - apply refused_inv. intros h Hi. destruct (Hs _ Hi) as [H0 H1].
    destruct (set_foreign ctx _ H0 (H1 Hf) path h eq_refl) as (e & E & _). eauto.
  - by apply (with_trylock_foreign_inv ctx Some).
  - by apply (with_trylock_foreign_inv ctx MakeCommitError).
  - apply sess_op_foreign_inv. intros s E. apply lock_held. congruence.
  - apply sess_op_foreign_inv. intros s E. apply unlock_foreign. congruence.
  - apply refused_inv. intros h Hi. destruct (Hs _ Hi) as [H0 H1].
    destruct (set_foreign ctx _ H0 (H1 Hf) path h eq_refl) as (e & E & _). eauto.
  - by apply (with_trylock_foreign_inv ctx Some).
  - by apply (with_trylock_foreign_inv ctx Some).
  - apply load_inv; auto.
  - apply refused_inv. intros h Hi. destruct (Hs _ Hi) as [H0 H1].
    unfold merge. erewrite bind_eq by reflexivity.
    destruct (readFile file None _) as [[t|e] inv]; [|by eexists].
    destruct (merge_tree_foreign ctx t _ h H0 (H1 Hf) eq_refl) as (es & E & _).
    erewrite bind_eq by exact E. by eexists.
  - apply refused_inv. intros h Hi. destruct (Hs _ Hi) as [H0 H1].
    destruct (trylock_foreign (Pid ctx) _ H0 (H1 Hf)) as (er & E & _).
    unfold commit. erewrite bind_eq by reflexivity. rewrite E. by eexists.
  - apply refused_inv. intros h Hi. destruct (Hs _ Hi) as [H0 H1].
    destruct (editConfigXML_foreign xml_config ctx _ target defop testopt erropt config h H0 (H1 Hf) eq_refl)
      as (e & E & _). eauto.
  - apply copyConfig_inv; auto.
Qed.
End ForeignServe.

(** ** The COMMIT lock *)

Lemma with_commit_lock_run {A} ctx (m : M hst A) h a h' :
  trylock (Pid ctx) (w_sess (h_world h)) = None ->
  with_commit_lock ctx m h = Some (a, h') ->
  exists h1,
    m (Hst (set_sess (set_lpid COMMIT (w_sess (h_world h))) (h_world h)) (h_blk h)) = Some (a, h1) /\
    (s_lpid (w_sess (h_world h1)) = COMMIT ->
     h' = Hst (set_sess (set_lpid (s_lpid (w_sess (h_world h))) (w_sess (h_world h1)))
                 (h_world h1)) (h_blk h1)).
Proof.
  intros Ht H. unfold with_commit_lock in H.
  apply bind_Some in H as (s & h0 & H0 & H). injection H0 as <- <-.
  cbv zeta in H. cbn [locked fst] in H.
  destruct (Z.eqb_spec (s_lpid (w_sess (h_world h))) 0) as [Hz|Hnz]; cbn [negb] in H.
  - erewrite bind_eq in H by reflexivity.
    apply bind_Some in H as ([] & h0 & H0 & H). injection H0 as <-. rewrite lock_free in H by done.
    cbn [snd] in H. apply bind_Some in H as (a1 & h1 & H1 & H). exists h1.
    apply bind_Some in H as ([] & h2 & H2 & H). injection H2 as <-.
    apply bind_Some in H as ([] & h3 & H3 & H). injection H3 as <-. injection H as <- <-.
    split; [exact H1|]. intros Hc. rewrite unlock_own by (rewrite Hc; done). cbn. by rewrite Hz.
  - apply trylock_None in Ht as [?|Ht]; [done|].
    apply bind_Some in H as ([] & h0 & H0 & H). injection H0 as <-.
    rewrite unlock_own in H by done. cbn [snd] in H.
    apply bind_Some in H as ([] & h0 & H0 & H). injection H0 as <-.
    apply bind_Some in H as (a1 & h1 & H1 & H). exists h1.
    apply bind_Some in H as ([] & h2 & H2 & H). injection H2 as <-.
    apply bind_Some in H as ([] & h3 & H3 & H). injection H3 as <-. injection H as <- <-.
    split; [exact H1|]. intros Hc. cbn [h_world w_sess set_sess h_blk].
    rewrite unlock_own by (rewrite Hc; done). cbn [snd]. rewrite lock_free by done.
    cbn. by rewrite Ht.
Qed.

(** What is served while the COMMIT lock is held. *)
Definition only_foreign (loads : bool) (nested : list (list arrival)) : Prop :=
  Forall (Forall (arr_all (foreign COMMIT loads))) nested.

Lemma only_foreign_blk I loads nested :
  (forall w, I w -> s_lpid (w_sess w) = COMMIT) ->
  (loads = true -> forall w d, I w -> I (set_sess (set_candidate d (w_sess w)) w)) ->
  (forall c w, I w -> I (set_cm c w)) ->
  only_foreign loads nested -> Forall (blk_preserves I) (map blk_of nested).
Proof.
  intros HI Hc Hcm Hn. apply Forall_map. eapply Forall_impl; [exact Hn|]. intros l Hl.
  eapply serve_all_inv; [|exact Hcm|exact Hl].
  intros A r dc Hr. by apply (processreq_foreign_inv I COMMIT loads).
Qed.

(** The two invariants: the lock word, and the whole session. *)
Abbreviation commit_locked := (fun w => s_lpid (w_sess w) = COMMIT).
Abbreviation session_is s := (fun w => w_sess w = s).

Lemma blk_commit_locked loads nested : only_foreign loads nested ->
  Forall (blk_preserves commit_locked) (map blk_of nested).
Proof. intros Hn. by apply (only_foreign_blk _ loads). Qed.

Lemma blk_session_is s nested : s_lpid s = COMMIT -> only_foreign false nested ->
  Forall (blk_preserves (session_is s)) (map blk_of nested).
Proof.
  intros Hs Hn. apply (only_foreign_blk _ false); [by intros w ->|done|by intros c w <-|done].
Qed.

(** ** A commit by the manager does not touch the session *)

Abbreviation keeps_session s := (preserves (fun w => w_sess w = s)).

Lemma on_effective_session {A} (m : M hst A) s : keeps_session s (on_effective m).
Proof.
  intros w a w' <-. unfold on_effective. destruct (cm_effective (w_cm w)); [|done].
  destruct (m _) as [[a' h]|]; [|done]. by intros [= <- <-].
Qed.

Lemma run_commit_session c p s : keeps_session s (run_commit c p).
Proof.
  induction p as [path k IH|path k IH|]; cbn; [| |apply preserves_ret];
    (apply preserves_bind; [apply on_effective_session|intros e; apply IH]).
Qed.

Lemma commit_apply_session c u user outs errs s : keeps_session s (commit_apply c u user outs errs).
Proof.
  assert (Hm : forall f, (forall w, w_sess (f w) = w_sess w) -> keeps_session s (modify f)).
  { intros f Hf. apply preserves_modify. intros w <-. apply Hf. }
  unfold commit_apply, execute_hooks, cc_commit, store_running, writeRunning, emit_w.
  repeat first [ apply preserves_bind; [|intros ?] | apply on_effective_session
               | apply run_commit_session | apply preserves_ret | apply Hm; reflexivity
               | go_step ].
Qed.

Lemma mgr_commit_session sid sctx d msg dbg s : keeps_session s (mgr_commit sid sctx d msg dbg).
Proof.
  unfold mgr_commit, set_hadcommit. apply preserves_bind; [apply preserves_gets|intros w].
  apply preserves_bind; [by apply preserves_modify|intros _].
  destruct (commit_context _ _ _ _ _ _) as [c u]. destruct (commit_Validate c) as [[outs errs] ok].
  go_step; [apply preserves_ret|]. go_step; [apply commit_apply_session|apply preserves_ret].
Qed.

Lemma CommitMgr_Commit_session sid sctx d msg dbg s :
  keeps_session s (CommitMgr_Commit sid sctx d msg dbg).
Proof.
  unfold CommitMgr_Commit. apply preserves_bind; [apply preserves_gets|intros w].
  go_step; [apply preserves_ret|].
  apply preserves_bind; [by apply preserves_modify|intros _].
  apply preserves_bind; [apply mgr_commit_session|intros r].
  apply preserves_bind; [by apply preserves_modify|intros _]. apply preserves_ret.
Qed.

(** ** The lock as a mutex *)

Inductive lock_op := OLock (pid : Z) | OUnlock (pid : Z).

(** The contract: a mutex with an owner.  The answer says whether the
    operation was granted. *)
Definition mutex_step (o : lock_op) (m : option Z) : bool * option Z :=
  match o, m with
  | OLock p, None => (true, Some p)
  | OLock _, Some q => (false, Some q)
  | OUnlock p, Some q => if p =? q then (true, None) else (false, Some q)
  | OUnlock _, None => (false, None)
  end.

Definition session_step (o : lock_op) (s : session) : bool * session :=
  let r := match o with OLock p => lock p s | OUnlock p => unlock p s end in
  (bool_decide (snd (fst r) = None), snd r).

Section Runs.
Context {S : Type} (step : lock_op -> S -> bool * S).
Fixpoint run_ops (ops : list lock_op) (s : S) : list bool * S :=
  match ops with
  | [] => ([], s)
  | o :: ops' =>
      let '(b, s1) := step o s in
      let '(bs, s2) := run_ops ops' s1 in (b :: bs, s2)
  end.
End Runs.

Definition mutex_of (s : session) : option Z :=
  if s_lpid s =? 0 then None else Some (s_lpid s).

Definition op_pid (o : lock_op) : Z := match o with OLock p | OUnlock p => p end.

Lemma session_step_mutex o s : op_pid o <> 0 ->
  mutex_step o (mutex_of s) = (fst (session_step o s), mutex_of (snd (session_step o s))) /\
  set_lpid 0 (snd (session_step o s)) = set_lpid 0 s.
Proof.
  intros Hp. destruct o as [p|p]; cbn in Hp; unfold session_step, mutex_of, lock, unlock;
    destruct (Z.eqb_spec (s_lpid s) 0) as [E|E]; cbn.
  - rewrite (proj2 (Z.eqb_neq p 0) Hp). done.
  - destruct (s_lpid s =? p), (s_lpid s <? 0); cbn; rewrite (proj2 (Z.eqb_neq _ 0) E); done.
  - rewrite E. done.
  - rewrite (Z.eqb_sym p). destruct (Z.eqb_spec (s_lpid s) p); [done|].
    destruct (s_lpid s <? 0); cbn; rewrite (proj2 (Z.eqb_neq _ 0) E); done.
Qed.

(** ** Properties *)

(** C1: the lock protects a session.  While a session is locked, serving any
    number of requests of clients that do not hold the lock, in any order and
    nested in any way at each other's waiting points, with other sessions
    committing in between, leaves the session exactly as it was (candidate,
    lock, saved flag), as long as none of them is a load or a copy-config. *)
Theorem locked_session_protected l dc w w' :
  s_lpid (w_sess w) <> 0 ->
  Forall (arr_all (foreign (s_lpid (w_sess w)) false)) l ->
  serve_all l dc w = Some w' -> w_sess w' = w_sess w.
Proof.
  intros Hp Hl. set (s := w_sess w) in *.
  apply (serve_all_inv (fun w => w_sess w = s) (foreign (s_lpid s) false)); [|done|exact Hl|done].
  intros A r dc' Hr. apply (processreq_foreign_inv _ (s_lpid s) false); [done| |done|exact Hr].
  by intros w1 ->.
Qed.

(** C9: a validation gives the lock back: it holds the COMMIT lock while it
    waits, so whatever is served meanwhile the client (or nobody) has the lock
    again afterwards; and unless a configuration is loaded meanwhile, the
    session it validated is the session it leaves. *)
Theorem validate_restores ctx nested dc w w' :
  serve (Arr _ (validatereq ctx) nested) dc w = Some w' ->
  only_foreign true nested ->
  s_lpid (w_sess w') = s_lpid (w_sess w) /\
  (only_foreign false nested -> w_sess w' = w_sess w).
Proof.
  rewrite serve_Arr. cbn [processreq]. intros H Hn.
  destruct (validate ctx _) as [[r h']|] eqn:E; [|done]. injection H as <-.
  unfold validate in E. apply bind_Some in E as (s & h0 & E0 & E). injection E0 as <- <-.
  cbn [h_world] in E.
  destruct (trylock (Pid ctx) (w_sess w)) eqn:Et; [by injection E as _ <-|].
  destruct (with_commit_lock_run _ _ (Hst w (map blk_of nested)) _ _ Et E) as (h1 & E1 & Hh').
  cbn [h_world h_blk] in *. set (s1 := set_lpid COMMIT (w_sess w)) in *.
  assert (Hbody : forall I, (forall b, blk_preserves I b -> blk_preserves I b) ->
    I (set_sess s1 w) -> Forall (blk_preserves I) (map blk_of nested) -> I (h_world h1)).
  { intros I HB Hi Hf.
    eapply (the_world_bind_inv I (blk_preserves I)) in E1; [apply E1| |by split].
    intros w1 _. cbv zeta.
    apply preserves_bind; [by apply serve_while_waiting_inv|intros _].
    destruct (commit_Validate _) as [[? ?] ?]. apply preserves_ret. }
  specialize (Hh' (Hbody commit_locked (fun _ H => H) eq_refl (blk_commit_locked _ _ Hn))).
  rewrite Hh'. split; [done|]. intros Hn'. cbn.
  rewrite (Hbody (session_is s1) (fun _ H => H) eq_refl (blk_session_is s1 _ eq_refl Hn')).
  unfold s1. rewrite set_lpid_lpid. by apply set_lpid_id.
Qed.

(** C6: what a commit does to the session that asks for it: after a commit
    that succeeded the candidate is a new empty tree, after one that did not
    everything is as before; the lock and the rest of the session are as
    before in both cases.  (Requests that do not hold the COMMIT lock and do
    not load a configuration may be served meanwhile.) *)
Theorem commit_session_effect ctx message debug nested dc w resp h' :
  processreq (commitreq ctx message debug) dc (Hst w (map blk_of nested)) = Some (resp, h') ->
  only_foreign false nested ->
  w_sess (h_world h') =
    (if cr_ok resp then replace_candidate (data_New "root") (w_sess w) else w_sess w).
Proof.
  cbn [processreq]. intros E Hn.
  unfold commit in E. apply bind_Some in E as (w0 & h0 & E0 & E). injection E0 as <- <-.
  cbn [h_world] in E.
  destruct (trylock (Pid ctx) (w_sess w)) eqn:Et; [by injection E as <- <-|].
  destruct (negb (changed_w ctx w)); [by injection E as <- <-|].
  destruct (preCommitChecks w); [by injection E as <- <-|].
  apply with_commit_lock_run in E as (h1 & E1 & Hh'); [|exact Et]. cbn [h_world h_blk] in *.
  set (s1 := set_lpid COMMIT (w_sess w)) in *.
  assert (Hs : w_sess (h_world h1) =
    (if cr_ok resp then replace_candidate (data_New "root") s1 else s1)).
  { apply bind_Some in E1 as (w1 & h2 & E2 & E1). injection E2 as <- <-. cbv zeta in E1.
    apply bind_Some in E1 as ([] & h2 & E2 & E1).
    eapply (serve_while_waiting_inv (session_is s1) (blk_preserves (session_is s1))) in E2;
      [|done|split; [done|by apply blk_session_is]].
    apply bind_Some in E1 as (s2 & h3 & E3 & E1). injection E3 as <- <-.
    apply bind_Some in E1 as (r & h3 & E3 & E1).
    assert (Hh3 : w_sess (h_world h3) = s1 /\ h_blk h3 = h_blk h2).
    { unfold lift_world in E3. destruct (CommitMgr_Commit _ _ _ _ _ _) as [[r' w3]|] eqn:E4; [|done].
      injection E3 as _ <-. split; [|done]. eapply CommitMgr_Commit_session; [|exact E4]. apply E2. }
    apply bind_Some in E1 as ([] & h4 & E4 & E1).
    eapply (serve_while_waiting_inv (session_is s1) (blk_preserves (session_is s1))) in E4;
      [|done|split; [apply Hh3|destruct Hh3 as [_ ->]; apply E2]].
    destruct E4 as [E4 _]. cbn in E4.
    apply bind_Some in E1 as ([] & h5 & E5 & E1). injection E1 as -> <-.
    destruct (cr_ok resp); cbn [negb] in E5; injection E5 as <-; cbn; by rewrite E4. }
  rewrite Hh' by (rewrite Hs; by destruct (cr_ok resp)). cbn. rewrite Hs.
  destruct (cr_ok resp); [done|]. unfold s1. change (set_lpid ?p (set_lpid ?q ?s)) with (set_lpid p s).
  by apply set_lpid_id.
Qed.

(** C11: the lock of a session refines a mutex with an owner: over any sequence
    of lock and unlock requests of processes, the grants and refusals are those
    of the mutex, and nothing else of the session changes. *)
Theorem lock_refines_mutex ops : forall s,
  Forall (fun o => op_pid o <> 0) ops ->
  run_ops mutex_step ops (mutex_of s) =
    (fst (run_ops session_step ops s), mutex_of (snd (run_ops session_step ops s))) /\
  set_lpid 0 (snd (run_ops session_step ops s)) = set_lpid 0 s.
Proof.
  induction ops as [|o ops IH]; intros s H; [done|].
  apply Forall_cons in H as [Hp H]. destruct (session_step_mutex o s Hp) as [Hm Hs].
  cbn [run_ops]. destruct (session_step o s) as [b s1]. cbn [fst snd] in Hm, Hs. rewrite Hm.
  destruct (IH s1 H) as [Hm' Hs']. rewrite Hm'.
  destruct (run_ops session_step ops s1) as [bs s2]. cbn [fst snd] in *. split; [done|congruence].
Qed.

(** The lock is checked once, before the wait: a client that sets a node in
    an unlocked session still changes the candidate when, while the path is
    being validated, another client takes the lock. *)
Theorem set_after_lock_taken ctx other path dc w sch :
  s_lpid (w_sess w) = 0 ->
  AuthUpdate (newAuther (w_sess w) ctx) path = true ->
  AuthCreate (newAuther (w_sess w) ctx) path = true ->
  Validate (s_schema (w_sess w)) (s_sid (w_sess w)) (Noexec ctx) false path = None ->
  Descendant (s_schema (w_sess w)) path = Some sch -> sn_subst sch = [] ->
  let w1 := set_sess (set_lpid (Pid other) (w_sess w)) w in
  let ut := getUnion w1 in
  let r := u_Set (un_cand ut) (un_run ut) (un_ms ut) (newAuther (w_sess w1) ctx) path in
  processreq (setreq ctx path) dc (Hst w [blk_of [Arr _ (lockreq other) []]]) =
    Some (snd r, Hst (set_sess (set_candidate (fst r) (w_sess w1)) w1) []).
Proof.
  intros Hl Hu Hc Hv Hd Hs w1 ut r. cbn [processreq]. unfold set.
  erewrite bind_eq by reflexivity. cbn [h_world].
  assert (trylock (Pid ctx) (w_sess w) = None) as -> by (apply trylock_None; by left).
  cbv zeta. rewrite Hu, Hc. cbn [negb].
  assert (Hset : _set ctx path (Hst w [blk_of [Arr _ (lockreq other) []]]) =
    Some (snd r, Hst (set_sess (set_candidate (fst r) (w_sess w1)) w1) [])).
  { unfold _set, validateSetPath.
    assert (Hw : serve_while_waiting None (Hst w [blk_of [Arr _ (lockreq other) []]]) =
      Some (tt, Hst w1 [])).
    { unfold serve_while_waiting, blk_of, serve_all. cbn [h_blk h_world]. rewrite serve_Arr.
      cbn [processreq map]. unfold sess_op. erewrite bind_eq by reflexivity.
      cbn [h_world]. unfold on_sess, on_world, modify. erewrite bind_eq by reflexivity.
      cbn [h_world]. rewrite lock_free by done. done. }
    erewrite bind_eq.
    2: { erewrite bind_eq by reflexivity. erewrite bind_eq by exact Hw.
         cbn [h_world incompletePathIsInvalid cfgSchemaOnly]. unfold cfgSchemaOnly, incompletePathIsInvalid.
         rewrite Hv. reflexivity. }
    cbn beta iota. erewrite bind_eq by reflexivity. cbn [h_world w1].
    change (s_schema (w_sess w1)) with (s_schema (w_sess w)). rewrite Hd, Hs.
    reflexivity. }
  by destruct (existsInTree _ _ _ _ _).
Qed.
End Server.

(** ** Concrete sessions at work *)

Module SampleServer.
Abbreviation user pid := (Sample.client pid 1000 Sample.allow).
Abbreviation process := (processreq (SL := SampleState.statelib) (CL := SampleCommit.commitlib)
  SampleEdit.xml 3).
Abbreviation blk := (blk_of (SL := SampleState.statelib) (CL := SampleCommit.commitlib)
  SampleEdit.xml 3).
Abbreviation run := (serve_all (SL := SampleState.statelib) (CL := SampleCommit.commitlib)
  SampleEdit.xml 3).
Abbreviation req ctx path nested := (Arr (L := Sample.lib) (option error) (setreq ctx path) nested).

(** Another client sets, validates a path, and a third one discards meanwhile;
    another session commits. *)
Definition arrivals : list arrival :=
  [ req (user 20) ["service"] [];
    Arr _ (validatesetreq (user 20) ["service"]) [[Arr _ (discardreq (user 30)) []]];
    Arr _ (commitreq (user 30) "" false) [] ].

Lemma locked_session_protected_witness :
  run arrivals None (sample_world 10) = Some (sample_world 10) /\
  w_sess (sample_world 10) = w_sess (sample_world 10).
Proof.
  split; [reflexivity|].
  apply (locked_session_protected (SL := SampleState.statelib) (CL := SampleCommit.commitlib)
    SampleEdit.xml 3 arrivals None (sample_world 10)); [discriminate| |reflexivity].
  repeat constructor; discriminate.
Defined.

(** During the validation the client itself tries to set: it is refused. *)
Lemma validate_restores_witness :
  serve (SL := SampleState.statelib) (CL := SampleCommit.commitlib) SampleEdit.xml 3
    (Arr _ (validatereq (user 10)) [[req (user 10) ["service"] []]]) None (sample_world 10)
    = Some (sample_world 10) /\
  s_lpid (w_sess (sample_world 10)) = 10.
Proof.
  split; [reflexivity|].
  refine (proj1 (validate_restores (SL := SampleState.statelib) (CL := SampleCommit.commitlib)
    SampleEdit.xml 3 (user 10) [[req (user 10) ["service"] []]] None (sample_world 10)
    (sample_world 10) eq_refl _)).
  repeat constructor; discriminate.
Defined.

Definition committed_session : session := replace_candidate (data_New "root") (sample_session 10).

Lemma commit_session_effect_witness :
  process (commitreq (user 10) "msg" false) None
    (Hst (sample_world 10) (map blk [[req (user 10) ["service"] []]; []]))
    = Some (SampleCommit.resp, Hst (set_sess committed_session SampleCommit.world') []) /\
  w_sess (set_sess committed_session SampleCommit.world')
    = replace_candidate (data_New "root") (w_sess (sample_world 10)).
Proof.
  split; [reflexivity|].
  refine (commit_session_effect (SL := SampleState.statelib) (CL := SampleCommit.commitlib)
    SampleEdit.xml 3 (user 10) "msg" false [[req (user 10) ["service"] []]; []] None
    (sample_world 10) SampleCommit.resp
    (Hst (set_sess committed_session SampleCommit.world') []) eq_refl _).
  repeat constructor; discriminate.
Defined.

Lemma lock_refines_mutex_witness :
  run_ops mutex_step [OLock 5; OLock 6; OUnlock 6; OUnlock 5; OLock 6] None
  = ([true; false; false; true; true], Some 6).
Proof.
  refine (proj1 (lock_refines_mutex (L := Sample.lib) [OLock 5; OLock 6; OUnlock 6; OUnlock 5; OLock 6]
    (sample_session 0) _)).
  repeat constructor; discriminate.
Defined.

Lemma set_after_lock_taken_witness :
  exists h', process (setreq (user 10) ["service"; "port"]) None
      (Hst (sample_world 0) [blk [Arr _ (lockreq (user 20)) []]])
    = Some (None, h') /\ s_lpid (w_sess (h_world h')) = 20 /\
      s_candidate (w_sess (h_world h')) = [["service"; "port"]; ["system"; "host-name"; "a"]].
Proof.
  eexists. split.
  - exact (set_after_lock_taken (SL := SampleState.statelib) (CL := SampleCommit.commitlib)
      SampleEdit.xml 3 (user 10) (user 20) ["service"; "port"] None (sample_world 0)
      (Sample.leaf "port") eq_refl eq_refl eq_refl eq_refl eq_refl eq_refl).
  - split; reflexivity.
Defined.
End SampleServer.
