(* ===== verification/SessionApi.v ===== *)
(** [session/session.go], the client side of a session: each method sends one
    request to the session's goroutine and waits for the answer on its own
    channel, or finds that the session has terminated.  A call is a handler of
    the session it is made to; [term] says whether the channel [term] has been
    closed (by [Kill], once the goroutine gets to it).  The methods whose names
    are taken carry an underscore. *)

From S2P Require Import Prelude GoLib Errors Rpc External Configd LogLevel Sample Session.
From S2P Require Import StateTree Load EditConfig Commit SessionServer.

Open Scope Z_scope.

Section Api.
Context {L : ConfigLib} {SL : StateLib} {CL : CommitLib}.
Context (xml_config : string -> list xml_elem + error) (fuel : nat).
Context (term : bool).

(** [select { case s.s.reqch <- req: return <-respch; case <-s.s.term: }], then
    the default answer. *)
Definition call {A} (req : request A) (terminated : A) : M hst A :=
  if term then ret terminated else processreq xml_config fuel req None.

Definition MergeTree (ctx : Context) : M hst (option data) :=
  if term then ret None else d <- processreq xml_config fuel (mergetreereq ctx false) None ;; ret (Some d).
Definition MergeTreeWithoutDefaults (ctx : Context) : M hst (option data) :=
  if term then ret None else d <- processreq xml_config fuel (mergetreereq ctx false) None ;; ret (Some d).
Definition Exists (ctx : Context) (path : list string) : M hst (bool) :=
  call (existsreq ctx path) false.
Definition Get (ctx : Context) (path : list string) : M hst (list string * option error) :=
  call (getreq ctx path) ([], Some sessTermError).
Definition GetType (ctx : Context) (path : list string) : M hst (NodeType * option error) :=
  call (typereq ctx path) (CONTAINER, Some sessTermError).
Definition GetStatus (ctx : Context) (path : list string) : M hst (NodeStatus * option error) :=
  call (statusreq ctx path) (UNCHANGED, Some sessTermError).
Definition IsDefault (ctx : Context) (path : list string) : M hst (bool * option error) :=
  call (defaultreq ctx path) (false, Some sessTermError).
Definition GetTree (ctx : Context) (path : list string) (opts : TreeOpts) : M hst (option UNode * option error) :=
  call (gettreereq ctx path opts) (None, Some sessTermError).
Definition GetFullTree (ctx : Context) (path : list string) (opts : TreeOpts) : M hst (option UNode * option error * list error) :=
  call (getfulltreereq ctx path opts) (None, Some sessTermError, []).
Definition Set_ (ctx : Context) (path : list string) : M hst (option error) :=
  call (setreq ctx path) (Some sessTermError).
Definition ValidateSet (ctx : Context) (path : list string) : M hst (option error) :=
  call (validatesetreq ctx path) (Some sessTermError).
Definition Delete (ctx : Context) (path : list string) : M hst (option error) :=
  call (delreq ctx path) (Some sessTermError).
Definition Validate_ (ctx : Context) : M hst (commitresp) :=
  call (validatereq ctx) (MakeCommitError sessTermError).
Definition Lock_ (ctx : Context) : M hst (Z * option error) :=
  call (lockreq ctx) (-1, Some sessTermError).
Definition Unlock_ (ctx : Context) : M hst (Z * option error) :=
  call (unlockreq ctx) (-1, Some sessTermError).
Definition Locked (ctx : Context) : M hst (Z * option error) :=
  call (lockedreq ctx) (-1, Some sessTermError).
Definition Comment (ctx : Context) (path : list string) : M hst (option error) :=
  call (commentreq ctx path) (Some sessTermError).
Definition Changed (ctx : Context) : M hst (bool) :=
  call (changedreq ctx) false.
Definition Saved (ctx : Context) : M hst (bool) :=
  call (savedreq ctx) false.
Definition MarkSaved (ctx : Context) (saved : bool) : M hst (unit) :=
  call (marksavedreq ctx saved) None ;;; ret tt.
Definition showInternal (ctx : Context) (path : list string)
    (hideSecrets showDefaults forceShowSecrets : bool) : M hst (string * option error) :=
  call (showreq ctx path hideSecrets showDefaults forceShowSecrets) ("", Some sessTermError).
Definition Show (ctx : Context) (path : list string) (hideSecrets showDefaults : bool)
  : M hst (string * option error) := showInternal ctx path hideSecrets showDefaults false.
Definition ShowForceSecrets (ctx : Context) (path : list string) (hideSecrets showDefaults : bool)
  : M hst (string * option error) := showInternal ctx path hideSecrets showDefaults true.
Definition Discard (ctx : Context) : M hst (option error) :=
  call (discardreq ctx) (Some sessTermError).
Definition Load_ (ctx : Context) (file : string) (r : option string) : M hst (option error * list error) :=
  call (loadreq ctx file r) (Some sessTermError, []).
Definition Merge_ (ctx : Context) (file : string) : M hst (option error * list error) :=
  call (mergereq ctx file) (Some sessTermError, []).
Definition Commit_ (ctx : Context) (message : string) (debug : bool) : M hst (commitresp) :=
  call (commitreq ctx message debug) (MakeCommitError sessTermError).
Definition GetHelp (ctx : Context) (schema : bool) (path : list string) : M hst (list (string * string) * option error) :=
  if term then ret ([], Some sessTermError)
  else h <- processreq xml_config fuel (gethelpreq ctx schema path) None ;; ret (h, None).
Definition EditConfigXML (ctx : Context)
    (config_target default_operation test_option error_option config : string) : M hst (option error) :=
  call (editconfigreq ctx config_target default_operation test_option error_option config) (Some sessTermError).
Definition CopyConfig (ctx : Context)
    (sourceDatastore sourceEncoding sourceConfig sourceURL targetDatastore targetURL : string) : M hst (option error) :=
  call (copyconfigreq ctx sourceDatastore sourceEncoding sourceConfig sourceURL
                targetDatastore targetURL) (Some sessTermError).

(** [NewAuther]. *)
Definition NewAuther (s : session) (ctx : Context) : UnionAuther := newAuther s ctx.
End Api.
