(* ===== verification/SessionMgr.v ===== *)
(** [session/sessionmgr.go]: the table of sessions.  Its methods run under the
    manager's mutex and the sessions in it are alive (one is killed only after
    it has left the table), so the requests they send to a session are the
    lock handlers of Session.v.  A nil manager answers every call with an
    error. *)

From S2P Require Import Prelude GoLib Errors Rpc External Configd LogLevel Sample Session.

Open Scope Z_scope.

Section SessionMgr.
Context {L : ConfigLib}.

Abbreviation Sessions := (gmap string session).

(** [lookup]: nil without error when there is none. *)
Definition permitted (ctx : Context) (s : session) : bool :=
  OwnedBy s (Uid ctx) || IsShared s || Configd ctx || Superuser ctx.

Definition lookup_session (ctx : Context) (sid : string) (mgr : Sessions)
  : option session * option error :=
  match mgr !! sid with
  | None => (None, None)
  | Some sess => if permitted ctx sess then (Some sess, None) else (None, Some access_denied)
  end.

Definition no_session (sid : string) : error :=
  error_msg OperationFailedApplication ("session " +:+ sid +:+ " does not exist").

Definition get_session (ctx : Context) (sid : string) (mgr : Sessions) : session + error :=
  match lookup_session ctx sid mgr with
  | (_, Some err) => inr err
  | (None, None) => inr (no_session sid)
  | (Some sess, None) => inl sess
  end.

Definition Get (ctx : Context) (sid : string) (mgr : option Sessions) : session + error :=
  match mgr with
  | None => inr nilSessionMgrError
  | Some mgr => get_session ctx sid mgr
  end.

(** The lock of another process stands in the way. *)
Definition busy (ctx : Context) (sess : session) : option error :=
  let lpid := fst (locked sess) in
  if negb (lpid =? 0) && negb (lpid =? Pid ctx) then Some (lockDenied (Itoa lpid)) else None.

Definition create (ctx : Context) (sid : string) (st stFull : ModelSet) (shared : bool)
    (mgr : Sessions) : (session + error) * Sessions :=
  match lookup_session ctx sid mgr with
  | (_, Some err) => (inr err, mgr)
  | (Some sess, None) =>
      if negb (eqb shared (IsShared sess)) then
        (inr (error_msg OperationFailedApplication
           (sid +:+ " already exists as " +:+
            (if negb (IsShared sess) then "an un-shared session" else "a shared session"))), mgr)
      else
        match busy ctx sess with
        | Some err => (inr err, mgr)
        | None => (inl sess, mgr)
        end
  | (None, None) =>
      let sess := NewSession sid st stFull (if shared then None else Some (Uid ctx)) in
      (inl sess, <[sid := sess]> mgr)
  end.

Definition Create (ctx : Context) (sid : string) (st stFull : ModelSet) (shared : bool)
    (mgr : option Sessions) : (session + error) * option Sessions :=
  match mgr with
  | None => (inr nilSessionMgrError, None)
  | Some mgr => let r := create ctx sid st stFull shared mgr in (fst r, Some (snd r))
  end.

Definition destroy (ctx : Context) (sid : string) (mgr : Sessions) : option error * Sessions :=
  match lookup_session ctx sid mgr with
  | (_, Some err) => (Some err, mgr)
  | (None, None) => (None, mgr)
  | (Some sess, None) =>
      match busy ctx sess with
      | Some err => (Some err, mgr)
      | None => (None, delete sid mgr)
      end
  end.

Definition Destroy (ctx : Context) (sid : string) (mgr : option Sessions)
  : option error * option Sessions :=
  match mgr with
  | None => (Some nilSessionMgrError, None)
  | Some mgr => let r := destroy ctx sid mgr in (fst r, Some (snd r))
  end.

(** A lock request to the session the manager finds. *)
Definition on_session (ctx : Context) (sid : string)
    (f : session -> (Z * option error) * session) (mgr : option Sessions)
  : (Z * option error) * option Sessions :=
  match mgr with
  | None => ((-1, Some nilSessionMgrError), None)
  | Some mgr =>
      match get_session ctx sid mgr with
      | inr err => ((-1, Some err), Some mgr)
      | inl sess => (fst (f sess), Some (<[sid := snd (f sess)]> mgr))
      end
  end.

Definition Lock (ctx : Context) (sid : string) := on_session ctx sid (lock (Pid ctx)).
Definition Unlock (ctx : Context) (sid : string) := on_session ctx sid (unlock (Pid ctx)).

(** [UnlockAllPid] over the sessions in the order the map is ranged over. *)
Fixpoint unlock_each (ctx : Context) (l : list (string * session)) (err : option error)
    (mgr : Sessions) : option error * Sessions :=
  match l with
  | [] => (err, mgr)
  | (sid, sess) :: l' =>
      let lkr := fst (locked sess) in
      if negb (lkr =? 0) && (lkr =? Pid ctx) then
        let r := unlock (Pid ctx) sess in
        unlock_each ctx l' (snd (fst r)) (<[sid := snd r]> mgr)
      else unlock_each ctx l' err mgr
  end.

Section Range.
Variable range : Sessions -> list (string * session).

Definition UnlockAllPid (ctx : Context) (mgr : option Sessions) : option error * option Sessions :=
  match mgr with
  | None => (Some nilSessionMgrError, None)
  | Some mgr => let r := unlock_each ctx (range mgr) None mgr in (fst r, Some (snd r))
  end.
End Range.

(** ** Lemmas *)

(** A session is found under its own id. *)
Definition mgr_wf (mgr : Sessions) : Prop := map_Forall (fun sid s => s_sid s = sid) mgr.

Lemma lookup_session_Some ctx sid mgr sess :
  lookup_session ctx sid mgr = (Some sess, None) <->
  mgr !! sid = Some sess /\ permitted ctx sess = true.
Proof.
  unfold lookup_session. destruct (mgr !! sid) as [s|]; [|by split; [|intros []]].
  destruct (permitted ctx s) eqn:E; split; [by intros [= <-]|by intros [[= <-] _]|done|].
  intros [[= <-] Hp]. congruence.
Qed.

Lemma get_session_inl ctx sid mgr sess :
  get_session ctx sid mgr = inl sess <-> mgr !! sid = Some sess /\ permitted ctx sess = true.
Proof.
  rewrite <- lookup_session_Some. unfold get_session.
  destruct (lookup_session ctx sid mgr) as [[s|] [e|]]; split; try done; by intros [= <-].
Qed.

Lemma lock_sid pid s : s_sid (snd (lock pid s)) = s_sid s.
Proof. unfold lock. by repeat case_match. Qed.

Lemma unlock_sid pid s : s_sid (snd (unlock pid s)) = s_sid s.
Proof. unfold unlock. by repeat case_match. Qed.

Lemma unlock_each_lookup ctx l : NoDup l.*1 -> forall err mgr,
  (forall sid s, (sid, s) ∈ l -> mgr !! sid = Some s) ->
  let released s := if negb (s_lpid s =? 0) && (s_lpid s =? Pid ctx) then set_lpid 0 s else s in
  (err = None -> fst (unlock_each ctx l err mgr) = None) /\
  (forall sid, snd (unlock_each ctx l err mgr) !! sid =
     if decide (sid ∈ l.*1) then released <$> mgr !! sid else mgr !! sid).
Proof.
  induction l as [|[k s] l IH]; intros Hnd err mgr Hl released; [done|].
  apply NoDup_cons in Hnd as [Hk Hnd]. cbn [unlock_each locked fst].
  assert (Hks : mgr !! k = Some s) by (apply Hl; by left).
  destruct (negb (s_lpid s =? 0) && (s_lpid s =? Pid ctx)) eqn:Er.
  - apply andb_prop in Er as [H0 H1]. apply negb_true_iff, Z.eqb_neq in H0. apply Z.eqb_eq in H1.
    rewrite unlock_own by done. cbn [fst snd].
    destruct (IH Hnd None (<[k := set_lpid 0 s]> mgr)) as [IHe IHm].
    { intros sid s' Hin. rewrite lookup_insert_ne; [apply Hl; by right|].
      intros ->. apply Hk. apply list_elem_of_fmap. by exists (sid, s'). }
    split; [intros _; by apply IHe|]. intros sid. rewrite IHm. cbn [fmap list_fmap].
    destruct (decide (sid = k)) as [->|Hne].
    + rewrite decide_False by done. rewrite decide_True by by left.
      rewrite lookup_insert_eq, Hks. cbn. unfold released.
      by rewrite (proj2 (Z.eqb_neq _ _) H0), (proj2 (Z.eqb_eq _ _) H1).
    + rewrite lookup_insert_ne by done. destruct (decide (sid ∈ l.*1)) as [Hin|Hin].
      * rewrite decide_True by by right. done.
      * rewrite decide_False; [done|]. rewrite elem_of_cons. by intros [->|].
  - destruct (IH Hnd err mgr) as [IHe IHm]; [intros; apply Hl; by right|].
    split; [exact IHe|]. intros sid. rewrite IHm. cbn [fmap list_fmap].
    destruct (decide (sid = k)) as [->|Hne].
    + rewrite decide_False by done. rewrite decide_True by by left.
      rewrite Hks. cbn. unfold released. by rewrite Er.
    + destruct (decide (sid ∈ l.*1)) as [Hin|Hin].
      * rewrite decide_True by by right. done.
      * rewrite decide_False; [done|]. rewrite elem_of_cons. by intros [->|].
Qed.

Lemma permitted_spec ctx s :
  permitted ctx s = true <->
  s_owner s = Some (Uid ctx) \/ s_owner s = None \/ Configd ctx = true \/ Superuser ctx = true.
Proof.
  unfold permitted, OwnedBy, IsShared. rewrite !orb_true_iff.
  destruct (s_owner s) as [o|]; rewrite ?Z.eqb_eq; naive_solver.
Qed.

Lemma busy_None ctx s : busy ctx s = None <-> s_lpid s = 0 \/ s_lpid s = Pid ctx.
Proof.
  unfold busy. cbn [locked fst].
  destruct (Z.eqb_spec (s_lpid s) 0), (Z.eqb_spec (s_lpid s) (Pid ctx)); cbn;
    split; try done; tauto.
Qed.

(** A lock request keeps the table well formed, and every session it does not
    change. *)
Lemma on_session_keeps c k f mgr mgr' :
  (forall s, s_sid (snd (f s)) = s_sid s) -> mgr_wf mgr ->
  snd (on_session c k f (Some mgr)) = Some mgr' ->
  mgr_wf mgr' /\ (forall sid s, mgr !! sid = Some s -> snd (f s) = s -> mgr' !! sid = Some s).
Proof.
  intros Hf Hwf. cbn. destruct (get_session c k mgr) as [s0|e] eqn:Eg; intros [= <-]; [|done].
  apply get_session_inl in Eg as [Hs0 _]. split.
  - apply map_Forall_insert_2; [|done]. rewrite Hf. by apply Hwf.
  - intros sid s Hs Hfs. destruct (decide (sid = k)) as [->|]; [|by rewrite lookup_insert_ne].
    rewrite lookup_insert_eq. congruence.
Qed.

(** The operations that change the table, one request each. *)
Inductive mgr_op :=
  | OpCreate (ctx : Context) (sid : string) (st stFull : ModelSet) (shared : bool)
  | OpDestroy (ctx : Context) (sid : string)
  | OpLock (ctx : Context) (sid : string)
  | OpUnlock (ctx : Context) (sid : string)
  | OpUnlockAllPid (ctx : Context).

Section Ops.
Variable range : Sessions -> list (string * session).

Definition mgr_do (o : mgr_op) (mgr : option Sessions) : option Sessions :=
  match o with
  | OpCreate ctx sid st stFull shared => snd (Create ctx sid st stFull shared mgr)
  | OpDestroy ctx sid => snd (Destroy ctx sid mgr)
  | OpLock ctx sid => snd (Lock ctx sid mgr)
  | OpUnlock ctx sid => snd (Unlock ctx sid mgr)
  | OpUnlockAllPid ctx => snd (UnlockAllPid range ctx mgr)
  end.

(** ** Properties *)

(** Access to sessions: a request gets at a session exactly when there is
    one and its user owns it, or it is shared, or the request is configd's own
    or a superuser's. *)
Theorem session_access ctx sid mgr sess :
  Get ctx sid (Some mgr) = inl sess <->
  mgr !! sid = Some sess /\
  (s_owner sess = Some (Uid ctx) \/ s_owner sess = None \/ Configd ctx = true \/ Superuser ctx = true).
Proof. cbn. by rewrite get_session_inl, permitted_spec. Qed.

(** No operation of a client that has no access to a session tells it more
    than "access denied" or changes anything. *)
Theorem session_access_denied ctx sid st stFull shared mgr sess :
  mgr !! sid = Some sess -> permitted ctx sess = false ->
  Create ctx sid st stFull shared (Some mgr) = (inr access_denied, Some mgr) /\
  Destroy ctx sid (Some mgr) = (Some access_denied, Some mgr) /\
  Lock ctx sid (Some mgr) = ((-1, Some access_denied), Some mgr) /\
  Unlock ctx sid (Some mgr) = ((-1, Some access_denied), Some mgr).
Proof.
  intros Hs Hp. cbn. unfold create, destroy, Lock, Unlock, on_session, get_session.
  assert (lookup_session ctx sid mgr = (None, Some access_denied)) as ->; [|done].
  unfold lookup_session. by rewrite Hs, Hp.
Qed.

(** A session that was created can be got at by its creator under the same
    id, has the sharing asked for, and is not locked by another process; no
    other session has changed. *)
Theorem Create_Get ctx sid st stFull shared mgr sess mgr' :
  Create ctx sid st stFull shared (Some mgr) = (inl sess, Some mgr') ->
  Get ctx sid (Some mgr') = inl sess /\ IsShared sess = shared /\
  (s_lpid sess = 0 \/ s_lpid sess = Pid ctx) /\
  forall sid', sid' <> sid -> mgr' !! sid' = mgr !! sid'.
Proof.
  cbn. unfold create. destruct (lookup_session ctx sid mgr) as [[s|] [e|]] eqn:El; try done.
  - apply lookup_session_Some in El as [Hs Hp].
    destruct (eqb shared (IsShared s)) eqn:Eb; cbn [negb]; [|done].
    destruct (busy ctx s) eqn:Ebusy; [done|]. cbn. intros [= <- <-].
    split; [by apply get_session_inl|]. apply eqb_prop in Eb. split; [done|].
    split; [by apply busy_None|done].
  - cbn. intros [= <- <-].
    split; [|split; [by destruct shared|split; [by left|]]].
    + apply get_session_inl. split; [apply lookup_insert_eq|]. apply permitted_spec.
      destruct shared; [by right; left|by left].
    + intros sid' Hne. by rewrite lookup_insert_ne.
Qed.

(** C27: what the manager's table always satisfies: every session is under its
    own id, after any operation of any client; and a locked session stays
    until its lock owner gives it up: the operations of other processes leave
    it in the table with the lock as it is. *)
Theorem mgr_invariant o mgr mgr' :
  (forall m, range m ≡ₚ map_to_list m) ->
  mgr_wf mgr -> mgr_do o (Some mgr) = Some mgr' ->
  mgr_wf mgr' /\
  (forall sid s, mgr !! sid = Some s -> s_lpid s <> 0 ->
     match o with
     | OpCreate ctx _ _ _ _ | OpDestroy ctx _ | OpLock ctx _ | OpUnlock ctx _
     | OpUnlockAllPid ctx => Pid ctx <> s_lpid s
     end -> mgr' !! sid = Some s).
Proof.
  intros Hr Hwf.
  assert (Hlook : forall c k m r, lookup_session c k m = r -> forall s, r = (Some s, None) -> m !! k = Some s).
  { intros c k m r <- s E. by apply lookup_session_Some in E as [E _]. }
  destruct o as [c k st stf sh|c k|c k|c k|c]; cbn [mgr_do].
  - cbn. unfold create. destruct (lookup_session c k mgr) as [[s0|] [e|]] eqn:El; cbn;
      try (intros [= <-]; done).
    + destruct (negb _); [by intros [= <-]|]. by destruct (busy c s0); intros [= <-].
    + intros [= <-]. split; [by apply map_Forall_insert_2|].
      intros sid s Hs _ _. destruct (decide (sid = k)) as [->|]; [|by rewrite lookup_insert_ne].
      unfold lookup_session in El. rewrite Hs in El. by destruct (permitted c s).
  - cbn. unfold destroy. destruct (lookup_session c k mgr) as [[s0|] [e|]] eqn:El; cbn;
      try (intros [= <-]; done).
    destruct (busy c s0) as [e|] eqn:Eb; [by intros [= <-]|]. intros [= <-].
    split; [by apply map_Forall_delete|]. intros sid s Hs H0 Hp.
    destruct (decide (sid = k)) as [->|]; [|by rewrite lookup_delete_ne].
    apply busy_None in Eb. rewrite (Hlook _ _ _ _ El s0 eq_refl) in Hs. injection Hs as ->.
    destruct Eb; congruence.
  - intros H. destruct (on_session_keeps c k _ mgr mgr' (lock_sid (Pid c)) Hwf H) as [H1 H2].
    split; [done|]. intros sid s Hs H0 _. apply H2; [done|]. by apply lock_held.
  - intros H. destruct (on_session_keeps c k _ mgr mgr' (unlock_sid (Pid c)) Hwf H) as [H1 H2].
    split; [done|]. intros sid s Hs H0 Hp. apply H2; [done|]. apply unlock_foreign. congruence.
  - cbn. intros [= <-].
    destruct (unlock_each_lookup c (range mgr)) with (err := @None error) (mgr := mgr) as [_ Hm].
    + rewrite Hr. apply NoDup_fst_map_to_list.
    + intros sid s. rewrite Hr. apply elem_of_map_to_list.
    + split.
      * intros sid s. rewrite Hm. case_decide; [|apply Hwf].
        destruct (mgr !! sid) as [s0|] eqn:E; [|done]. cbn. intros [= <-].
        apply Hwf in E. by destruct (_ && _).
      * intros sid s Hs H0 Hp. rewrite Hm. case_decide; [|done]. rewrite Hs. cbn.
        destruct (Z.eqb_spec (s_lpid s) (Pid c)); [congruence|]. by rewrite andb_false_r.
Qed.

(** [UnlockAllPid] releases exactly the locks the process holds, in
    whatever order the table is ranged over, and reports no error. *)
Theorem UnlockAllPid_spec ctx mgr :
  (forall m, range m ≡ₚ map_to_list m) -> Pid ctx <> 0 ->
  UnlockAllPid range ctx (Some mgr) =
    (None, Some ((fun s => if s_lpid s =? Pid ctx then set_lpid 0 s else s) <$> mgr)).
Proof.
  intros Hr Hp. cbn.
  destruct (unlock_each_lookup ctx (range mgr)) with (err := @None error) (mgr := mgr) as [He Hm].
  - rewrite Hr. apply NoDup_fst_map_to_list.
  - intros sid s. rewrite Hr. apply elem_of_map_to_list.
  - rewrite He by done. do 2 f_equal. apply map_eq. intros sid. rewrite Hm, lookup_fmap.
    case_decide as Hin.
    + destruct (mgr !! sid) as [s|]; [|done]. cbn. f_equal.
      destruct (Z.eqb_spec (s_lpid s) (Pid ctx)) as [E|]; [|by rewrite andb_false_r].
      rewrite (proj2 (Z.eqb_neq _ _)); [done|congruence].
    + destruct (mgr !! sid) as [s|] eqn:E; [|done]. exfalso. apply Hin.
      apply list_elem_of_fmap. exists (sid, s). split; [done|].
      rewrite Hr. by apply elem_of_map_to_list.
Qed.
End Ops.
End SessionMgr.

(** ** A concrete table *)

Module SampleMgr.
Definition table : gmap string session :=
  <["s1" := sample_session 10]> (<["EFFECTIVE" := sample_effective]> ∅).
Definition stranger : Context := Sample.client 20 1001 Sample.allow.
Definition owner : Context := Sample.client 10 1000 Sample.allow.

Lemma session_access_denied_witness :
  Destroy stranger "s1" (Some table) = (Some access_denied, Some table).
Proof.
  exact (proj1 (proj2 (session_access_denied (L := Sample.lib) stranger "s1" Sample.root Sample.root false table
    (sample_session 10) eq_refl eq_refl))).
Defined.

Lemma Create_Get_witness :
  Get owner "s2" (Some (<["s2" := NewSession (L := Sample.lib) "s2" Sample.root Sample.root (Some 1000)]> table))
  = inl (NewSession (L := Sample.lib) "s2" Sample.root Sample.root (Some 1000)).
Proof.
  exact (proj1 (Create_Get (L := Sample.lib) owner "s2" Sample.root Sample.root false table
    (NewSession (L := Sample.lib) "s2" Sample.root Sample.root (Some 1000))
    (<["s2" := NewSession (L := Sample.lib) "s2" Sample.root Sample.root (Some 1000)]> table) eq_refl)).
Defined.

Lemma mgr_invariant_witness :
  mgr_do map_to_list (OpUnlockAllPid stranger) (Some table) = Some table /\ mgr_wf table.
Proof.
  split; [reflexivity|].
  refine (proj1 (mgr_invariant map_to_list (OpUnlockAllPid stranger) table table _ _ eq_refl)).
  - done.
  - apply map_Forall_insert_2; [done|]. apply map_Forall_insert_2; [done|]. apply map_Forall_empty.
Defined.

Lemma UnlockAllPid_spec_witness :
  UnlockAllPid map_to_list owner (Some table) =
    (None, Some ((fun s => if s_lpid s =? Pid owner then set_lpid 0 s else s) <$> table)).
Proof. apply UnlockAllPid_spec; [done|discriminate]. Defined.
End SampleMgr.
