(* ===== verification/Expand.v ===== *)
(** [server/dispatcher.go], [expandPath]: the expansion of the abbreviated words
    of a path against the schema, with the completion of a word the cursor is
    in the middle of. *)

From S2P Require Import Prelude GoLib Errors Rpc External Configd Sample.

Open Scope Z_scope.

Section Expand.
Context {L : ConfigLib}.
(** [mgmterror.ErrPath], printed *)
Context (ErrPath : list string -> string).

Definition isElemOf (l : list string) (elem : string) : bool :=
  existsb (fun v => bool_decide (v = elem)) l.

(** The loop over the children: the candidates, in order, and whether one was
    found by the prefix; an exact match ends it. *)
Fixpoint find_matches (chs : list snode) (skiplist : list string) (val prefix : string) (pos : Z)
    (matches : list snode) (prefixMatch : bool) : list snode * bool :=
  match chs with
  | [] => (matches, prefixMatch)
  | c :: chs' =>
      let name := sn_name c in
      if isElemOf skiplist name then find_matches chs' skiplist val prefix pos matches prefixMatch
      else if bool_decide (name = val) then ([c], prefixMatch)
      else if HasPrefix name val then
        find_matches chs' skiplist val prefix pos (matches ++ [c]) prefixMatch
      else if (pos =? 0) && HasPrefix name prefix then
        find_matches chs' skiplist val prefix pos (matches ++ [c]) true
      else find_matches chs' skiplist val prefix pos matches prefixMatch
  end.

(** The outcome: a path, an error, or an index out of range. *)
Inductive expansion := Expanded (p : list string) | Failed (e : error) | OutOfRange.

Definition processleaf (sch : snode) (path cpath : list string) : expansion :=
  match path with
  | [] => Expanded cpath
  | val :: path' =>
      if bool_decide (sn_type sch = TEmpty)
      then Failed (error_path (UnknownElementApplication val) (Pathstr cpath))
      else
        match path' with
        | extra :: _ =>
            (* the path is longer than the schema tree *)
            Failed (error_path (UnknownElementApplication extra) (Pathstr (cpath ++ [val])))
        | [] => Expanded (cpath ++ [val])
        end
  end.

Section Original.
Variable origPath : list string.

Definition ambiguous (cpath : list string) (val : string) (matches : list snode) : error :=
  new_error (PathAmbiguous (cpath ++ [val]) (map (fun v => (sn_name v, sn_help v)) matches)).

Definition invalid_prefix (prefix : string) : error :=
  error_msg InvalidValueApplication
    (ErrPath origPath +:+ " has invalid prefix '" +:+ prefix +:+ "'").

(** [processchildrenskip]; [processnode] and [processlist] are inlined in the
    step to the matching child [m].  A container moves on by one position, a
    list by none. *)
Fixpoint processchildrenskip (sch : snode) (path cpath skiplist : list string)
    (prefix : string) (pos : Z) : expansion :=
  match path with
  | [] => Expanded cpath
  | val :: path' =>
      let '(matches, prefixMatch) := find_matches (sn_children sch) skiplist val prefix pos [] false in
      match matches with
      | [] => Failed (error_path (UnknownElementApplication val) (Pathstr cpath))
      | [m] =>
          if prefixMatch && (String.length val <=? String.length prefix)%nat
          then Failed (invalid_prefix prefix)
          else
            let nameToAppend :=
              sn_name m +:+ (if prefixMatch then str_drop (String.length prefix) val else "") in
            let cpath' := cpath ++ [nameToAppend] in
            match sn_kind m with
            | KTree | KContainer => processchildrenskip m path' cpath' [] prefix (pos - 1)
            | KList =>
                match path' with
                | [] => Expanded cpath'
                | key :: path'' =>
                    processchildrenskip m path'' (cpath' ++ [key]) (sn_keys m) prefix pos
                end
            | KLeaf | KLeafList => processleaf m path' cpath'
            | _ => Failed (error_path (UnknownElementApplication nameToAppend) (Pathstr cpath))
            end
      | _ => Failed (ambiguous cpath val matches)
      end
  end.

Definition processnode (sch : snode) (path cpath : list string) (prefix : string) (pos : Z)
  : expansion :=
  match sn_kind sch with
  | KTree | KContainer => processchildrenskip sch path cpath [] prefix (pos - 1)
  | KList =>
      match path with
      | [] => Expanded cpath
      | key :: path' => processchildrenskip sch path' (cpath ++ [key]) (sn_keys sch) prefix pos
      end
  | KLeaf | KLeafList => processleaf sch path cpath
  | _ =>
      match last_opt cpath, init_opt cpath with
      | Some x, Some p => Failed (error_path (UnknownElementApplication x) (Pathstr p))
      | _, _ => OutOfRange
      end
  end.
End Original.

Definition expandPath (ms : ModelSet) (path : list string) (prefix : string) (pos : Z) : expansion :=
  processnode path (ms_node ms) path [] prefix pos.

Definition NoPrefix : string := "TEST_NOT_USING_PREFIX".
Definition InvalidPos : Z := -1.

Definition ExpandWithPrefix (ms : ModelSet) (path prefix : string) (pos : Z) : expansion :=
  expandPath ms (Makepath path) prefix (pos + 1).

Definition Expand (ms : ModelSet) (path : string) : expansion :=
  ExpandWithPrefix ms path NoPrefix InvalidPos.

(** [validatePath]. *)
Fixpoint validatePath_from (sn : snode) (done rest : list string) : option error :=
  match rest with
  | [] => None
  | v :: rest' =>
      match SchemaChild sn v with
      | None => Some (error_path (UnknownElementApplication v) (Pathstr done))
      | Some sn' => validatePath_from sn' (done ++ [v]) rest'
      end
  end.
Definition validatePath (ms : ModelSet) (ps : list string) : option error :=
  validatePath_from (ms_node ms) [] ps.

(** ** Lemmas: without a position *)

(** The children a word can stand for, exactly or as an abbreviation. *)
Definition eligible (skip : list string) (c : snode) : bool := negb (isElemOf skip (sn_name c)).
Definition exact (skip : list string) (val : string) (c : snode) : bool :=
  eligible skip c && bool_decide (sn_name c = val).
Definition abbreviated (skip : list string) (val : string) (c : snode) : bool :=
  eligible skip c && HasPrefix (sn_name c) val.

Lemma find_matches_spec chs skip val prefix pos : pos <> 0 -> forall acc b,
  find_matches chs skip val prefix pos acc b =
  (match find (exact skip val) chs with
   | Some c => [c]
   | None => acc ++ List.filter (abbreviated skip val) chs
   end, b).
Proof.
  intros Hp. unfold exact, abbreviated, eligible.
  induction chs as [|c chs IH]; intros acc b; cbn; [by rewrite app_nil_r|].
  destruct (isElemOf skip (sn_name c)); cbn [negb andb]; [apply IH|].
  destruct (bool_decide (sn_name c = val)); [done|].
  destruct (HasPrefix (sn_name c) val).
  { rewrite IH. destruct (find _ chs); [done|]. by rewrite <- app_assoc. }
  rewrite (proj2 (Z.eqb_neq pos 0) Hp). apply IH.
Qed.

(** A single match has the word as a prefix, and is found again by its name. *)
Lemma single_match chs skip val m :
  match find (exact skip val) chs with
  | Some c => [c]
  | None => List.filter (abbreviated skip val) chs
  end = [m] ->
  HasPrefix (sn_name m) val = true /\ find (exact skip (sn_name m)) chs = Some m.
Proof.
  destruct (find (exact skip val) chs) as [c|] eqn:Ef.
  - intros [= ->]. pose proof (find_some _ _ Ef) as [_ Hm]. unfold exact in Hm.
    apply andb_prop in Hm as [_ Hm]. apply bool_decide_eq_true in Hm. subst val.
    split; [apply HasPrefix_refl|done].
  - intros Hf. assert (Hm : In m (List.filter (abbreviated skip val) chs)) by (rewrite Hf; by left).
    apply filter_In in Hm as [Hin Hm]. apply andb_prop in Hm as [Hok Hpre]. split; [done|].
    destruct (find (exact skip (sn_name m)) chs) as [x|] eqn:Ex.
    + apply find_some in Ex as [Hx Hex]. apply andb_prop in Hex as [Hokx Hn].
      apply bool_decide_eq_true in Hn.
      assert (Hx' : In x (List.filter (abbreviated skip val) chs)).
      { apply filter_In. split; [done|]. unfold abbreviated. by rewrite Hokx, Hn. }
      rewrite Hf in Hx'. destruct Hx' as [->|[]]. done.
    + exfalso. assert (He : exact skip (sn_name m) m = false) by by apply (find_none _ _ Ex).
      unfold exact in He. rewrite Hok, bool_decide_true in He; done.
Qed.

(** What an expansion of [path] below [cpath] is: every word is completed, and
    the result expands to itself ([again]). *)
Definition completes (path cpath r : list string) (again : list string -> expansion) : Prop :=
  exists tl, r = cpath ++ tl /\ Forall2 (fun full word => HasPrefix full word = true) tl path /\
    again tl = Expanded r.

Lemma completes_nil cpath again :
  again [] = Expanded cpath -> completes [] cpath cpath again.
Proof. intros H. exists []. rewrite app_nil_r. by repeat split. Qed.

(** One more word in front. *)
Lemma completes_cons full word path cpath r again again' :
  HasPrefix full word = true ->
  completes path (cpath ++ [full]) r again ->
  (forall tl, again' (full :: tl) = again tl) ->
  completes (word :: path) cpath r again'.
Proof.
  intros Hp (tl & -> & Hf & Ha) Hag. exists (full :: tl). split; [by rewrite <- app_assoc|].
  split; [by constructor|]. by rewrite Hag.
Qed.

Lemma processleaf_completes sch path cpath r :
  processleaf sch path cpath = Expanded r -> completes path cpath r (fun p => processleaf sch p cpath).
Proof.
  intros H. assert (Hc := H). unfold processleaf in H.
  destruct path as [|val path]; [injection H as <-; by apply completes_nil|].
  destruct (bool_decide _); [done|]. destruct path; [|done]. injection H as <-.
  exists [val]. split; [done|]. split; [|exact Hc]. repeat constructor. apply HasPrefix_refl.
Qed.

(** The step taken for a child that was found by its own name. *)
Lemma again_step op sch m tl cpath skip prefix pos : pos < 0 ->
  find (exact skip (sn_name m)) (sn_children sch) = Some m ->
  processchildrenskip op sch (sn_name m :: tl) cpath skip prefix pos =
  match sn_kind m with
  | KTree | KContainer => processchildrenskip op m tl (cpath ++ [sn_name m]) [] prefix (pos - 1)
  | KList =>
      match tl with
      | [] => Expanded (cpath ++ [sn_name m])
      | key :: tl' =>
          processchildrenskip op m tl' ((cpath ++ [sn_name m]) ++ [key]) (sn_keys m) prefix pos
      end
  | KLeaf | KLeafList => processleaf m tl (cpath ++ [sn_name m])
  | _ => Failed (error_path (UnknownElementApplication (sn_name m)) (Pathstr cpath))
  end.
Proof.
  intros Hp Hf. cbn. rewrite find_matches_spec, Hf by lia. cbn. by rewrite append_empty_r.
Qed.

(** Errors mention the original path, so it may differ from one run to the other. *)
Lemma processchildrenskip_completes n : forall op (op' : list string -> list string) sch path cpath skip prefix pos r,
  (length path <= n)%nat -> pos < 0 ->
  processchildrenskip op sch path cpath skip prefix pos = Expanded r ->
  completes path cpath r (fun p => processchildrenskip (op' p) sch p cpath skip prefix pos).
Proof.
  induction n as [|n IH]; intros op op' sch path cpath skip prefix pos r Hn Hp H.
  { destruct path; [|cbn in Hn; lia]. injection H as <-. by apply completes_nil. }
  destruct path as [|val path]; [injection H as <-; by apply completes_nil|].
  cbn in H, Hn. rewrite find_matches_spec in H by lia. cbn [app] in H.
  destruct (match find (exact skip val) (sn_children sch) with Some c => [c] | None => _ end)
    as [|m [|]] eqn:Em; try done.
  apply single_match in Em as [Hpre Hfind]. cbn [andb] in H.
  rewrite append_empty_r in H. eapply completes_cons; [exact Hpre| |].
  2: { intros tl. rewrite again_step by done. reflexivity. }
  destruct (sn_kind m); try done.
  - apply (IH op (fun tl => op' (sn_name m :: tl))); [lia|lia|exact H].
  - apply (IH op (fun tl => op' (sn_name m :: tl))); [lia|lia|exact H].
  - destruct path as [|key path]; [injection H as <-; by apply completes_nil|].
    eapply completes_cons; [apply HasPrefix_refl| |intros tl; reflexivity].
    apply (IH op (fun tl => op' (sn_name m :: key :: tl))); [cbn in Hn; lia|lia|exact H].
  - by apply processleaf_completes.
  - by apply processleaf_completes.
Qed.

(** ** Properties *)

(** C40: expansion without a completion prefix completes: when a path expands,
    the result has as many words,
    each of them the given word or one it abbreviates, and it is a fixed point:
    expanding it again gives it back unchanged.  This is the expansion used to
    authorise and account commands; with a prefix of the word at the cursor it
    does not hold ([exact_match_spoilt]). *)
Theorem expandPath_completes ms path r :
  expandPath ms path NoPrefix InvalidPos = Expanded r ->
  Forall2 (fun full word => HasPrefix full word = true) r path /\
  expandPath ms r NoPrefix InvalidPos = Expanded r.
Proof.
  unfold expandPath, processnode, InvalidPos. intros H.
  assert (Hc : completes path [] r (fun p => expandPath ms p NoPrefix InvalidPos)).
  { unfold expandPath, processnode. destruct (sn_kind (ms_node ms)); try done.
    - by apply (processchildrenskip_completes _ path (fun p => p) _ _ _ _ _ _ _ (Nat.le_refl _)).
    - by apply (processchildrenskip_completes _ path (fun p => p) _ _ _ _ _ _ _ (Nat.le_refl _)).
    - destruct path as [|key path]; [injection H as <-; by apply completes_nil|].
      eapply completes_cons; [apply HasPrefix_refl| |intros tl; reflexivity].
      by apply (processchildrenskip_completes _ (key :: path) (fun p => key :: p) _ _ _ _ _ _ _
        (Nat.le_refl _)).
    - by apply processleaf_completes.
    - by apply processleaf_completes. }
  destruct Hc as (tl & -> & Hf & Ha). done.
Qed.
End Expand.

(** ** Concrete expansions *)

Module SampleExpand.
Definition ErrPath (p : list string) : string := Join p " ".

Lemma expandPath_completes_witness :
  expandPath (L := Sample.lib) ErrPath Sample.root ["sys"; "log"; "u"; "bob"; "f"] NoPrefix InvalidPos
    = Expanded ["system"; "login"; "user"; "bob"; "full-name"] /\
  expandPath (L := Sample.lib) ErrPath Sample.root ["system"; "login"; "user"; "bob"; "full-name"]
    NoPrefix InvalidPos = Expanded ["system"; "login"; "user"; "bob"; "full-name"].
Proof.
  split; [reflexivity|].
  exact (proj2 (expandPath_completes (L := Sample.lib) ErrPath Sample.root
    ["sys"; "log"; "u"; "bob"; "f"] ["system"; "login"; "user"; "bob"; "full-name"] eq_refl)).
Defined.

(** A child found by the prefix before an exact match spoils it: with the
    cursor after the [h] of [host-name], and an earlier sibling that starts
    with [h], the exact word is returned with its own tail doubled. *)
Definition spoilt : snode :=
  SNode KTree "root" "" false TOther [] "" [] [Sample.leaf "help"; Sample.leaf "host-name"] [].

Example exact_match_spoilt :
  ExpandWithPrefix (L := Sample.lib) ErrPath spoilt "/host-name" "h" 0 = Expanded ["host-nameost-name"].
Proof. reflexivity. Qed.
End SampleExpand.
