(* ===== verification/GoFmt.v ===== *)
(** More of Go's standard library: [fmt] with a format and no operands, URL
    unescaping and the lexical cleaning of file names, as the server and the
    error formatter use them. *)

From S2P Require Import Prelude GoLib.

Open Scope Z_scope.

(** ** fmt.Sprintf(format) without operands: every verb but [%%] is an error *)

Definition is_flag (c : ascii) : bool :=
  elem_b c ["#"%char; "0"%char; "+"%char; "-"%char; " "%char].

Fixpoint skip_flags (s : string) : string :=
  match s with
  | String c s' => if is_flag c then skip_flags s' else s
  | EmptyString => s
  end.

(** [parsenum]: the digits read, whether there were any; a number above a
    million ends the whole format. *)
Fixpoint parsenum (s : string) (num : Z) (isnum : bool) : bool * string :=
  match s with
  | String c s' =>
      let n := Z.of_nat (nat_of_ascii c) in
      if (48 <=? n) && (n <=? 57) then
        if 1000000 <? num then (false, "") else parsenum s' (num * 10 + (n - 48)) true
      else (isnum, s)
  | EmptyString => (isnum, s)
  end.

Fixpoint after_bracket (s : string) : option (string * string) :=
  match s with
  | String c s' =>
      if Ascii.eqb c "]"%char then Some ("", s')
      else match after_bracket s' with
           | Some (inside, rest) => Some (String c inside, rest)
           | None => None
           end
  | EmptyString => None
  end.

(** [argNumber]: an explicit index is never good when there are no operands.
    The rest of the format, whether the index was good, whether one was found. *)
Definition argNumber (s : string) : string * bool * bool :=
  match s with
  | String "["%char s' =>
      if (String.length s <? 3)%nat then (s', false, false)
      else
        match after_bracket s' with
        | None => (s', false, false)
        | Some (inside, rest) =>
            let '(ok, unread) := parsenum inside 0 false in
            (rest, false, ok && bool_decide (unread = ""))
        end
  | _ => (s, true, false)
  end.

(** The bytes of the rune a valid UTF-8 string starts with. *)
Fixpoint continuation (s : string) : string * string :=
  match s with
  | String c s' =>
      let n := Z.of_nat (nat_of_ascii c) in
      if (128 <=? n) && (n <? 192)
      then let '(a, b) := continuation s' in (String c a, b) else ("", s)
  | EmptyString => ("", s)
  end.
Definition first_rune (s : string) : string * string :=
  match s with
  | String c s' =>
      if Z.of_nat (nat_of_ascii c) <? 128 then (String c "", s')
      else let '(a, b) := continuation s' in (String c a, b)
  | EmptyString => ("", "")
  end.

(** After a [%]: what is printed for the verb, and the rest of the format. *)
Definition format_verb (s : string) : string * string :=
  let '(s, good, after) := argNumber (skip_flags s) in
  let '(out, s, good, after) :=
    match s with
    | String "*"%char s' => ("%!(BADWIDTH)", s', good, false)
    | _ => let '(present, s') := parsenum s 0 false in ("", s', good && negb (after && present), after)
    end in
  let '(out, s, good, after) :=
    match s with
    | String "."%char s' =>
        let good := good && negb after in
        let '(s', good', after') := argNumber s' in
        match s' with
        | String "*"%char s'' => (out +:+ "%!(BADPREC)", s'', good && good', false)
        | _ => (out, snd (parsenum s' 0 false), good && good', after')
        end
    | _ => (out, s, good, after)
    end in
  let '(s, good', _) := if after then (s, true, after) else argNumber s in
  let good := good && good' in
  match first_rune s with
  | (EmptyString, _) => (out +:+ "%!(NOVERB)", "")
  | (String "%"%char EmptyString, s') => (out +:+ "%", s')
  | (verb, s') =>
      (out +:+ "%!" +:+ verb +:+ (if good then "(MISSING)" else "(BADINDEX)"), s')
  end.

Fixpoint doPrintf (fuel : nat) (s : string) : string :=
  match fuel with
  | O => ""
  | S fuel =>
      match s with
      | EmptyString => ""
      | String c s' =>
          if Ascii.eqb c "%"%char then
            let '(out, rest) := format_verb s' in out +:+ doPrintf fuel rest
          else String c (doPrintf fuel s')
      end
  end.

(** [fmt.Sprintf(format)]; every step consumes at least one byte. *)
Definition Sprintf0 (format : string) : string := doPrintf (S (String.length format)) format.

(** ** url.QueryUnescape *)

Definition unhex (c : ascii) : option Z :=
  match digit_val c with
  | Some d => if d <? 16 then Some d else None
  | None => None
  end.

(** [None] for its escape error. *)
Fixpoint QueryUnescape (s : string) : option string :=
  match s with
  | EmptyString => Some ""
  | String c s' =>
      if Ascii.eqb c "%"%char then
        match s' with
        | String a (String b s'') =>
            match unhex a, unhex b with
            | Some h, Some l =>
                String (ascii_of_nat (Z.to_nat (16 * h + l))) <$> QueryUnescape s''
            | _, _ => None
            end
        | _ => None
        end
      else String (if Ascii.eqb c "+"%char then " "%char else c) <$> QueryUnescape s'
  end.

(** ** filepath.Clean *)

Abbreviation slash := ("/"%char).

(** One path element; the output is kept in reverse. *)
Definition clean_step (rooted : bool) (out : list string) (elem : string) : list string :=
  if bool_decide (elem = "") || bool_decide (elem = ".") then out
  else if bool_decide (elem = "..") then
    match out with
    | top :: out' => if bool_decide (top = "..") then elem :: out else out'
    | [] => if rooted then [] else [elem]
    end
  else elem :: out.

Definition clean_elems (rooted : bool) (l : list string) : list string :=
  rev (fold_left (clean_step rooted) l []).

Definition Clean (path : string) : string :=
  if bool_decide (path = "") then "."
  else
    let rooted := HasPrefix path "/" in
    let l := clean_elems rooted (Split path slash) in
    if rooted then "/" +:+ Join l "/"
    else match l with [] => "." | _ => Join l "/" end.

(** ** Lemmas *)

(** No operands and no verbs: the format is printed as it is. *)
Fixpoint no_percent (s : string) : bool :=
  match s with
  | EmptyString => true
  | String c s' => negb (Ascii.eqb c "%"%char) && no_percent s'
  end.

Lemma doPrintf_plain s fuel :
  no_percent s = true -> (String.length s < fuel)%nat -> doPrintf fuel s = s.
Proof.
  revert fuel. induction s as [|c s IH]; intros fuel Hs Hf; (destruct fuel; [cbn in Hf; lia|]); [done|].
  cbn in *. apply andb_prop in Hs as [Hc%negb_true_iff Hs]. rewrite Hc.
  f_equal. apply IH; [done|lia].
Qed.

Lemma Sprintf0_plain s : no_percent s = true -> Sprintf0 s = s.
Proof. intros H. apply doPrintf_plain; [done|lia]. Qed.

Lemma no_percent_app a b : no_percent (a +:+ b) = no_percent a && no_percent b.
Proof.
  induction a as [|c a IH]; [done|]. change (String c a +:+ b) with (String c (a +:+ b)). cbn.
  by rewrite IH, andb_assoc.
Qed.

(** A file name proper. *)
Definition plain_name (x : string) : Prop :=
  x <> "" /\ x <> "." /\ x <> ".." /\ ~ In slash (String.list_ascii_of_string x).

Lemma Split_no_sep x sep : ~ In sep (String.list_ascii_of_string x) -> Split x sep = [x].
Proof.
  induction x as [|c x IH]; [done|]. cbn. intros H.
  destruct (Ascii.eqb_spec c sep) as [->|Hne]; [by destruct H; left|].
  rewrite IH; [done|]. intros Hi. apply H. by right.
Qed.

Lemma Split_app x y sep : ~ In sep (String.list_ascii_of_string x) ->
  Split (x +:+ String sep y) sep = x :: Split y sep.
Proof.
  induction x as [|c x IH].
  - intros _. change ("" +:+ String sep y) with (String sep y). cbn. by rewrite Ascii.eqb_refl.
  - change (String c x +:+ String sep y) with (String c (x +:+ String sep y)). cbn. intros H.
    destruct (Ascii.eqb_spec c sep) as [->|Hne]; [by destruct H; left|].
    rewrite IH; [done|]. intros Hi. apply H. by right.
Qed.

Lemma Split_Join q : q <> [] -> Forall plain_name q -> Split (Join q "/") slash = q.
Proof.
  intros Hne Hq. induction Hq as [|x q (Hx & _ & _ & Hs) Hq IH]; [done|].
  destruct q as [|y q]; [by apply Split_no_sep|].
  change (Join (x :: y :: q) "/") with (x +:+ String slash (Join (y :: q) "/")).
  rewrite Split_app by done. by rewrite IH.
Qed.

Lemma clean_step_name rooted out x : plain_name x -> clean_step rooted out x = x :: out.
Proof.
  intros (H1 & H2 & H3 & _). unfold clean_step. by rewrite !bool_decide_false by done.
Qed.

Lemma clean_names rooted q : forall out, Forall plain_name q ->
  fold_left (clean_step rooted) q out = rev q ++ out.
Proof.
  induction q as [|x q IH]; intros out Hq; [done|].
  apply Forall_cons in Hq as [Hx Hq]. cbn [fold_left rev]. rewrite clean_step_name by done.
  rewrite IH by done. by rewrite <- app_assoc.
Qed.

(** A rooted path is cleaned to names proper: no empty, [.] or [..] element. *)
Lemma clean_step_rooted out elem : ~ In slash (String.list_ascii_of_string elem) ->
  Forall plain_name out -> Forall plain_name (clean_step true out elem).
Proof.
  intros Hs Ho. unfold clean_step. repeat case_bool_decide; cbn; try done.
  - destruct out as [|top out]; [done|]. case_bool_decide; [|by inversion Ho].
    subst. inversion Ho as [|? ? Ht]. by destruct Ht as (_ & _ & ? & _).
  - by constructor.
Qed.

Lemma Split_elems sep s : Forall (fun x => ~ In sep (String.list_ascii_of_string x)) (Split s sep).
Proof.
  assert (H0 : Forall (fun x => ~ In sep (String.list_ascii_of_string x)) [""]).
  { apply Forall_singleton. by intros []. }
  induction s as [|c s IH]; cbn; [done|].
  destruct (Ascii.eqb_spec c sep) as [->|Hne]; [apply Forall_cons; split; [by intros []|done]|].
  assert (Hc : forall w, ~ In sep (String.list_ascii_of_string w) ->
    ~ In sep (String.list_ascii_of_string (String c w))) by (intros w Hw [|]; done).
  destruct (Split s sep) as [|w ws]; [by apply Forall_singleton, Hc; intros []|].
  apply Forall_cons in IH as [Hw Hws]. apply Forall_cons. split; [by apply Hc|done].
Qed.

Lemma clean_elems_rooted l : Forall (fun x => ~ In slash (String.list_ascii_of_string x)) l ->
  Forall plain_name (clean_elems true l).
Proof.
  unfold clean_elems. intros Hl. apply Forall_rev. generalize (Forall_nil_2 plain_name).
  generalize (@nil string). induction Hl as [|x l Hx Hl IH]; intros out Ho; [done|].
  apply IH. by apply clean_step_rooted.
Qed.

Lemma rooted_slash t : HasPrefix (String slash t) "/" = true.
Proof. apply HasPrefix_spec. by exists t. Qed.

(** A rooted path is cleaned to the names it is made of. *)
Lemma Clean_rooted_names q : q <> [] -> Forall plain_name q ->
  Clean ("/" +:+ Join q "/") = "/" +:+ Join q "/".
Proof.
  intros Hne Hq. change ("/" +:+ Join q "/") with (String slash (Join q "/")).
  unfold Clean. rewrite bool_decide_false by done.
  rewrite rooted_slash. cbv zeta. cbn [Split].
  rewrite Ascii.eqb_refl, Split_Join by done. unfold clean_elems. cbn [fold_left].
  rewrite clean_names by done. by rewrite app_nil_r, rev_involutive.
Qed.

Example Clean_example : map Clean ["/a//b/../c/./"; "../x"; "/../.."; ""; "a/.."] =
  ["/a/c"; "../x"; "/"; "."; "."].
Proof. reflexivity. Qed.

Example Sprintf0_example :
  map Sprintf0 ["plain"; "50%"; "a%sb"; "%%"; "%-5.2fx"; "%[1]d"] =
  ["plain"; "50%!(NOVERB)"; "a%!s(MISSING)b"; "%"; "%!f(MISSING)x"; "%!d(BADINDEX)"].
Proof. reflexivity. Qed.
