(* ===== verification/CliFormat.v ===== *)
(** [common/cli_format.go]: the texts the command line shows for errors and
    warnings.  The management errors themselves are built by the package
    mgmterror; what the formatter asks of one is a parameter. *)

From S2P Require Import Prelude GoLib Errors Rpc GoFmt External Configd Sample.

Open Scope Z_scope.

(** The error types the formatter distinguishes. *)
Inductive error_type :=
  | UnknownElementApplicationError | DataExistsError | DataMissingError
  | InvalidValueApplicationError | OtherError.

#[export] Instance error_type_eq_dec : EqDecision error_type.
Proof. solve_decision. Defined.

(** [mgmterror.Formattable], with the type behind it. *)
Record Formattable := {
  fm_type : error_type;
  GetMessage : string;
  GetPath : string;
  GetInfo : list string      (** the [Value]s *)
}.

(** Package mgmterror: [None] for an error that is not [Formattable]. *)
Class ErrorLib := {
  Error : error -> string;
  formattable : error -> option Formattable;
  (** [MgmtErrorList.CustomError] *)
  CustomError : list error -> (error -> string) -> string
}.

Section Format.
Context {L : ConfigLib} {E : ErrorLib}.

(** The text of the errors of an edit, one to a line. *)
Definition perform_error_Error (errs : list error) : string :=
  String.concat "" (map (fun e => Error e +:+ nl) errs).

Definition configPath : string := "Configuration path: ".
Definition isntValid : string := " is not valid".
Definition pathIsInvalid : string := "Path is invalid".
Definition setFailed : string := "Set failed".
Definition validationFailed : string := "Value validation failed".
Definition warningsGenerated : string :=
  "Warnings were generated when applying the configuration:".
Definition nl2 : string := nl +:+ nl.

(** [fmt.Errorf(text)], and [errors.New(text)]. *)
Definition Errorf0 (text : string) : error := EGo (Sprintf0 text).

(** [retStr, _ := url.QueryUnescape(...)]: nothing at all on a bad escape. *)
Definition unescaped (s : string) : string := default "" (QueryUnescape s).

Definition errpath (fwdSlashPath : string) : string :=
  if bool_decide (fwdSlashPath = "") || bool_decide (fwdSlashPath = "/") then "[]"
  else
    let fwdSlashPath := if HasPrefix fwdSlashPath "/" then str_drop 1 fwdSlashPath else fwdSlashPath in
    let path := Split fwdSlashPath slash in
    if (length path <? 2)%nat then unescaped (SprintSlice path)
    else
      match last_opt path, init_opt path with
      | Some val, Some path => unescaped (Join path " " +:+ " [" +:+ val +:+ "]")
      | _, _ => ""                      (* not reached: the path has two elements *)
      end.

Definition FormatConfigPathError (err : option error) : option error :=
  match err with
  | None => None
  | Some err =>
      Some (Errorf0 (configPath +:+
        match formattable err with Some me => GetMessage me | None => Error err end))
  end.

Definition FormatRpcPathError (err : option error) : option error :=
  match err with
  | None => None
  | Some err =>
      Some (EGo
        match formattable err with
        | Some me =>
            match fm_type me with
            | UnknownElementApplicationError => GetMessage me
            | _ =>
                (if bool_decide (GetPath me <> "") then errpath (GetPath me) +:+ isntValid +:+ nl2
                 else "") +:+ GetMessage me
            end
        | None => Error err
        end)
  end.

Definition spaced_path (me : Formattable) : string := Join (Makepath (GetPath me)) " ".

Definition FormatCommitOrValErrors (err : error) : string :=
  match formattable err with
  | Some me =>
      let pathStr := spaced_path me in
      "[" +:+ pathStr +:+ "]" +:+ nl2 +:+ GetMessage me +:+ nl2 +:+ "[[" +:+ pathStr +:+ "]] failed."
  | None => Error err
  end.

Definition formatUnknownElemAppError (me : Formattable) (printPathPrefix printPathInvalid : bool)
  : string :=
  (if printPathPrefix then
     let path := Makepath (GetPath me) ++ match GetInfo me with v :: _ => [v] | [] => [] end in
     "[" +:+ Join path " " +:+ "]: "
   else "")
  +:+ configPath +:+ GetMessage me
  +:+ (if printPathInvalid then nl2 +:+ pathIsInvalid else "").

Definition formatMultilineSetWarnings (err : option error)
    (printPathPrefix printSetFailed printPathInvalid : bool) : string :=
  match err with
  | None => ""
  | Some err =>
      match formattable err with
      | None => configPath +:+ Error err
      | Some me =>
          if bool_decide (fm_type me = UnknownElementApplicationError)
          then formatUnknownElemAppError me printPathPrefix printPathInvalid
          else
            (if printPathPrefix then "[" +:+ spaced_path me +:+ "]: " else "")
            +:+ configPath +:+ errpath (GetPath me) +:+ isntValid
            +:+ match fm_type me with
                | UnknownElementApplicationError => ""
                | DataExistsError | DataMissingError => nl2 +:+ GetMessage me
                | InvalidValueApplicationError =>
                    nl2 +:+ GetMessage me +:+ nl +:+ validationFailed
                    +:+ (if printSetFailed then nl2 +:+ setFailed else "")
                | OtherError =>
                    nl2 +:+ GetMessage me +:+ (if printSetFailed then nl2 +:+ setFailed else "")
                end
      end
  end.

(** Never nil, whatever it is given. *)
Definition FormatConfigPathErrorMultiline (err : option error) : error :=
  Errorf0 (formatMultilineSetWarnings err false true false).

Definition formatLoadOrMergeWarningMultiline (err : option error) : string :=
  formatMultilineSetWarnings err true false true.

Definition FormatWarnings (warns : list error) : option error :=
  match warns with
  | [] => None
  | _ =>
      Some (Errorf0 (warningsGenerated +:+ nl2 +:+
        String.concat "" (map (fun warn => formatLoadOrMergeWarningMultiline (Some warn) +:+ nl2) warns)))
  end.

(** ** Lemmas *)

Definition plain_char (c : ascii) : Prop := c <> "%"%char /\ c <> "+"%char.

Lemma QueryUnescape_plain s :
  Forall plain_char (String.list_ascii_of_string s) -> QueryUnescape s = Some s.
Proof.
  induction s as [|c s IH]; [done|]. cbn. intros [[H1 H2] Hs]%Forall_cons.
  destruct (Ascii.eqb_spec c "%"%char); [done|]. destruct (Ascii.eqb_spec c "+"%char); [done|].
  by rewrite IH.
Qed.

Lemma list_ascii_app a b : String.list_ascii_of_string (a +:+ b) =
  String.list_ascii_of_string a ++ String.list_ascii_of_string b.
Proof.
  induction a as [|c a IH]; [done|]. change (String c a +:+ b) with (String c (a +:+ b)). cbn.
  by rewrite IH.
Qed.

Lemma plain_Join l sep : Forall plain_char (String.list_ascii_of_string sep) ->
  Forall (fun x => Forall plain_char (String.list_ascii_of_string x)) l ->
  Forall plain_char (String.list_ascii_of_string (Join l sep)).
Proof.
  intros Hsep Hl. induction Hl as [|x l Hx Hl IH]; [constructor|].
  destruct l as [|y l]; [exact Hx|].
  change (Join (x :: y :: l) sep) with (x +:+ sep +:+ Join (y :: l) sep).
  rewrite !list_ascii_app. by apply Forall_app; split; [|apply Forall_app].
Qed.

(** A path word that needs no escaping: a file name proper without [%] and [+]. *)
Definition plain_word (x : string) : Prop :=
  plain_name x /\ Forall plain_char (String.list_ascii_of_string x).

(** ** Properties *)

(** The path of an error is shown as its words, separated by spaces, with
    the last one in brackets. *)
Theorem errpath_words q val : q <> [] -> Forall plain_word q -> plain_word val ->
  errpath ("/" +:+ Join (q ++ [val]) "/") = Join q " " +:+ " [" +:+ val +:+ "]".
Proof.
  intros Hne Hq Hv. set (l := q ++ [val]).
  assert (Hl : Forall plain_word l) by by apply Forall_app; split; [|apply Forall_singleton].
  assert (Hlne : l <> []) by by destruct q.
  assert (Hnames : Forall plain_name l) by by eapply Forall_impl; [exact Hl|intros x []].
  change ("/" +:+ Join l "/") with (String slash (Join l "/")).
  unfold errpath. rewrite bool_decide_false by done.
  assert (Hroot : String slash (Join l "/") <> "/").
  { intros Heq. assert (Hj : Join l "/" = "") by by injection Heq.
    pose proof (Split_Join l Hlne Hnames) as Hs. rewrite Hj in Hs. cbn in Hs. subst l.
    rewrite <- Hs in Hnames. apply Forall_singleton in Hnames as [? _]. done. }
  rewrite bool_decide_false by done. cbn [orb].
  rewrite rooted_slash.
  change (str_drop 1 (String slash (Join l "/"))) with (Join l "/"). cbv zeta iota.
  rewrite Split_Join by done.
  assert (Hlen : (length l <? 2)%nat = false).
  { apply Nat.ltb_ge. unfold l. rewrite length_app. destruct q; [done|]. cbn. lia. }
  rewrite Hlen. unfold last_opt, init_opt, l. rewrite last_snoc.
  replace (match q ++ [val] with [] => None | _ => Some (take (length (q ++ [val]) - 1) (q ++ [val])) end)
    with (Some q).
  2: { rewrite length_app, Nat.add_sub, take_app_length. by destruct q. }
  unfold unescaped. rewrite QueryUnescape_plain; [done|].
  rewrite !list_ascii_app. apply Forall_app; split.
  - apply plain_Join; [by repeat constructor|].
    eapply Forall_impl; [exact Hq|]. by intros x [].
  - apply Forall_app; split; [by repeat constructor|].
    apply Forall_app; split; [by destruct Hv|by repeat constructor].
Qed.

(** A formatted text is shown as it was built as long as it has no [%];
    [fmt.Errorf] takes it for a format otherwise. *)
Theorem FormatWarnings_shown warns :
  warns <> [] ->
  Forall (fun w => no_percent (formatLoadOrMergeWarningMultiline (Some w)) = true) warns ->
  FormatWarnings warns = Some (EGo (warningsGenerated +:+ nl2 +:+
    String.concat "" (map (fun w => formatLoadOrMergeWarningMultiline (Some w) +:+ nl2) warns))).
Proof.
  intros Hne Hw. unfold FormatWarnings. destruct warns as [|w0 ws]; [done|].
  unfold Errorf0. rewrite Sprintf0_plain; [done|]. rewrite !no_percent_app. cbn [andb].
  change (no_percent warningsGenerated && (no_percent nl2 && no_percent
    (String.concat "" (map (fun w => formatLoadOrMergeWarningMultiline (Some w) +:+ nl2) (w0 :: ws)))) = true).
  change (no_percent warningsGenerated) with true. change (no_percent nl2) with true. cbn [andb].
  clear Hne. generalize dependent (w0 :: ws). intros l Hl. clear w0 ws.
  induction Hl as [|w l Hw Hl IH]; [done|]. cbn [map].
  destruct l as [|y l]; cbn [map String.concat] in *.
  - by rewrite no_percent_app, Hw.
  - by rewrite !no_percent_app, Hw, IH.
Qed.
End Format.

(** ** Concrete texts *)

Module SampleFormat.
#[export] Instance errors : ErrorLib := {|
  Error e := match e with EGo m => m | _ => "error" end;
  formattable e :=
    match e with
    | EMgmt m =>
        Some {| fm_type := match me_kind m with
                           | UnknownElementApplication _ => UnknownElementApplicationError
                           | DataExists => DataExistsError
                           | DataMissing => DataMissingError
                           | InvalidValueApplication => InvalidValueApplicationError
                           | _ => OtherError
                           end;
                GetMessage := default "" (me_message m);
                GetPath := default "" (me_path m);
                GetInfo := match me_kind m with UnknownElementApplication x => [x] | _ => [] end |}
    | _ => None
    end;
  CustomError es f := Join (map f es) nl
|}.

Lemma errpath_words_witness :
  errpath "/system/login/user" = "system login [user]".
Proof.
  apply (errpath_words ["system"; "login"] "user"); [discriminate| |].
  - repeat constructor; try discriminate; cbn; intuition discriminate.
  - repeat constructor; try discriminate; cbn; intuition discriminate.
Defined.

Lemma FormatWarnings_shown_witness :
  FormatWarnings (L := Sample.lib) (E := errors) [EGo "no such node"] =
  Some (EGo (warningsGenerated +:+ nl2 +:+ "Configuration path: no such node" +:+ nl2)).
Proof.
  exact (FormatWarnings_shown (L := Sample.lib) (E := errors) [EGo "no such node"]
    ltac:(discriminate) ltac:(by repeat constructor)).
Defined.

(** A value with a percent sign is taken for a format: the user does not see
    the path that was refused. *)
Example percent_mangled :
  FormatConfigPathErrorMultiline (L := Sample.lib)
    (Some (error_path_msg InvalidValueApplication "/system/load/50%25" "Must be a number")) =
  EGo ("Configuration path: system load [50%!](MISSING) is not valid" +:+ nl2 +:+
       "Must be a number" +:+ nl +:+ "Value validation failed" +:+ nl2 +:+ "Set failed").
Proof. reflexivity. Qed.

(** A path with a broken escape is not shown at all. *)
Example bad_escape : errpath "/a/100%" = "".
Proof. reflexivity. Qed.
End SampleFormat.
