(* ===== verification/Service.v ===== *)
(** What the server's methods use of the sessions, as an interface: find one in
    the session manager, send it a request, create and destroy one; with the
    laws the methods rely on.  The methods (Dispatcher.v, ConfigMgmt.v) are
    written and proved against the class; Daemon.v implements it with the
    session manager, the sessions and the commit manager of this development. *)

From S2P Require Import Prelude GoLib Errors Rpc External Configd LogLevel Session StateTree Load.
From S2P Require Import EditConfig Commit SessionServer SessionMgr.

Open Scope Z_scope.

Section Service.
Context {L : ConfigLib}.

(** Requests that only look. *)
Definition is_read {A} (r : request A) : bool :=
  match r with
  | mergetreereq _ _ | getreq _ _ | typereq _ _ | statusreq _ _ | defaultreq _ _ | existsreq _ _
  | lockedreq _ | savedreq _ | changedreq _ | showreq _ _ _ _ _ | gethelpreq _ _ _ => true
  | _ => false
  end.

(** The name of the session every commit works on. *)
Definition EFFECTIVE_sid : string := "EFFECTIVE".
Definition RUNNING_sid : string := "RUNNING".

Class SessionService (W : Type) := {
  (** the session a name stands for *)
  svc_session : W -> string -> option session;
  (** [smgr.Create], [smgr.Destroy] *)
  svc_Create : Context -> string -> ModelSet -> ModelSet -> bool -> M W (option error);
  svc_Destroy : Context -> string -> M W (option error);
  (** [smgr.UnlockAllPid] *)
  svc_UnlockAllPid : Context -> M W (option error);
  (** a call of session.go: the request, and the answer of a session that has
      terminated meanwhile *)
  svc_ask : forall {A}, string -> request A -> A -> M W A;

  (** A session that is gone answers so and nothing happens. *)
  svc_ask_gone : forall A (r : request A) sid term w,
    svc_session w sid = None -> svc_ask sid r term w = Some (term, w);
  (** Looking changes nothing, and always gets an answer. *)
  svc_ask_read : forall A (r : request A) sid term w,
    is_read r = true -> exists a, svc_ask sid r term w = Some (a, w);
  (** A request concerns one session (and the effective one, if it commits). *)
  svc_ask_other : forall A (r : request A) sid term w a w' other,
    svc_ask sid r term w = Some (a, w') -> other <> sid -> other <> EFFECTIVE_sid ->
    svc_session w' other = svc_session w other;
  svc_Create_other : forall ctx sid st stFull shared w a w' other,
    svc_Create ctx sid st stFull shared w = Some (a, w') -> other <> sid ->
    svc_session w' other = svc_session w other;
  svc_Destroy_other : forall ctx sid w a w' other,
    svc_Destroy ctx sid w = Some (a, w') -> other <> sid ->
    svc_session w' other = svc_session w other;
  (** What is destroyed is gone. *)
  svc_Destroy_ok : forall ctx sid w w',
    svc_Destroy ctx sid w = Some (None, w') -> svc_session w' sid = None;
  (** The locks of the process are gone, and nothing else. *)
  svc_UnlockAllPid_ok : forall ctx w, exists err w',
    svc_UnlockAllPid ctx w = Some (err, w') /\
    forall sid, svc_session w' sid =
      (fun s => if negb (s_lpid s =? 0) && (s_lpid s =? Pid ctx) then set_lpid 0 s else s)
        <$> svc_session w sid;
  (** What is created is there, and only its owner, sharing or privilege gives access. *)
  svc_Create_ok : forall ctx sid st stFull shared w w',
    svc_Create ctx sid st stFull shared w = Some (None, w') ->
    exists s, svc_session w' sid = Some s /\ permitted ctx s = true;
  (** Creating a session that is there changes nothing. *)
  svc_Create_there : forall ctx sid st stFull shared w a w' k s,
    svc_Create ctx sid st stFull shared w = Some (a, w') ->
    svc_session w k = Some s -> svc_session w' k = Some s;
  (** The lock of a session is honoured: requests of other processes that load
      nothing leave it alone, and they cannot destroy it. *)
  svc_ask_locked : forall A (r : request A) sid term w a w' s,
    svc_ask sid r term w = Some (a, w') -> svc_session w sid = Some s ->
    s_lpid s <> 0 -> foreign (s_lpid s) false A r -> sid <> EFFECTIVE_sid ->
    svc_session w' sid = Some s;
  svc_Destroy_locked : forall ctx sid w a w' k s,
    svc_Destroy ctx sid w = Some (a, w') -> svc_session w k = Some s ->
    s_lpid s <> 0 -> s_lpid s <> Pid ctx -> svc_session w' k = Some s
}.

(** The manager has the session, and refuses it to the client. *)
Definition denied {W} `{SessionService W} (ctx : Context) (k : string) (w : W) : Prop :=
  exists s, svc_session w k = Some s /\ permitted ctx s = false.

(** Sessions are confined: what is done to others neither looks at session [k]
    nor touches it. *)
Class Confined (W : Type) `{SessionService W} := {
  (** the same but for session [k] *)
  svc_agree : string -> W -> W -> Prop;
  svc_agree_session : forall k w1 w2 other,
    svc_agree k w1 w2 -> other <> k -> svc_session w1 other = svc_session w2 other;
  svc_agree_ask : forall k A (r : request A) sid term, sid <> k -> k <> EFFECTIVE_sid ->
    related (svc_agree k) (svc_ask sid r term) (svc_ask sid r term);
  (** Creating and destroying look at their session only; if that is [k], it is
      there and refused. *)
  svc_agree_Create : forall k ctx sid st stFull shared w1 w2, svc_agree k w1 w2 ->
    k <> EFFECTIVE_sid -> (sid = k -> denied ctx k w1 /\ denied ctx k w2) ->
    same_outcome (svc_agree k) (svc_Create ctx sid st stFull shared w1)
      (svc_Create ctx sid st stFull shared w2);
  svc_agree_Destroy : forall k ctx sid w1 w2, svc_agree k w1 w2 ->
    k <> EFFECTIVE_sid -> (sid = k -> denied ctx k w1 /\ denied ctx k w2) ->
    same_outcome (svc_agree k) (svc_Destroy ctx sid w1) (svc_Destroy ctx sid w2);
  svc_Destroy_denied : forall ctx w a w' k s,
    svc_Destroy ctx k w = Some (a, w') -> svc_session w k = Some s -> permitted ctx s = false ->
    svc_session w' k = Some s;
  svc_agree_UnlockAllPid : forall k ctx, k <> EFFECTIVE_sid ->
    related (svc_agree k) (svc_UnlockAllPid ctx) (svc_UnlockAllPid ctx)
}.

(** [smgr.Get], without the session itself. *)
(** Sessions that always answer: a state of the sessions from which whatever is
    asked gets an answer and leaves such a state, as long as no client is the
    system itself; the running configuration is open to everybody in it. *)
Class Answering (W : Type) `{SessionService W} := {
  svc_ready : W -> Prop;
  svc_ready_running : forall ctx w, svc_ready w ->
    exists s, svc_session w RUNNING_sid = Some s /\ permitted ctx s = true;
  svc_ready_ask : forall A (r : request A) sid term, Pid (req_ctx r) <> SYSTEM ->
    returns svc_ready (svc_ask sid r term);
  svc_ready_Create : forall ctx sid st stFull shared,
    returns svc_ready (svc_Create ctx sid st stFull shared);
  svc_ready_Destroy : forall ctx sid, Pid ctx <> SYSTEM -> returns svc_ready (svc_Destroy ctx sid);
  svc_ready_UnlockAllPid : forall ctx, Pid ctx <> SYSTEM -> returns svc_ready (svc_UnlockAllPid ctx)
}.

Definition svc_Get {W} `{SessionService W} (ctx : Context) (sid : string) (w : W) : option error :=
  match svc_session w sid with
  | None => Some (no_session sid)
  | Some s => if permitted ctx s then None else Some access_denied
  end.
End Service.
