(* ===== verification/Daemon.v ===== *)
(** The daemon's sessions put together: the table of the session manager, the
    sessions in it, the commit manager they share, and the debug settings, as
    one state, with every request of SessionServer.v served by the session it
    is sent to.  It implements the interface of Service.v, where no other
    request is served while one waits. *)

From S2P Require Import Prelude GoLib Errors Rpc External Configd LogLevel Sample Session StateTree.
From S2P Require Import Load EditConfig Commit SessionServer SessionMgr Service.

Open Scope Z_scope.

Section Daemon.
Context {L : ConfigLib} {SL : StateLib} {CL : CommitLib}.
Context (xml_config : string -> list xml_elem + error) (fuel : nat).

(** The session EFFECTIVE is the one the commit manager holds. *)
Record daemon := Daemon {
  dm_mgr : gmap string session;
  dm_cm : cmgr;
  dm_log : Settings;
  dm_rodisk : bool;
  dm_trace : list event
}.

Definition dm_session (d : daemon) (sid : string) : option session :=
  if bool_decide (sid = EFFECTIVE_sid) then cm_effective (dm_cm d) else dm_mgr d !! sid.

(** All sessions, as the session manager has them. *)
Definition dm_table (d : daemon) : gmap string session :=
  partial_alter (fun _ => cm_effective (dm_cm d)) EFFECTIVE_sid (dm_mgr d).

Definition set_effective (e : option session) (c : cmgr) : cmgr :=
  CMgr (cm_running c) e (cm_schema c) (cm_hadcommit c) (cm_inCommit c).

Definition set_table (t : gmap string session) (d : daemon) : daemon :=
  Daemon t (set_effective (t !! EFFECTIVE_sid) (dm_cm d)) (dm_log d) (dm_rodisk d) (dm_trace d).

Definition world_of (s : session) (d : daemon) : world :=
  World s (dm_cm d) (dm_log d) (dm_rodisk d) (dm_trace d).

Definition after (sid : string) (w : world) (d : daemon) : daemon :=
  if bool_decide (sid = EFFECTIVE_sid)
  then Daemon (dm_mgr d) (set_effective (Some (w_sess w)) (w_cm w)) (w_log w) (w_rodisk w) (w_trace w)
  else Daemon (<[sid := w_sess w]> (dm_mgr d)) (w_cm w) (w_log w) (w_rodisk w) (w_trace w).

Definition dm_ask {A} (sid : string) (r : request A) (term : A) : M daemon A := fun d =>
  match dm_session d sid with
  | None => Some (term, d)
  | Some s =>
      match processreq xml_config fuel r None (Hst (world_of s d) []) with
      | Some (a, h) => Some (a, after sid (h_world h) d)
      | None => None
      end
  end.

Definition dm_Create (ctx : Context) (sid : string) (st stFull : ModelSet) (shared : bool)
  : M daemon (option error) := fun d =>
  let r := create ctx sid st stFull shared (dm_table d) in
  Some (match fst r with inl _ => None | inr e => Some e end, set_table (snd r) d).

Definition dm_Destroy (ctx : Context) (sid : string) : M daemon (option error) := fun d =>
  let r := destroy ctx sid (dm_table d) in Some (fst r, set_table (snd r) d).

(** The order of the walk does not matter: see [UnlockAllPid_spec]. *)
Definition dm_UnlockAllPid (ctx : Context) : M daemon (option error) := fun d =>
  let r := unlock_each ctx (map_to_list (dm_table d)) None (dm_table d) in
  Some (fst r, set_table (snd r) d).

(** ** Lemmas *)

Lemma dm_table_lookup d sid : dm_table d !! sid = dm_session d sid.
Proof.
  unfold dm_table, dm_session. case_bool_decide as H.
  - subst. by rewrite lookup_partial_alter_eq.
  - by rewrite lookup_partial_alter_ne.
Qed.

Lemma set_table_session t d sid : dm_session (set_table t d) sid = t !! sid.
Proof. unfold dm_session. case_bool_decide as H; [by subst|done]. Qed.

Lemma after_same sid s d : dm_session d sid = Some s -> after sid (world_of s d) d = d.
Proof.
  unfold dm_session, after. destruct d as [m [r e sc h i] lg ro tr]. cbn.
  case_bool_decide as H; intros Hs; [by subst|]. unfold world_of. cbn. by rewrite insert_id.
Qed.

Lemma after_other sid w d other : other <> sid -> other <> EFFECTIVE_sid ->
  dm_session (after sid w d) other = dm_session d other.
Proof.
  intros H1 H2. unfold dm_session, after. rewrite (bool_decide_false (other = _)) by done.
  case_bool_decide; cbn; [done|]. by rewrite lookup_insert_ne.
Qed.

Lemma read_runs {A} (r : request A) dc h : is_read r = true ->
  exists a, processreq xml_config fuel r dc h = Some (a, h).
Proof. intros Hr. destruct r; try discriminate Hr; eexists; reflexivity. Qed.

Lemma create_other ctx sid st stFull shared m other : other <> sid ->
  snd (create ctx sid st stFull shared m) !! other = m !! other.
Proof.
  intros Hne. unfold create.
  repeat case_match; cbn; try done; by rewrite lookup_insert_ne.
Qed.

Lemma destroy_other ctx sid m other : other <> sid ->
  snd (destroy ctx sid m) !! other = m !! other.
Proof.
  intros Hne. unfold destroy. repeat case_match; cbn; try done; by rewrite lookup_delete_ne.
Qed.

Lemma create_ok ctx sid st stFull shared m s : fst (create ctx sid st stFull shared m) = inl s ->
  exists s', snd (create ctx sid st stFull shared m) !! sid = Some s' /\ permitted ctx s' = true.
Proof.
  unfold create. destruct (lookup_session ctx sid m) as [[s0|] [e|]] eqn:E; try done.
  - apply lookup_session_Some in E as [Hs Hp].
    repeat case_match; try done. intros _. cbn. eauto.
  - intros _. cbn. rewrite lookup_insert_eq. eexists. split; [done|]. apply permitted_spec.
    destruct shared; cbn; auto.
Qed.

Lemma destroy_ok ctx sid m : fst (destroy ctx sid m) = None -> snd (destroy ctx sid m) !! sid = None.
Proof.
  unfold destroy, lookup_session. destruct (m !! sid) as [s|] eqn:E; [|done].
  destruct (permitted ctx s); [|done]. destruct (busy ctx s); [done|]. intros _. apply lookup_delete_eq.
Qed.

Lemma create_locked ctx sid st stFull shared m k s :
  m !! k = Some s -> snd (create ctx sid st stFull shared m) !! k = Some s.
Proof.
  intros Hs. destruct (decide (k = sid)) as [<-|Hne]; [|by rewrite create_other].
  unfold create, lookup_session. rewrite Hs. repeat case_match; simplify_eq; done.
Qed.

Lemma destroy_locked ctx sid m k s : m !! k = Some s -> s_lpid s <> 0 -> s_lpid s <> Pid ctx ->
  snd (destroy ctx sid m) !! k = Some s.
Proof.
  intros Hs H0 Hp. destruct (decide (k = sid)) as [<-|Hne]; [|by rewrite destroy_other].
  unfold destroy. destruct (lookup_session ctx k m) as [[s0|] [e|]] eqn:E; try done.
  apply lookup_session_Some in E as [Hs0 _].
  destruct (busy ctx s0) eqn:Eb; [done|]. apply busy_None in Eb. simplify_eq. by destruct Eb.
Qed.

Lemma ask_locked {A} sid (r : request A) term d a d' s : dm_session d sid = Some s ->
  s_lpid s <> 0 -> foreign (s_lpid s) false _ r ->
  sid <> EFFECTIVE_sid -> dm_ask sid r term d = Some (a, d') -> dm_session d' sid = Some s.
Proof.
  intros Hs H0 Hf Hne. unfold dm_ask. rewrite Hs.
  destruct (processreq xml_config fuel r None (Hst (world_of s d) [])) as [[b h]|] eqn:E; [|done].
  intros [= <- <-].
  assert (hinv (fun w => w_sess w = s) (blk_preserves (fun w => w_sess w = s)) h) as [Hh _].
  { eapply (processreq_foreign_inv xml_config fuel (fun w => w_sess w = s) (s_lpid s) false);
      [done|by intros w ->|done|exact Hf| |exact E]. by split. }
  unfold dm_session, after. rewrite !bool_decide_false by done. cbn. by rewrite lookup_insert_eq, Hh.
Qed.

#[export] Program Instance daemon_service : SessionService daemon := {|
  svc_session := dm_session;
  svc_Create := dm_Create;
  svc_Destroy := dm_Destroy;
  svc_UnlockAllPid := dm_UnlockAllPid;
  svc_ask := @dm_ask
|}.
Next Obligation. intros A r sid term w H. unfold dm_ask. by rewrite H. Qed.
Next Obligation.
  intros A r sid term w Hr. unfold dm_ask. destruct (dm_session w sid) as [s|] eqn:Es; [|by eexists].
  destruct (read_runs r None (Hst (world_of s w) []) Hr) as [a ->]. exists a. cbn.
  by rewrite after_same.
Qed.
Next Obligation.
  intros A r sid term w a w' other H Hn He. unfold dm_ask in H.
  destruct (dm_session w sid) as [s|]; [|congruence].
  destruct (processreq _ _ _ _ _) as [[b h]|]; [|done]. injection H as <- <-. by apply after_other.
Qed.
Next Obligation.
  intros ctx sid st stFull shared w a w' other [= <- <-] Hn.
  rewrite set_table_session, create_other by done. apply dm_table_lookup.
Qed.
Next Obligation.
  intros ctx sid w a w' other [= <- <-] Hn.
  rewrite set_table_session, destroy_other by done. apply dm_table_lookup.
Qed.
Next Obligation.
  intros ctx sid w w' H. unfold dm_Destroy in H. injection H as He <-.
  rewrite set_table_session. by apply destroy_ok.
Qed.
Next Obligation.
  intros ctx w. eexists _, _. split; [reflexivity|]. intros sid.
  rewrite set_table_session, <- dm_table_lookup.
  destruct (unlock_each_lookup ctx (map_to_list (dm_table w))) with (err := @None error)
    (mgr := dm_table w) as [_ Hm].
  { apply NoDup_fst_map_to_list. }
  { intros k s. apply elem_of_map_to_list. }
  rewrite Hm. case_decide as Hin; [done|].
  destruct (dm_table w !! sid) as [s|] eqn:E; [|done].
  destruct Hin. apply list_elem_of_fmap. exists (sid, s). split; [done|]. by apply elem_of_map_to_list.
Qed.
Next Obligation.
  intros ctx sid st stFull shared w w' H. unfold dm_Create in H. cbv zeta in H.
  destruct (fst (create ctx sid st stFull shared (dm_table w))) as [s|e] eqn:E; [|done].
  injection H as <-. rewrite set_table_session. by eapply create_ok.
Qed.
Next Obligation.
  intros ctx sid st stFull shared w a w' k s [= <- <-] Hs.
  rewrite set_table_session. apply create_locked. by rewrite dm_table_lookup.
Qed.
Next Obligation. intros A r sid term w a w' s H Hs H0 Hf Hne. by eapply ask_locked; eauto. Qed.
Next Obligation.
  intros ctx sid w a w' k s [= <- <-] Hs H0 Hp.
  rewrite set_table_session. apply destroy_locked; [by rewrite dm_table_lookup|done..].
Qed.

(** Everything but session [k]. *)
Definition dm_agree (k : string) (d1 d2 : daemon) : Prop :=
  (forall other, other <> k -> dm_session d1 other = dm_session d2 other) /\
  dm_cm d1 = dm_cm d2 /\ dm_log d1 = dm_log d2 /\ dm_rodisk d1 = dm_rodisk d2 /\ dm_trace d1 = dm_trace d2.

Lemma agree_set_table k t1 t2 d1 d2 : k <> EFFECTIVE_sid -> dm_agree k d1 d2 ->
  (forall other, other <> k -> t1 !! other = t2 !! other) -> dm_agree k (set_table t1 d1) (set_table t2 d2).
Proof.
  intros Hk (Hs & Hc & Hl & Hr & Ht) H. split.
  - intros other Ho. rewrite !set_table_session. by apply H.
  - unfold set_table. cbn. by rewrite Hc, Hl, Hr, Ht, (H EFFECTIVE_sid) by congruence.
Qed.

Lemma agree_after k sid w d1 d2 : sid <> k -> dm_agree k d1 d2 -> dm_agree k (after sid w d1) (after sid w d2).
Proof.
  intros Hn (Hs & Hc & Hl & Hr & Ht). unfold after. case_bool_decide as He; split; cbn; try by rewrite ?Hc.
  - intros other Ho. specialize (Hs other Ho). unfold dm_session in *. cbn. by case_bool_decide.
  - intros other Ho. specialize (Hs other Ho). unfold dm_session in *. cbn. case_bool_decide; [done|].
    destruct (decide (other = sid)) as [->|]; [by rewrite !lookup_insert_eq|by rewrite !lookup_insert_ne].
Qed.

Lemma agree_table k d1 d2 other : dm_agree k d1 d2 -> other <> k -> dm_table d1 !! other = dm_table d2 !! other.
Proof. intros [Hs _] Ho. rewrite !dm_table_lookup. by apply Hs. Qed.

(** The lookup of a session decides what [create] and [destroy] do. *)
Lemma create_cases ctx sid st stFull shared m1 m2 :
  m1 !! sid = m2 !! sid ->
  fst (create ctx sid st stFull shared m1) = fst (create ctx sid st stFull shared m2) /\
  (forall other, m1 !! other = m2 !! other -> snd (create ctx sid st stFull shared m1) !! other =
    snd (create ctx sid st stFull shared m2) !! other).
Proof.
  intros H. unfold create, lookup_session. rewrite H. repeat case_match; cbn; split; try done.
  all: intros other Ho; destruct (decide (other = sid)) as [->|];
    [by rewrite !lookup_insert_eq|by rewrite !lookup_insert_ne].
Qed.
Lemma create_denied ctx sid st stFull shared m s : m !! sid = Some s -> permitted ctx s = false ->
  create ctx sid st stFull shared m = (inr access_denied, m).
Proof. intros H Hp. unfold create, lookup_session. by rewrite H, Hp. Qed.
Lemma destroy_cases ctx sid m1 m2 : m1 !! sid = m2 !! sid ->
  fst (destroy ctx sid m1) = fst (destroy ctx sid m2) /\
  (forall other, m1 !! other = m2 !! other ->
    snd (destroy ctx sid m1) !! other = snd (destroy ctx sid m2) !! other).
Proof.
  intros H. unfold destroy, lookup_session. rewrite H. repeat case_match; cbn; split; try done.
  all: intros other Ho; destruct (decide (other = sid)) as [->|];
    [by rewrite !lookup_delete_eq|by rewrite !lookup_delete_ne].
Qed.
Lemma destroy_denied ctx sid m s : m !! sid = Some s -> permitted ctx s = false ->
  destroy ctx sid m = (Some access_denied, m).
Proof. intros H Hp. unfold destroy, lookup_session. by rewrite H, Hp. Qed.

Lemma unlock_all_table ctx d :
  fst (unlock_each ctx (map_to_list (dm_table d)) None (dm_table d)) = None /\
  forall sid, snd (unlock_each ctx (map_to_list (dm_table d)) None (dm_table d)) !! sid =
    (fun s => if negb (s_lpid s =? 0) && (s_lpid s =? Pid ctx) then set_lpid 0 s else s) <$> dm_session d sid.
Proof.
  destruct (unlock_each_lookup ctx (map_to_list (dm_table d))) with (err := @None error)
    (mgr := dm_table d) as [He Hm].
  { apply NoDup_fst_map_to_list. }
  { intros k s. apply elem_of_map_to_list. }
  split; [by apply He|]. intros sid. rewrite Hm, <- dm_table_lookup. case_decide as Hin; [done|].
  destruct (dm_table d !! sid) as [s|] eqn:Es; [|done].
  destruct Hin. apply list_elem_of_fmap. exists (sid, s). split; [done|]. by apply elem_of_map_to_list.
Qed.

#[export] Program Instance daemon_confined : Confined daemon := {| svc_agree := dm_agree |}.
Next Obligation. intros k w1 w2 other [H _] Ho. by apply H. Qed.
Next Obligation.
  intros k A r sid term Hn Hk d1 d2 Ha. cbn. unfold dm_ask.
  destruct Ha as (Hs & Hc & Hl & Hr & Ht). rewrite (Hs sid Hn).
  destruct (dm_session d2 sid) as [s|]; [|by split].
  assert (world_of s d1 = world_of s d2) as -> by (unfold world_of; by rewrite Hc, Hl, Hr, Ht).
  destruct (processreq _ _ _ _ _) as [[a h]|]; [|done]. split; [done|]. by apply agree_after.
Qed.
Next Obligation.
  intros k ctx sid st stFull shared d1 d2 Ha Hk Hd. cbn [svc_Create daemon_service]. unfold dm_Create. cbv zeta.
  destruct (decide (sid = k)) as [->|Hn].
  - destruct (Hd eq_refl) as [(s1 & H1 & P1) (s2 & H2 & P2)]. cbn [svc_session daemon_service] in H1, H2.
    rewrite <- dm_table_lookup in H1, H2.
    rewrite (create_denied _ _ _ _ _ _ _ H1 P1), (create_denied _ _ _ _ _ _ _ H2 P2). split; [done|].
    apply agree_set_table; [done..|]. intros other. by apply agree_table.
  - destruct (create_cases ctx sid st stFull shared (dm_table d1) (dm_table d2)) as [Hf Hl].
    { by apply (agree_table k). }
    cbn [same_outcome]. rewrite Hf. split; [done|]. apply agree_set_table; [done..|].
    intros other Ho. apply Hl. by apply (agree_table k).
Qed.
Next Obligation.
  intros k ctx sid d1 d2 Ha Hk Hd. cbn [svc_Destroy daemon_service]. unfold dm_Destroy. cbv zeta.
  destruct (decide (sid = k)) as [->|Hn].
  - destruct (Hd eq_refl) as [(s1 & H1 & P1) (s2 & H2 & P2)]. cbn [svc_session daemon_service] in H1, H2.
    rewrite <- dm_table_lookup in H1, H2.
    rewrite (destroy_denied _ _ _ _ H1 P1), (destroy_denied _ _ _ _ H2 P2). split; [done|].
    apply agree_set_table; [done..|]. intros other. by apply agree_table.
  - destruct (destroy_cases ctx sid (dm_table d1) (dm_table d2)) as [Hf Hl].
    { by apply (agree_table k). }
    cbn [same_outcome]. rewrite Hf. split; [done|]. apply agree_set_table; [done..|].
    intros other Ho. apply Hl. by apply (agree_table k).
Qed.
Next Obligation.
  intros ctx d a d' k s H Hs Hp. cbn [svc_session svc_Destroy daemon_service] in *.
  unfold dm_Destroy in H. cbv zeta in H. injection H as _ <-.
  rewrite <- dm_table_lookup in Hs. rewrite set_table_session.
  by rewrite (destroy_denied _ _ _ _ Hs Hp).
Qed.
Next Obligation.
  intros k ctx Hk d1 d2 Ha. cbn [svc_UnlockAllPid daemon_service]. unfold dm_UnlockAllPid. cbv zeta.
  destruct (unlock_all_table ctx d1) as [E1 T1], (unlock_all_table ctx d2) as [E2 T2].
  cbn [same_outcome]. rewrite E1, E2. split; [done|]. apply agree_set_table; [done..|].
  intros other Ho. rewrite T1, T2. destruct Ha as [Hs _]. by rewrite Hs.
Qed.

(** [NewSrv]: the two sessions the server opens for itself, and locks. *)
Definition start_sessions (ctx : Context) (ms msFull : ModelSet) (d : daemon) : daemon :=
  let m := snd (create ctx RUNNING_sid ms msFull true (dm_mgr d)) in
  let m := default m (snd (Lock ctx RUNNING_sid (Some m))) in
  let m := snd (create ctx EFFECTIVE_sid ms msFull true m) in
  let m := default m (snd (Lock ctx EFFECTIVE_sid (Some m))) in
  set_table m d.

(** ** Everything a client can do to the sessions *)

Inductive dm_op : Type :=
  | DAsk (A : Type) (sid : string) (r : request A) (term : A)
  | DCreate (ctx : Context) (sid : string) (st stFull : ModelSet) (shared : bool)
  | DDestroy (ctx : Context) (sid : string)
  | DClose (ctx : Context).     (** the end of a connection: [UnlockAllPid] *)

Section Ops.
Variable range : gmap string session -> list (string * session).

Definition dm_do (o : dm_op) (d : daemon) : option daemon :=
  match o with
  | DAsk _ sid r term => snd <$> dm_ask sid r term d
  | DCreate ctx sid st stFull shared => snd <$> dm_Create ctx sid st stFull shared d
  | DDestroy ctx sid => snd <$> dm_Destroy ctx sid d
  | DClose ctx => Some (set_table (snd (unlock_each ctx (range (dm_table d)) None (dm_table d))) d)
  end.

Fixpoint dm_run (ops : list dm_op) (d : daemon) : option daemon :=
  match ops with
  | [] => Some d
  | o :: ops' => match dm_do o d with Some d' => dm_run ops' d' | None => None end
  end.

(** Operations of other processes than [p] that load nothing into session [k]. *)
Definition op_foreign (p : Z) (k : string) (o : dm_op) : Prop :=
  match o with
  | DAsk _ sid r _ => sid = k -> foreign p false _ r
  | DCreate ctx _ _ _ _ | DDestroy ctx _ | DClose ctx => Pid ctx <> p
  end.

Lemma unlock_all_locked ctx m k s : range m ≡ₚ map_to_list m ->
  m !! k = Some s -> s_lpid s <> Pid ctx -> snd (unlock_each ctx (range m) None m) !! k = Some s.
Proof.
  intros Hr Hs Hp.
  destruct (unlock_each_lookup ctx (range m)) with (err := @None error) (mgr := m) as [_ Hm].
  { rewrite Hr. apply NoDup_fst_map_to_list. }
  { intros sid s'. rewrite Hr. apply elem_of_map_to_list. }
  rewrite Hm. case_decide; [|done]. rewrite Hs. cbn.
  by rewrite (proj2 (Z.eqb_neq _ _) Hp), andb_false_r.
Qed.

Lemma do_locked o d d' k s : (forall m, range m ≡ₚ map_to_list m) ->
  dm_session d k = Some s -> s_lpid s <> 0 -> k <> EFFECTIVE_sid ->
  op_foreign (s_lpid s) k o -> dm_do o d = Some d' -> dm_session d' k = Some s.
Proof.
  intros Hr Hs H0 Hk Ho. rewrite <- dm_table_lookup in Hs.
  destruct o as [A sid r term|ctx sid st stFull shared|ctx sid|ctx]; cbn [dm_do op_foreign] in *.
  - intros Hd. destruct (dm_ask sid r term d) as [[a d1]|] eqn:E; [|done]. injection Hd as <-.
    rewrite dm_table_lookup in Hs. destruct (decide (k = sid)) as [<-|Hne].
    + by eapply ask_locked; eauto.
    + rewrite <- Hs. exact (svc_ask_other _ _ _ _ _ _ _ _ E Hne Hk).
  - intros [= <-]. rewrite set_table_session. by apply create_locked.
  - intros [= <-]. rewrite set_table_session. by apply destroy_locked.
  - intros [= <-]. rewrite set_table_session. by apply unlock_all_locked.
Qed.

Lemma create_fresh ctx sid st stFull m : m !! sid = None ->
  snd (create ctx sid st stFull true m) = <[sid := NewSession sid st stFull None]> m.
Proof. intros Hm. unfold create, lookup_session. by rewrite Hm. Qed.

Lemma Lock_fresh ctx sid st stFull m : m !! sid = Some (NewSession sid st stFull None) ->
  snd (Lock ctx sid (Some m)) = Some (<[sid := set_lpid (Pid ctx) (NewSession sid st stFull None)]> m).
Proof.
  intros Hm. unfold Lock, on_session, get_session, lookup_session. rewrite Hm.
  unfold permitted, OwnedBy, IsShared, NewSession. by cbn.
Qed.

(** ** Properties *)

(** C13: the session RUNNING shows the running configuration and nothing else.
    The server opens it shared, with an empty candidate, and locks it for
    itself; no sequence of operations of clients, who can all get at it,
    changes it or removes it, commits and ends of connections included; only a
    load or copy-config sent to it can. *)
Theorem running_session_protected ctx ms msFull ops d d' :
  (forall m, range m ≡ₚ map_to_list m) ->
  dm_mgr d = ∅ -> Pid ctx = SYSTEM ->
  Forall (op_foreign SYSTEM RUNNING_sid) ops ->
  dm_run ops (start_sessions ctx ms msFull d) = Some d' ->
  dm_session d' RUNNING_sid =
    Some (Session RUNNING_sid None SYSTEM false (data_New "root") [] ms msFull).
Proof.
  intros Hr Hm Hpid Hops.
  assert (Hstart : dm_session (start_sessions ctx ms msFull d) RUNNING_sid =
    Some (Session RUNNING_sid None SYSTEM false (data_New "root") [] ms msFull)).
  { unfold start_sessions. rewrite set_table_session, Hm, (create_fresh _ RUNNING_sid) by done.
    rewrite (Lock_fresh _ _ ms msFull) by apply lookup_insert_eq. cbn [from_option id].
    rewrite (create_fresh _ EFFECTIVE_sid) by done.
    rewrite (Lock_fresh _ EFFECTIVE_sid ms msFull) by apply lookup_insert_eq. cbn [from_option id].
    rewrite !lookup_insert_ne, lookup_insert_eq by done. by rewrite Hpid. }
  revert Hstart. generalize (start_sessions ctx ms msFull d).
  induction Hops as [|o ops Ho Hops IH]; intros d0 Hs; cbn; [by intros [= <-]|].
  destruct (dm_do o d0) as [d1|] eqn:E; [|done]. apply IH.
  by eapply do_locked; eauto.
Qed.
End Ops.
End Daemon.

(** ** A concrete daemon *)

Module SampleDaemon.
Definition system : Context := Sample.client SYSTEM 0 Sample.allow.
Definition alice : Context := Sample.client 20 1000 Sample.allow.

Definition empty : daemon (L := Sample.lib) :=
  let w := sample_world 0 in Daemon ∅ (w_cm w) (w_log w) false [].

Abbreviation start := (start_sessions (L := Sample.lib) system Sample.root Sample.root empty).
Abbreviation range := (fun m : gmap string (session (L := Sample.lib)) => map_to_list m).
Abbreviation run := (dm_run (SL := SampleState.statelib) (CL := SampleCommit.commitlib)
  SampleEdit.xml 3 range).

(** Another process tries to change, unlock, discard and remove it, works in a
    session of its own and commits, and leaves. *)
Definition ops : list (dm_op (L := Sample.lib)) :=
  [ DAsk _ RUNNING_sid (setreq (L := Sample.lib) alice ["service"]) None;
    DAsk _ RUNNING_sid (unlockreq (L := Sample.lib) alice) (-1, None);
    DAsk _ RUNNING_sid (discardreq (L := Sample.lib) alice) None;
    DDestroy alice RUNNING_sid;
    DCreate (L := Sample.lib) alice "s" Sample.root Sample.root false;
    DAsk _ "s" (lockreq (L := Sample.lib) alice) (-1, None);
    DAsk _ "s" (setreq (L := Sample.lib) alice ["service"]) None;
    DAsk _ "s" (commitreq (L := Sample.lib) alice "" false) (MakeCommitError sessTermError);
    DClose alice ].

Lemma running_session_protected_witness :
  exists d', run ops start = Some d' /\
    dm_session d' RUNNING_sid =
      Some (Session (L := Sample.lib) RUNNING_sid None SYSTEM false [] [] Sample.root Sample.root).
Proof.
  assert (Hrun : match run ops start with Some _ => true | None => false end = true)
    by (vm_compute; reflexivity).
  destruct (run ops start) as [d'|] eqn:E; [clear Hrun|discriminate Hrun].
  exists d'. split; [reflexivity|].
  refine (running_session_protected (SL := SampleState.statelib) (CL := SampleCommit.commitlib)
    SampleEdit.xml 3 range system Sample.root Sample.root ops empty d' _ eq_refl eq_refl _ E).
  - reflexivity.
  - repeat constructor; try discriminate.
Defined.
End SampleDaemon.
