(* ===== verification/Progress.v ===== *)
(** Every request is answered: a session neither panics nor gets stuck on
    whatever it is sent, with whatever requests served at its waiting points,
    and neither do the sessions of the daemon together.  What this relies on in
    the packages the sessions call is the class [Documented]. *)

From S2P Require Import Prelude GoLib Errors Rpc External Configd LogLevel Sample Session.
From S2P Require Import StateTree Load EditConfig Commit SessionServer SessionMgr Service Daemon.

Open Scope Z_scope.

(** Schemas have a root, give every path its attributes and every list a key;
    the root of a tree is there and is not a default; the full trees are no
    deeper than [fuel]; a commit program touches the database through real
    paths. *)
Class Documented {L : ConfigLib} {SL : StateLib} {CL : CommitLib} (fuel : nat) := {
  doc_root : forall ms, Descendant ms [] <> None;
  doc_attrs : forall ms p, AttrsForPath ms p <> None;
  doc_keys : forall ms p sch, Descendant ms p = Some sch -> sn_kind sch = KList -> sn_keys sch <> [];
  doc_root_exists : forall c r ms a,
    u_Exists c r ms a [] = None /\ fst (u_IsDefault c r ms a []) = false;
  doc_rank : FNode -> nat;
  doc_children : forall n h c, c ∈ f_Children n h -> (doc_rank c < doc_rank n)%nat;
  doc_add : forall n name h, name ∈ f_StateChildren n ->
    exists c, f_Child n name (f_AddChild n name h) = Some c /\ (doc_rank c < doc_rank n)%nat;
  doc_child : forall n name h c, f_Child n name h = Some c -> (doc_rank c < doc_rank n)%nat;
  doc_depth : forall c r ms, (doc_rank (fst (f_New c r ms)) <= fuel)%nat;
  doc_commit : forall c, prog_ok (commit_Commit c)
}.

Section Progress.
Context {L : ConfigLib} {SL : StateLib} {CL : CommitLib}.
Context (xml_config : string -> list xml_elem + error) (fuel : nat) `{DC : !Documented fuel}.

(** What [NewSrv] sets up: the effective session is there, and the system's. *)
Definition effective_ready (w : world) : Prop :=
  exists e, cm_effective (w_cm w) = Some e /\ s_lpid e = SYSTEM.

Lemma ready_cm w w' : w_cm w = w_cm w' -> effective_ready w -> effective_ready w'.
Proof. by intros E (e & He & Hl); exists e; rewrite <- E. Qed.

Abbreviation Ready := (live effective_ready).
#[local] Hint Resolve ready_cm : core.

Lemma all_nameable path : nameable path.
Proof. intros _ ms. apply doc_root. Qed.
#[local] Hint Resolve all_nameable : core.

(** ** Commits *)

Lemma ready_modify f : (forall w, cm_effective (w_cm (f w)) = cm_effective (w_cm w)) ->
  returns effective_ready (modify f).
Proof. intros Hf. apply returns_modify. intros w (e & He & Hl). exists e. by rewrite Hf. Qed.

Lemma on_effective_ready {A} (m : M hst A) : returns hready m ->
  (forall w e, preserves (hinv (eff_frame w e) (fun _ => False)) m) ->
  returns effective_ready (on_effective m).
Proof.
  intros Hm Hf w (e & He & Hl).
  destruct (on_effective_returns m w e He Hm (Hf w e)) as (a & e' & E).
  exists a, (with_effective e' w). split; [done|]. exists e'. split; [done|].
  destruct (on_effective_frame m w e a _ He (Hf w e) E) as (h & _ & Heq & Hl').
  injection Heq as ->. congruence.
Qed.

Lemma run_commit_ready c p : prog_ok p -> returns effective_ready (run_commit c p).
Proof.
  induction p as [path k IH|path k IH|]; cbn; intros Hp; [| |apply returns_ret].
  - destruct Hp as [Hp Hk]. apply returns_bind; [|intros e; by apply IH].
    apply on_effective_ready; [apply set_returns; [done|by apply path_nameable]|].
    intros w e. apply set_inv; [done|intros; by apply eff_frame_candidate].
  - apply returns_bind; [|intros e; by apply IH].
    apply on_effective_ready; [by apply del_returns|].
    intros w e. apply del_inv. intros; by apply eff_frame_candidate.
Qed.

Lemma discard_returns ok ctx : (forall w w', w_cm w = w_cm w' -> ok w -> ok w') ->
  returns (live ok) (discard ctx).
Proof. intros Hcm. unfold discard, sess. repeat first [by apply on_sess_returns | go_step]. Qed.

Lemma commit_apply_ready c ucan user outs errs :
  returns effective_ready (commit_apply c ucan user outs errs).
Proof.
  assert (Hshow : forall ctx path a b d, returns effective_ready (on_effective (show ctx path a b d))).
  { intros. apply on_effective_ready; [apply returns_gets|intros; apply preserves_gets]. }
  unfold commit_apply, execute_hooks, emit_w, store_running, cc_commit, writeRunning.
  repeat first
    [ apply run_commit_ready; apply doc_commit | apply Hshow
    | (apply ready_modify; reflexivity)
    | (apply on_effective_ready; [by apply discard_returns|
       intros w e; apply discard_inv; intros; by apply eff_frame_replace])
    | (apply on_effective_ready; [apply returns_gets|intros; apply preserves_gets])
    | go_step ].
Qed.

Lemma mgr_commit_ready sid sctx candidate message debug :
  returns effective_ready (mgr_commit sid sctx candidate message debug).
Proof.
  unfold mgr_commit, set_hadcommit. go_step; [apply returns_gets|].
  go_step; [by apply ready_modify|]. destruct (commit_context _ _ _ _ _ _) as [ctx ucan].
  destruct (commit_Validate ctx) as [[outs errs] ok].
  repeat first [apply commit_apply_ready | go_step].
Qed.

(** ** Handlers *)

Definition on_sess_ready := on_sess_returns effective_ready ready_cm.
Definition wait_ready := serve_while_waiting_returns effective_ready.
Definition validateSetPath_ready := validateSetPath_returns effective_ready.
Definition delete_path_ready := delete_path_returns effective_ready ready_cm.

Lemma set_ready ctx path : returns Ready (set ctx path).
Proof. apply set_returns; [apply ready_cm|apply all_nameable]. Qed.

Lemma lift_world_ready {A} (m : M world A) : returns effective_ready m -> returns Ready (lift_world m).
Proof.
  intros Hm h [Hw Hb]. destruct (Hm _ Hw) as (a & w & E & Hw').
  exists a, (Hst w (h_blk h)). split; [|done]. unfold lift_world. by rewrite E.
Qed.

Lemma sess_op_ready {A} (f : session -> A * session) : returns Ready (sess_op f).
Proof. unfold sess_op, sess. repeat first [apply on_sess_ready | go_step]. Qed.

Lemma with_commit_lock_ready {A} ctx (m : M hst A) : returns Ready m -> returns Ready (with_commit_lock ctx m).
Proof.
  intros Hm. unfold with_commit_lock, sess. repeat first [exact Hm | apply on_sess_ready | go_step].
Qed.

Lemma preord_ready ctx ptr run n : forall cur, returns Ready (preord ctx ptr run n cur).
Proof.
  induction n as [n IH] using utree_nested_ind. intros cur.
  destruct n as [name [sch|] def chs]; cbn; [|apply returns_ret].
  destruct def; [apply returns_ret|]. apply returns_bind.
  - unfold setFn, the_world. repeat first [apply set_ready | go_step].
  - intros e. apply returns_bind; [|intros es; apply returns_ret]. cbn in IH.
    apply returns_forM. intros c Hc. by apply (proj1 (Forall_forall _ _) IH).
Qed.

Lemma merge_tree_ready ctx ltree : returns Ready (merge_tree ctx ltree).
Proof.
  unfold merge_tree, the_world. repeat first [(apply returns_forM; intros; apply preord_ready) | go_step].
Qed.

(** Only the root has no last element, and it is there. *)
Lemma absent_named s u ctx path def : existsInTree s u ctx path def = false ->
  exists e, unknown_last path = Some e.
Proof.
  intros H. apply unknown_last_Some. intros ->. revert H. unfold existsInTree.
  destruct (doc_root_exists (un_cand u) (un_run u) (un_ms u) (newAuther s ctx)) as [-> ->].
  by destruct def.
Qed.

Lemma gettree_ready ctx path opts : returns Ready (gettree ctx path opts).
Proof.
  unfold gettree, the_world. go_step; [apply returns_gets|]. cbv zeta.
  destruct (existsInTree _ _ ctx path _) eqn:E; cbn [negb]; [apply returns_ret|].
  destruct (absent_named _ _ _ _ _ E) as [e ->].
  repeat first [apply validateSetPath_ready | go_step].
Qed.

Lemma finish_fulltree_total s ctx path opts ut heap warns :
  exists r, finish_fulltree s ctx path opts ut heap warns = Some r.
Proof.
  unfold finish_fulltree. repeat (case_match; try by eexists).
  all: match goal with H : negb (existsInTree _ ?u _ ?p _) = true, H' : unknown_last ?p = None |- _ =>
    apply negb_true_iff in H; apply absent_named in H as [? Hn]; rewrite Hn in H'; discriminate end.
Qed.

Lemma getfulltree_ready ctx path opts : returns Ready (getfulltree fuel ctx path opts).
Proof.
  unfold getfulltree, the_world, sess. go_step; [apply returns_gets|]. cbv zeta.
  destruct (f_New _ _ _) as [ut heap] eqn:Ef.
  destruct (addStateToTree_returns fuel doc_rank ut path heap doc_children doc_add doc_child)
    as ([err warns] & heap' & ->).
  { replace ut with (fst (ut, heap)) by done. rewrite <- Ef. apply doc_depth. }
  repeat match goal with |- returns _ (match finish_fulltree ?s ?c ?p ?o ?u ?h ?w with _ => _ end) =>
      destruct (finish_fulltree_total s c p o u h w) as [r ->]
    | _ => first [apply validateSetPath_ready | apply wait_ready | go_step] end.
Qed.

Lemma editConfigXML_ready ctx target defop testopt erropt config :
  returns Ready (editConfigXML xml_config ctx target defop testopt erropt config).
Proof.
  intros h Hh. apply editConfigXML_returns; [apply ready_cm|apply doc_attrs|apply doc_keys|exact Hh].
Qed.

Lemma commit_ready ctx message debug : returns Ready (commit ctx message debug).
Proof.
  assert (Hc : forall sid candidate, returns effective_ready (CommitMgr_Commit sid ctx candidate message debug)).
  { intros. unfold CommitMgr_Commit.
    repeat first [apply mgr_commit_ready | (apply ready_modify; reflexivity) | go_step]. }
  unfold commit, the_world, sess. go_step; [apply returns_gets|].
  repeat first
    [ apply with_commit_lock_ready | apply wait_ready | (apply lift_world_ready; apply Hc)
    | apply on_sess_ready | go_step ].
Qed.

Lemma processreq_ready {A} (r : request A) dc : returns Ready (processreq xml_config fuel r dc).
Proof.
  destruct r; cbn [processreq].
  all: first [apply returns_gets | apply gettree_ready | apply getfulltree_ready | apply sess_op_ready
    | apply editConfigXML_ready | apply commit_ready | apply validateSetPath_ready
    | (apply discard_returns; apply ready_cm) | (apply del_returns; apply ready_cm) | apply set_ready | idtac].
  all: unfold mergetree, gettype, getstatus, isdefault, get, gethelp, show, validate, load, merge,
    copyConfig, marksaved, delete_then_merge_tree, sess, the_world.
  all: repeat first [ apply merge_tree_ready | apply with_commit_lock_ready
    | apply wait_ready | apply on_sess_ready | apply delete_path_ready | go_step ].
Qed.

(** ** Requests within requests *)

(** The commits of other sessions leave the effective session to the system. *)
Inductive env_ready : arrival -> Prop :=
  | env_ready_Env c e : cm_effective c = Some e -> s_lpid e = SYSTEM -> env_ready (Env c)
  | env_ready_Arr A (r : request A) nested :
      Forall (Forall env_ready) nested -> env_ready (Arr A r nested).

Abbreviation serve := (serve xml_config fuel).
Abbreviation serve_all := (serve_all xml_config fuel).

Lemma serve_each l : Forall (fun a => blk_live effective_ready (serve a)) l ->
  blk_live effective_ready (serve_all l).
Proof.
  induction 1 as [|a l Ha _ IH]; intros dc w Hw; [by exists w|].
  destruct (Ha dc w Hw) as (w1 & E & H1). destruct (IH dc w1 H1) as (w2 & E2 & H2).
  exists w2. split; [|done]. unfold SessionServer.serve_all in *. by rewrite E.
Qed.

Lemma serve_ready a : env_ready a -> blk_live effective_ready (serve a).
Proof.
  revert a. fix IH 2. intros a [c e He Hl|A r nested Hn] dc w Hw.
  - by exists (set_cm c w); split; [|exists e].
  - rewrite serve_Arr.
    assert (Hb : Forall (blk_live effective_ready) (map (blk_of xml_config fuel) nested)).
    { clear Hw. induction Hn as [|l n Hl _ IHn]; constructor; [|exact IHn].
      apply serve_each. clear IHn. induction Hl as [|b l Hb _ IHl]; constructor; [apply IH, Hb|exact IHl]. }
    destruct (processreq_ready r dc (Hst w (map (blk_of xml_config fuel) nested)) (conj Hw Hb))
      as (x & h & -> & Hr & _). by exists (h_world h).
Qed.

(** ** Property *)


(** ** The sessions of the daemon *)

Definition dm_ready (d : daemon) : Prop :=
  (exists e, dm_session d EFFECTIVE_sid = Some e /\ s_lpid e = SYSTEM) /\
  (exists r, dm_session d RUNNING_sid = Some r /\ s_lpid r = SYSTEM /\ s_owner r = None).

Lemma ready_table t d :
  (exists e, t !! EFFECTIVE_sid = Some e /\ s_lpid e = SYSTEM) ->
  (exists r, t !! RUNNING_sid = Some r /\ s_lpid r = SYSTEM /\ s_owner r = None) ->
  dm_ready (set_table t d).
Proof. intros (e & He & Hl) (r & Hr & Hp). split; [exists e|exists r]; by rewrite set_table_session. Qed.

(** A table operation that leaves the sessions of the system where they are. *)
Lemma ready_kept t d : (forall k s, dm_table d !! k = Some s -> s_lpid s = SYSTEM -> t !! k = Some s) ->
  dm_ready d -> dm_ready (set_table t d).
Proof.
  intros Ht [(e & He & Hl) (r & Hr & Hlr & Ho)].
  apply ready_table; [exists e|exists r]; (split; [apply Ht; by rewrite ?dm_table_lookup|done]).
Qed.

(** The lock of a session of the system is out of the reach of clients, and
    nothing makes the session somebody's own. *)
Lemma system_session_kept {A} (r : request A) dc h a h' :
  Pid (req_ctx r) <> SYSTEM -> h_blk h = [] -> s_lpid (w_sess (h_world h)) = SYSTEM ->
  processreq xml_config fuel r dc h = Some (a, h') ->
  s_lpid (w_sess (h_world h')) = SYSTEM /\
  s_owner (w_sess (h_world h')) = s_owner (w_sess (h_world h)).
Proof.
  intros Hp Hb Hl E.
  set (I := fun w : world => s_lpid (w_sess w) = SYSTEM /\ s_owner (w_sess w) = s_owner (w_sess (h_world h))).
  assert (H : hinv I (blk_preserves I) h'); [|apply H].
  refine (processreq_foreign_inv xml_config fuel I SYSTEM true _ _ _ A r dc _ h a h' _ E).
  - done.
  - by intros w [].
  - by intros _ w d [].
  - by split.
  - split; [done|]. by rewrite Hb.
Qed.

Lemma dm_ask_ready {A} sid (r : request A) term : Pid (req_ctx r) <> SYSTEM ->
  returns dm_ready (dm_ask xml_config fuel sid r term).
Proof.
  intros Hp d Hd. unfold dm_ask. destruct (dm_session d sid) as [s|] eqn:Es; [|by exists term, d].
  pose proof Hd as [(e & He & Hl) (run & Hr & Hlr & Ho)].
  destruct (processreq_ready r None (Hst (world_of s d) [])) as (a & h & E & [(e' & He' & Hl') _]).
  { split; [|constructor]. by exists e. }
  rewrite E. exists a, (after sid (h_world h) d). split; [done|].
  assert (Hk : s_lpid s = SYSTEM -> s_lpid (w_sess (h_world h)) = SYSTEM /\
    s_owner (w_sess (h_world h)) = s_owner s).
  { intros Hs. exact (system_session_kept r None (Hst (world_of s d) []) a h Hp eq_refl Hs E). }
  destruct (decide (sid = EFFECTIVE_sid)) as [->|Hs].
  - rewrite He in Es. injection Es as <-. unfold after. rewrite bool_decide_true by done.
    split; [eexists; split; [reflexivity|by apply Hk]|by exists run].
  - unfold after. rewrite bool_decide_false by done. split; [by exists e'|].
    unfold dm_session at 1. cbn [dm_mgr]. rewrite bool_decide_false by done.
    destruct (decide (sid = RUNNING_sid)) as [->|Hn].
    + rewrite lookup_insert_eq. eexists. split; [done|]. rewrite Hr in Es. injection Es as <-.
      destruct (Hk Hlr) as [? ->]. done.
    + rewrite lookup_insert_ne by done. by exists run.
Qed.

#[export] Instance daemon_answers :
  Answering daemon (H := daemon_service xml_config fuel).
Proof.
  refine {| svc_ready := dm_ready |}.
  - intros ctx w [_ (r & Hr & _ & Ho)]. exists r. split; [exact Hr|].
    unfold permitted, IsShared, OwnedBy. rewrite Ho. by rewrite ?orb_true_r.
  - intros A r sid term Hp. exact (dm_ask_ready sid r term Hp).
  - intros ctx sid st stFull shared d Hd. eexists _, _. split; [reflexivity|].
    apply ready_kept; [|done]. intros k s Hk _. by apply create_locked.
  - intros ctx sid Hp d Hd. eexists _, _. split; [reflexivity|].
    apply ready_kept; [|done]. intros k s Hk Hs. apply destroy_locked; [done|by rewrite Hs|congruence].
  - intros ctx Hp d Hd. eexists _, _. split; [reflexivity|].
    apply ready_kept; [|done]. intros k s Hk Hs. eapply (unlock_all_locked map_to_list); [done|done|congruence].
Defined.

(** It is what the server starts with. *)
Lemma start_ready ctx ms msFull d : dm_mgr d = ∅ -> Pid ctx = SYSTEM ->
  dm_ready (start_sessions ctx ms msFull d).
Proof.
  intros Hm Hpid. unfold start_sessions. rewrite Hm, (create_fresh _ RUNNING_sid) by done.
  rewrite (Lock_fresh _ _ ms msFull) by apply lookup_insert_eq. cbn [from_option id].
  rewrite (create_fresh _ EFFECTIVE_sid) by done.
  rewrite (Lock_fresh _ EFFECTIVE_sid ms msFull) by apply lookup_insert_eq. cbn [from_option id].
  apply ready_table; rewrite ?lookup_insert_eq, ?lookup_insert_ne, ?lookup_insert_eq by done; eauto.
Qed.
End Progress.

(** ** A session that answers *)

Module SampleProgress.
#[export] Instance documented :
  Documented (L := Sample.lib) (SL := SampleState.statelib) (CL := SampleCommit.commitlib) 3.
Proof.
  refine {| doc_rank := snd : @FNode _ SampleState.statelib -> nat |}.
  - exact Sample.descendant_root.
  - done.
  - exact Sample.descendant_keyed.
  - by intros [] r ms a.
  - exact SampleState.children_below.
  - exact SampleState.added_below.
  - exact SampleState.child_below.
  - cbn. lia.
  - intros c. split; [discriminate|by intros].
Defined.

(** A validation, during which another client validates, has a load and a set
    refused or served, and asks for the operational state, and in between a
    commit of another session ends. *)
Definition alice : Context := Sample.client 10 1000 Sample.allow.
Definition bob : Context := Sample.client 20 1001 Sample.allow.
Definition requests : list (arrival (L := Sample.lib)) :=
  [Arr _ (validatereq (L := Sample.lib) alice)
     [[Arr _ (setreq (L := Sample.lib) bob ["service"]) []; Env (w_cm (sample_world 10));
       Arr _ (getfulltreereq (L := Sample.lib) bob ["system"] (NewTreeOpts []))
         [[Arr _ (loadreq (L := Sample.lib) bob "/service" None) []]]]];
   Arr _ (commitreq (L := Sample.lib) alice "" false) []].

End SampleProgress.
