(* ===== verification/Server.v ===== *)
(** [server/aaa.go] and [server/confirmed_commit.go]: command authorisation and
    accounting around the server's methods, and the rules of confirmed
    commits.  The state is what the methods share with the outside: the pending
    confirmed commit, which the management script keeps in a file, and the
    trace of the effects. *)

From S2P Require Import Prelude GoLib Errors Rpc External Configd Sample Expand.

Open Scope Z_scope.

(** ** Confirmed commits: data *)

Definition DefaultTimeout : Z := 600.

(** /config/confirmed_commit.job; empty fields when there is none. *)
Record ConfirmedCommitInfo := JobInfo { ji_Session : string; ji_PersistId : string }.

(** [type commitInfo]; its field [session] is never used. *)
Record commitInfo := CommitInfo {
  ci_confirmed : bool;
  ci_timeout : Z;          (** uint32 *)
  ci_persist : string;
  ci_persistId : string
}.

(** [strconv.Quote], on printable text. *)
Definition dquote : string := String "034"%char "".
Fixpoint escape (s : string) : string :=
  match s with
  | EmptyString => ""
  | String c s' =>
      (if Ascii.eqb c "034"%char || Ascii.eqb c "092"%char then String "092"%char (String c "")
       else String c "") +:+ escape s'
  end.
Definition Quote (s : string) : string := dquote +:+ escape s +:+ dquote.

(** The error text of [strconv.ParseUint(s, 10, _)]. *)
Definition ParseUint_error (s : string) : string :=
  "strconv.ParseUint: parsing " +:+ Quote s +:+ ": " +:+
  match digits_val 10 s 0 with
  | Some _ => "value out of range"
  | None => "invalid syntax"
  end.

Definition newCommitInfo (confirmed : bool) (timeout persist persistid : string)
  : commitInfo + error :=
  if bool_decide (timeout <> "") then
    match ParseUint timeout 10 32 with
    | None => inr (error_msg InvalidValueProtocol (ParseUint_error timeout))
    | Some seconds =>
        if seconds =? 0 then
          inr (error_msg InvalidValueProtocol "timeout value out of range, 0 is not permitted")
        else inl (CommitInfo confirmed seconds persist persistid)
    end
  else inl (CommitInfo confirmed DefaultTimeout persist persistid).

Definition arguments (c : commitInfo) (session : string) : list string :=
  ["--action=confirmed-commit"; "--seconds=" +:+ Itoa (ci_timeout c)]
  ++ (if bool_decide (ci_persist c <> "") then ["--persist=" +:+ ci_persist c] else [])
  ++ (if bool_decide (ci_persistId c <> "") then ["--persistid=" +:+ ci_persistId c] else [])
  ++ ["--session=" +:+ session].

Section Server.
Context {L : ConfigLib} (ErrPath : list string -> string).
(** /opt/vyatta/sbin/vyatta-config-mgmt.pl: arguments and pending job to the
    job it leaves, its output and whether it succeeded. *)
Context (config_mgmt : list string -> ConfirmedCommitInfo -> ConfirmedCommitInfo * string * bool).

Inductive sevent :=
  | EvStart (cmd : list string) (attrs : PathAttrs)
  | EvStop (err : option error)
  | EvSpawn (args : list string)                  (** the management script *)
  | EvRun (cmd : list string) (input : string)    (** as the caller, with a file *)
  | EvLog (pfx msg : string).

(** The parts of [Disp] these methods read, and what they change. *)
Record Disp := { d_ms : ModelSet; d_msFull : ModelSet; d_ctx : Context }.

(** [W]: the state of the session manager and its sessions, see Dispatcher.v. *)
Context {W : Type}.
Record sstate := SState { st_job : ConfirmedCommitInfo; st_trace : list sevent; st_sess : W }.

Definition emit_s (e : sevent) : M sstate unit :=
  modify (fun s => SState (st_job s) (e :: st_trace s) (st_sess s)).

(** ** Command arguments, authorisation, accounting *)

Record commandArgs := CommandArgs { ca_cmd : list string; ca_attrs : PathAttrs }.

(** [None] is the nil the caller gets for a path that does not expand. *)
Definition newCommandArgs (d : Disp) (cmd : string) (args pathArgs : list string)
  : option commandArgs :=
  match expandPath ErrPath (d_ms d) pathArgs NoPrefix InvalidPos with
  | Expanded pathArgs =>
      let attrs := default [] (AttrsForPath (d_msFull d) pathArgs) in
      let cmdArgs := cmd :: args in
      let cmdAttrs := map (fun _ => {| Secret := false |}) cmdArgs in
      Some (CommandArgs (cmdArgs ++ pathArgs) (cmdAttrs ++ attrs))
  | _ => None
  end.

Definition newCommandArgsForAaa (d : Disp) (cmd : string) (args pathArgs : list string)
  : option commandArgs :=
  if Configd (d_ctx d) then None else newCommandArgs d cmd args pathArgs.

Definition authCommand (d : Disp) (args : option commandArgs) : bool :=
  if Configd (d_ctx d) then true
  else
    match args with
    | None => false
    | Some a =>
        AuthorizeCommand (cx_Auth (d_ctx d)) (Uid (d_ctx d)) (Groups (d_ctx d)) (ca_cmd a)
          (Some (ca_attrs a))
    end.

(** [accountCmdWrap]; the accounter of nil arguments is nil. *)
Definition accountCmdWrap {A} (args : option commandArgs) (fn : M sstate (A * option error))
  : M sstate (A * option error) :=
  match args with
  | None => fn
  | Some a =>
      emit_s (EvStart (ca_cmd a) (ca_attrs a)) ;;;
      r <- fn ;;
      emit_s (EvStop (snd r)) ;;;
      ret r
  end.

(** The shape of every accounted method: authorise, then account for the work. *)
Definition authorised_cmd {A} (d : Disp) (zero : A) (args : option commandArgs)
    (fn : M sstate (A * option error)) : M sstate (A * option error) :=
  if negb (authCommand d args) then ret (zero, Some access_denied) else accountCmdWrap args fn.

(** ** Confirmed commits: the rules *)

(** [logEvent]: the first non-blank line only. *)
Definition logEvent (pfx msg : string) : M sstate unit :=
  match filter (fun s => s <> "") (Split msg "010"%char) with
  | [] => ret tt
  | s :: _ => emit_s (EvLog pfx s)
  end.
Definition logConfirmedCommitEvent (msg : string) : M sstate unit := logEvent "Confirmed Commit" msg.

Definition getConfirmedCommitInfo : M sstate ConfirmedCommitInfo := gets st_job.

(** Run the script; its output is the error's text when it fails. *)
Definition spawn_config_mgmt (args : list string) : M sstate (string * option error) :=
  emit_s (EvSpawn args) ;;;
  s <- gets id ;;
  let '(job, out, ok) := config_mgmt args (st_job s) in
  modify (fun s => SState job (st_trace s) (st_sess s)) ;;;
  if negb ok then ret ("", Some (error_msg OperationFailedApplication out))
  else ret (out, None).

Definition ConfirmingCommit : M sstate (string * option error) :=
  spawn_config_mgmt ["--action=confirming-commit"].
Definition ConfirmSilent : M sstate (string * option error) :=
  spawn_config_mgmt ["--action=confirm-silent"].
Definition confirmInternal : M sstate (string * option error) :=
  spawn_config_mgmt ["--action=confirm"].
Definition confirmPersistIdInternal (persistid : string) : M sstate (string * option error) :=
  spawn_config_mgmt ["--action=confirm"; "--persistid=" +:+ persistid].
Definition setConfirmTimeout (mins : Z) : M sstate (string * option error) :=
  spawn_config_mgmt ["--action=commit-confirm"; "--minutes=" +:+ Itoa mins].
Definition setConfirmedCommitTimeout (d : Disp) (cmt : commitInfo) : M sstate (string * option error) :=
  r <- spawn_config_mgmt (arguments cmt (Itoa (Pid (d_ctx d)))) ;;
  match snd r with
  | Some _ => ret r
  | None =>
      logConfirmedCommitEvent ("Scheduled revert for persist-id [" +:+ ci_persist cmt +:+ "]") ;;;
      ret r
  end.

Definition Confirm (d : Disp) : M sstate (string * option error) :=
  accountCmdWrap (newCommandArgsForAaa d "confirm" [] []) confirmInternal.
Definition ConfirmPersistId (d : Disp) (persistid : string) : M sstate (string * option error) :=
  accountCmdWrap (newCommandArgsForAaa d "confirm" ["persist-id"; persistid] [])
    (confirmPersistIdInternal persistid).

Definition performConfirmingCommitIfRequired (pid : string) (cmt : option commitInfo) (revert : bool)
  : M sstate (bool * option error) :=
  info <- getConfirmedCommitInfo ;;
  if negb (bool_decide (ji_Session info <> "")) then ret (false, None)
  else if revert then ConfirmingCommit ;;; ret (true, None)
  else
    match cmt with
    | None =>
        ret (false, Some (error_msg AccessDeniedApplication
          "Operation blocked by outstanding confirmed commit"))
    | Some cmt =>
        if bool_decide (ji_PersistId info <> ci_persistId cmt) then
          ret (false, Some (error_msg InvalidValueProtocol
            "persist-id does not match outstanding confirmed commit"))
        else if bool_decide (ci_persistId cmt = "") && bool_decide (ji_Session info <> pid) then
          ret (false, Some (error_msg AccessDeniedApplication
            "operation blocked by outstanding confirmed commit"))
        else if negb (ci_confirmed cmt) then
          logConfirmedCommitEvent
            ("Confirming pending confirmed commit: persist-id [" +:+ ji_PersistId info +:+ "]") ;;;
          ConfirmingCommit ;;; ret (true, None)
        else
          logConfirmedCommitEvent ("Follow-up commit: persist-id [" +:+ ji_PersistId info +:+ "]") ;;;
          ret (false, None)
    end.

(** [CancelCommit]: the checks before the rollback to "revert", [None] when
    they pass. *)
Definition cancel_checks (info : ConfirmedCommitInfo) (pid persistid : string) : option error :=
  if bool_decide (ji_Session info = "") then
    Some (error_msg OperationFailedApplication "No confirmed commit pending")
  else if bool_decide (ji_PersistId info <> persistid) then
    Some (error_msg InvalidValueProtocol "persist-id does not match pending confirmed commit")
  else if bool_decide (ji_PersistId info = "") && bool_decide (ji_Session info <> pid) then
    Some (error_msg AccessDeniedApplication "Pending confirmed commit initiated by another session")
  else None.

(** [sessionTermination]: a session that ends with its own unconfirmed commit
    pending reverts it. *)
Definition sessionTermination (d : Disp) : M sstate (option error) :=
  info <- getConfirmedCommitInfo ;;
  if bool_decide (ji_Session info <> "") && bool_decide (ji_PersistId info = "")
     && bool_decide (ji_Session info = Itoa (Pid (d_ctx d)))
  then r <- spawn_config_mgmt ["--action=revert-configuration"] ;; ret (snd r)
  else ret None.

(** ** Lemmas *)

Definition put_event (e : sevent) (s : sstate) : sstate :=
  SState (st_job s) (e :: st_trace s) (st_sess s).

(** The command lines run, latest first. *)
Definition spawned (s : sstate) : list (list string) :=
  omap (fun e => match e with EvSpawn a => Some a | _ => None end) (st_trace s).

Lemma logEvent_run pfx msg s : exists s',
  logEvent pfx msg s = Some (tt, s') /\ st_job s' = st_job s /\ st_sess s' = st_sess s /\
  spawned s' = spawned s.
Proof.
  unfold logEvent. destruct (filter _ _) as [|x l]; [by exists s|].
  by exists (put_event (EvLog pfx x) s).
Qed.

Lemma spawn_run args s : exists r s',
  spawn_config_mgmt args s = Some (r, s') /\ st_sess s' = st_sess s /\
  spawned s' = args :: spawned s /\
  st_job s' = fst (fst (config_mgmt args (st_job s))).
Proof.
  unfold spawn_config_mgmt, bind, emit_s, modify, gets, id. cbn.
  destruct (config_mgmt args (st_job s)) as [[job out] ok]. cbn.
  destruct ok; cbn; by eexists _, _.
Qed.

(** Who may confirm or follow up a pending confirmed commit: RFC 6241, 8.4. *)
Definition may_confirm (info : ConfirmedCommitInfo) (pid : string) (cmt : option commitInfo) : Prop :=
  match cmt with
  | None => False
  | Some c => ji_PersistId info = ci_persistId c /\ (ci_persistId c <> "" \/ ji_Session info = pid)
  end.

(** Whether a commit is refused because of a pending one: then nothing happens. *)
Lemma performConfirming_blocked pid cmt s :
  ji_Session (st_job s) <> "" -> ~ may_confirm (st_job s) pid cmt ->
  exists err, performConfirmingCommitIfRequired pid cmt false s = Some ((false, Some err), s).
Proof.
  intros Hp Hm. unfold performConfirmingCommitIfRequired, getConfirmedCommitInfo.
  rewrite (bind_eq _ _ s (st_job s) s eq_refl), bool_decide_true by done. cbn [negb].
  destruct cmt as [c|]; [|by eexists].
  case_bool_decide as Hid; [by eexists|].
  destruct (bool_decide (ci_persistId c = "") && bool_decide (ji_Session (st_job s) <> pid)) eqn:Eo;
    [by eexists|].
  exfalso. apply Hm. split; [done|].
  apply andb_false_iff in Eo as [H%bool_decide_eq_false|H%bool_decide_eq_false]; [by left|right].
  by apply dec_stable in H.
Qed.

(** ... and when it is not, there is no error. *)
Lemma performConfirming_passes pid c s :
  ji_Session (st_job s) <> "" -> may_confirm (st_job s) pid (Some c) ->
  exists s', performConfirmingCommitIfRequired pid (Some c) false s
      = Some ((negb (ci_confirmed c), None), s') /\
    st_sess s' = st_sess s /\
    spawned s' = (if ci_confirmed c then [] else [["--action=confirming-commit"]]) ++ spawned s /\
    (ci_confirmed c = true -> st_job s' = st_job s).
Proof.
  intros Hp [Hid Ho]. unfold performConfirmingCommitIfRequired, getConfirmedCommitInfo.
  rewrite (bind_eq _ _ s (st_job s) s eq_refl), bool_decide_true by done. cbn [negb].
  rewrite bool_decide_false by by intros H.
  replace (bool_decide (ci_persistId c = "") && bool_decide (ji_Session (st_job s) <> pid)) with false.
  2: { symmetry. apply andb_false_iff.
       destruct Ho; [left|right]; apply bool_decide_eq_false; [done|by intros Hne]. }
  unfold logConfirmedCommitEvent, ConfirmingCommit.
  destruct (ci_confirmed c); cbn [negb].
  - destruct (logEvent_run "Confirmed Commit"
      ("Follow-up commit: persist-id [" +:+ ji_PersistId (st_job s) +:+ "]") s)
      as (s1 & E & Hj & Hs & Ht).
    exists s1. by rewrite (bind_eq _ _ _ _ _ E).
  - destruct (logEvent_run "Confirmed Commit"
      ("Confirming pending confirmed commit: persist-id [" +:+ ji_PersistId (st_job s) +:+ "]") s)
      as (s1 & E & Hj & Hs & Ht).
    destruct (spawn_run ["--action=confirming-commit"] s1) as (r & s' & E' & Hs' & Ht' & _).
    exists s'. rewrite (bind_eq _ _ _ _ _ E), (bind_eq _ _ _ _ _ E').
    split_and!; [done|congruence|by rewrite Ht', Ht|done].
Qed.

#[export] Instance may_confirm_dec info pid cmt : Decision (may_confirm info pid cmt).
Proof. unfold may_confirm. destruct cmt; apply _. Defined.

(** ** Properties *)

(** C36: A commit request is accepted only with a timeout between 1 and
    2^32 - 1 seconds, 600 when the request names none, and takes its persist
    ids as they are; a timeout of 0 is refused. *)
Theorem newCommitInfo_bounds confirmed timeout persist persistid c :
  newCommitInfo confirmed timeout persist persistid = inl c ->
  1 <= ci_timeout c < 2 ^ 32 /\
  c = CommitInfo confirmed (ci_timeout c) persist persistid /\
  (timeout = "" -> ci_timeout c = 600) /\
  (timeout <> "" -> ParseUint timeout 10 32 = Some (ci_timeout c)).
Proof.
  unfold newCommitInfo. case_bool_decide as Ht.
  - destruct (ParseUint timeout 10 32) as [n|] eqn:En; [|done].
    apply ParseUint_bounds in En as Hn; [|lia].
    destruct (Z.eqb_spec n 0); [done|]. intros [= <-]. cbn [ci_timeout].
    split_and!; try done; lia.
  - intros [= <-]. cbn [ci_timeout]. unfold DefaultTimeout.
    split_and!; try done; lia.
Qed.

(** What a pending confirmed commit means for the next commit.  The check
    always returns; it passes exactly when nothing is pending, the commit is a
    revert, or the commit names the pending persist id (or, without one, comes
    from the same session).  It confirms the pending commit, by one run of the
    management script, exactly for a revert and for a plain commit that may;
    in all other cases the pending commit stays.  Sessions are not touched. *)
Theorem performConfirming_table pid cmt revert s : exists b err s',
  performConfirmingCommitIfRequired pid cmt revert s = Some ((b, err), s') /\
  (err = None <-> ji_Session (st_job s) = "" \/ revert = true \/ may_confirm (st_job s) pid cmt) /\
  (b = true <-> ji_Session (st_job s) <> "" /\
     (revert = true \/
      may_confirm (st_job s) pid cmt /\ exists c, cmt = Some c /\ ci_confirmed c = false)) /\
  spawned s' = (if b then [["--action=confirming-commit"]] else []) ++ spawned s /\
  (b = false -> st_job s' = st_job s) /\
  st_sess s' = st_sess s.
Proof.
  destruct (decide (ji_Session (st_job s) = "")) as [Hn|Hp].
  { exists false, None, s. split_and!; try done; [|naive_solver..].
    unfold performConfirmingCommitIfRequired, getConfirmedCommitInfo.
    rewrite (bind_eq _ _ s (st_job s) s eq_refl). by rewrite Hn. }
  destruct revert.
  { destruct (spawn_run ["--action=confirming-commit"] s) as (r & s' & E & Hs & Ht & _).
    exists true, None, s'. split_and!; try done; [|naive_solver..].
    unfold performConfirmingCommitIfRequired, getConfirmedCommitInfo, ConfirmingCommit.
    rewrite (bind_eq _ _ s (st_job s) s eq_refl), bool_decide_true by done. cbn [negb].
    by rewrite (bind_eq _ _ _ _ _ E). }
  destruct (decide (may_confirm (st_job s) pid cmt)) as [Hm|Hm].
  - destruct cmt as [c|]; [|done].
    destruct (performConfirming_passes pid c s Hp Hm) as (s' & E & Hs & Ht & Hj).
    exists (negb (ci_confirmed c)), None, s'. rewrite E.
    destruct (ci_confirmed c) eqn:Ec; cbn [negb] in *; split_and!; try done; naive_solver.
  - destruct (performConfirming_blocked pid cmt s Hp Hm) as (err & E).
    exists false, (Some err), s. split_and!; try done; naive_solver.
Qed.

(** The shape of a method that is authorised (Commands.v says which are): the
    work is done between a start and a stop record of the command line, the stop
    record has the error of the work, and without authorisation nothing happens
    at all.  The daemon itself is neither authorised nor accounted. *)
Theorem authorised_cmd_spec {A} d (zero : A) cmd args path fn s r s' :
  authorised_cmd d zero (newCommandArgsForAaa d cmd args path) fn s = Some (r, s') ->
  if Configd (d_ctx d) then fn s = Some (r, s')
  else
    match newCommandArgs d cmd args path with
    | Some a =>
        if AuthorizeCommand (cx_Auth (d_ctx d)) (Uid (d_ctx d)) (Groups (d_ctx d)) (ca_cmd a)
             (Some (ca_attrs a))
        then exists s1, fn (put_event (EvStart (ca_cmd a) (ca_attrs a)) s) = Some (r, s1) /\
               s' = put_event (EvStop (snd r)) s1
        else r = (zero, Some access_denied) /\ s' = s
    | None => r = (zero, Some access_denied) /\ s' = s
    end.
Proof.
  unfold authorised_cmd, authCommand, newCommandArgsForAaa.
  destruct (Configd (d_ctx d)); cbn [negb]; [done|].
  destruct (newCommandArgs d cmd args path) as [a|]; cbn [negb]; [|by intros [= <- <-]].
  destruct (AuthorizeCommand _ _ _ _ _); cbn [negb]; [|by intros [= <- <-]].
  unfold accountCmdWrap, emit_s. intros H. inv_run. by eexists.
Qed.

(** Redaction lines up: the words of an authorised command are the
    command, its arguments and the path with every word completed, and a word
    is marked secret exactly when it is a path word and the schema says so;
    the completed path is the one the schema is asked about. *)
Theorem newCommandArgs_secrets d cmd args path a :
  newCommandArgs d cmd args path = Some a ->
  exists full,
    ca_cmd a = cmd :: args ++ full /\
    Forall2 (fun w x => HasPrefix w x = true) full path /\
    expandPath ErrPath (d_ms d) full NoPrefix InvalidPos = Expanded full /\
    forall i, ca_attrs a !! i = Some {| Secret := true |} <->
      exists j attrs, i = (S (length args) + j)%nat /\
        AttrsForPath (d_msFull d) full = Some attrs /\ attrs !! j = Some {| Secret := true |}.
Proof.
  unfold newCommandArgs. destruct (expandPath ErrPath (d_ms d) path NoPrefix InvalidPos)
    as [full|?|] eqn:Ex; try done. intros [= <-]. cbn [ca_cmd ca_attrs].
  apply expandPath_completes in Ex as [Hf Hx].
  exists full. split; [done|]. split; [done|]. split; [done|]. intros i.
  change ({| Secret := false |} :: map (fun _ => {| Secret := false |}) args ++ ?k)
    with (map (fun _ => {| Secret := false |}) (cmd :: args) ++ k).
  rewrite lookup_app_Some, length_map. cbn [length].
  split.
  - intros [(x & [=] & _)%list_lookup_fmap_Some|[Hlen Hl]].
    destruct (AttrsForPath (d_msFull d) full) as [attrs|]; [|done].
    exists (i - S (length args))%nat, attrs. split; [lia|]. done.
  - intros (j & attrs & -> & Ha & Hj). right. split; [lia|].
    rewrite Ha. cbn [default]. by replace (_ - _)%nat with j by lia.
Qed.
End Server.

(** ** Concrete commands *)

Module SampleDisp.
Definition ErrPath (p : list string) : string := Join p " ".

Definition disp (a : Auth) : Disp (L := Sample.lib) :=
  Build_Disp (L := Sample.lib) Sample.root Sample.root (Sample.client 10 7 a).

(** A script that succeeds and removes the pending job. *)
Definition script (args : list string) (job : ConfirmedCommitInfo)
  : ConfirmedCommitInfo * string * bool := (JobInfo "" "", "", true).


Lemma newCommitInfo_bounds_witness :
  newCommitInfo true "4294967295" "me" "" = inl (CommitInfo true 4294967295 "me" "") /\
  1 <= 4294967295 < 2 ^ 32.
Proof.
  split; [reflexivity|].
  exact (proj1 (newCommitInfo_bounds true "4294967295" "me" ""
    (CommitInfo true 4294967295 "me" "") eq_refl)).
Defined.

Lemma authorised_cmd_spec_witness :
  AuthorizeCommand Sample.allow 7 [] ["commit"; "comment"; "hello"]
    (Some [{| Secret := false |}; {| Secret := false |}; {| Secret := false |}]) = true /\
  exists s1, ret (tt, @None error) (SState (JobInfo "" "") [EvStart ["commit"; "comment"; "hello"]
      [{| Secret := false |}; {| Secret := false |}; {| Secret := false |}]] tt)
      = Some ((tt, @None error), s1) /\
    SState (JobInfo "" "") [EvStop None; EvStart ["commit"; "comment"; "hello"]
      [{| Secret := false |}; {| Secret := false |}; {| Secret := false |}]] tt
    = put_event (EvStop None) s1.
Proof.
  split; [reflexivity|].
  exact (authorised_cmd_spec (L := Sample.lib) ErrPath (disp Sample.allow) tt "commit"
    ["comment"; "hello"] [] (ret (tt, None)) (SState (JobInfo "" "") [] tt) (tt, None)
    (SState (JobInfo "" "") [EvStop None; EvStart ["commit"; "comment"; "hello"]
      [{| Secret := false |}; {| Secret := false |}; {| Secret := false |}]] tt) eq_refl).
Defined.

(** Without authorisation nothing is done. *)
Example commit_unauthorised :
  authorised_cmd (L := Sample.lib) (disp Sample.deny) tt
    (newCommandArgsForAaa (L := Sample.lib) ErrPath (disp Sample.deny) "commit" [] [])
    (go_panic) (SState (JobInfo "" "") [] tt)
  = Some ((tt, Some access_denied), SState (JobInfo "" "") [] tt).
Proof. reflexivity. Qed.

Lemma newCommandArgs_secrets_witness :
  newCommandArgs (L := Sample.lib) ErrPath (disp Sample.allow) "set" [] ["sys"; "host"]
    = Some (CommandArgs ["set"; "system"; "host-name"]
        [{| Secret := false |}; {| Secret := false |}; {| Secret := false |}]) /\
  exists full, ["set"; "system"; "host-name"] = "set" :: [] ++ full /\
    Forall2 (fun w x => HasPrefix w x = true) full ["sys"; "host"].
Proof.
  split; [reflexivity|].
  destruct (newCommandArgs_secrets (L := Sample.lib) ErrPath (disp Sample.allow) "set" []
    ["sys"; "host"] (CommandArgs ["set"; "system"; "host-name"]
        [{| Secret := false |}; {| Secret := false |}; {| Secret := false |}]) eq_refl)
    as (full & H1 & H2 & _).
  exact (ex_intro _ full (conj H1 H2)).
Defined.

(** The script is run once for a plain commit with the right persist id. *)
Example confirming_example :
  performConfirmingCommitIfRequired script "10" (Some (CommitInfo false 600 "" "me")) false
    (SState (JobInfo "9" "me") [] tt)
  = Some ((true, None), SState (JobInfo "" "")
      [EvSpawn ["--action=confirming-commit"];
       EvLog "Confirmed Commit" "Confirming pending confirmed commit: persist-id [me]"] tt).
Proof. reflexivity. Qed.
End SampleDisp.
