(* ===== verification/Dispatcher.v ===== *)
(** [server/dispatcher.go]: the RPC methods around sessions: set, delete,
    discard, load, merge, validate, show and what they share (CommitRpc.v has
    commit and rollback).  A method runs over the state of Server.v, and
    reaches the sessions through the interface of Service.v only. *)

From S2P Require Import Prelude GoLib Errors Rpc GoFmt External Configd LogLevel Sample Session.
From S2P Require Import StateTree Load EditConfig Commit SessionServer SessionMgr Service.
From S2P Require Import Expand CliFormat Server ConfigMgmt Daemon.

Open Scope Z_scope.

Section Dispatcher.
Context {L : ConfigLib} {E : ErrorLib} {O : OSLib}.
Context {W : Type} `{SS : !SessionService W}.
Context (ErrPath : list string -> string).
Context (config_mgmt : list string -> ConfirmedCommitInfo -> ConfirmedCommitInfo * string * bool).
(** [ut.Marshal("data", encoding, options...)] *)
Context (un_Marshal : UNode -> string -> list union_option -> string * option error).

Abbreviation St := (Server.sstate (W := W)).
Abbreviation cmd_args := (newCommandArgsForAaa ErrPath).
Abbreviation ctx d := (d_ctx d).

(** [sess, err := d.smgr.Get(d.ctx, sid); if err != nil { return zero, err }]. *)
Definition with_session {A} (d : Disp) (zero : A) (sid : string) (k : M St (A * option error))
  : M St (A * option error) :=
  err <- smgr_Get d sid ;;
  match err with
  | Some err => ret (zero, Some err)
  | None => k
  end.

Definition normalizePath (d : Disp) (ps : list string) : list string + error := NormalizePath (d_ms d) ps.

(** ** Sessions *)

Definition SessionExists (d : Disp) (sid : string) : M St (bool * option error) :=
  err <- smgr_Get d sid ;; ret (bool_decide (err = None), None).

Definition SessionSetup (d : Disp) (sid : string) : M St (bool * option error) :=
  err <- on_svc (svc_Create (ctx d) sid (d_ms d) (d_msFull d) false) ;;
  ret (bool_decide (err = None), err).
Definition SessionSetupShared (d : Disp) (sid : string) : M St (bool * option error) :=
  err <- on_svc (svc_Create (ctx d) sid (d_ms d) (d_msFull d) true) ;;
  ret (bool_decide (err = None), err).
Definition SessionTeardown (d : Disp) (sid : string) : M St (bool * option error) :=
  err <- on_svc (svc_Destroy (ctx d) sid) ;;
  match err with
  | Some err => ret (false, Some err)
  | None => ret (true, None)
  end.

Definition SessionChanged (d : Disp) (sid : string) : M St (bool * option error) :=
  with_session d false sid (b <- ask sid (changedreq (ctx d)) false ;; ret (b, None)).
Definition SessionSaved (d : Disp) (sid : string) : M St (bool * option error) :=
  with_session d false sid (b <- ask sid (savedreq (ctx d)) false ;; ret (b, None)).
Definition SessionMarkSaved (d : Disp) (sid : string) : M St (bool * option error) :=
  with_session d false sid (ask sid (marksavedreq (ctx d) true) None ;;; ret (true, None)).
Definition SessionMarkUnsaved (d : Disp) (sid : string) : M St (bool * option error) :=
  with_session d false sid (ask sid (marksavedreq (ctx d) false) None ;;; ret (true, None)).
Definition SessionLock (d : Disp) (sid : string) : M St (Z * option error) :=
  with_session d (-1) sid (ask sid (lockreq (ctx d)) (-1, Some sessTermError)).
Definition SessionUnlock (d : Disp) (sid : string) : M St (Z * option error) :=
  with_session d (-1) sid (ask sid (unlockreq (ctx d)) (-1, Some sessTermError)).
Definition SessionLocked (d : Disp) (sid : string) : M St (Z * option error) :=
  with_session d (-1) sid (ask sid (lockedreq (ctx d)) (-1, Some sessTermError)).

Definition not_supported {A} (zero : A) : M St (A * option error) :=
  ret (zero, Some (new_error OperationNotSupportedApplication)).
Definition Rename (sid fpath tpath : string) : M St (bool * option error) := not_supported false.
Definition Copy (sid fpath tpath : string) : M St (bool * option error) := not_supported false.
Definition Comment (sid path : string) : M St (bool * option error) := not_supported false.

(** ** Authorisation of paths *)

Definition authRead (d : Disp) (path : list string) : bool :=
  AuthorizeRead (cx_Auth (ctx d)) (Uid (ctx d)) (Groups (ctx d)) path (AttrsForPath (d_msFull d) path).
Definition authDelete (d : Disp) (path : list string) : bool :=
  AuthorizeDelete (cx_Auth (ctx d)) (Uid (ctx d)) (Groups (ctx d)) path (AttrsForPath (d_msFull d) path).
Definition authPath (d : Disp) (path : list string) (perm : AuthPerm) : bool :=
  AuthorizePath (cx_Auth (ctx d)) (Uid (ctx d)) (Groups (ctx d)) path (AttrsForPath (d_msFull d) path) perm.

Definition AuthAuthorize (d : Disp) (path : string) (perm : AuthPerm) : bool * option error :=
  match normalizePath d (Makepath path) with
  | inr err => (false, Some err)
  | inl ps => (authPath d ps perm, None)
  end.

(** ** Reading *)

Definition Get (d : Disp) (db : DB) (sid path : string) : M St (list string * option error) :=
  let ps := Makepath path in
  if negb (authRead d ps) then ret ([], Some access_denied)
  else
    r <- ask_ro d db sid (getreq (ctx d) ps) ([], Some sessTermError) ;;
    match r with
    | (_, Some err) => ret ([], Some err)
    | (chs, None) => ret (List.filter (fun ch => authRead d (ps ++ [ch])) chs, None)
    end.

Definition Exists (d : Disp) (db : DB) (sid path : string) : M St (bool * option error) :=
  let ps := Makepath path in
  match validatePath (d_ms d) ps with
  | Some err => ret (false, FormatConfigPathError (Some err))
  | None =>
      if negb (authRead d ps) then ret (false, Some access_denied)
      else b <- ask_ro d db sid (existsreq (ctx d) ps) false ;; ret (b, None)
  end.

Definition NodeGetStatus (d : Disp) (db : DB) (sid path : string) : M St (NodeStatus * option error) :=
  let ps := Makepath path in
  if negb (authRead d ps) then ret (UNCHANGED, Some access_denied)
  else ask_ro d db sid (statusreq (ctx d) ps) (UNCHANGED, Some sessTermError).

Definition NodeIsDefault (d : Disp) (db : DB) (sid path : string) : M St (bool * option error) :=
  let ps := Makepath path in
  if negb (authRead d ps) then ret (false, Some access_denied)
  else ask_ro d db sid (defaultreq (ctx d) ps) (false, Some sessTermError).

Definition NodeGetType (d : Disp) (sid path : string) : M St (NodeType * option error) :=
  let ps := Makepath path in
  if negb (authRead d ps) then ret (CONTAINER, Some access_denied)
  else ask_ro d AUTO sid (typereq (ctx d) ps) (CONTAINER, Some sessTermError).

Definition ValidatePath (d : Disp) (sid path : string) : M St (string * option error) :=
  match normalizePath d (Makepath path) with
  | inr err => ret ("", Some err)
  | inl ps =>
      if negb (authRead d ps) then ret ("", Some access_denied)
      else
        err <- ask_ro d AUTO sid (validatesetreq (ctx d) ps) (Some sessTermError) ;;
        ret ("", err)
  end.

Definition showCommandArgs (d : Disp) (path : list string) (showDefaults : bool) : option commandArgs :=
  cmd_args d "show" (if showDefaults then ["-all"] else []) path.

Definition Show (d : Disp) (db : DB) (sid path : string) (hideSecrets : bool) : M St (string * option error) :=
  let ps := Makepath path in
  authorised_cmd d "" (showCommandArgs d ps false) (show d db sid ps hideSecrets false).
Definition ShowDefaults (d : Disp) (db : DB) (sid path : string) (hideSecrets : bool)
  : M St (string * option error) :=
  let ps := Makepath path in
  authorised_cmd d "" (showCommandArgs d ps true) (show d db sid ps hideSecrets true).

Definition fixupEmptyStringForEncoding (out encoding : string) : string :=
  if bool_decide (out = "") then
    if elem_b encoding ["json"; "internal"; "rfc7951"] then "{}"
    else if elem_b encoding ["xml"; "netconf"] then "<data></data>"
    else out
  else out.

(** [sess.NewAuther(d.ctx)] of a session just asked. *)
Definition auther_of (d : Disp) (sid : string) (w : W) : list union_option :=
  match svc_session w sid with
  | Some s => [Authorizer (newAuther s (ctx d))]
  | None => []
  end.

Definition TreeGet (d : Disp) (db : DB) (sid path encoding : string) (flags : list (string * flag_value))
  : M St (string * option error) :=
  let ps := Makepath path in
  sess <- getROSession d db sid ;;
  let opts := NewTreeOpts flags in
  let opts := if bool_decide (encoding = "netconf") then AllowCouldExist opts else opts in
  match sess with
  | None => go_panic
  | Some name =>
      r <- ask name (gettreereq (ctx d) ps opts) (None, Some sessTermError) ;;
      match r with
      | (_, Some err) => ret (fixupEmptyStringForEncoding "" encoding, Some err)
      | (None, None) => ret (fixupEmptyStringForEncoding "" encoding, None)
      | (Some ut, None) =>
          s <- gets id ;;
          ret (un_Marshal ut encoding (ToUnionOptions opts ++ auther_of d name (st_sess s)))
      end
  end.

(** The warnings only go to the log. *)
Definition TreeGetFullWithWarnings (d : Disp) (db : DB) (sid path encoding : string)
    (flags : list (string * flag_value)) : M St (string * option error * list error) :=
  let ps := Makepath path in
  sess <- getROSession d db sid ;;
  let opts := AllowCouldExist (NewTreeOpts flags) in
  match sess with
  | None => go_panic
  | Some name =>
      r <- ask name (getfulltreereq (ctx d) ps opts) (None, Some sessTermError, []) ;;
      match r with
      | (_, Some err, warns) => ret (fixupEmptyStringForEncoding "" encoding, Some err, warns)
      | (None, None, warns) => ret (fixupEmptyStringForEncoding "" encoding, None, warns)
      | (Some ut, None, warns) =>
          s <- gets id ;;
          let '(out, err) :=
            un_Marshal ut encoding (ToUnionOptions opts ++ auther_of d name (st_sess s)) in
          ret (fixupEmptyStringForEncoding out encoding, err, warns)
      end
  end.
Definition TreeGetFull (d : Disp) (db : DB) (sid path encoding : string)
    (flags : list (string * flag_value)) : M St (string * option error) :=
  r <- TreeGetFullWithWarnings d db sid path encoding flags ;; ret (fst r).

Definition GetHelp (d : Disp) (sid : string) (schema : bool) (path : string)
  : M St (list (string * string) * option error) :=
  let ps := Makepath path in
  sess <- getROSession d CANDIDATE sid ;;
  match sess with
  | None => go_panic
  | Some name =>
      s <- gets id ;;
      match svc_session (st_sess s) name with
      | None => ret ([], Some sessTermError)
      | Some _ => h <- ask name (gethelpreq (ctx d) schema ps) [] ;; ret (h, None)
      end
  end.

(** ** Changing *)

Definition setInternal (d : Disp) (sid : string) (ps : list string) : M St (string * option error) :=
  with_session d "" sid (
    err <- ask sid (setreq (ctx d) ps) (Some sessTermError) ;;
    match err with
    | Some err => ret ("", Some (FormatConfigPathErrorMultiline (Some err)))
    | None => ret ("", None)
    end).

Definition Set_ (d : Disp) (sid path : string) : M St (string * option error) :=
  match normalizePath d (Makepath path) with
  | inr err => ret ("", Some (FormatConfigPathErrorMultiline (Some err)))
  | inl ps => authorised_cmd d "" (cmd_args d "set" [] ps) (setInternal d sid ps)
  end.

Definition deleteInternal (d : Disp) (sid : string) (ps : list string) : M St (bool * option error) :=
  if negb (authDelete d ps) then ret (false, Some access_denied)
  else
    with_session d false sid (
      err <- ask sid (delreq (ctx d) ps) (Some sessTermError) ;;
      match err with
      | Some err => ret (false, Some (FormatConfigPathErrorMultiline (Some err)))
      | None => ret (true, None)
      end).

Definition Delete (d : Disp) (sid path : string) : M St (bool * option error) :=
  let ps := Makepath path in
  authorised_cmd d false (cmd_args d "delete" [] ps) (deleteInternal d sid ps).

Definition discardInternal (d : Disp) (sid : string) : M St (bool * option error) :=
  with_session d false sid (
    err <- ask sid (discardreq (ctx d)) (Some sessTermError) ;;
    match err with
    | Some err => ret (false, Some err)
    | None => ret (true, None)
    end).

(** Discard is accounted but not authorised as a command. *)
Definition Discard (d : Disp) (sid : string) : M St (bool * option error) :=
  accountCmdWrap (cmd_args d "discard" [] []) (discardInternal d sid).

(** Warnings are an error besides a true result. *)
Definition LoadReportWarnings (d : Disp) (sid file : string) : M St (bool * option error) :=
  authorised_cmd d false (cmd_args d "load" [file] []) (loadReportWarningsReader d sid file None).
Definition Load_ (d : Disp) (sid file : string) : M St (bool * option error) :=
  r <- LoadReportWarnings d sid file ;; ret (if fst r then (true, None) else r).

Definition mergeReportWarningsInternal (d : Disp) (sid file : string) : M St (bool * option error) :=
  with_session d false sid (
    r <- ask sid (mergereq (ctx d) file) (Some sessTermError, []) ;;
    match r with
    | (Some err, _) => ret (false, Some err)
    | (None, warns) => ret (true, FormatWarnings warns)
    end).
Definition MergeReportWarnings (d : Disp) (sid file : string) : M St (bool * option error) :=
  authorised_cmd d false (cfgMgmtCommandArgs ErrPath d "merge" file "" "")
    (mergeReportWarningsInternal d sid file).
Definition Merge_ (d : Disp) (sid file : string) : M St (bool * option error) :=
  r <- MergeReportWarnings d sid file ;; ret (if fst r then (true, None) else r).

Definition EditConfigXML (d : Disp)
    (sid config_target default_operation test_option error_option config : string)
  : M St (string * option error) :=
  with_session d "" sid (
    err <- ask sid (editconfigreq (ctx d) config_target default_operation test_option error_option config)
             (Some sessTermError) ;;
    ret ("", err)).

Definition copyConfigInternal (d : Disp)
    (sid sourceDatastore sourceEncoding sourceConfig sourceURL targetDatastore targetURL : string)
  : M St (string * option error) :=
  with_session d "" sid (
    err <- ask sid (copyconfigreq (ctx d) sourceDatastore sourceEncoding sourceConfig sourceURL
                      targetDatastore targetURL) (Some sessTermError) ;;
    ret ("", err)).
Definition CopyConfig (d : Disp)
    (sid sourceDatastore sourceEncoding sourceConfig sourceURL targetDatastore targetURL : string)
  : M St (string * option error) :=
  let args := cfgMgmtCommandArgs ErrPath d "load" "copy-config" "" sourceEncoding in
  if negb (authCommand d args) then ret ("", Some access_denied)
  else
    (if negb (Configd (ctx d)) then emit_s (EvLog "" ("copy-config by " +:+ User (ctx d))) else ret tt) ;;;
    accountCmdWrap args (copyConfigInternal d sid sourceDatastore sourceEncoding sourceConfig
      sourceURL targetDatastore targetURL).

(** ** Validation *)

(** The script output of a validation, path and text of each. *)
Definition validate_text (outs : list ExecOutput) : string :=
  String.concat "" (map (fun out =>
    SprintSlice (default [] (eo_Path out)) +:+ nl +:+ eo_Output out +:+ nl) outs).

Definition validateInternal (d : Disp) (sid : string) : M St (string * option error) :=
  with_session d "" sid (
    r <- ask sid (validatereq (ctx d)) (MakeCommitError sessTermError) ;;
    if cr_ok r then ret (validate_text (cr_out r), None)
    else ret ("", Some (EMgmtList (cr_err r)))).

Definition Validate_ (d : Disp) (sid : string) : M St (string * option error) :=
  accountCmdWrap (cmd_args d "validate" [] []) (validateInternal d sid).

(** A session of its own for the configuration, torn down at the end. *)
Definition validateConfigInternal (d : Disp) (sid encoding config : string)
  : M St (string * option error) :=
  let sn := "VALIDATE" +:+ Itoa (Pid (ctx d)) in
  r <- SessionSetup d sn ;;
  match snd r with
  | Some err => ret ("", Some err)
  | None =>
      res <- (err <- ask_ro d CANDIDATE sn
                (copyconfigreq (ctx d) "" encoding config "" "candidate" "") (Some sessTermError) ;;
              match err with
              | Some err => ret ("", Some err)
              | None => Validate_ d sn
              end) ;;
      SessionTeardown d sn ;;;
      ret res
  end.

Definition ValidateConfig (d : Disp) (sid encoding config : string) : M St (string * option error) :=
  accountCmdWrap (cmd_args d "validate" [] []) (validateConfigInternal d sid encoding config).

(** ** Lemmas *)

(** A request that only looks is answered, and nothing changes. *)
Lemma ask_read_run {A} sid (r : request A) term (s : St) :
  is_read r = true -> exists a, ask sid r term s = Some (a, s).
Proof.
  intros Hr. destruct (svc_ask_read A r sid term (st_sess s) Hr) as [a Ha].
  exists a. unfold ask, on_svc. rewrite Ha. by destruct s.
Qed.

(** A method leaves session [other] alone. *)
Section Isolation.
Context (other : string) (x : option session).
Hypothesis Hne : other <> EFFECTIVE_sid.

Definition same (s : St) : Prop := svc_session (st_sess s) other = x.

Lemma on_svc_same {A} (m : M W A) :
  (forall w a w', m w = Some (a, w') -> svc_session w' other = svc_session w other) ->
  preserves same (on_svc m).
Proof.
  intros Hm s a s' Hs. unfold on_svc. destruct (m (st_sess s)) as [[b w]|] eqn:Em; [|done].
  intros [= <- <-]. unfold same. cbn. rewrite (Hm _ _ _ Em). exact Hs.
Qed.

Lemma ask_same {A} sid (r : request A) term : other <> sid -> preserves same (ask sid r term).
Proof. intros Ho. apply on_svc_same. intros w a w' H. by eapply svc_ask_other. Qed.

(** A request of another process than the one that holds the lock of [other],
    to whatever session. *)
Lemma ask_foreign_same {A} sid (r : request A) term sess : x = Some sess ->
  s_lpid sess <> 0 -> foreign (s_lpid sess) false A r -> preserves same (ask sid r term).
Proof.
  intros Hx H0 Hf. destruct (decide (other = sid)) as [<-|Ho]; [|by apply ask_same].
  unfold same. rewrite Hx. intros s a s' Hs. unfold ask, on_svc.
  destruct (svc_ask other r term (st_sess s)) as [[b w]|] eqn:Em; [|done].
  intros [= <- <-]. exact (svc_ask_locked _ _ _ _ _ _ _ _ Em Hs H0 Hf Hne).
Qed.

Lemma ask_read_same {A} sid (r : request A) term : is_read r = true -> preserves same (ask sid r term).
Proof.
  intros Hr s a s' Hs H. destruct (ask_read_run sid r term s Hr) as [b Hb].
  rewrite Hb in H. by injection H as _ <-.
Qed.

Lemma emit_s_same e : preserves same (emit_s e).
Proof. apply preserves_modify. by intros s Hs. Qed.

Lemma logEvent_same pfx msg : preserves same (logEvent pfx msg).
Proof. unfold logEvent. destruct (filter _ _); [apply preserves_ret|apply emit_s_same]. Qed.

Lemma accountCmdWrap_same {A} args (fn : M St (A * option error)) :
  preserves same fn -> preserves same (accountCmdWrap args fn).
Proof.
  intros Hf. unfold accountCmdWrap. destruct args; [|done].
  repeat first [apply emit_s_same | exact Hf | go_step].
Qed.

Lemma authorised_cmd_same {A} d (zero : A) args fn :
  preserves same fn -> preserves same (authorised_cmd d zero args fn).
Proof.
  intros Hf. unfold authorised_cmd. destruct (negb _); [apply preserves_ret|].
  by apply accountCmdWrap_same.
Qed.

Lemma ask_ro_same {A} d db sid (r : request A) term :
  is_read r = true -> preserves same (ask_ro d db sid r term).
Proof.
  intros Hr. apply preserves_bind; [apply preserves_gets|].
  intros [name|]; [by apply ask_read_same|apply preserves_panic].
Qed.

Lemma with_session_same {A} d (zero : A) sid k :
  preserves same k -> preserves same (with_session d zero sid k).
Proof.
  intros Hk. apply preserves_bind; [apply preserves_gets|]. by intros [e|]; [apply preserves_ret|].
Qed.

Lemma spawn_same args : preserves same (spawn_config_mgmt config_mgmt args).
Proof.
  intros s a s' Hs H. destruct (spawn_run config_mgmt args s) as (r & s1 & E1 & Hs1 & _).
  rewrite E1 in H. injection H as _ <-. unfold same. by rewrite Hs1.
Qed.
End Isolation.
End Dispatcher.

#[export] Hint Resolve emit_s_same logEvent_same spawn_same ask_same ask_read_same ask_ro_same : go.

(** Take a method apart down to its requests. *)
Ltac isolate_base := first
  [ apply with_session_same | apply accountCmdWrap_same | apply authorised_cmd_same
  | apply spawn_same | apply logEvent_same | apply emit_s_same
  | (apply ask_read_same; reflexivity) | (apply ask_ro_same; reflexivity)
  | apply preserves_gets | go_step ].
