(* ===== verification/CommitRpc.v ===== *)
(** [server/dispatcher.go], the RPC methods around commits: commit, commit with
    a timeout, confirmed commit and its cancellation, rollback. *)

From S2P Require Import Prelude GoLib Errors Rpc GoFmt External Configd LogLevel Sample Session.
From S2P Require Import StateTree Load EditConfig Commit SessionServer SessionMgr Service.
From S2P Require Import Expand CliFormat Server ConfigMgmt Daemon Dispatcher.

Open Scope Z_scope.

Section CommitRpc.
Context {L : ConfigLib} {E : ErrorLib} {O : OSLib}.
Context {W : Type} `{SS : !SessionService W}.
Context (ErrPath : list string -> string).
Context (config_mgmt : list string -> ConfirmedCommitInfo -> ConfirmedCommitInfo * string * bool).

Abbreviation St := (Server.sstate (W := W)).
Abbreviation cmd_args := (newCommandArgsForAaa ErrPath).
Abbreviation ctx d := (d_ctx d).
Abbreviation pid_text d := (Itoa (Pid (d_ctx d))).

Definition logRollbackEvent (msg : string) : M St unit := logEvent "Rollback" msg.
Definition logRollbackError (err : error) : M St unit :=
  logRollbackEvent ("Failed with error: " +:+ Error err).

(** ** Commit *)

(** The output of the commit's scripts. *)
Definition commit_text (outs : list ExecOutput) : string :=
  String.concat "" (map (fun out =>
    match eo_Path out with Some p => SprintSlice p +:+ nl | None => "" end
    +:+ (if bool_decide (eo_Output out <> "") then eo_Output out +:+ nl else "")) outs).

(** After a commit without any error: save, and schedule the revert.  The error
    of the confirmed commit's scheduling goes to a list nobody reads. *)
Definition after_commit (d : Disp) (confirmTimeout : Z) (cmt : option commitInfo) (rpcout : string)
  : M St (string * option error) :=
  saved <- Save ErrPath d ;;
  match saved with
  | (false, err) => ret ("", err)
  | (true, _) =>
      match cmt with
      | Some c =>
          if ci_confirmed c then
            r <- setConfirmedCommitTimeout config_mgmt d c ;;
            ret (rpcout +:+ (if bool_decide (fst r <> "") then nl +:+ fst r +:+ nl else ""), None)
          else if negb (confirmTimeout =? 0) then
            r <- setConfirmTimeout config_mgmt confirmTimeout ;;
            ret (rpcout +:+ nl +:+ fst r +:+ nl, snd r)
          else ret (rpcout, None)
      | None =>
          if negb (confirmTimeout =? 0) then
            r <- setConfirmTimeout config_mgmt confirmTimeout ;;
            ret (rpcout +:+ nl +:+ fst r +:+ nl, snd r)
          else ret (rpcout, None)
      end
  end.

Definition confirmedCommitInternal (d : Disp) (sid message : string) (debug : bool)
    (confirmTimeout : Z) (cmt : option commitInfo) (revert : bool) : M St (string * option error) :=
  with_session d "" sid (
    r <- performConfirmingCommitIfRequired config_mgmt (pid_text d) cmt revert ;;
    match r with
    | (_, Some err) => ret ("", Some err)
    | (confirming, None) =>
        changed <- (if confirming then ask sid (changedreq (ctx d)) false else ret true) ;;
        if confirming && negb changed then ret ("", None)
        else
          resp <- ask sid (commitreq (ctx d) message debug) (MakeCommitError sessTermError) ;;
          let rpcout := commit_text (cr_out resp) in
          if cr_ok resp && bool_decide (length (cr_err resp) = 0%nat) then
            after_commit d confirmTimeout cmt rpcout
          else if cr_ok resp then
            ret (rpcout +:+ CustomError (cr_err resp) FormatCommitOrValErrors +:+ nl
                 +:+ nl +:+ "Commit succeeded (non-fatal failures detected)." +:+ nl, None)
          else ret ("", Some (EMgmtList (cr_err resp)))
    end).

Definition commitInternal (d : Disp) (sid message : string) (debug : bool) (confirmTimeout : Z)
    (revert : bool) : M St (string * option error) :=
  confirmedCommitInternal d sid message debug confirmTimeout None revert.

Definition comment_args (message : string) : list string :=
  if bool_decide (message <> "") then ["comment"; message] else [].

(** None of the commits is authorised as a command. *)
Definition CommitConfirm (d : Disp) (sid message : string) (debug : bool) (mins : Z)
  : M St (string * option error) :=
  accountCmdWrap (cmd_args d "commit-confirm" (Itoa mins :: comment_args message) [])
    (commitInternal d sid message debug mins false).
Definition Commit (d : Disp) (sid message : string) (debug : bool) : M St (string * option error) :=
  accountCmdWrap (cmd_args d "commit" (comment_args message) [])
    (commitInternal d sid message debug 0 false).
Definition ConfirmedCommit (d : Disp) (sid message : string) (confirmed : bool)
    (timeout persist persistid : string) (debug : bool) : M St (string * option error) :=
  match newCommitInfo confirmed timeout persist persistid with
  | inr err => ret ("", Some err)
  | inl cmt =>
      accountCmdWrap (cmd_args d "commit" (comment_args message) [])
        (confirmedCommitInternal d sid message debug 0 (Some cmt) false)
  end.

(** ** Rollback *)

Definition configRevisionFileName (revision : string) : string :=
  if bool_decide (revision = "saved") then "/config/config.boot"
  else "/config/archive/config.boot." +:+ revision +:+ ".gz".

(** [GetCommitLog]: the entries of the output, by their position. *)
Fixpoint log_entries (vals : list string) (i : Z) : gmap string string :=
  match vals with
  | [] => ∅
  | v :: vals' =>
      if bool_decide (v = "") then log_entries vals' (i + 1)
      else <[Itoa i := map_string (fun c => if Ascii.eqb c "_"%char then " "%char else c) v]>
             (log_entries vals' (i + 1))
  end.
Definition GetCommitLog : gmap string string * option error :=
  match os_Output ["/opt/vyatta/sbin/vyatta-config-mgmt.pl"; "--action=show-commit-log-brief"] with
  | inr err => (∅, Some err)
  | inl out => (log_entries (Split out " "%char) 0, None)
  end.

Definition newInvalidConfigRevisionError (revision : string) : error :=
  error_msg OperationFailedApplication ("Invalid revision [" +:+ revision +:+ "]").

(** Log an error and return it. *)
Definition rollback_error (retStr : string) (err : error) : M St (string * option error) :=
  logRollbackError err ;;; ret (retStr, Some err).

Definition loadArchivedConfig (d : Disp) (sid revision : string) : M St (option error) :=
  let file := configRevisionFileName revision in
  match os_Open file with
  | inr err => logRollbackError err ;;; ret (Some err)
  | inl content =>
      match cfgFileReader file content with
      | inr err => logRollbackError err ;;; ret (Some err)
      | inl text =>
          r <- loadReportWarningsReader d sid file (Some text) ;;
          match r with
          | (false, Some err) => logRollbackError err ;;; ret (Some err)
          | _ => ret None
          end
      end
  end.

Definition rollbackCommandAuthArgs (d : Disp) (rev comment : string) : option commandArgs :=
  let revert := bool_decide (rev = "revert") in
  cmd_args d (if revert then "cancel-commit" else "rollback")
    ((if revert then [] else [rev]) ++ comment_args comment) [].

(** Whether the revision can be rolled back to, with the log of it. *)
Definition check_revision (revision : string) : M St (option error) :=
  if bool_decide (revision <> "revert") then
    match fst GetCommitLog !! revision with
    | None =>
        logRollbackError (newInvalidConfigRevisionError revision) ;;;
        ret (Some (newInvalidConfigRevisionError revision))
    | Some entry =>
        logConfirmedCommitEvent
          ("Reverting confirmed-commit revision " +:+ revision +:+ " [" +:+ entry +:+ "] from archive") ;;;
        ret None
    end
  else
    match os_Stat (configRevisionFileName revision) with
    | NotExist =>
        ret (Some (error_msg OperationFailedApplication ("No pending confirmed commit to cancel" +:+ nl)))
    | _ => ret None
    end.

Definition rollback_modified : error :=
  error_msg OperationFailedApplication
    ("Cannot rollback: configuration modified." +:+ nl
     +:+ "Commit or discard the changes before rollback.").

(** Load the revision, and commit when that makes a difference. *)
Definition load_and_commit (d : Disp) (sid revision comment : string) (debug : bool)
  : M St (string * option error) :=
  err <- loadArchivedConfig d sid revision ;;
  match err with
  | Some err => ret ("", Some err)
  | None =>
      r <- SessionChanged d sid ;;
      match r with
      | (_, Some err) => rollback_error "" err
      | (false, None) => logRollbackEvent "Completed successfully" ;;; ret ("", None)
      | (true, None) =>
          r <- commitInternal d sid comment debug 0 (bool_decide (revision = "revert")) ;;
          let retStr := if bool_decide (fst r <> "") then fst r +:+ nl else "" in
          match snd r with
          | Some err => rollback_error retStr err
          | None => logRollbackEvent "Completed successfully" ;;; ret (retStr, None)
          end
      end
  end.

Definition rollbackInternal (d : Disp) (sid revision comment : string) (debug : bool)
  : M St (string * option error) :=
  ConfirmSilent config_mgmt ;;;
  logRollbackEvent "Commit/Rollback operation - any pending rollback cancelled." ;;;
  r <- SessionChanged d sid ;;
  match r with
  | (_, Some err) => rollback_error "" err
  | (true, None) => rollback_error "" rollback_modified
  | (false, None) =>
      err <- check_revision revision ;;
      match err with
      | Some err => ret ("", Some err)
      | None => load_and_commit d sid revision comment debug
      end
  end.

Definition Rollback (d : Disp) (sid revision comment : string) (debug : bool)
  : M St (string * option error) :=
  authorised_cmd d "" (rollbackCommandAuthArgs d revision comment)
    (rollbackInternal d sid revision comment debug).

Definition CancelCommit (d : Disp) (sid comment persistid : string) (force debug : bool)
  : M St (string * option error) :=
  info <- getConfirmedCommitInfo ;;
  match (if force then None else cancel_checks info (pid_text d) persistid) with
  | Some err => ret ("", Some err)
  | None =>
      logConfirmedCommitEvent
        ("Cancelling pending confirmed-commit with persist-id [" +:+ ji_PersistId info +:+ "]") ;;;
      Rollback d sid "revert" comment debug
  end.

(** ** The methods that work on a client's session *)

Inductive method :=
  | MSet (path : string) | MDelete (path : string) | MDiscard
  | MLoad (file : string) | MMerge (file : string) | MLoadFrom (source ri : string)
  | MEditConfigXML (target defop testopt erropt config : string)
  | MCopyConfig (sourceDatastore sourceEncoding sourceConfig sourceURL target targetURL : string)
  | MMarkSaved (saved : bool) | MLock | MUnlock
  | MValidate | MCommit (message : string) (debug : bool)
  | MCommitConfirm (message : string) (debug : bool) (mins : Z)
  | MConfirmedCommit (message : string) (confirmed : bool) (timeout persist persistid : string) (debug : bool)
  | MRollback (revision comment : string) (debug : bool)
  | MCancelCommit (comment persistid : string) (force debug : bool).

Definition done_ {A} (m : M St A) : M St unit := m ;;; ret tt.

Definition invoke (d : Disp) (sid : string) (m : method) : M St unit :=
  match m with
  | MSet path => done_ (Set_ ErrPath d sid path)
  | MDelete path => done_ (Delete ErrPath d sid path)
  | MDiscard => done_ (Discard ErrPath d sid)
  | MLoad file => done_ (Load_ ErrPath d sid file)
  | MMerge file => done_ (Merge_ ErrPath d sid file)
  | MLoadFrom source ri => done_ (LoadFrom ErrPath d sid source ri)
  | MEditConfigXML target defop testopt erropt config =>
      done_ (EditConfigXML d sid target defop testopt erropt config)
  | MCopyConfig sd se sc su td tu => done_ (CopyConfig ErrPath d sid sd se sc su td tu)
  | MMarkSaved true => done_ (SessionMarkSaved d sid)
  | MMarkSaved false => done_ (SessionMarkUnsaved d sid)
  | MLock => done_ (SessionLock d sid)
  | MUnlock => done_ (SessionUnlock d sid)
  | MValidate => done_ (Validate_ ErrPath d sid)
  | MCommit message debug => done_ (Commit d sid message debug)
  | MCommitConfirm message debug mins => done_ (CommitConfirm d sid message debug mins)
  | MConfirmedCommit message confirmed timeout persist persistid debug =>
      done_ (ConfirmedCommit d sid message confirmed timeout persist persistid debug)
  | MRollback revision comment debug => done_ (Rollback d sid revision comment debug)
  | MCancelCommit comment persistid force debug =>
      done_ (CancelCommit d sid comment persistid force debug)
  end.

(** The methods that load a configuration over the session's. *)
Definition method_loads (m : method) : bool :=
  match m with
  | MLoad _ | MLoadFrom _ _ | MCopyConfig _ _ _ _ _ _ | MRollback _ _ _ | MCancelCommit _ _ _ _ => true
  | _ => false
  end.

(** ** Lemmas *)

(** A request of the client is quiet by assumption. *)
Ltac quiet_step := match goal with
  | H : forall A (r : request A) term, _ -> _ -> preserves _ (ask _ r term) |- _ =>
      apply H; [reflexivity|first [discriminate|by intros _]]
  end.
Ltac isolate_step := first [quiet_step | isolate_base].
Ltac isolate := repeat isolate_step.

Section Isolation.
Context (other : string) (x : option session).
Abbreviation same := (Dispatcher.same other x).

(** What the requests of the client do to [other], loads as far as they occur. *)
Context (d : Disp) (sid : string) (loads : bool).
Hypothesis quiet : forall A (r : request A) term,
  req_ctx r = ctx d -> (is_load r = true -> loads = true) -> preserves same (ask sid r term).

Lemma Save_same : preserves same (Save ErrPath d).
Proof.
  unfold Save, SaveTo. destruct (parseMgmtURI _) as [[local dest]|err]; [|apply preserves_ret].
  apply authorised_cmd_same. unfold saveToInternal, writeTempRunningConfigFile, writeRunningConfigToFile, show, copyFile,
    uploadFile, run_as_caller. isolate.
Qed.

Lemma after_commit_same t cmt out : preserves same (after_commit d t cmt out).
Proof.
  unfold after_commit. apply preserves_bind; [apply Save_same|intros [ok err]].
  unfold setConfirmedCommitTimeout, setConfirmTimeout, logConfirmedCommitEvent. isolate.
Qed.

Lemma performConfirming_same pid cmt revert :
  preserves same (performConfirmingCommitIfRequired config_mgmt pid cmt revert).
Proof.
  unfold performConfirmingCommitIfRequired, getConfirmedCommitInfo, ConfirmingCommit,
    logConfirmedCommitEvent. isolate.
Qed.

Lemma confirmedCommitInternal_same message debug t cmt revert :
  preserves same (confirmedCommitInternal d sid message debug t cmt revert).
Proof.
  apply with_session_same. apply preserves_bind; [apply performConfirming_same|].
  intros [confirming [err|]]; [apply preserves_ret|].
  apply preserves_bind; [isolate|intros changed]. destruct (_ && _); [apply preserves_ret|].
  apply preserves_bind; [isolate|intros resp]. cbv zeta.
  destruct (_ && _); [apply after_commit_same|isolate].
Qed.

Lemma rollbackInternal_same revision comment debug : loads = true ->
  preserves same (rollbackInternal d sid revision comment debug).
Proof.
  intros Ho.
  assert (He : forall txt err, preserves same (rollback_error txt err)).
  { intros txt err. unfold rollback_error, logRollbackError, logRollbackEvent. isolate. }
  unfold rollbackInternal, ConfirmSilent, SessionChanged, check_revision, load_and_commit,
    loadArchivedConfig, loadReportWarningsReader, commitInternal, logConfirmedCommitEvent, smgr_Get,
    logRollbackError, logRollbackEvent.
  repeat first [apply He | apply confirmedCommitInternal_same | isolate_step].
Qed.

Lemma loadReportWarningsReader_same file r : loads = true ->
  preserves same (loadReportWarningsReader d sid file r).
Proof. intros Ho. unfold loadReportWarningsReader, smgr_Get. isolate. Qed.

Lemma invoke_same m : (method_loads m = true -> loads = true) -> preserves same (invoke d sid m).
Proof.
  intros Hm.
  assert (Hl := fun file r => loadReportWarningsReader_same file r).
  assert (Hc := confirmedCommitInternal_same).
  assert (Hr := fun rev c dbg => rollbackInternal_same rev c dbg).
  destruct m; cbn [invoke method_loads] in *; try specialize (Hm eq_refl); unfold done_, Set_, setInternal, Delete, deleteInternal, Discard,
    discardInternal, Load_, LoadReportWarnings, Merge_, MergeReportWarnings, mergeReportWarningsInternal,
    LoadFrom, loadFromInternal, EditConfigXML, CopyConfig, copyConfigInternal, SessionMarkSaved,
    SessionMarkUnsaved, SessionLock, SessionUnlock, Validate_, validateInternal, Commit, CommitConfirm,
    ConfirmedCommit, commitInternal, Rollback, CancelCommit, Rollback, getConfirmedCommitInfo,
    logConfirmedCommitEvent;
    repeat first [(apply Hl; assumption) | apply Hc | (apply Hr; assumption) | isolate_step].
Qed.
End Isolation.

(** The request the methods begin with. *)
Lemma with_session_ok {A} d (zero : A) sid k (s : St) :
  svc_Get (ctx d) sid (st_sess s) = None -> with_session d zero sid k s = k s.
Proof. intros Hg. unfold with_session, smgr_Get, bind, gets. by rewrite Hg. Qed.

Lemma SessionChanged_run d sid (s : St) : svc_Get (ctx d) sid (st_sess s) = None ->
  exists b, ask sid (changedreq (ctx d)) false s = Some (b, s) /\
    SessionChanged d sid s = Some ((b, None), s).
Proof.
  intros Hg. destruct (ask_read_run sid (changedreq (ctx d)) false s eq_refl) as [b Hb].
  exists b. split; [done|]. unfold SessionChanged. rewrite with_session_ok by done.
  by rewrite (bind_eq _ _ _ _ _ Hb).
Qed.

(** ** Properties *)

(** Sessions are apart: no method called on one session, whatever its
    outcome, changes another one (but for the effective session, on which all
    commits work); not even a rollback or the saving after a commit. *)
Theorem methods_isolated d sid m s s' other :
  invoke d sid m s = Some (tt, s') -> other <> sid -> other <> EFFECTIVE_sid ->
  svc_session (st_sess s') other = svc_session (st_sess s) other.
Proof.
  intros H Ho He.
  refine (invoke_same other _ d sid true _ m (fun _ => eq_refl) s tt s' eq_refl H).
  intros A r term _ _. by apply ask_same.
Qed.

(** C14: a pending confirmed commit blocks every other commit: one that may not
    confirm it (wrong or no persist id, another session, no confirmed-commit
    parameters at all) is refused with an error, no session, file or pending
    commit changes and nothing is run. *)
Theorem commit_blocked d sid message debug t cmt s :
  svc_Get (ctx d) sid (st_sess s) = None ->
  ji_Session (st_job s) <> "" -> ~ may_confirm (st_job s) (pid_text d) cmt ->
  exists err, confirmedCommitInternal d sid message debug t cmt false s = Some (("", Some err), s).
Proof.
  intros Hg Hp Hm. unfold confirmedCommitInternal. rewrite with_session_ok by done.
  destruct (performConfirming_blocked config_mgmt (pid_text d) cmt s Hp Hm) as [err Hb].
  exists err. by rewrite (bind_eq _ _ _ _ _ Hb).
Qed.

(** C33: what follows the commit of a confirmed commit: when the configuration
    is saved, the revert is scheduled by one run of the management script with
    the commit's own parameters; but the client is told of success even when
    that fails, and is left with a commit nothing will revert. *)
Theorem confirmed_commit_scheduling d c rpcout s s1 err0 job out ok :
  ci_confirmed c = true -> Save ErrPath d s = Some ((true, err0), s1) ->
  config_mgmt (arguments c (pid_text d)) (st_job s1) = (job, out, ok) ->
  exists txt s', after_commit d 0 (Some c) rpcout s = Some ((txt, None), s') /\
    st_job s' = job /\ st_sess s' = st_sess s1 /\
    spawned s' = arguments c (pid_text d) :: spawned s1.
Proof.
  intros Hc Hs Hj. unfold after_commit. rewrite (bind_eq _ _ _ _ _ Hs), Hc.
  unfold setConfirmedCommitTimeout, spawn_config_mgmt.
  unfold bind, emit_s, modify, gets, id, ret. cbn -[arguments logConfirmedCommitEvent].
  rewrite Hj. cbn -[arguments logConfirmedCommitEvent]. destruct ok; cbn -[arguments logConfirmedCommitEvent].
  - match goal with |- context [logConfirmedCommitEvent ?m ?x] =>
      destruct (logEvent_run "Confirmed Commit" m x) as (s' & El & Hj' & Hs' & Ht') end.
    unfold logConfirmedCommitEvent. rewrite El. cbn. eexists _, s'. split; [reflexivity|].
    rewrite Hj', Hs', Ht'. by split_and!.
  - eexists _, _. split; [reflexivity|]. by split_and!.
Qed.

(** C34: a rollback over uncommitted changes is refused and changes no session;
    by then it has already told the management script to forget the pending
    confirmed commit: cancelling a commit this way fails and confirms it. *)
Theorem rollback_refused d sid revision comment debug s :
  svc_Get (ctx d) sid (st_sess s) = None ->
  ask sid (changedreq (ctx d)) false s = Some (true, s) ->
  exists s', rollbackInternal d sid revision comment debug s =
      Some (("", Some rollback_modified), s') /\
    st_sess s' = st_sess s /\
    spawned s' = ["--action=confirm-silent"] :: spawned s /\
    st_job s' = fst (fst (config_mgmt ["--action=confirm-silent"] (st_job s))).
Proof.
  intros Hg Hch. unfold rollbackInternal, ConfirmSilent, logRollbackEvent.
  destruct (spawn_run config_mgmt ["--action=confirm-silent"] s) as (r & s1 & E1 & Hs1 & Ht1 & Hj1).
  rewrite (bind_eq _ _ _ _ _ E1).
  destruct (logEvent_run "Rollback" "Commit/Rollback operation - any pending rollback cancelled." s1)
    as (s2 & E2 & Hj2 & Hs2 & Ht2).
  rewrite (bind_eq _ _ _ _ _ E2).
  assert (Hss : st_sess s2 = st_sess s) by congruence.
  destruct (SessionChanged_run d sid s2) as (b & Hb & E3); [by rewrite Hss|].
  assert (b = true) as ->.
  { unfold ask, on_svc in Hb, Hch. rewrite Hss in Hb.
    destruct (svc_ask sid (changedreq (ctx d)) false (st_sess s)) as [[b' w]|]; [|done].
    injection Hb as <- _. by injection Hch as -> _. }
  rewrite (bind_eq _ _ _ _ _ E3). unfold rollback_error, logRollbackError, logRollbackEvent.
  destruct (logEvent_run "Rollback" ("Failed with error: " +:+ Error rollback_modified) s2)
    as (s3 & E4 & Hj4 & Hs4 & Ht4).
  rewrite (bind_eq _ _ _ _ _ E4). exists s3. split; [done|]. split_and!; congruence.
Qed.
End CommitRpc.

(** ** Concrete methods *)

Module SampleRpc.
Abbreviation W := (daemon (L := Sample.lib)).
#[export] Instance service : SessionService (L := Sample.lib) W :=
  daemon_service (SL := SampleState.statelib) (CL := SampleCommit.commitlib) SampleEdit.xml 3.

Definition ErrPath (p : list string) : string := Join p " ".
(** A script that fails. *)
Definition broken (args : list string) (job : ConfirmedCommitInfo)
  : ConfirmedCommitInfo * string * bool := (job, "no space left", false).

Abbreviation bob := (SampleDisp.disp Sample.allow).

(** Two sessions of the same user, one with a change, and the server's own. *)
Definition sessions : W :=
  let d := start_sessions (L := Sample.lib) SampleDaemon.system Sample.root Sample.root SampleDaemon.empty in
  let add sid c d := set_table (L := Sample.lib)
    (<[sid := Session (L := Sample.lib) sid (Some 7) 0 false c [] Sample.root Sample.root]> (dm_table d)) d in
  add "a" [["service"]] (add "b" [] d).

Definition state (job : ConfirmedCommitInfo) : Server.sstate (W := W) := SState job [] sessions.

Lemma methods_isolated_witness : exists s',
  invoke (L := Sample.lib) (O := SampleOS.os) (E := SampleFormat.errors) ErrPath broken bob "b" (MSet "/service")
    (state (JobInfo "" "")) = Some (tt, s') /\
  svc_session (L := Sample.lib) (st_sess s') "a" =
    svc_session (L := Sample.lib) (st_sess (state (JobInfo "" ""))) "a".
Proof.
  assert (Hrun : match invoke (L := Sample.lib) (O := SampleOS.os) (E := SampleFormat.errors)
    ErrPath broken bob "b" (MSet "/service") (state (JobInfo "" "")) with Some _ => true | None => false end = true)
    by (vm_compute; reflexivity).
  destruct (invoke (L := Sample.lib) (O := SampleOS.os) (E := SampleFormat.errors) ErrPath broken bob "b"
    (MSet "/service") (state (JobInfo "" ""))) as [[[] s']|] eqn:E; [clear Hrun|discriminate Hrun].
  exists s'. split; [reflexivity|].
  refine (methods_isolated (L := Sample.lib) (O := SampleOS.os) (E := SampleFormat.errors)
    ErrPath broken bob "b" (MSet "/service") (state (JobInfo "" "")) s' "a" E _ _); discriminate.
Defined.

Lemma commit_blocked_witness : exists err,
  confirmedCommitInternal (L := Sample.lib) (O := SampleOS.os) (E := SampleFormat.errors) ErrPath broken bob
    "a" "" false 0 (Some (CommitInfo false 600 "" "mine")) false (state (JobInfo "99" "theirs"))
  = Some (("", Some err), state (JobInfo "99" "theirs")).
Proof.
  apply (commit_blocked (L := Sample.lib) (O := SampleOS.os) (E := SampleFormat.errors) ErrPath broken bob
    "a" "" false 0 (Some (CommitInfo false 600 "" "mine")) (state (JobInfo "99" "theirs"))).
  - vm_compute. reflexivity.
  - discriminate.
  - intros [H _]. discriminate H.
Defined.

(** The confirmed commit is reported as done, and nothing will revert it. *)
Lemma confirmed_commit_scheduling_witness : exists s1 txt s',
  Save (L := Sample.lib) (O := SampleOS.os) ErrPath bob (state (JobInfo "" "")) = Some ((true, None), s1) /\
  after_commit (L := Sample.lib) (O := SampleOS.os) ErrPath broken bob 0
    (Some (CommitInfo true 60 "p" "")) "" (state (JobInfo "" "")) = Some ((txt, None), s') /\
  st_job s' = st_job s1.
Proof.
  assert (Hrun : match Save (L := Sample.lib) (O := SampleOS.os) ErrPath bob (state (JobInfo "" "")) with
    Some ((true, None), _) => true | _ => false end = true) by (vm_compute; reflexivity).
  destruct (Save (L := Sample.lib) (O := SampleOS.os) ErrPath bob (state (JobInfo "" "")))
    as [[[[] [e|]] s1]|] eqn:E; try discriminate Hrun. clear Hrun.
  destruct (confirmed_commit_scheduling (L := Sample.lib) (O := SampleOS.os) ErrPath broken bob
    (CommitInfo true 60 "p" "") "" (state (JobInfo "" "")) s1 None (st_job s1) "no space left" false
    eq_refl E eq_refl) as (txt & s' & H1 & H2 & _).
  exact (ex_intro _ s1 (ex_intro _ txt (ex_intro _ s' (conj eq_refl (conj H1 H2))))).
Defined.

Lemma rollback_refused_witness : exists s',
  rollbackInternal (L := Sample.lib) (O := SampleOS.os) (E := SampleFormat.errors) ErrPath SampleDisp.script
    bob "a" "revert" "" false (state (JobInfo "10" "")) = Some (("", Some rollback_modified), s') /\
  st_job s' = JobInfo "" "".
Proof.
  assert (Hb : match ask (L := Sample.lib) (SS := service) "a"
      (changedreq (L := Sample.lib) (d_ctx (L := Sample.lib) bob)) false (state (JobInfo "10" ""))
    with Some (b, _) => b | None => false end = true) by (vm_compute; reflexivity).
  destruct (ask_read_run (L := Sample.lib) (SS := service) "a"
    (changedreq (L := Sample.lib) (d_ctx (L := Sample.lib) bob)) false (state (JobInfo "10" "")) eq_refl)
    as [b Eb].
  rewrite Eb in Hb. subst b.
  assert (Hg : svc_Get (L := Sample.lib) (H := service) (d_ctx (L := Sample.lib) bob) "a"
    sessions = None) by (vm_compute; reflexivity).
  destruct (rollback_refused (L := Sample.lib) (O := SampleOS.os) (E := SampleFormat.errors)
    (SS := service) ErrPath SampleDisp.script bob "a" "revert" "" false (state (JobInfo "10" ""))
    Hg Eb) as (s' & H1 & _ & _ & H2).
  exact (ex_intro _ s' (conj H1 H2)).
Defined.
End SampleRpc.
