(* ===== verification/Templates.v ===== *)
(** [server/dispatcher.go], the methods the command line asks while a user
    types: templates, allowed values (with the evaluation of leafrefs, for
    which a node is set and deleted again), help and completions. *)

From S2P Require Import Prelude GoLib Errors Rpc GoFmt External Configd LogLevel Sample Session.
From S2P Require Import StateTree Load EditConfig Commit SessionServer SessionMgr Service.
From S2P Require Import Expand CliFormat Server ConfigMgmt Daemon Dispatcher CommitRpc.

Open Scope Z_scope.

(** What a template ([schema.TmplCompat]) and its node say beyond [snode]. *)
Class TmplLib `{ConfigLib} := {
  tmpl_Val : ModelSet -> list string -> bool;      (** the path ends at a value *)
  sn_Description : snode -> string;
  ext_Secret : snode -> bool;                      (** ConfigdExt().Secret *)
  ext_Allowed : snode -> string;                   (** ConfigdExt().Allowed *)
  leaf_Default : snode -> string;                  (** Default(), empty without one *)
  un_GetSchema : UNode -> snode
}.

(** The scripts of the schema are told the session and the path, and ask the
    server about them: what they print depends on the sessions. *)
Class Scripts (W : Type) := {
  (** [exec.ExecNoErr] in the environment of session, path and action: no
      output, the output, or an error *)
  ExecNoErr : string -> list string -> string -> W -> option string + error
}.

(** [xutils.NodeRef]: element names with the keys that select the entry. *)
Abbreviation NodeRef := (list (string * list (string * string))).

Definition is_angle (c : ascii) : bool := Ascii.eqb c "<"%char || Ascii.eqb c ">"%char.
Fixpoint ContainsAny (f : ascii -> bool) (s : string) : bool :=
  match s with EmptyString => false | String c s' => f c || ContainsAny f s' end.

Section Templates.
Context {L : ConfigLib} {T : TmplLib}.
Context {W : Type} `{SS : !SessionService W} {X : Scripts W}.
(** The node [xutils.FindNode] finds for a reference in the tree as it is now,
    and the values its leafref allows there. *)
Context (AllowedValues : snode -> UNode -> NodeRef -> W -> list string + error).

Abbreviation St := (Server.sstate (W := W)).
Abbreviation ctx d := (d_ctx d).

(** ** Templates *)

Definition getPathError (d : Disp) (ps : list string) (unexpected : string) : error :=
  match validatePath (d_ms d) ps with
  | Some err => err
  | None => error_msg OperationFailedApplication unexpected
  end.

Definition schemaPathDescendant (d : Disp) (ps : list string) : snode + error :=
  match PathDescendant (d_ms d) ps with
  | None => inr (getPathError d ps "Schema not found")
  | Some tmpl => inl tmpl
  end.

Definition tmpl_type (ty : yang_type) : gmap string string :=
  match ty with
  | TEmpty => ∅
  | TInteger | TUinteger => {["type" := "u32"]}
  | TBoolean => {["type" := "bool"]}
  | _ => {["type" := "txt"]}
  end.

(** A list without keys is an index out of range. *)
Definition TmplGet (d : Disp) (path : string) : option (gmap string string * option error) :=
  let ps := Makepath path in
  match schemaPathDescendant d ps with
  | inr err => Some (∅, Some err)
  | inl sn =>
      let desc := sn_Description sn in
      let m : gmap string string := if tmpl_Val (d_ms d) ps then {["is_value" := "1"]} else ∅ in
      let m := if bool_decide (desc <> "") then <["comp_help" := desc]> m else m in
      let m := if ext_Secret sn then <["secret" := "1"]> m else m in
      let m := if bool_decide (sn_help sn <> "") then <["help" := sn_help sn]> m else m in
      let finish m := Some (tmpl_type (sn_type sn) ∪ m, None) in
      match sn_kind sn with
      | KList =>
          match sn_keys sn with
          | [] => None
          | key :: _ => finish (<["key" := key]> (<["tag" := "1"]> m))
          end
      | KLeafList => finish (<["multi" := "1"]> m)
      | KLeaf => finish (<["default" := leaf_Default sn]> m)
      | KContainer =>
          Some (<["presence" := if sn_presence sn then "1" else "0"]> m, None)
      | _ => finish m
      end
  end.

Definition TmplGetChildren (d : Disp) (path : string) : option (list string * option error) :=
  let ps := Makepath path in
  if negb (authRead d ps) then Some ([], Some access_denied)
  else
    match schemaPathDescendant d ps with
    | inr err => Some ([], Some err)
    | inl sn =>
        let is_list := match sn_kind sn with KList => true | _ => false end in
        if negb (tmpl_Val (d_ms d) ps) && is_list then Some (["node.tag"], None)
        else
          (* the key is looked at only for a child that may be read *)
          let names := List.filter (fun x => authRead d (ps ++ [x])) (map sn_name (sn_children sn)) in
          if is_list then
            match sn_keys sn, names with
            | key :: _, _ => Some (List.filter (fun x => negb (bool_decide (x = key))) names, None)
            | [], [] => Some ([], None)
            | [], _ => None
            end
          else Some (names, None)
    end.

Definition TmplValidatePath (d : Disp) (path : string) : bool * option error :=
  match schemaPathDescendant d (Makepath path) with
  | inr _ => (false, None)
  | inl _ => (true, None)
  end.

Definition TmplValidateValues (d : Disp) (path : string) : bool * option error :=
  let ps := Makepath path in
  if negb (authRead d ps) then (false, Some access_denied)
  else (bool_decide (Validate (d_ms d) RUNNING_sid false false ps = None), None).

(** ** Leafrefs *)

(** The loop of [MakeNodeRef]; a path the schema does not have is a nil
    dereference, a list entry without keys an index out of range. *)
Fixpoint node_ref_from (cur : snode) (ps : list string) : option NodeRef :=
  match ps with
  | [] =>
      match sn_kind cur, sn_keys cur with
      | KListEntry, key :: _ => Some [(key, [])]
      | KListEntry, [] => None
      | _, _ => Some []
      end
  | elem :: ps' =>
      match SchemaChild cur elem with
      | None => None
      | Some cur' =>
          match sn_kind cur', sn_keys cur' with
          | KListEntry, key :: _ => cons (sn_name cur', [(key, elem)]) <$> node_ref_from cur' ps'
          | KListEntry, [] => None
          | (KList | KLeafValue), _ => node_ref_from cur' ps'
          | _, _ => cons (sn_name cur', []) <$> node_ref_from cur' ps'
          end
      end
  end.

Definition MakeNodeRef (ps : list string) (startNode : snode) : option NodeRef :=
  match ps with
  | [] => Some []
  | _ => node_ref_from startNode ps
  end.

(** How many elements from the end are missing, counting from the parent;
    [left] elements of [ps] are left in [testPS]. *)
Fixpoint count_missing (d : Disp) (name : string) (ps : list string) (left : nat) (index : nat)
  : M St nat :=
  match left with
  | O => ret index
  | S left' =>
      present <- ask name (existsreq (ctx d) (take left ps)) false ;;
      if present then ret index else count_missing d name ps left' (S index)
  end.

Definition leafref_values (lrNode : snode) (root : UNode) (createPS : list string) : M St (list string) :=
  match MakeNodeRef createPS (un_GetSchema root) with
  | None => go_panic
  | Some nref =>
      s <- gets id ;;
      ret match AllowedValues lrNode root nref (st_sess s) with inr _ => [] | inl vals => vals end
  end.

Definition leafref_opts : TreeOpts :=
  {| Defaults := false; Secrets := true; CouldExistIsAllowed := false |}.

Definition getLeafrefVals (d : Disp) (sid : string) (ps : list string) (lrNode : snode)
  : M St (list string) :=
  match ps with
  | [] => ret []
  | _ =>
      sess <- getROSession d CANDIDATE sid ;;
      match sess with
      | None => go_panic
      | Some name =>
          r <- ask name (gettreereq (ctx d) (Makepath "") leafref_opts) (None, Some sessTermError) ;;
          match r with
          | (_, Some _) => ret []
          | (None, None) => go_panic
          | (Some root, None) =>
              present <- ask name (existsreq (ctx d) ps) false ;;
              if present then leafref_values lrNode root ps
              else
                index <- count_missing d name ps (length ps - 1) 0 ;;
                let deletePS := take (length ps - index) ps in
                let createPS := ps ++ ["dummyValue"] in
                err <- ask name (setreq (ctx d) createPS) (Some sessTermError) ;;
                match err with
                | Some _ => ret []
                | None =>
                    vals <- leafref_values lrNode root createPS ;;
                    ask name (delreq (ctx d) deletePS) (Some sessTermError) ;;;
                    ret vals
                end
          end
      end
  end.

(** ** Allowed values, completions *)

(** The words of a script's output, with the angle brackets escaped. *)
Definition allowed_words (output : string) : list string :=
  map (fun v => replace_byte ">"%char "\>" (replace_byte "<"%char "\<" v))
    (Split (TrimSpace (replace_byte "010"%char " " output)) " "%char).

Definition TmplGetAllowed (d : Disp) (sid path : string) : M St (list string * option error) :=
  let ps := Makepath path in
  if negb (authRead d ps) then ret ([], Some access_denied)
  else
    match schemaPathDescendant d ps with
    | inr err => ret ([], Some err)
    | inl sn =>
        if bool_decide (sn_type sn = TLeafref) && negb (bool_decide (sn_kind sn = KLeafValue))
        then vals <- getLeafrefVals d sid ps sn ;; ret (vals, None)
        else
          let allowed := ext_Allowed sn in
          if bool_decide (allowed = "") || tmpl_Val (d_ms d) ps then ret ([], None)
          else
            s <- gets id ;;
            match ExecNoErr sid ps allowed (st_sess s) with
            | inr err => ret ([], Some err)
            | inl None => ret ([], None)
            | inl (Some out) => ret (allowed_words out, None)
            end
    end.

(** The help, and for a value the allowed ones; a placeholder is left out. *)
Definition add_allowed (comps : gmap string string) (allowed : list string) : gmap string string :=
  fold_left (fun m v => if ContainsAny is_angle v then m else <[v := ""]> m) allowed comps.

Definition GetCompletions (d : Disp) (sid : string) (schema : bool) (path : string)
  : M St (gmap string string * option error) :=
  let ps := Makepath path in
  t <- NodeGetType d sid path ;;
  match t with
  | (_, Some err) => ret (∅, Some err)
  | (typ, None) =>
      if (negb schema || negb (typ =? CONTAINER)) && negb (authRead d ps)
      then ret (∅, Some access_denied)
      else
        h <- GetHelp d sid schema path ;;
        match h with
        | (_, Some err) => ret (∅, Some err)
        | (comps, None) =>
            let comps := list_to_map comps in
            if negb schema || (typ =? CONTAINER) then ret (comps, None)
            else
              a <- TmplGetAllowed d sid path ;;
              ret (add_allowed comps (fst a), snd a)
        end
  end.

(** Not supported any more. *)
Definition SessionGetEnv (sid : string) : M St (gmap string string * option error) := not_supported ∅.
Definition EditGetEnv (sid : string) : M St (gmap string string * option error) := not_supported ∅.
Definition NodeGetCompleteEnv (sid path : string) : M St (gmap string Z * option error) := not_supported ∅.
Definition NodeGetComment (sid path : string) : M St (gmap string Z * option error) := not_supported ∅.
End Templates.

(** ** Lemmas *)

Section Lemmas.
Context {L : ConfigLib} {T : TmplLib}.
Context {W : Type} `{SS : !SessionService W} {X : Scripts W}.
Context (AllowedValues : snode -> UNode -> NodeRef -> W -> list string + error).

Abbreviation St := (Server.sstate (W := W)).
Abbreviation ctx d := (d_ctx d).

(** Whether a session has a path, as the client of [d] sees it. *)
Definition present (d : Disp) (name : string) (p : list string) (s : St) : bool :=
  match ask name (existsreq (ctx d) p) false s with Some (b, _) => b | None => false end.

Lemma present_run d name p s :
  ask name (existsreq (ctx d) p) false s = Some (present d name p s, s).
Proof.
  unfold present. destruct (ask_read_run name (existsreq (ctx d) p) false s eq_refl) as [b E].
  by rewrite E.
Qed.

(** The loop stops at the longest of the prefixes that exist. *)
Lemma count_missing_spec d name ps s : forall left index, exists k,
  (k <= left)%nat /\ count_missing d name ps left index s = Some ((index + (left - k))%nat, s) /\
  (k = 0%nat \/ present d name (take k ps) s = true) /\
  (forall j, (k < j <= left)%nat -> present d name (take j ps) s = false).
Proof.
  induction left as [|left IH]; intros index.
  - exists 0%nat. split_and!; [lia| |by left|lia]. cbn. unfold ret. by rewrite Nat.add_0_r.
  - cbn [count_missing]. rewrite (bind_eq _ _ s _ s (present_run d name (take (S left) ps) s)).
    destruct (present d name (take (S left) ps) s) eqn:Ep.
    + exists (S left). split_and!; [lia| |by right|lia].
      unfold ret. by replace (index + (S left - S left))%nat with index by lia.
    + destruct (IH (S index)) as (k & Hk & E & Hp & Hm). exists k. split_and!; [lia| |done|].
      * rewrite E. do 2 f_equal. lia.
      * intros j Hj. destruct (decide (j = S left)) as [->|Hne]; [done|]. apply Hm. lia.
Qed.

Lemma leafref_values_same lrNode root p s vals s' :
  leafref_values AllowedValues lrNode root p s = Some (vals, s') -> s' = s.
Proof.
  unfold leafref_values. destruct (MakeNodeRef _ _); [|done]. intros H. by injection H.
Qed.

Lemma add_allowed_lookup allowed : forall comps v,
  add_allowed comps allowed !! v =
  if existsb (fun x => bool_decide (x = v)) allowed && negb (ContainsAny is_angle v)
  then Some "" else comps !! v.
Proof.
  unfold add_allowed. induction allowed as [|x allowed IH]; intros comps v; [done|].
  cbn [fold_left existsb]. rewrite IH. case_bool_decide as Hx.
  - subst x. destruct (ContainsAny is_angle v) eqn:Ea; cbn [negb andb orb].
    + by rewrite andb_false_r.
    + rewrite andb_true_r. destruct (existsb _ _); [done|]. by rewrite lookup_insert_eq.
  - cbn [orb]. destruct (existsb _ _ && _); [done|].
    destruct (ContainsAny is_angle x); [done|]. by rewrite lookup_insert_ne.
Qed.

(** ** Properties *)

(** C29: completing a leafref disturbs the candidate by one dummy node at most:
    when the path is not there the dummy is set below it, and if that worked
    one prefix of the path is deleted at the end, whatever the evaluation
    gave; that prefix did not exist before, and what is above it did. *)
Theorem leafref_completion_clean d sid ps lrNode s vals s' :
  ps <> [] ->
  getLeafrefVals AllowedValues d sid ps lrNode s = Some (vals, s') ->
  exists name r s1,
    getROSession d CANDIDATE sid s = Some (Some name, s) /\
    ask name (gettreereq (ctx d) (Makepath "") leafref_opts) (None, Some sessTermError) s = Some (r, s1) /\
    (s' = s1 \/
     exists err s2,
       present d name ps s1 = false /\
       ask name (setreq (ctx d) (ps ++ ["dummyValue"])) (Some sessTermError) s1 = Some (err, s2) /\
       (err <> None /\ vals = [] /\ s' = s2 \/
        exists k e, err = None /\ (0 < k <= length ps)%nat /\
          ask name (delreq (ctx d) (take k ps)) (Some sessTermError) s2 = Some (e, s') /\
          present d name (take k ps) s1 = false /\
          (k = 1%nat \/ present d name (take (k - 1) ps) s1 = true))).
Proof.
  intros Hps H. destruct ps as [|x ps]; [done|]. clear Hps. cbn [getLeafrefVals] in H.
  set (p := x :: ps) in *. apply bind_Some in H as (sess & s0 & E0 & H).
  assert (Es0 : s0 = s) by (unfold getROSession, gets in E0; by injection E0). subst s0.
  destruct sess as [name|]; [|done]. apply bind_Some in H as ([root err] & s1 & E1 & H).
  exists name, (root, err), s1. split; [done|]. split; [done|].
  destruct root as [root|], err as [err|]; try done; try (left; by injection H).
  rewrite (bind_eq _ _ s1 _ s1 (present_run d name p s1)) in H.
  destruct (present d name p s1) eqn:Ep.
  { left. by eapply leafref_values_same. }
  right. destruct (count_missing_spec d name p s1 (length p - 1) 0) as (k & Hk & Ec & Hpk & Hm).
  rewrite (bind_eq _ _ s1 _ s1 Ec) in H. apply bind_Some in H as (e & s2 & E2 & H).
  exists e, s2. split; [done|]. split; [done|]. destruct e as [e|]; [left|right].
  { injection H as <- <-. by split_and!. }
  apply bind_Some in H as (v & s3 & E3 & H). apply leafref_values_same in E3 as ->.
  apply bind_Some in H as (e & s4 & E4 & H). injection H as -> ->.
  assert (Hlen : length p = S (length ps)) by done.
  replace (length p - (0 + (length p - 1 - k)))%nat with (S k) in E4 by lia.
  exists (S k), e. split_and!; try done; try lia.
  - destruct (decide (S k = length p)) as [->|Hne]; [by rewrite firstn_all|]. apply Hm. lia.
  - destruct Hpk as [->|Hpk]; [by left|right]. by replace (S k - 1)%nat with k by lia.
Qed.

(** Completions are given only for what the client may read, schema or
    not; they are the help of the session, to which a value's allowed words
    are added but for placeholders; an error of the allowed values comes with
    the completions. *)
Theorem completions_spec d sid schema path s r s' :
  GetCompletions AllowedValues d sid schema path s = Some (r, s') ->
  (authRead d (Makepath path) = false -> r = (∅, Some access_denied) /\ s' = s) /\
  (forall v t, fst r !! v = Some t ->
     authRead d (Makepath path) = true /\
     ((exists h s1, GetHelp d sid schema path s1 = Some ((h, None), s1) /\ (v, t) ∈ h) \/
      (exists allowed err s1, schema = true /\ t = "" /\
         TmplGetAllowed AllowedValues d sid path s1 = Some ((allowed, err), s') /\
         v ∈ allowed /\ ContainsAny is_angle v = false))).
Proof.
  unfold GetCompletions. intros H. apply bind_Some in H as ([typ [err|]] & s1 & E1 & H).
  - injection H as <- <-. cbn [fst]. split; [|intros v t Hv; discriminate Hv].
    unfold NodeGetType in E1. intros Ha. rewrite Ha in E1. by injection E1 as _ -> ->.
  - assert (Ha : authRead d (Makepath path) = true).
    { unfold NodeGetType in E1. by destruct (authRead d (Makepath path)). }
    split; [by rewrite Ha|]. intros v t Hv. split; [done|].
    rewrite Ha, andb_false_r in H. apply bind_Some in H as ([h [err|]] & s2 & E2 & H).
    { injection H as <- <-. discriminate Hv. }
    assert (E2' : s2 = s1).
    { unfold GetHelp in E2. apply bind_Some in E2 as (sess & s0 & E & E2).
      unfold getROSession, gets in E. injection E as _ <-. destruct sess as [name|]; [|done].
      unfold bind at 1 in E2. cbn in E2. destruct (svc_session (st_sess s1) name); [|by injection E2].
      destruct (ask_read_run name (gethelpreq (ctx d) schema (Makepath path)) [] s1 eq_refl) as [hh Eh].
      rewrite (bind_eq _ _ s1 _ s1 Eh) in E2. by injection E2. }
    subst s2.
    assert (Hh : list_to_map (M := gmap string string) h !! v = Some t -> (v, t) ∈ h)
      by apply elem_of_list_to_map_2.
    destruct (negb schema || (typ =? CONTAINER)) eqn:Es.
    + injection H as <- <-. left. exists h, s1. split; [done|]. by apply Hh.
    + apply bind_Some in H as ([allowed err] & s3 & E3 & H). injection H as <- <-. cbn [fst] in *.
      rewrite add_allowed_lookup in Hv. apply orb_false_elim in Es as [Es _].
      destruct (existsb _ allowed && _) eqn:Ev.
      * injection Hv as <-. apply andb_prop in Ev as [Ev Eang].
        apply existsb_exists in Ev as (y & Hy & Ey). apply bool_decide_eq_true in Ey as ->.
        right. exists allowed, err, s1. destruct schema; [|done].
        split_and!; try done; [by apply list_elem_of_In|]. by destruct (ContainsAny is_angle v).
      * left. exists h, s1. split; [done|]. by apply Hh.
Qed.
End Lemmas.

(** ** Concrete templates *)

Module SampleTemplates.
Abbreviation bob := (SampleDisp.disp Sample.allow).
#[export] Instance templates : TmplLib (H := Sample.lib) :=
  @Build_TmplLib Sample.lib
    (fun (n : snode) (p : list string) =>
       match Sample.descend n p with
       | Some m => bool_decide (sn_kind m = KLeafValue)
       | None => false
       end)
    (fun _ => "") (fun _ => false)
    (fun sn => if bool_decide (sn_name sn = "host-name") then "/bin/names" else "")
    (fun _ => "") (fun _ => Sample.root).
#[export] Instance scripts {W} : Scripts W :=
  {| ExecNoErr _ _ _ _ := inl (Some ("one <two>" +:+ nl +:+ "three")) |}.

(** The values of the port's leafref. *)
Definition allowed (sn : snode) (root : list (list string)) (nref : NodeRef) (w : SampleRpc.W)
  : list string + error :=
  if bool_decide (nref = [("service", []); ("port", [])]) then inl ["80"; "443"] else inl [].

Example allowed_values :
  fst <$> TmplGetAllowed (L := Sample.lib) (SS := SampleRpc.service) allowed bob "a" "/system/host-name"
    (SampleRpc.state (JobInfo "" "")) = Some (["one"; "\<two\>"; "three"], None).
Proof. vm_compute. reflexivity. Qed.

Lemma leafref_completion_clean_witness : exists s' s1 r e,
  getLeafrefVals (L := Sample.lib) (SS := SampleRpc.service) allowed bob "a" ["service"; "port"]
    (Sample.leaf "port") (SampleRpc.state (JobInfo "" "")) = Some (["80"; "443"], s') /\
  ask (L := Sample.lib) (SS := SampleRpc.service) "a" (gettreereq (L := Sample.lib) (d_ctx (L := Sample.lib) bob)
    [] leafref_opts) (None, Some sessTermError) (SampleRpc.state (JobInfo "" "")) = Some (r, s1) /\
  (s' = s1 \/ exists s2, ask (L := Sample.lib) (SS := SampleRpc.service) "a"
     (setreq (L := Sample.lib) (d_ctx (L := Sample.lib) bob) ["service"; "port"; "dummyValue"])
     (Some sessTermError) s1 = Some (e, s2)).
Proof.
  assert (Hrun : match getLeafrefVals (L := Sample.lib) (SS := SampleRpc.service) allowed bob "a"
      ["service"; "port"] (Sample.leaf "port") (SampleRpc.state (JobInfo "" ""))
    with Some (v, _) => bool_decide (v = ["80"; "443"]) | None => false end = true)
    by (vm_compute; reflexivity).
  destruct (getLeafrefVals (L := Sample.lib) (SS := SampleRpc.service) allowed bob "a"
      ["service"; "port"] (Sample.leaf "port") (SampleRpc.state (JobInfo "" ""))) as [[v s']|] eqn:E;
    [|discriminate Hrun].
  apply bool_decide_eq_true in Hrun. subst v.
  assert (Hg : match getROSession (L := Sample.lib) (SS := SampleRpc.service) bob CANDIDATE "a"
      (SampleRpc.state (JobInfo "" "")) with
    Some (Some n, _) => bool_decide (n = "a") | _ => false end = true) by (vm_compute; reflexivity).
  destruct (leafref_completion_clean (L := Sample.lib) (SS := SampleRpc.service) allowed bob "a"
    ["service"; "port"] (Sample.leaf "port") (SampleRpc.state (JobInfo "" "")) ["80"; "443"] s'
    ltac:(discriminate) E) as (name & r & s1 & H1 & H2 & H3).
  rewrite H1 in Hg. apply bool_decide_eq_true in Hg. subst name.
  destruct H3 as [H3|(e & s2 & _ & H3 & _)].
  - exists s', s1, r, None. split; [exact eq_refl|]. split; [exact H2|]. left. exact H3.
  - exists s', s1, r, e. split; [exact eq_refl|]. split; [exact H2|]. right. exists s2. exact H3.
Defined.

Lemma completions_spec_witness : exists r s',
  GetCompletions (L := Sample.lib) (SS := SampleRpc.service) allowed bob "a" true "/system/host-name"
    (SampleRpc.state (JobInfo "" "")) = Some (r, s') /\
  fst r !! "one" = Some "" /\ authRead (L := Sample.lib) bob ["system"; "host-name"] = true.
Proof.
  assert (Hrun : match GetCompletions (L := Sample.lib) (SS := SampleRpc.service) allowed bob "a" true
      "/system/host-name" (SampleRpc.state (JobInfo "" ""))
    with Some (r, _) => bool_decide (fst r !! "one" = Some "") | None => false end = true)
    by (vm_compute; reflexivity).
  destruct (GetCompletions (L := Sample.lib) (SS := SampleRpc.service) allowed bob "a" true
      "/system/host-name" (SampleRpc.state (JobInfo "" ""))) as [[r s']|] eqn:E; [|discriminate Hrun].
  apply bool_decide_eq_true in Hrun. exists r, s'. split; [exact eq_refl|]. split; [exact Hrun|].
  exact (proj1 (proj2 (completions_spec (L := Sample.lib) (SS := SampleRpc.service) allowed bob "a" true
    "/system/host-name" (SampleRpc.state (JobInfo "" "")) r s' E) "one" "" Hrun)).
Defined.
End SampleTemplates.
