(* ===== verification/Compare.v ===== *)
(** [server/dispatcher.go], comparing configurations: two texts, two archived
    revisions, a session with the running configuration; reading configuration
    files; archives. *)

From S2P Require Import Prelude GoLib Errors Rpc GoFmt External Configd LogLevel Sample Session.
From S2P Require Import StateTree Load EditConfig Commit SessionServer SessionMgr Service.
From S2P Require Import Expand CliFormat Server ConfigMgmt Daemon Dispatcher CommitRpc.

Open Scope Z_scope.

(** [load.LoadStringNoValidate], and [Serialize] of a tree of differences: with
    context, hiding secrets. *)
Class CompareLib `{ConfigLib} := {
  LoadStringNoValidate : string -> string -> data + error;
  dn_Serialize : option DiffNode -> bool -> bool -> string
}.

Section Compare.
Context {L : ConfigLib} {C : CompareLib} {E : ErrorLib} {O : OSLib}.
Context {W : Type} `{SS : !SessionService W}.
Context (ErrPath : list string -> string).

Abbreviation St := (Server.sstate (W := W)).
Abbreviation ctx d := (d_ctx d).

(** ** Files *)

(** [readCfgFile] without [raw]: what the caller may see of the file; an error
    of showing it is ignored. *)
Definition readCfgFile (d : Disp) (file : string) (forceShowSecrets : bool)
  : M St (string * option error) :=
  match readCfgFile_raw file with
  | inr err => ret ("", Some err)
  | inl text =>
      match fst (load_Load file (Some text) (d_ms d)) with
      | inr err => ret ("", Some err)
      | inl dtree =>
          sess <- getROSession d RUNNING "RUNNING" ;;
          match sess with
          | None => go_panic
          | Some name =>
              s <- gets id ;;
              let options := auther_of d name (st_sess s)
                ++ (if forceShowSecrets then [ForceShowSecrets] else []) in
              ret (fst (u_Show (Some (data_New "root")) dtree (d_ms d) [] options), None)
          end
      end
  end.

Definition ReadConfigFileRaw (d : Disp) (file : string) : string * option error :=
  match readCfgFile_raw file with inl text => (text, None) | inr err => ("", Some err) end.
Definition ReadConfigFile (d : Disp) (file : string) : M St (string * option error) :=
  readCfgFile d file false.
Definition readConfigFileForceShowSecrets (d : Disp) (file : string) : M St (string * option error) :=
  readCfgFile d file true.
Definition MigrateConfigFile (file : string) : string * option error := ("", None).

(** ** Comparison *)

Definition Compare (d : Disp) (old new spath : string) (ctxdiff : bool) : string * option error :=
  match LoadStringNoValidate "old" old with
  | inr err => ("", Some err)
  | inl t1 =>
      match LoadStringNoValidate "new" new with
      | inr err => ("", Some err)
      | inl t2 =>
          let dtree := diff_NewNode (Some t1) (Some t2) (Some (ms_node (d_ms d))) in
          let dtree := n ← dtree; dn_Descendant n (Makepath spath) in
          let hide := negb (InSecretsGroup (ctx d)) in
          (dn_Serialize dtree ctxdiff hide, None)
      end
  end.

(** Everything, secrets too. *)
Definition ShowForceSecrets (d : Disp) (db : DB) (sid : string) (showDefaults : bool)
  : M St (string * option error) :=
  ask_ro d db sid (showreq (ctx d) [] false showDefaults true) ("", Some sessTermError).

Definition validCompareConfigRevision (revision : string) : bool :=
  bool_decide (revision = "saved") || bool_decide (revision = "session")
  || match fst GetCommitLog !! revision with Some _ => true | None => false end.

Definition compareConfigRevisionsInternal (d : Disp) (sid revOne revTwo : string)
  : M St (string * option error) :=
  if negb (validCompareConfigRevision revOne) then ret ("", Some (newInvalidConfigRevisionError revOne))
  else if negb (validCompareConfigRevision revTwo) then
    ret ("", Some (newInvalidConfigRevisionError revTwo))
  else
    one <- (if bool_decide (revOne = "session") then ShowForceSecrets d CANDIDATE sid false
            else readConfigFileForceShowSecrets d (configRevisionFileName revOne)) ;;
    match one with
    | (_, Some err) => ret ("", Some err)
    | (one, None) =>
        two <- readConfigFileForceShowSecrets d (configRevisionFileName revTwo) ;;
        match two with
        | (_, Some err) => ret ("", Some err)
        | (two, None) => ret (Compare d one two "" true)
        end
    end.

Definition CompareConfigRevisions (d : Disp) (sid revOne revTwo : string)
  : M St (string * option error) :=
  let authArgs := (if bool_decide (revOne <> "session") then [revOne] else []) ++ [revTwo] in
  authorised_cmd d "" (newCommandArgsForAaa ErrPath d "compare" authArgs [])
    (compareConfigRevisionsInternal d sid revOne revTwo).

(** The running configuration against the session, from both shown in full. *)
Definition against_running (d : Disp) (sid : string) (showDefaults : bool)
    (k : string -> string -> string * option error) : M St (string * option error) :=
  runningShow <- ShowForceSecrets d RUNNING sid showDefaults ;;
  match runningShow with
  | (_, Some err) => ret ("", Some err)
  | (runningShow, None) =>
      candShow <- ShowForceSecrets d CANDIDATE sid showDefaults ;;
      match candShow with
      | (_, Some err) => ret ("", Some err)
      | (candShow, None) => ret (k candShow runningShow)
      end
  end.

Definition compareSessionChangesInternal (d : Disp) (sid : string) : M St (string * option error) :=
  against_running d sid false (fun candShow runningShow => Compare d candShow runningShow "" true).

Definition CompareSessionChanges (d : Disp) (sid : string) : M St (string * option error) :=
  authorised_cmd d "" (newCommandArgsForAaa ErrPath d "compare" [] [])
    (compareSessionChangesInternal d sid).

Definition showConfigWithContextDiffsInternal (d : Disp) (sid path : string) (showDefaults : bool)
  : M St (string * option error) :=
  against_running d sid showDefaults
    (fun candShow runningShow => Compare d candShow runningShow path false).

Definition ShowConfigWithContextDiffs (d : Disp) (sid path : string) (showDefaults : bool)
  : M St (string * option error) :=
  let ps := Makepath path in
  authorised_cmd d "" (showCommandArgs ErrPath d ps showDefaults)
    (showConfigWithContextDiffsInternal d sid path showDefaults).

(** ** Archives *)

Definition ExtractArchive (sid revision destination : string) : M St (string * option error) :=
  let args := ["--action=extract-archive"; "--revnum=" +:+ revision; "--dest=" +:+ destination] in
  emit_s (EvSpawn args) ;;;
  let '(out, err) := os_CombinedOutput ("/opt/vyatta/sbin/vyatta-config-mgmt.pl" :: args) "" in
  match err with
  | Some _ => ret ("", Some (error_msg OperationFailedApplication out))
  | None => ret (out, None)
  end.

(** ** Lemmas *)

(** What comes out of a comparison: an error, or differences without the
    secrets of those who may not see them. *)
Definition discreet (d : Disp) (r : string * option error) : Prop :=
  match r with
  | (out, Some err) => out = ""
  | (out, None) => exists dtree ctxdiff, out = dn_Serialize dtree ctxdiff (negb (InSecretsGroup (ctx d)))
  end.

Lemma Compare_discreet d old new spath ctxdiff : discreet d (Compare d old new spath ctxdiff).
Proof. unfold Compare. destruct (LoadStringNoValidate "old" old), (LoadStringNoValidate "new" new); cbn; eauto. Qed.

(** A method that leaves the sessions alone, with a discreet answer. *)
Definition quiet {A} (P : A -> Prop) (m : M St A) : Prop :=
  forall s a s', m s = Some (a, s') -> P a /\ st_sess s' = st_sess s.

Lemma quiet_ret {A} (P : A -> Prop) a : P a -> quiet P (ret a).
Proof. intros HP s b s' [= <- <-]. by split. Qed.

Lemma quiet_bind {A B} (Q : A -> Prop) (P : B -> Prop) (m : M St A) (k : A -> M St B) :
  quiet Q m -> (forall a, Q a -> quiet P (k a)) -> quiet P (bind m k).
Proof.
  intros Hm Hk s b s' H. apply bind_Some in H as (a & s1 & E1 & E2).
  destruct (Hm _ _ _ E1) as [Ha Hs1]. destruct (Hk a Ha _ _ _ E2) as [Hb Hs2].
  split; [done|]. by rewrite Hs2.
Qed.

Lemma quiet_getROSession d db sid : quiet (fun _ => True) (getROSession d db sid).
Proof. intros s a s' [= <- <-]. by split. Qed.

Lemma quiet_gets {A} (f : St -> A) : quiet (fun _ => True) (gets f).
Proof. intros s a s' [= <- <-]. by split. Qed.

Lemma quiet_emit e : quiet (fun _ => True) (emit_s (W := W) e).
Proof. intros s a s' [= <- <-]. by split. Qed.

Lemma quiet_panic {A} (P : A -> Prop) : quiet P go_panic.
Proof. done. Qed.

Lemma quiet_ask_ro {A} d db sid (r : request A) term :
  is_read r = true -> quiet (fun _ => True) (ask_ro d db sid r term).
Proof.
  intros Hr s a s' H. unfold ask_ro in H. apply bind_Some in H as (n & s1 & E1 & H).
  apply quiet_getROSession in E1 as [_ E1]. destruct n as [n|]; [|done].
  destruct (ask_read_run n r term s1 Hr) as [b Eb]. rewrite Eb in H. injection H as <- <-. by split.
Qed.

Lemma quiet_readCfgFile d file force : quiet (fun _ => True) (readCfgFile d file force).
Proof.
  unfold readCfgFile. destruct (readCfgFile_raw file); [|by apply quiet_ret].
  destruct (fst (load_Load _ _ _)); [|by apply quiet_ret].
  eapply quiet_bind; [apply quiet_getROSession|]. intros [n|] _; [|apply quiet_panic].
  eapply quiet_bind; [apply quiet_gets|]. intros s0 _. by apply quiet_ret.
Qed.

Lemma quiet_authorised d args (fn : M St (string * option error)) :
  quiet (discreet d) fn -> quiet (discreet d) (authorised_cmd d "" args fn).
Proof.
  intros Hf. unfold authorised_cmd. destruct (negb _); [by apply quiet_ret|].
  unfold accountCmdWrap. destruct args as [a|]; [|done].
  eapply quiet_bind; [apply quiet_emit|]. intros _ _.
  eapply quiet_bind; [exact Hf|]. intros r Hr.
  eapply quiet_bind; [apply quiet_emit|]. intros _ _. by apply quiet_ret.
Qed.

Lemma quiet_against_running d sid showDefaults k :
  (forall a b, discreet d (k a b)) -> quiet (discreet d) (against_running d sid showDefaults k).
Proof.
  intros Hk. unfold against_running, ShowForceSecrets.
  eapply quiet_bind; [by apply quiet_ask_ro|]. intros [a [e|]] _; [by apply quiet_ret|].
  eapply quiet_bind; [by apply quiet_ask_ro|]. intros [b [e|]] _; [by apply quiet_ret|].
  apply quiet_ret, Hk.
Qed.

Lemma quiet_revisions d sid revOne revTwo :
  quiet (discreet d) (compareConfigRevisionsInternal d sid revOne revTwo).
Proof.
  unfold compareConfigRevisionsInternal, readConfigFileForceShowSecrets, ShowForceSecrets.
  destruct (negb _); [by apply quiet_ret|]. destruct (negb _); [by apply quiet_ret|].
  eapply quiet_bind with (Q := fun _ => True).
  { destruct (bool_decide _); [by apply quiet_ask_ro|apply quiet_readCfgFile]. }
  intros [a [e|]] _; [by apply quiet_ret|].
  eapply quiet_bind; [apply quiet_readCfgFile|]. intros [b [e|]] _; [by apply quiet_ret|].
  apply quiet_ret, Compare_discreet.
Qed.
End Compare.

(** ** Properties *)

(** The methods that compare. *)
Inductive comparison :=
  | CRevisions (sid revOne revTwo : string)
  | CSession (sid : string)
  | CShow (sid path : string) (showDefaults : bool).

Section Confidential.
Context {L : ConfigLib} {C : CompareLib} {E : ErrorLib} {O : OSLib}.
Context {W : Type} `{SS : !SessionService W}.
Context (ErrPath : list string -> string).

Definition compare_method (d : Disp) (m : comparison)
  : M (Server.sstate (W := W)) (string * option error) :=
  match m with
  | CRevisions sid revOne revTwo => CompareConfigRevisions ErrPath d sid revOne revTwo
  | CSession sid => CompareSessionChanges ErrPath d sid
  | CShow sid path showDefaults => ShowConfigWithContextDiffs ErrPath d sid path showDefaults
  end.

(** C16: comparing reads configurations with all their secrets, but what a
    client outside the secrets group gets is a list of differences with the
    secrets hidden, or an error without any text; no session changes. *)
Theorem compare_confidential d m s out err s' :
  compare_method d m s = Some ((out, err), s') ->
  st_sess s' = st_sess s /\
  match err with
  | Some _ => out = ""
  | None => exists dtree ctxdiff, out = dn_Serialize dtree ctxdiff (negb (InSecretsGroup (d_ctx d)))
  end.
Proof.
  intros H. assert (Hq : quiet (discreet d) (compare_method d m)).
  { destruct m; apply quiet_authorised;
      [apply quiet_revisions|apply quiet_against_running..]; intros; apply Compare_discreet. }
  destruct (Hq _ _ _ H) as [Hd Hs]. split; [done|]. by destruct err.
Qed.
End Confidential.

(** ** Concrete comparisons *)

Module SampleCompare.
Abbreviation bob := (SampleDisp.disp Sample.allow).
#[export] Instance comparing : CompareLib (H := Sample.lib) :=
  @Build_CompareLib Sample.lib (fun _ text => inl [[text]])
    (fun dtree ctxdiff hide => if hide then "secrets hidden" else "all").

Lemma compare_confidential_witness : exists s',
  compare_method (L := Sample.lib) (O := SampleOS.os) (SS := SampleRpc.service)
    SampleRpc.ErrPath bob (CSession "a") (SampleRpc.state (JobInfo "" ""))
    = Some (("secrets hidden", None), s') /\
  st_sess s' = st_sess (SampleRpc.state (JobInfo "" "")).
Proof.
  assert (Hrun : match compare_method (L := Sample.lib) (O := SampleOS.os)
      (SS := SampleRpc.service) SampleRpc.ErrPath bob (CSession "a") (SampleRpc.state (JobInfo "" ""))
    with Some ((out, None), _) => bool_decide (out = "secrets hidden") | _ => false end = true)
    by (vm_compute; reflexivity).
  destruct (compare_method (L := Sample.lib) (O := SampleOS.os)
      (SS := SampleRpc.service) SampleRpc.ErrPath bob (CSession "a") (SampleRpc.state (JobInfo "" "")))
    as [[[out [e|]] s']|] eqn:Eq; try discriminate Hrun.
  apply bool_decide_eq_true in Hrun. subst out. exists s'. split; [exact eq_refl|].
  exact (proj1 (compare_confidential (L := Sample.lib) (O := SampleOS.os)
    (SS := SampleRpc.service) SampleRpc.ErrPath bob (CSession "a") (SampleRpc.state (JobInfo "" ""))
    "secrets hidden" None s' Eq)).
Defined.
End SampleCompare.
