(* ===== verification/RpcCall.v ===== *)
(** [server/dispatcher.go], schemas and remote procedure calls: the texts and
    lists of modules a client can ask for, and the call of an RPC of a
    component, with its arguments converted between encodings. *)

From S2P Require Import Prelude GoLib Errors Rpc GoFmt External Configd Sample Expand CliFormat Server.

Open Scope Z_scope.

(** ** encoding/xml *)

(** [xml.EscapeText], on valid UTF-8: the five characters of markup and the
    three white space characters as references; other control characters are
    not XML and become U+FFFD. *)
Definition escape_byte (c : ascii) : string :=
  let n := nat_of_ascii c in
  match n with
  | 34%nat => "&#34;" | 39%nat => "&#39;" | 38%nat => "&amp;" | 60%nat => "&lt;" | 62%nat => "&gt;"
  | 9%nat => "&#x9;" | 10%nat => "&#xA;" | 13%nat => "&#xD;"
  | _ =>
      if (n <? 32)%nat
      then String (ascii_of_nat 239) (String (ascii_of_nat 191) (String (ascii_of_nat 189) ""))
      else String c ""
  end.
Fixpoint EscapeText (s : string) : string :=
  match s with EmptyString => "" | String c s' => escape_byte c +:+ EscapeText s' end.

(** ** The models of other repositories *)

Record module := Mod {
  Namespace : string;
  Data : string;
  Identifier : string;
  Deviations : list string;
  Features : list string;
  EncodeXML : string
}.

Class RpcLib `{ConfigLib} := {
  Modules : ModelSet -> gmap string module;
  Submodules : ModelSet -> gmap string module;
  (** schemas of the trees an RPC takes and gives *)
  Tree : Type;
  Rpc : Type;
  Input : Rpc -> option Tree;
  Output : Rpc -> Tree;
  Rpcs : ModelSet -> gmap string (gmap string Rpc);
  DataNode : Type;
  UnmarshalJSON : Tree -> string -> DataNode + error;
  UnmarshalRFC7951 : Tree -> string -> DataNode + error;
  UnmarshalXML : Tree -> string -> DataNode + error;
  UnmarshalRFC7951WithoutValidation : Tree -> string -> DataNode + error;
  ToJSON : Tree -> DataNode -> string;
  ToRFC7951 : Tree -> DataNode -> string;
  ToXML : Tree -> DataNode -> string;
  (** a node named rpc-reply with the children and values of another *)
  rpc_reply : DataNode -> DataNode;
  (** the order in which a map is ranged over *)
  range : forall {A}, gmap string A -> list (string * A);
  (** [CompMgr.GetComponentNSMappings().GetModelNameForNamespace] *)
  GetModelNameForNamespace : string -> option string
}.

Section RpcCall.
Context {L : ConfigLib} {RL : RpcLib} {E : ErrorLib}.

(** ** Schemas *)

Definition getModuleOrSubmoduleSchema (d : Disp) (modOrSubmod : string) : string + error :=
  match Modules (d_ms d) !! modOrSubmod with
  | Some mod_ => inl (Data mod_)
  | None =>
      match Submodules (d_ms d) !! modOrSubmod with
      | Some submod => inl (Data submod)
      | None => inr (error_msg OperationFailedApplication ("unknown (sub)module " +:+ modOrSubmod))
      end
  end.

Definition SchemaGet (d : Disp) (modOrSubmod format : string) : string * option error :=
  match getModuleOrSubmoduleSchema d modOrSubmod with
  | inr err => ("", Some err)
  | inl schema => (EscapeText schema, None)
  end.

Definition encode_all (mods : gmap string module) : string :=
  String.concat "" (map (fun m => EncodeXML (snd m)) (range mods)).

Definition getSchemasInternal (d : Disp) (incSubmods : bool) : string * option error :=
  ("<schemas>" +:+ encode_all (Modules (d_ms d))
     +:+ (if incSubmods then encode_all (Submodules (d_ms d)) else "") +:+ "</schemas>", None).
Definition GetSchemas (d : Disp) : string * option error := getSchemasInternal d true.
Definition GetModuleSchemas (d : Disp) : string * option error := getSchemasInternal d false.

(** The modules by their identifier; of two with the same the last one counts. *)
Definition by_identifier (f : module -> list string) (mods : gmap string module) : gmap string string :=
  fold_left (fun v m => <[Identifier (snd m) := Join (f (snd m)) ","]> v) (range mods) ∅.
Definition GetDeviations (d : Disp) : gmap string string * option error :=
  (by_identifier Deviations (Modules (d_ms d)), None).
Definition GetFeatures (d : Disp) : gmap string string * option error :=
  (by_identifier Features (Modules (d_ms d)), None).

(** ** Encodings *)

Definition unknown_encoding (encoding : string) : error :=
  error_msg OperationFailedApplication ("Unknown RPC encoding '" +:+ encoding +:+ "'").

Definition decodeTree (encoding : string) (sch : Tree) (input : string) : DataNode + error :=
  if bool_decide (encoding = "json") then UnmarshalJSON sch input
  else if bool_decide (encoding = "rfc7951") then UnmarshalRFC7951 sch input
  else if bool_decide (encoding = "xml") || bool_decide (encoding = "netconf") then UnmarshalXML sch input
  else inr (unknown_encoding encoding).

Definition encodeTree (encoding : string) (sch : Tree) (input : DataNode) : string + error :=
  if bool_decide (encoding = "json") then inl (ToJSON sch input)
  else if bool_decide (encoding = "rfc7951") then inl (ToRFC7951 sch input)
  else if bool_decide (encoding = "xml") || bool_decide (encoding = "netconf") then inl (ToXML sch input)
  else inr (unknown_encoding encoding).

(** A module is named by its namespace in XML, by its name in JSON. *)
Definition getModuleId (st : ModelSet) (moduleIdOrNamespace encoding : string) : option string :=
  if bool_decide (encoding = "xml") || bool_decide (encoding = "netconf") then
    fst <$> find (fun m => bool_decide (moduleIdOrNamespace = Namespace (snd m))) (range (Modules st))
  else if bool_decide (encoding = "rfc7951") || bool_decide (encoding = "json") then
    match Modules st !! moduleIdOrNamespace with
    | None => None
    | Some _ => Some moduleIdOrNamespace
    end
  else None.

(** The zero module stands for one that is not there: its Namespace() is a nil
    dereference, which [getModuleId] excludes. *)
Definition findRpc (d : Disp) (moduleIdOrNamespace name encoding : string) : option (Rpc * string) :=
  mod_id ← getModuleId (d_ms d) moduleIdOrNamespace encoding;
  mod_ ← Modules (d_ms d) !! mod_id;
  let mod_ns := Namespace mod_ in
  mod_rpcs ← Rpcs (d_ms d) !! mod_ns;
  rpc ← mod_rpcs !! name;
  match Input rpc with
  | None => None
  | Some _ => Some (rpc, mod_ns)
  end.

(** [rpc.Input().(schema.Node)]; the same encoding is passed on unread. *)
Definition convertEncoding (input : Tree) (inputTree fromEncoding toEncoding : string) : string + error :=
  if bool_decide (fromEncoding = toEncoding) then inl inputTree
  else
    match decodeTree fromEncoding input inputTree with
    | inr err => inr err
    | inl decodedTree =>
        match encodeTree toEncoding input decodedTree with
        | inr err => inr err
        | inl encodedTree => inl encodedTree
        end
    end.

Definition convertJsonOutputToRpcReply (rpc : Rpc) (output encoding : string) : string * option error :=
  let output := if bool_decide (output = "") then "{}" else output in
  match UnmarshalRFC7951WithoutValidation (Output rpc) output with
  | inr err =>
      ("", Some (error_msg OperationFailedApplication
                   ("Failed to process returned data: " +:+ Error err)))
  | inl outputTree =>
      match encodeTree encoding (Output rpc) (rpc_reply outputTree) with
      | inr err => ("", Some err)
      | inl reply => (reply, None)
      end
  end.

(** ** The call *)

(** What [VciRpcCaller] is asked: on whose behalf, which RPC, with what. *)
Record vci_call := VciCall {
  vc_ctx : Context; vc_module : string; vc_rpc : string; vc_input : string
}.

(** The components: the answer to a call, after those made before. *)
Context (component : list vci_call -> vci_call -> string + error).

(** The state is the calls made so far, latest first. *)
Definition vrc_CallRpc (c : vci_call) : M (list vci_call) (string + error) :=
  calls <- gets id ;; modify (cons c) ;;; ret (component calls c).

Definition handleVciRpc (ctx : Context) (moduleName encoding : string) (rpc : Rpc) (input : Tree)
    (rpcName args : string) : M (list vci_call) (string * option error) :=
  match convertEncoding input args encoding "rfc7951" with
  | inr err => ret ("", Some err)
  | inl inputTreeJson =>
      output <- vrc_CallRpc (VciCall ctx moduleName rpcName inputTreeJson) ;;
      match output with
      | inr err => ret ("", Some err)
      | inl output => ret (convertJsonOutputToRpcReply rpc output encoding)
      end
  end.

(** An interface with an empty input was refused by [findRpc]. *)
Definition CallRpc (d : Disp) (moduleIdOrNamespace rpcName args encoding : string)
  : M (list vci_call) (string * option error) :=
  match findRpc d moduleIdOrNamespace rpcName encoding with
  | None =>
      ret ("", Some (error_msg OperationFailedApplication
        ("Unknown RPC (" +:+ encoding +:+ ") " +:+ moduleIdOrNamespace +:+ ":" +:+ rpcName)))
  | Some (rpc, moduleNs) =>
      match GetModelNameForNamespace moduleNs with
      | Some _ =>
          let moduleId := default "" (getModuleId (d_ms d) moduleIdOrNamespace encoding) in
          if negb (AuthorizeRPC (cx_Auth (d_ctx d)) (Uid (d_ctx d)) (Groups (d_ctx d)) moduleId rpcName)
          then ret ("", Some access_denied)
          else
            match Input rpc with
            | None => go_panic
            | Some input =>
                r <- handleVciRpc (d_ctx d) moduleId encoding rpc input rpcName args ;;
                ret (fst r, FormatRpcPathError (snd r))
            end
      | None =>
          ret ("", Some (error_msg OperationFailedApplication
            ("Unknown model for RPC " +:+ moduleIdOrNamespace +:+ ":" +:+ rpcName)))
      end
  end.

Definition CallRpcXml (d : Disp) (moduleNamespace name args : string)
  : M (list vci_call) (string * option error) :=
  CallRpc d moduleNamespace name args "xml".
End RpcCall.

(** ** Reading escaped text back *)

(** What a reader of XML makes of the references. *)
Definition references : list (string * ascii) :=
  [("&#34;", ascii_of_nat 34); ("&#39;", ascii_of_nat 39); ("&amp;", ascii_of_nat 38);
   ("&lt;", ascii_of_nat 60); ("&gt;", ascii_of_nat 62);
   ("&#x9;", ascii_of_nat 9); ("&#xA;", ascii_of_nat 10); ("&#xD;", ascii_of_nat 13)].

Fixpoint unescape (fuel : nat) (s : string) : option string :=
  match fuel, s with
  | _, EmptyString => Some ""
  | O, _ => None
  | S fuel', String c s' =>
      match find (fun e => HasPrefix s (fst e)) references with
      | Some (e, x) => String x <$> unescape fuel' (str_drop (String.length e) s)
      | None => String c <$> unescape fuel' s'
      end
  end.

(** Characters XML can hold at all. *)
Definition xml_char (c : ascii) : bool :=
  let n := nat_of_ascii c in negb (n <? 32)%nat || (n =? 9)%nat || (n =? 10)%nat || (n =? 13)%nat.
Fixpoint xml_text (s : string) : bool :=
  match s with EmptyString => true | String c s' => xml_char c && xml_text s' end.

(** ** Lemmas *)

(** One escaped character in front of any text: it is read back, and the rest
    is left. *)
Definition reads_back (c : ascii) : bool :=
  match escape_byte c with
  | String x "" => negb (Ascii.eqb x "&"%char) && Ascii.eqb x c
  | e => match find (fun r => bool_decide (fst r = e)) references with
         | Some (_, x) => Ascii.eqb x c
         | None => false
         end
  end.

Lemma escape_byte_reads_back c : xml_char c = true -> reads_back c = true.
Proof.
  assert (H : forallb (fun n => let c := ascii_of_nat n in implb (xml_char c) (reads_back c))
    (seq 0 256) = true) by (vm_compute; reflexivity).
  intros Hc. rewrite forallb_forall in H. specialize (H (nat_of_ascii c)).
  cbv zeta in H. rewrite ascii_nat_embedding, Hc in H. apply H.
  apply in_seq. split; [lia|]. apply nat_ascii_bounded.
Qed.

Lemma find_reference_plain x rest : x <> "&"%char ->
  find (fun e => HasPrefix (String x rest) (fst e)) references = None.
Proof.
  intros Hx. unfold references. cbn [find fst]. unfold HasPrefix. cbn [String.prefix].
  destruct (ascii_dec "&" x) as [<-|_]; [done|reflexivity].
Qed.

Lemma find_reference_escaped e x rest : In (e, x) references ->
  find (fun r => HasPrefix (e +:+ rest) (fst r)) references = Some (e, x).
Proof.
  intros H. repeat (destruct H as [[= <- <-]|H]; [unfold HasPrefix; cbn; destruct rest; reflexivity|]).
  destruct H.
Qed.

Lemma unescape_cons c s fuel r : xml_char c = true ->
  unescape fuel s = Some r -> unescape (S fuel) (escape_byte c +:+ s) = Some (String c r).
Proof.
  intros Hc Hr. apply escape_byte_reads_back in Hc. unfold reads_back in Hc.
  destruct (escape_byte c) as [|x [|y e]] eqn:Ee; [by vm_compute in Hc| |].
  - apply andb_prop in Hc as [Ha Hx]. apply Ascii.eqb_eq in Hx. subst x.
    change (String c "" +:+ s) with (String c s). cbn [unescape].
    rewrite find_reference_plain; [by rewrite Hr|]. intros ->. by rewrite Ascii.eqb_refl in Ha.
  - set (w := String x (String y e)) in *.
    destruct (find _ references) as [[e' x']|] eqn:Ef; [|done].
    apply Ascii.eqb_eq in Hc. subst x'. apply find_some in Ef as [Hin Hw].
    apply bool_decide_eq_true in Hw. cbn [fst] in Hw. subst e'.
    change (w +:+ s) with (String x (String y e +:+ s)). cbn [unescape].
    change (String x (String y e +:+ s)) with (w +:+ s).
    rewrite (find_reference_escaped w c s Hin), str_drop_app, Hr. reflexivity.
Qed.

Lemma unescape_EscapeText s : xml_text s = true -> forall fuel, (String.length s <= fuel)%nat ->
  unescape fuel (EscapeText s) = Some s.
Proof.
  induction s as [|c s IH]; intros Ht fuel Hf; [by destruct fuel|].
  cbn in Ht. apply andb_prop in Ht as [Hc Ht]. destruct fuel as [|fuel]; [cbn in Hf; lia|].
  cbn [EscapeText]. apply unescape_cons; [done|]. apply IH; [done|]. cbn in Hf. lia.
Qed.

Section CallLemmas.
Context {L : ConfigLib} {RL : RpcLib} {E : ErrorLib}.

Lemma findRpc_Input d i name enc rpc ns :
  findRpc d i name enc = Some (rpc, ns) -> exists input, Input rpc = Some input.
Proof.
  unfold findRpc. intros H. do 4 apply option.bind_Some in H as (? & _ & H).
  destruct (Input _) as [input|] eqn:Ei; [|done]. injection H as <- _. eauto.
Qed.

Lemma findRpc_moduleId d i name enc rpc ns :
  findRpc d i name enc = Some (rpc, ns) ->
  exists moduleId m rpcs, getModuleId (d_ms d) i enc = Some moduleId /\
    Modules (d_ms d) !! moduleId = Some m /\ Namespace m = ns /\
    Rpcs (d_ms d) !! ns = Some rpcs /\ rpcs !! name = Some rpc.
Proof.
  unfold findRpc. intros H. apply option.bind_Some in H as (mid & Hid & H).
  apply option.bind_Some in H as (m & Hm & H). apply option.bind_Some in H as (rpcs & Hr & H).
  apply option.bind_Some in H as (r & Hn & H). destruct (Input r); [|done]. injection H as <- <-.
  by exists mid, m, rpcs.
Qed.
End CallLemmas.

(** ** Properties *)

(** What a client gets of a module's text is the text, for a reader of XML. *)
Theorem SchemaGet_roundtrip {L : ConfigLib} {RL : RpcLib} d name format out data :
  SchemaGet d name format = (out, None) -> getModuleOrSubmoduleSchema d name = inl data ->
  xml_text data = true -> unescape (String.length data) out = Some data.
Proof.
  unfold SchemaGet. intros H Hd Ht. rewrite Hd in H. injection H as <-.
  by apply unescape_EscapeText.
Qed.

(** C15: a component is called at most once, on behalf of the client, and only
    for an RPC that its schema has, that a component serves, and that the
    client may call under the very module name the component is called by; the
    input is the client's as it is when it claims to be RFC 7951, and otherwise
    what the schema's decoder made of it.  Without a call there is an error;
    the daemon always answers. *)
Theorem CallRpc_guarded {L : ConfigLib} {RL : RpcLib} {E : ErrorLib} component d i name args enc calls :
  exists r calls', CallRpc component d i name args enc calls = Some (r, calls') /\
  (calls' = calls /\ (exists err, snd r = Some err) \/
   exists rpc ns input moduleId m model text,
     calls' = VciCall (d_ctx d) moduleId name text :: calls /\
     findRpc d i name enc = Some (rpc, ns) /\ Input rpc = Some input /\
     Modules (d_ms d) !! moduleId = Some m /\ Namespace m = ns /\
     GetModelNameForNamespace ns = Some model /\
     AuthorizeRPC (cx_Auth (d_ctx d)) (Uid (d_ctx d)) (Groups (d_ctx d)) moduleId name = true /\
     (enc = "rfc7951" /\ text = args \/
      enc <> "rfc7951" /\ exists tree, decodeTree enc input args = inl tree /\ text = ToRFC7951 input tree)).
Proof.
  unfold CallRpc. destruct (findRpc d i name enc) as [[rpc ns]|] eqn:Ef.
  2: { eexists _, calls. split; [reflexivity|]. left. eauto. }
  destruct (findRpc_Input _ _ _ _ _ _ Ef) as [input Hin].
  destruct (findRpc_moduleId _ _ _ _ _ _ Ef) as (moduleId & m & rpcs & Hid & Hm & Hns & _).
  destruct (GetModelNameForNamespace ns) as [model|] eqn:Eg.
  2: { eexists _, calls. split; [reflexivity|]. left. eauto. }
  rewrite Hid. cbn [default from_option id].
  destruct (AuthorizeRPC _ _ _ moduleId name) eqn:Ea; cbn [negb].
  2: { eexists _, calls. split; [reflexivity|]. left. eauto. }
  rewrite Hin. unfold handleVciRpc.
  destruct (convertEncoding input args enc "rfc7951") as [text|err] eqn:Ec.
  2: { eexists _, calls. split; [reflexivity|]. left. split; [done|]. cbn. eauto. }
  assert (Htext : enc = "rfc7951" /\ text = args \/
      enc <> "rfc7951" /\ exists tree, decodeTree enc input args = inl tree /\ text = ToRFC7951 input tree).
  { unfold convertEncoding in Ec. case_bool_decide as He; [left; by injection Ec|right].
    split; [done|]. destruct (decodeTree enc input args) as [tree|] eqn:Ed; [|done].
    exists tree. split; [done|]. cbn in Ec. by injection Ec. }
  unfold vrc_CallRpc, gets, modify, ret, bind. cbn.
  destruct (component calls (VciCall (d_ctx d) moduleId name text)) as [output|err];
    eexists _, _; (split; [reflexivity|]); right;
    exists rpc, ns, input, moduleId, m, model, text; by split_and!.
Qed.

(** ** A concrete module *)

Module SampleRpcs.
Definition clock : module := Mod "urn:clock" ("module <clock>" +:+ nl) "clock" [] ["ntp"; "ptp"] "<clock/>".
#[export] Instance rpcs : RpcLib (H := Sample.lib) :=
  @Build_RpcLib Sample.lib (fun _ => {["clock" := clock]}) (fun _ => ∅) unit unit
    (fun _ => Some tt) (fun _ => tt) (fun _ => {["urn:clock" := {["reset" := tt]}]}) string
    (fun _ s => inl s) (fun _ s => inl s) (fun _ s => inl s) (fun _ s => inl s)
    (fun _ s => s) (fun _ s => s) (fun _ s => s) id (fun _ m => map_to_list m)
    (fun ns => if bool_decide (ns = "urn:clock") then Some "clockd" else None).

Example unknown_encoding_refused :
  CallRpc (E := SampleFormat.errors) (RL := rpcs) (fun _ _ => inl "") (SampleDisp.disp Sample.allow)
    "clock" "reset" "{}" "yaml" [] =
  Some (("", Some (error_msg OperationFailedApplication "Unknown RPC (yaml) clock:reset")), []).
Proof. vm_compute. reflexivity. Qed.

Lemma SchemaGet_roundtrip_witness :
  SchemaGet (RL := rpcs) (SampleDisp.disp Sample.allow) "clock" "" = ("module &lt;clock&gt;&#xA;", None) /\
  unescape 15 "module &lt;clock&gt;&#xA;" = Some ("module <clock>" +:+ nl).
Proof.
  split; [vm_compute; reflexivity|].
  apply (SchemaGet_roundtrip (RL := rpcs) (SampleDisp.disp Sample.allow) "clock" ""
    "module &lt;clock&gt;&#xA;" ("module <clock>" +:+ nl)); vm_compute; reflexivity.
Defined.
End SampleRpcs.
