(* ===== verification/LoadKeys.v ===== *)
(** [server/load_keys.go]: loading the ssh keys of a user from a file into a
    session, and committing them; and the features the server announces. *)

From S2P Require Import Prelude GoLib Errors Rpc GoFmt External Configd LogLevel Sample Session.
From S2P Require Import StateTree Load EditConfig Commit SessionServer SessionMgr Service.
From S2P Require Import Expand CliFormat Server ConfigMgmt Daemon Dispatcher CommitRpc Templates.

Open Scope Z_scope.

(** ** Standard library *)

(** [bytes.TrimPrefix]. *)
Definition TrimPrefix (s prefix : string) : string :=
  if HasPrefix s prefix then str_drop (String.length prefix) s else s.

(** [bufio.Scanner] by lines: a carriage return before the newline goes, so
    does an empty last line; a line of 64 KiB or more ends the scan. *)
Definition drop_cr (line : string) : string :=
  match rev_string line with
  | String "013"%char r => rev_string r
  | _ => line
  end.
Fixpoint scan_from (lines : list string) : list string * option error :=
  match lines with
  | [] => ([], None)
  | line :: lines' =>
      if (65536 <=? Z.of_nat (String.length line)) then ([], Some (EGo "bufio.Scanner: token too long"))
      else let '(rest, err) := scan_from lines' in (drop_cr line :: rest, err)
  end.
Definition scan_lines (text : string) : list string * option error :=
  let lines := Split text "010"%char in
  scan_from (if bool_decide (last lines = Some "") then take (length lines - 1) lines else lines).

(** ** Keys *)

Class KeysLib := {
  PublicKey : Type;
  key_Type : PublicKey -> string;
  MarshalAuthorizedKey : PublicKey -> string;
  (** key, comment and options of a line *)
  ParseAuthorizedKey : string -> (PublicKey * string * list string) + error
}.

Definition loginSchemaPathForUser (user : string) : list string := ["system"; "login"; "user"; user].
Definition publicKeysSchemaPathForUser (user : string) : list string :=
  loginSchemaPathForUser user ++ ["authentication"; "public-keys"].

Section Keys.
Context {E : ErrorLib} {K : KeysLib}.

Record sshPublicKey := SshKey { sk_key : PublicKey; sk_Comment : string; sk_Options : list string }.

Definition Type_ (k : sshPublicKey) : string := key_Type (sk_key k).
Definition Base64Key (k : sshPublicKey) : string :=
  trim_right is_nl (TrimPrefix (MarshalAuthorizedKey (sk_key k)) (Type_ k +:+ " ")).
Definition OptionsStr (k : sshPublicKey) : string := Join (sk_Options k) ",".

(** The paths to set, as [pathutil.Pathstr] writes them. *)
Definition ConfigurationCommands {L : ConfigLib} (k : sshPublicKey) (user : string) : list string :=
  let base := publicKeysSchemaPathForUser user ++ [sk_Comment k] in
  [Pathstr (base ++ ["type"; Type_ k]); Pathstr (base ++ ["key"; Base64Key k])]
  ++ (let opts := OptionsStr k in
      if bool_decide (opts <> "") then [Pathstr (base ++ ["options"; opts])] else []).

(** [loadKeysParse]: the callback on each key, line after line, until
    something fails; [readErr] is the end of the reader. *)
Section Parse.
Context {S : Type} (callback : sshPublicKey -> M S (option error)).
Fixpoint parse_lines (lines : list string) (lineNum : Z) (scanErr : option error) : M S (option error) :=
  match lines with
  | [] => ret scanErr
  | line :: lines' =>
      let lineNum := lineNum + 1 in
      if bool_decide (line = "") || HasPrefix line "#" then parse_lines lines' lineNum scanErr
      else
        match ParseAuthorizedKey line with
        | inr err =>
            ret (Some (EGo ("On line " +:+ Itoa lineNum +:+ ": " +:+ Error err)))
        | inl (key, comment, options) =>
            err <- callback (SshKey key comment options) ;;
            match err with
            | Some err => ret (Some err)
            | None => parse_lines lines' lineNum scanErr
            end
        end
  end.
Definition loadKeysParse (text : string) (readErr : option error) : M S (option error) :=
  let '(lines, tooLong) := scan_lines text in
  parse_lines lines 0 (match tooLong with Some e => Some e | None => readErr end).
End Parse.
End Keys.

(** ** The method *)

Section LoadKeys.
Context {L : ConfigLib} {E : ErrorLib} {O : OSLib} {K : KeysLib}.
Context {W : Type} `{SS : !SessionService W}.
Context (ErrPath : list string -> string).
Context (config_mgmt : list string -> ConfirmedCommitInfo -> ConfirmedCommitInfo * string * bool).
(** How the reading of a process's output ends. *)
Context (reader_error : list string -> option error).

Abbreviation St := (Server.sstate (W := W)).
Abbreviation ctx d := (d_ctx d).

(** The commands of one key; the first that fails ends it. *)
Fixpoint set_each (d : Disp) (sid : string) (cmds : list string) : M St (option error) :=
  match cmds with
  | [] => ret None
  | cmd :: cmds' =>
      match normalizePath d (Makepath cmd) with
      | inr err => ret (Some err)
      | inl normalizedCmd =>
          r <- setInternal d sid normalizedCmd ;;
          match snd r with
          | Some err => ret (Some err)
          | None => set_each d sid cmds'
          end
      end
  end.
Definition setPublicKeyForUser (d : Disp) (sid user : string) (key : sshPublicKey) : M St (option error) :=
  set_each d sid (ConfigurationCommands key user).

Definition userIsConfigured (d : Disp) (sid user : string) : M St (option error) :=
  r <- Exists d AUTO sid (Pathstr (loginSchemaPathForUser user)) ;;
  match r with
  | (_, Some err) => ret (Some err)
  | (userExists, None) =>
      if negb userExists
      then ret (Some (error_msg OperationFailedApplication
             ("User " +:+ user +:+ " does not exist in the configuration")))
      else ret None
  end.

Definition loadKeyCommandArgs (d : Disp) (user source routingInstance : string) : option commandArgs :=
  newCommandArgsForAaa ErrPath d "loadkey"
    ([user] ++ (if bool_decide (routingInstance <> "") then ["routing-instance"; routingInstance] else [])
     ++ [source]) [].

Definition loadKeysIsSupported (d : Disp) : bool :=
  fst (TmplValidatePath d (Pathstr (publicKeysSchemaPathForUser "@@"))).

(** The reader, as the command it is the output of. *)
Definition user_file_cmd (d : Disp) (file : string) : list string := newCommandAsCaller d ["cat"; file].
Definition remote_file_cmd (d : Disp) (uri routingInstance : string) : list string :=
  newCommandAsCaller d
    ([transferUrlBin] ++ (if bool_decide (routingInstance <> "") then ["--ri=" +:+ routingInstance] else [])
     ++ [uri]).

Definition loadKeysFrom (d : Disp) (sid user source : string) (cmd : list string)
    (args : option commandArgs) : M St (string * option error) :=
  err <- loadKeysParse (setPublicKeyForUser d sid user) (user_reader cmd) (reader_error cmd) ;;
  match err with
  | Some err =>
      ret ("", Some (error_msg OperationFailedApplication
                       ("Loading key file failed" +:+ nl +:+ Error err)))
  | None =>
      changed <- SessionChanged d sid ;;
      if negb (fst changed) then ret ("No keys were loaded from '" +:+ source +:+ "'", None)
      else
        ConfirmSilent config_mgmt ;;;
        (* the arguments are nil for configd itself *)
        match args with
        | None => go_panic
        | Some args =>
            r <- commitInternal ErrPath config_mgmt d sid (Join (ca_cmd args) " ") false 0 false ;;
            match r with
            | (out, Some err) => ret (out, Some err)
            | (out, None) =>
                ret ((if bool_decide (out <> "") then trim_right is_nl out +:+ nl2 else "")
                     +:+ "Loaded keys from '" +:+ source +:+ "'", None)
            end
        end
  end.

Definition loadKeysInternal (d : Disp) (sid user source routingInstance : string) (local : bool)
    (args : option commandArgs) : M St (string * option error) :=
  err <- userIsConfigured d sid user ;;
  match err with
  | Some err => ret ("", Some err)
  | None =>
      if local then
        let source := parseLocalPath source in
        match validLocalConfigPath d source with
        | Some err => ret ("", Some err)
        | None => loadKeysFrom d sid user source (user_file_cmd d source) args
        end
      else loadKeysFrom d sid user source (remote_file_cmd d source routingInstance) args
  end.

Definition LoadKeys (d : Disp) (sid user source routingInstance : string) : M St (string * option error) :=
  if negb (loadKeysIsSupported d) then not_supported ""
  else
    match parseMgmtURI source with
    | inr err => ret ("", Some err)
    | inl (local, redactedSource) =>
        let args := loadKeyCommandArgs d user redactedSource routingInstance in
        authorised_cmd d "" args (loadKeysInternal d sid user source routingInstance local args)
    end.

(** ** Features *)

Definition RoutingInstanceFeature : string := "routing-instance".
Definition ConfigManagementFeature : string := "config-mgmt".
Definition LoadKeysFeature : string := "loadkeys".

Definition stat_ok (file : string) : bool :=
  match os_Stat file with IsFile | IsDirectory => true | _ => false end.

Definition GetConfigSystemFeatures (d : Disp) : gset string * option error :=
  let feats : gset string := ∅ in
  let feats := if stat_ok "/usr/sbin/chvrf" then {[RoutingInstanceFeature]} ∪ feats else feats in
  let feats := if stat_ok "/opt/vyatta/sbin/vyatta-config-mgmt.pl"
               then {[ConfigManagementFeature]} ∪ feats else feats in
  let feats := if loadKeysIsSupported d then {[LoadKeysFeature]} ∪ feats else feats in
  (feats, None).
End LoadKeys.

(** ** Lemmas *)

Section Lemmas.
Context {L : ConfigLib} {E : ErrorLib} {O : OSLib} {K : KeysLib}.
Context {W : Type} `{SS : !SessionService W}.
Context (ErrPath : list string -> string).
Context (config_mgmt : list string -> ConfirmedCommitInfo -> ConfirmedCommitInfo * string * bool).
Context (reader_error : list string -> option error).

Abbreviation St := (Server.sstate (W := W)).

(** Nothing runs, is logged or accounted for, and no confirmed commit changes. *)
Definition unseen (s0 s : St) : Prop := st_job s = st_job s0 /\ st_trace s = st_trace s0.

Lemma unseen_on_svc {A} s0 (m : M W A) : preserves (unseen s0) (on_svc m).
Proof.
  intros s a s' [Hj Ht]. unfold on_svc. destruct (m (st_sess s)) as [[b w]|]; [|done].
  intros [= <- <-]. by split.
Qed.

Lemma unseen_with_session {A} s0 d (zero : A) sid k :
  preserves (unseen s0) k -> preserves (unseen s0) (with_session d zero sid k).
Proof.
  intros Hk. apply preserves_bind; [apply preserves_gets|]. by intros [e|]; [apply preserves_ret|].
Qed.

Lemma unseen_set_each s0 d sid cmds : preserves (unseen s0) (set_each d sid cmds).
Proof.
  induction cmds as [|cmd cmds IH]; cbn [set_each]; [apply preserves_ret|].
  destruct (normalizePath d (Makepath cmd)) as [p|e]; [|apply preserves_ret].
  apply preserves_bind.
  - unfold setInternal. apply unseen_with_session.
    apply preserves_bind; [apply unseen_on_svc|]. intros [e|]; apply preserves_ret.
  - intros [r [e|]]; [apply preserves_ret|exact IH].
Qed.

Lemma preserves_parse {S} (I : S -> Prop) callback :
  (forall k, preserves I (callback k)) ->
  forall lines n e, preserves I (parse_lines callback lines n e).
Proof.
  intros Hc. induction lines as [|line lines IH]; intros n e; cbn [parse_lines]; [apply preserves_ret|].
  destruct (_ || _); [apply IH|].
  destruct (ParseAuthorizedKey line) as [[[key comment] options]|err]; [|apply preserves_ret].
  apply preserves_bind; [apply Hc|]. intros [err|]; [apply preserves_ret|apply IH].
Qed.

Lemma unseen_parse s0 d sid user text e :
  preserves (unseen s0) (loadKeysParse (setPublicKeyForUser d sid user) text e).
Proof.
  unfold loadKeysParse. destruct (scan_lines text) as [lines tooLong].
  apply preserves_parse. intros k. apply unseen_set_each.
Qed.

(** ** What a file is *)

(** A line with a key: not empty, no comment. *)
Definition key_line (line : string) : Prop := line <> "" /\ HasPrefix line "#" = false.

(** The keys of some lines, all of which can be read. *)
Inductive keys_in : list string -> list sshPublicKey -> Prop :=
  | keys_nil : keys_in [] []
  | keys_skip line lines keys : line = "" \/ HasPrefix line "#" = true ->
      keys_in lines keys -> keys_in (line :: lines) keys
  | keys_key line lines keys key comment options : key_line line ->
      ParseAuthorizedKey line = inl (key, comment, options) ->
      keys_in lines keys -> keys_in (line :: lines) (SshKey key comment options :: keys).

(** Everything that is set for some keys, in order, until something fails. *)
Definition set_keys (d : Disp) (sid user : string) (keys : list sshPublicKey) : M St (option error) :=
  set_each d sid (flat_map (fun k => ConfigurationCommands k user) keys).

Lemma set_each_app d sid l1 l2 s : set_each d sid (l1 ++ l2) s =
  match set_each d sid l1 s with
  | Some (None, s1) => set_each d sid l2 s1
  | r => r
  end.
Proof.
  revert s. induction l1 as [|x l1 IH]; intros s; cbn [app set_each]; [done|].
  destruct (normalizePath d (Makepath x)) as [p|e]; [|done]. unfold bind.
  destruct (setInternal d sid p s) as [[r s1]|]; [|done]. destruct (snd r); [done|apply IH].
Qed.

(** Lines that can be read and set are done with, and what follows is read. *)
Lemma parse_lines_done d sid user pre keys : keys_in pre keys -> forall rest n e s s1,
  set_keys d sid user keys s = Some (None, s1) ->
  parse_lines (setPublicKeyForUser d sid user) (pre ++ rest) n e s =
  parse_lines (setPublicKeyForUser d sid user) rest (n + Z.of_nat (length pre)) e s1.
Proof.
  induction 1 as [|line lines keys Hs _ IH|line lines keys key comment options [H1 H2] Hp _ IH];
    intros rest n e s s1 H.
  - injection H as ->. cbn [app length]. by rewrite Z.add_0_r.
  - cbn [app parse_lines]. assert (Hb : bool_decide (line = "") || HasPrefix line "#" = true).
    { destruct Hs as [->| ->]; [done|]. by rewrite orb_true_r. }
    rewrite Hb, (IH rest (n + 1) e s s1 H). f_equal. cbn [length]. lia.
  - cbn [app parse_lines]. rewrite bool_decide_false, H2, Hp by done. cbn [orb].
    unfold set_keys in H. cbn [flat_map] in H. rewrite set_each_app in H.
    unfold setPublicKeyForUser at 1, bind.
    destruct (set_each d sid (ConfigurationCommands _ user) s) as [[[err|] s0]|]; try done.
    rewrite (IH rest (n + 1) e s0 s1 H). f_equal. cbn [length]. lia.
Qed.

(** ** Properties *)

(** How reading a file goes wrong after [n] lines: the reader fails; the next
    line has no key that can be read; or its key cannot be set. *)
Inductive goes_wrong (d : Disp) (sid user : string) (n : Z) (readErr : option error) :
    list string -> St -> error -> St -> Prop :=
  | wrong_end err s : readErr = Some err -> goes_wrong d sid user n readErr [] s err s
  | wrong_line line rest err s : key_line line -> ParseAuthorizedKey line = inr err ->
      goes_wrong d sid user n readErr (line :: rest) s
        (EGo ("On line " +:+ Itoa (n + 1) +:+ ": " +:+ Error err)) s
  | wrong_key line rest key comment options s err s' : key_line line ->
      ParseAuthorizedKey line = inl (key, comment, options) ->
      set_each d sid (ConfigurationCommands (SshKey key comment options) user) s = Some (Some err, s') ->
      goes_wrong d sid user n readErr (line :: rest) s err s'.


(** Configd itself cannot load keys: for it there are no command arguments,
    and as soon as a file leaves the session with changes, the text of the
    commit is taken from them, which ends the daemon. *)
Theorem LoadKeys_configd_panics d sid user source redactedSource routingInstance cmd s s1 err s2 :
  Configd (d_ctx d) = true ->
  loadKeysParse (setPublicKeyForUser d sid user) (user_reader cmd) (reader_error cmd) s = Some (None, s1) ->
  SessionChanged d sid s1 = Some ((true, err), s2) ->
  loadKeysFrom ErrPath config_mgmt reader_error d sid user source cmd
    (loadKeyCommandArgs ErrPath d user redactedSource routingInstance) s = None.
Proof.
  intros Hc Hp Hch. unfold loadKeyCommandArgs, newCommandArgsForAaa. rewrite Hc.
  unfold loadKeysFrom. rewrite (bind_eq _ _ s _ s1 Hp), (bind_eq _ _ s1 _ s2 Hch). cbn [fst negb].
  destruct (spawn_run config_mgmt ["--action=confirm-silent"] s2) as (r & s3 & E3 & _).
  unfold ConfirmSilent. by rewrite (bind_eq _ _ s2 _ s3 E3).
Qed.
End Lemmas.

(** ** Concrete keys *)

Module SampleKeys.
Definition self : Context :=
  {| Configd := true; cx_Auth := Sample.allow; Pid := 5; Uid := 7; User := "configd"; UserHome := "/";
     Groups := []; Superuser := false; cx_Config := cx_Config (Sample.client 5 7 Sample.allow); Noexec := false |}.
Definition d : Disp (L := Sample.lib) :=
  {| d_ms := (Sample.root : ModelSet (ConfigLib := Sample.lib)); d_msFull := Sample.root; d_ctx := self |}.
#[export] Instance keys : KeysLib :=
  {| PublicKey := string; key_Type _ := "ssh-rsa"; MarshalAuthorizedKey k := "ssh-rsa " +:+ k +:+ nl;
     ParseAuthorizedKey line := if HasPrefix line "?" then inr (EGo "no key found") else inl (line, "me", []) |}.

Example base64_of_a_key : Base64Key (SshKey "AAAA" "me" []) = "AAAA".
Proof. reflexivity. Qed.
Example lines_of_a_file : scan_lines ("a" +:+ nl +:+ nl +:+ "#b") = (["a"; ""; "#b"], None).
Proof. vm_compute. reflexivity. Qed.

(** An empty file is enough when the session has changes already. *)
Lemma LoadKeys_configd_panics_witness :
  loadKeysFrom (L := Sample.lib) (E := SampleFormat.errors) (O := SampleOS.os) (SS := SampleRpc.service)
    SampleRpc.ErrPath SampleRpc.broken (fun _ => None) d "a" "joe" "f" []
    (loadKeyCommandArgs (L := Sample.lib) SampleRpc.ErrPath d "joe" "f" "")
    (SampleRpc.state (JobInfo "" "")) = None.
Proof.
  assert (Hp : match loadKeysParse (E := SampleFormat.errors)
      (setPublicKeyForUser (L := Sample.lib) (E := SampleFormat.errors) (SS := SampleRpc.service) d "a" "joe")
      (user_reader (OSLib := SampleOS.os) []) None (SampleRpc.state (JobInfo "" "")) with
    | Some (None, s1) =>
        match SessionChanged (L := Sample.lib) (SS := SampleRpc.service) d "a" s1 with
        | Some ((true, _), _) => true | _ => false end
    | _ => false end = true) by (vm_compute; reflexivity).
  destruct (loadKeysParse (E := SampleFormat.errors)
      (setPublicKeyForUser (L := Sample.lib) (E := SampleFormat.errors) (SS := SampleRpc.service) d "a" "joe")
      (user_reader (OSLib := SampleOS.os) []) None (SampleRpc.state (JobInfo "" "")))
    as [[[e|] s1]|] eqn:E1; try discriminate Hp.
  destruct (SessionChanged (L := Sample.lib) (SS := SampleRpc.service) d "a" s1)
    as [[[[] e] s2]|] eqn:E2; try discriminate Hp.
  exact (LoadKeys_configd_panics (L := Sample.lib) (E := SampleFormat.errors) (O := SampleOS.os)
    (SS := SampleRpc.service) SampleRpc.ErrPath SampleRpc.broken (fun _ => None) d "a" "joe" "f" "f" ""
    [] (SampleRpc.state (JobInfo "" "")) s1 e s2 eq_refl E1 E2).
Defined.

(** A schema with keys, a session over it, and a file with a comment, a key, a
    line that is none and another key. *)
Definition schema : snode :=
  SNode KTree "root" "" false TOther [] "" []
    [Sample.container "system" false [Sample.container "login" false
       [Sample.list_node "user" "name" [Sample.container "authentication" false
          [Sample.list_node "public-keys" "name" (map Sample.leaf ["type"; "key"; "options"])]]]]] [].
Definition joe : Disp (L := Sample.lib) :=
  {| d_ms := (schema : ModelSet (ConfigLib := Sample.lib)); d_msFull := schema;
     d_ctx := Sample.client 10 7 Sample.allow |}.
Definition start : Server.sstate (W := SampleRpc.W) :=
  SState (JobInfo "" "") []
    (set_table (L := Sample.lib) {["a" := NewSession (L := Sample.lib) "a" schema schema (Some 7)]} SampleDaemon.empty).
Definition os : OSLib := {|
  os_Stat := os_Stat (OSLib := SampleOS.os); os_Open := os_Open (OSLib := SampleOS.os);
  gunzip := gunzip (OSLib := SampleOS.os); TempFile := None;
  write_temp := write_temp (OSLib := SampleOS.os); os_Chown _ := None;
  os_Output := os_Output (OSLib := SampleOS.os); os_CombinedOutput _ _ := ("", None);
  user_reader _ := "#mine" +:+ nl +:+ "AAAA" +:+ nl +:+ "?" +:+ nl +:+ "BBBB" +:+ nl;
  url_Parse := url_Parse (OSLib := SampleOS.os) |}.
Abbreviation set_in_a keys := (set_keys (L := Sample.lib) (E := SampleFormat.errors) (SS := SampleRpc.service)
  joe "a" "joe" keys start).
Definition first_key : sshPublicKey := SshKey "AAAA" "me" [].
Definition keys_set (s : Server.sstate (W := SampleRpc.W)) : option (list (list string)) :=
  (fun x : session (L := Sample.lib) => map (drop 4) (s_candidate x : list (list string))) <$> dm_table (L := Sample.lib) (st_sess s) !! "a".

End SampleKeys.
