(* ===== verification/Conn.v ===== *)
(** [server/conn.go] and the method table of [server/server.go]: how a JSON
    request becomes the call of a method and its outcome a response, and what a
    connection does when it ends. *)

From S2P Require Import Prelude GoLib Errors Rpc External Configd LogLevel Sample Session.
From S2P Require Import SessionServer SessionMgr Service Expand CliFormat Server.
From S2P Require Import Commit StateTree EditConfig Daemon ConfigMgmt Dispatcher CommitRpc.

Open Scope Z_scope.

(** ** Values *)

(** What [encoding/json] decodes into an [interface{}]; a float64 is a quotient. *)
Inductive json :=
  | JNull
  | JBool (b : bool)
  | JNum (num : Z) (den : positive)
  | JStr (s : string)
  | JArr (l : list json)
  | JObj (l : list (string * json)).

(** The parameter types of the methods. *)
Inductive gotype := GString | GBool | GInt | GDB | GFlags.

#[export] Instance gotype_eq_dec : EqDecision gotype.
Proof. solve_decision. Defined.

Inductive goval := VString (s : string) | VBool (b : bool) | VInt (z : Z) | VFlags (l : list (string * json)).

(** Their result types. *)
Inductive gores :=
  | RBool | RString | RNumber | RMapString | RMapInt | RMapStruct | RSlice | RError | RErrors.

#[export] Instance gores_eq_dec : EqDecision gores.
Proof. solve_decision. Defined.

(** [reflect.Type.Name()]. *)
Definition gotype_Name (t : gotype) : string :=
  match t with GString => "string" | GBool => "bool" | GInt => "int" | GDB => "DB" | GFlags => "" end.
Definition json_Name (j : json) : string :=
  match j with JBool _ => "bool" | JNum _ _ => "float64" | JStr _ => "string" | _ => "" end.

(** ** The methods: [NewSrv] *)

Record go_method := Method { m_name : string; m_in : list gotype; m_out : list gores }.

(** Two results, the second an error. *)
Definition is_rpc (m : go_method) : bool :=
  match m_out m with [_; RError] => true | _ => false end.

(** The exported methods of [Disp], as reflection lists them. *)
Definition Disp_methods : list go_method := [
  Method "AuthAuthorize" [GString; GInt] [RBool; RError];
  Method "AuthGetPerms" [] [RMapString; RError];
  Method "CallRpc" [GString; GString; GString; GString] [RString; RError];
  Method "CallRpcXml" [GString; GString; GString] [RString; RError];
  Method "CancelCommit" [GString; GString; GString; GBool; GBool] [RString; RError];
  Method "Comment" [GString; GString] [RBool; RError];
  Method "Commit" [GString; GString; GBool] [RString; RError];
  Method "CommitConfirm" [GString; GString; GBool; GInt] [RString; RError];
  Method "Compare" [GString; GString; GString; GBool] [RString; RError];
  Method "CompareConfigRevisions" [GString; GString; GString] [RString; RError];
  Method "CompareSessionChanges" [GString] [RString; RError];
  Method "Confirm" [GString] [RString; RError];
  Method "ConfirmPersistId" [GString] [RString; RError];
  Method "ConfirmSilent" [GString] [RString; RError];
  Method "ConfirmedCommit" [GString; GString; GBool; GString; GString; GString; GBool] [RString; RError];
  Method "ConfirmingCommit" [] [RString; RError];
  Method "Copy" [GString; GString; GString] [RBool; RError];
  Method "CopyConfig" [GString; GString; GString; GString; GString; GString; GString] [RString; RError];
  Method "Delete" [GString; GString] [RBool; RError];
  Method "Discard" [GString] [RBool; RError];
  Method "EditConfigXML" [GString; GString; GString; GString; GString; GString] [RString; RError];
  Method "EditGetEnv" [GString] [RMapString; RError];
  Method "Exists" [GDB; GString; GString] [RBool; RError];
  Method "Expand" [GString] [RString; RError];
  Method "ExpandWithPrefix" [GString; GString; GInt] [RString; RError];
  Method "ExtractArchive" [GString; GString; GString] [RString; RError];
  Method "Get" [GDB; GString; GString] [RSlice; RError];
  Method "GetCommitLog" [] [RMapString; RError];
  Method "GetCompletions" [GString; GBool; GString] [RMapString; RError];
  Method "GetConfigSystemFeatures" [] [RMapStruct; RError];
  Method "GetDeviations" [] [RMapString; RError];
  Method "GetFeatures" [] [RMapString; RError];
  Method "GetHelp" [GString; GBool; GString] [RMapString; RError];
  Method "GetModuleSchemas" [] [RString; RError];
  Method "GetSchemas" [] [RString; RError];
  Method "Load" [GString; GString] [RBool; RError];
  Method "LoadFrom" [GString; GString; GString] [RBool; RError];
  Method "LoadKeys" [GString; GString; GString; GString] [RString; RError];
  Method "LoadReportWarnings" [GString; GString] [RBool; RError];
  Method "Merge" [GString; GString] [RBool; RError];
  Method "MergeReportWarnings" [GString; GString] [RBool; RError];
  Method "MigrateConfigFile" [GString] [RString; RError];
  Method "NodeGetComment" [GString; GString] [RMapInt; RError];
  Method "NodeGetCompleteEnv" [GString; GString] [RMapInt; RError];
  Method "NodeGetStatus" [GDB; GString; GString] [RNumber; RError];
  Method "NodeGetType" [GString; GString] [RNumber; RError];
  Method "NodeIsDefault" [GDB; GString; GString] [RBool; RError];
  Method "ReadConfigFile" [GString] [RString; RError];
  Method "ReadConfigFileRaw" [GString] [RString; RError];
  Method "Rename" [GString; GString; GString] [RBool; RError];
  Method "Rollback" [GString; GString; GString; GBool] [RString; RError];
  Method "Save" [GString] [RBool; RError];
  Method "SaveTo" [GString; GString] [RBool; RError];
  Method "SchemaGet" [GString; GString] [RString; RError];
  Method "SessionChanged" [GString] [RBool; RError];
  Method "SessionExists" [GString] [RBool; RError];
  Method "SessionGetEnv" [GString] [RMapString; RError];
  Method "SessionLock" [GString] [RNumber; RError];
  Method "SessionLocked" [GString] [RNumber; RError];
  Method "SessionMarkSaved" [GString] [RBool; RError];
  Method "SessionMarkUnsaved" [GString] [RBool; RError];
  Method "SessionSaved" [GString] [RBool; RError];
  Method "SessionSetup" [GString] [RBool; RError];
  Method "SessionSetupShared" [GString] [RBool; RError];
  Method "SessionTeardown" [GString] [RBool; RError];
  Method "SessionUnlock" [GString] [RNumber; RError];
  Method "Set" [GString; GString] [RString; RError];
  Method "SetConfigDebug" [GString; GString; GString] [RString; RError];
  Method "Show" [GDB; GString; GString; GBool] [RString; RError];
  Method "ShowConfigWithContextDiffs" [GString; GString; GBool] [RString; RError];
  Method "ShowDefaults" [GDB; GString; GString; GBool] [RString; RError];
  Method "TmplGet" [GString] [RMapString; RError];
  Method "TmplGetAllowed" [GString; GString] [RSlice; RError];
  Method "TmplGetChildren" [GString] [RSlice; RError];
  Method "TmplValidatePath" [GString] [RBool; RError];
  Method "TmplValidateValues" [GString] [RBool; RError];
  Method "TreeGet" [GDB; GString; GString; GString; GFlags] [RString; RError];
  Method "TreeGetFull" [GDB; GString; GString; GString; GFlags] [RString; RError];
  Method "TreeGetFullWithWarnings" [GDB; GString; GString; GString; GFlags] [RString; RError; RErrors];
  Method "Validate" [GString] [RString; RError];
  Method "ValidateConfig" [GString; GString; GString] [RString; RError];
  Method "ValidatePath" [GString; GString] [RString; RError]
].

(** [srv.m]. *)
Definition srv_m : list go_method := List.filter is_rpc Disp_methods.
Definition find_method (name : string) : option go_method :=
  find (fun m => bool_decide (m_name m = name)) srv_m.

(** ** Arguments: [Call] *)

(** A value of the same type is taken as it is, a number for an integer is
    converted (rounded towards zero; values no [int] holds are left to the
    machine), and nothing else is convertible. *)
Inductive arg_result := ArgOk (v : goval) | ArgBad | ArgNil.

Definition convert (j : json) (t : gotype) : arg_result :=
  match j, t with
  | JNull, _ => ArgNil                (* the type of nil is nil: the next call dereferences it *)
  | JStr s, GString => ArgOk (VString s)
  | JBool b, GBool => ArgOk (VBool b)
  | JNum n d, (GInt | GDB) => ArgOk (VInt (Z.quot n (Z.pos d)))
  | JObj l, GFlags => ArgOk (VFlags l)
  | _, _ => ArgBad
  end.

(** The loop over the arguments; [None] is a panic. *)
Fixpoint convert_args (method : string) (args : list json) (params : list gotype)
  : option (list goval + error) :=
  match args, params with
  | v :: args', t :: params' =>
      match convert v t with
      | ArgNil => None
      | ArgBad => Some (inr (EArg method (json_Name v) (gotype_Name t)))
      | ArgOk x =>
          match convert_args method args' params' with
          | Some (inl xs) => Some (inl (x :: xs))
          | r => r
          end
      end
  | _, _ => Some (inl [])
  end.

Section Call.
Context {S R : Type}.
(** [m.Func.Call] *)
Context (func : string -> list goval -> M S (R * option error)).

Definition Call (ctx : Context) (method : string) (args : list json) : M S (option R * option error) :=
  match find_method method with
  | None => ret (None, Some (EMeth method))
  | Some m =>
      if negb (AuthorizeFn (cx_Auth ctx) (Uid ctx) (Groups ctx) method) then ret (None, Some access_denied)
      else if negb (Nat.eqb (length args) (length (m_in m))) then
        ret (None, Some (EArgN method (length args) (length (m_in m))))
      else
        match convert_args method args (m_in m) with
        | None => go_panic
        | Some (inr err) => ret (None, Some err)
        | Some (inl vals) => r <- func method vals ;; ret (Some (fst r), snd r)
        end
  end.
End Call.

(** ** Responses *)

Record Response R := Resp {
  rs_Result : option R;
  rs_Error : option string;
  rs_MgmtErrList : list error;
  rs_Id : Z
}.
Arguments Resp {R} _ _ _ _.
Arguments rs_Result {R} _.
Arguments rs_Error {R} _.
Arguments rs_MgmtErrList {R} _.
Arguments rs_Id {R} _.

Section Response.
Context {EL : ErrorLib} {R : Type}.
(** The types of mgmterror that are a [MgmtErrorRef]. *)
Context (MgmtErrorRef : error -> bool).

Definition newResponse (result : option R) (err : option error) (id : Z) : Response R :=
  match err with
  | Some (EMgmtList val) => Resp None None val id
  | Some err => if MgmtErrorRef err then Resp None None [err] id else Resp None (Some (Error err)) [] id
  | None => Resp result None [] id
  end.

End Response.

(** ** The credentials of a connection: [Handle] *)

(** [getLoginUid]: -1 is an unset login uid. *)
Definition getLoginUid (GetPidLoginuid : Z -> Z + error) (pid : Z) : Z * option error :=
  match GetPidLoginuid pid with
  | inr e => (0, Some e)
  | inl u => if u =? 2 ^ 32 - 1 then (0, Some (ELoginPid pid)) else (u, None)
  end.

Definition IsLoginPidError (err : error) : bool :=
  match err with ELoginPid _ => true | _ => false end.

(** [getCreds]: the process at the other end (a socket without credentials is an
    error), and its user. *)
Definition getCreds (File : option error) (GetsockoptUcred : Z + error) (GetPidLoginuid : Z -> Z + error)
  : option (Z * Z) * option error :=
  match File with
  | Some e => (None, Some e)
  | None =>
      match GetsockoptUcred with
      | inr e => (None, Some e)
      | inl pid => let '(uid, err) := getLoginUid GetPidLoginuid pid in (Some (pid, uid), err)
      end
  end.

(** The context of a connection; [None]: it is closed at once. *)
Definition new_context (File : option error) (GetsockoptUcred : Z + error)
    (GetPidLoginuid : Z -> Z + error) (LookupUid : Z -> list string)
    (LookupId : Z -> option (string * string)) (NewAuthForUser : Z -> list string -> Auth)
    (srv_uid : Z) (config : Config) : option Context :=
  let '(cred, err) := getCreds File GetsockoptUcred GetPidLoginuid in
  if match err with Some e => negb (IsLoginPidError e) | None => false end then None
  else
    '(pid, uid) ← cred;
    let groups := if negb (uid =? srv_uid) then LookupUid uid else [] in
    let haveSuperGroup := bool_decide (cf_SuperGroup config <> "") in
    let super := existsb (fun gr => haveSuperGroup && bool_decide (gr = cf_SuperGroup config)) groups in
    match LookupId uid with
    | None => None
    | Some (name, home) =>
        Some {| Configd := uid =? srv_uid; cx_Auth := NewAuthForUser uid groups; Pid := pid; Uid := uid;
                User := name; UserHome := home; Groups := groups; Superuser := (uid =? 0) || super;
                cx_Config := config; Noexec := false |}
    end.

(** Who gets a connection, and as whom: a process with a user that exists; one
    whose login user was never set counts as root, whatever user it runs as, and
    so is a superuser. *)
Lemma new_context_spec File Cred Loginuid LookupUid LookupId NewAuth srv_uid config ctx :
  (forall pid e, Loginuid pid = inr e -> IsLoginPidError e = false) ->
  (File = None -> forall e, Cred = inr e -> IsLoginPidError e = false) ->
  (forall e, File = Some e -> IsLoginPidError e = false) ->
  new_context File Cred Loginuid LookupUid LookupId NewAuth srv_uid config = Some ctx ->
  exists pid u, Cred = inl pid /\ Loginuid pid = inl u /\ Pid ctx = pid /\
    Uid ctx = (if u =? 2 ^ 32 - 1 then 0 else u) /\ Configd ctx = (Uid ctx =? srv_uid) /\
    (Superuser ctx = true <-> Uid ctx = 0 \/
      Uid ctx <> srv_uid /\ cf_SuperGroup config <> "" /\ In (cf_SuperGroup config) (LookupUid (Uid ctx))).
Proof.
  intros Hl Hc Hf. unfold new_context, getCreds, getLoginUid. destruct File as [e|].
  { by rewrite (Hf e eq_refl). }
  destruct Cred as [pid|e]; [|by rewrite (Hc eq_refl e eq_refl)].
  destruct (Loginuid pid) as [u|e] eqn:Eu; [|by rewrite (Hl _ _ Eu)].
  set (uid := if u =? 2 ^ 32 - 1 then 0 else u).
  assert (Hsame : (if u =? 2 ^ 32 - 1 then (0, Some (ELoginPid pid)) else (u, None)) =
    (uid, if u =? 2 ^ 32 - 1 then Some (ELoginPid pid) else None)) by (unfold uid; by destruct (_ =? _)).
  rewrite Hsame. assert (Hno : match (if u =? 2 ^ 32 - 1 then Some (ELoginPid pid) else None) with
    Some e => negb (IsLoginPidError e) | None => false end = false) by (by destruct (_ =? _)).
  rewrite Hno. cbn [mbind option_bind]. destruct (LookupId uid) as [[name home]|]; [|done].
  intros [= <-]. exists pid, u. cbn [Pid Uid Configd Superuser]. split_and!; [done..|].
  rewrite orb_true_iff, Z.eqb_eq, existsb_exists.
  destruct (Z.eqb_spec uid srv_uid) as [->|Hne]; cbn [negb].
  - split; [intros [?|(g & Hg & _)]; [by left|done]|intros [?|(? & _)]; [by left|done]].
  - split; (intros [?|Hr]; [by left|right]).
    + destruct Hr as (g & Hg & Hb). apply andb_prop in Hb as [H1 H2].
      apply bool_decide_eq_true in H1, H2. subst. done.
    + destruct Hr as (_ & Hs & Hin). exists (cf_SuperGroup config). split; [done|]. by rewrite !bool_decide_true.
Qed.

(** ** The life of a connection *)

Record Request := Req { rq_Method : string; rq_Args : list json; rq_Id : Z }.

Section Handle.
Context {L : ConfigLib} {EL : ErrorLib} {W R : Type} `{SS : !SessionService W}.
Context (MgmtErrorRef : error -> bool).
Context (config_mgmt : list string -> ConfirmedCommitInfo -> ConfirmedCommitInfo * string * bool).

Abbreviation St := (Server.sstate (W := W)).
Context (func : string -> list goval -> M St (R * option error)).

(** The loop: requests until the end of the input, answered one by one; it
    ends early when a response cannot be sent. *)
Fixpoint serve_requests (ctx : Context) (sent : Response R -> bool) (reqs : list Request)
  : M St (list (Response R)) :=
  match reqs with
  | [] => ret []
  | req :: reqs' =>
      r <- Call func ctx (rq_Method req) (rq_Args req) ;;
      let resp := newResponse MgmtErrorRef (fst r) (snd r) (rq_Id req) in
      if negb (sent resp) then ret []
      else resps <- serve_requests ctx sent reqs' ;; ret (resp :: resps)
  end.

Definition unlock_all (ctx : Context) : M St unit := fun s =>
  match svc_UnlockAllPid ctx (st_sess s) with
  | Some (_, w) => Some (tt, SState (st_job s) (st_trace s) w)
  | None => None
  end.

Definition Handle (d : Disp) (sent : Response R -> bool) (reqs : list Request)
  : M St (list (Response R)) :=
  resps <- serve_requests (d_ctx d) sent reqs ;;
  sessionTermination config_mgmt d ;;;
  unlock_all (d_ctx d) ;;;
  ret resps.
End Handle.

(** ** Lemmas *)

Lemma convert_args_null name pre post params :
  Forall2 (fun j t => exists v, convert j t = ArgOk v) pre (take (length pre) params) ->
  (length pre < length params)%nat -> convert_args name (pre ++ JNull :: post) params = None.
Proof.
  revert params. induction pre as [|j pre IH]; intros [|t params] Hp Hl; cbn in *; try lia; [done|].
  apply Forall2_cons in Hp as [[v Hv] Hp]. rewrite Hv, IH; [done|done|lia].
Qed.

Lemma find_method_rpc name m : find_method name = Some m -> exists r, m_out m = [r; RError].
Proof.
  unfold find_method, srv_m. generalize Disp_methods. intros l H.
  apply find_some in H as [Hin _]. apply filter_In in Hin as [_ H]. unfold is_rpc in H.
  destruct (m_out m) as [|r [|[] [|]]]; try done. eauto.
Qed.

(** From here on the table is looked at by computation only. *)
#[local] Opaque Disp_methods find_method.

(** ** Properties *)

(** C18: a request is either refused, with a reason and nothing changed (unknown
    method, no permission, wrong number of arguments, an argument that does
    not fit), or is the call of that method with the arguments converted, or
    has a null argument, which ends the daemon. *)
Theorem Call_spec {S R} (func : string -> list goval -> M S (R * option error)) ctx method args s :
  (exists err, Call func ctx method args s = Some ((None, Some err), s) /\
     (err = EMeth method /\ find_method method = None \/
      exists m, find_method method = Some m /\
        (err = access_denied /\ AuthorizeFn (cx_Auth ctx) (Uid ctx) (Groups ctx) method = false \/
         err = EArgN method (length args) (length (m_in m)) /\ length args <> length (m_in m) \/
         exists i v t, args !! i = Some v /\ m_in m !! i = Some t /\ convert v t = ArgBad /\
           err = EArg method (json_Name v) (gotype_Name t)))) \/
  (exists m vals, find_method method = Some m /\
     AuthorizeFn (cx_Auth ctx) (Uid ctx) (Groups ctx) method = true /\
     Forall3 (fun j t v => convert j t = ArgOk v) args (m_in m) vals /\
     Call func ctx method args s =
       match func method vals s with Some ((r, err), s') => Some ((Some r, err), s') | None => None end) \/
  (In JNull args /\ Call func ctx method args s = None).
Proof.
  unfold Call. destruct (find_method method) as [m|]; [|left; eexists; split; [reflexivity|by left]].
  destruct (AuthorizeFn _ _ _ _) eqn:Ea; cbn [negb].
  2: { left. eexists. split; [reflexivity|]. right. exists m. split; [done|by left]. }
  destruct (Nat.eqb_spec (length args) (length (m_in m))) as [Hlen|Hlen]; cbn [negb].
  2: { left. eexists. split; [reflexivity|]. right. exists m. split; [done|]. right. by left. }
  assert (Hc : (exists i v t, args !! i = Some v /\ m_in m !! i = Some t /\ convert v t = ArgBad /\
      convert_args method args (m_in m) = Some (inr (EArg method (json_Name v) (gotype_Name t)))) \/
    (exists vals, convert_args method args (m_in m) = Some (inl vals) /\
      Forall3 (fun j t v => convert j t = ArgOk v) args (m_in m) vals) \/
    (In JNull args /\ convert_args method args (m_in m) = None)).
  { revert Hlen. generalize (m_in m). induction args as [|j args IH]; intros [|t params]; try done.
    - intros _. right. left. exists []. split; [done|constructor].
    - intros [= Hlen]. cbn [convert_args]. destruct (convert j t) as [v| |] eqn:Ec.
      + destruct (IH params Hlen) as [(i & w & u & H1 & H2 & H3 & H4)|[(vals & H1 & H2)|[H1 H2]]].
        * left. exists (Datatypes.S i), w, u. rewrite H4. by split_and!.
        * right. left. exists (v :: vals). rewrite H1. split; [done|by constructor].
        * right. right. rewrite H2. split; [by right|done].
      + left. by exists 0%nat, j, t.
      + right. right. split; [left|done]. by destruct j, t. }
  destruct Hc as [(i & v & t & H1 & H2 & H3 & H4)|[(vals & H1 & H2)|[H1 H2]]].
  - left. eexists. rewrite H4. split; [reflexivity|]. right. exists m. split; [done|]. right. right. eauto 10.
  - right. left. exists m, vals. rewrite H1. split_and!; try done.
    unfold bind, ret. by destruct (func method vals s) as [[[r e] s']|].
  - right. right. rewrite H2. by split.
Qed.

(** One null argument ends the daemon for everybody: any user who may call
    a method can send it, in place of any argument of it. *)
Theorem null_argument_panics {S R} (func : string -> list goval -> M S (R * option error))
    ctx m pre post s :
  find_method (m_name m) = Some m ->
  AuthorizeFn (cx_Auth ctx) (Uid ctx) (Groups ctx) (m_name m) = true ->
  length (pre ++ JNull :: post) = length (m_in m) ->
  Forall2 (fun j t => exists v, convert j t = ArgOk v) pre (take (length pre) (m_in m)) ->
  Call func ctx (m_name m) (pre ++ JNull :: post) s = None.
Proof.
  intros Hm Ha Hlen Hp. unfold Call. rewrite Hm, Ha, Hlen, Nat.eqb_refl. cbn [negb].
  rewrite convert_args_null; [done|done|]. rewrite <- Hlen, length_app. cbn. lia.
Qed.

Section Cleanup.
Context {L : ConfigLib} {EL : ErrorLib} {W R : Type} `{SS : !SessionService W}.
Context (MgmtErrorRef : error -> bool).
Context (config_mgmt : list string -> ConfirmedCommitInfo -> ConfirmedCommitInfo * string * bool).
Context (func : string -> list goval -> M (Server.sstate (W := W)) (R * option error)).

(** C23: the end of a connection leaves nothing behind: no session is locked by
    the process any more, every other session is as the last request left it,
    and a confirmed commit of this connection without a persist id is reverted
    by the management script. *)
Theorem connection_cleanup d sent reqs s resps s' :
  Pid (d_ctx d) <> 0 ->
  Handle MgmtErrorRef config_mgmt func d sent reqs s = Some (resps, s') ->
  exists s1, serve_requests MgmtErrorRef func (d_ctx d) sent reqs s = Some (resps, s1) /\
    (forall sid x, svc_session (st_sess s') sid = Some x -> s_lpid x <> Pid (d_ctx d)) /\
    (forall sid x, svc_session (st_sess s1) sid = Some x -> s_lpid x <> Pid (d_ctx d) ->
       svc_session (st_sess s') sid = Some x) /\
    spawned s' = (if decide (ji_Session (st_job s1) <> "" /\ ji_PersistId (st_job s1) = "" /\
                             ji_Session (st_job s1) = Itoa (Pid (d_ctx d)))
                  then [["--action=revert-configuration"]] else []) ++ spawned s1.
Proof.
  intros Hpid. unfold Handle. intros H. apply bind_Some in H as (resps' & s1 & H1 & H).
  apply bind_Some in H as (r & s2 & H2 & H). apply bind_Some in H as ([] & s3 & H3 & H).
  injection H as -> ->. exists s1. split; [done|].
  assert (Hs2 : st_sess s2 = st_sess s1 /\ spawned s2 =
    (if decide (ji_Session (st_job s1) <> "" /\ ji_PersistId (st_job s1) = "" /\
                ji_Session (st_job s1) = Itoa (Pid (d_ctx d)))
     then [["--action=revert-configuration"]] else []) ++ spawned s1).
  { unfold sessionTermination, getConfirmedCommitInfo in H2.
    rewrite (bind_eq _ _ s1 (st_job s1) s1 eq_refl) in H2.
    destruct (bool_decide (ji_Session (st_job s1) <> "") && bool_decide (ji_PersistId (st_job s1) = "")
      && bool_decide (ji_Session (st_job s1) = Itoa (Pid (d_ctx d)))) eqn:Eb.
    - apply andb_prop in Eb as [[E1 E2]%andb_prop E3]. apply bool_decide_eq_true in E1, E2, E3.
      rewrite decide_True by done.
      destruct (spawn_run config_mgmt ["--action=revert-configuration"] s1) as (r' & s2' & E & Hs & Ht & _).
      rewrite (bind_eq _ _ _ _ _ E) in H2. injection H2 as _ <-. by split.
    - rewrite decide_False; [injection H2 as _ <-; by split|]. intros (E1 & E2 & E3).
      by rewrite !bool_decide_true in Eb by done. }
  destruct Hs2 as [Hs2 Ht2]. unfold unlock_all in H3.
  destruct (svc_UnlockAllPid_ok (d_ctx d) (st_sess s2)) as (err & w & Hu & Hsess).
  rewrite Hu in H3. injection H3 as <-. cbn [st_sess]. split; [|split].
  - intros sid x. rewrite Hsess. destruct (svc_session (st_sess s2) sid) as [y|]; [|done].
    cbn. intros [= <-]. destruct (Z.eqb_spec (s_lpid y) 0) as [E0|E0]; cbn [negb andb]; [congruence|].
    destruct (Z.eqb_spec (s_lpid y) (Pid (d_ctx d))) as [E|E]; [cbn; congruence|done].
  - intros sid x Hx Hl. rewrite Hsess, Hs2, Hx. cbn.
    by rewrite (proj2 (Z.eqb_neq _ _) Hl), andb_false_r.
  - rewrite <- Ht2. reflexivity.
Qed.
End Cleanup.

(** ** Concrete connections *)

Module SampleConn.
Abbreviation bob := (SampleDisp.disp Sample.allow).

(** The methods behind the calls of the sample: [SessionLock] works on the
    daemon's sessions, the others do nothing. *)
Definition func (name : string) (args : list goval)
  : M (Server.sstate (W := SampleRpc.W)) (Z * option error) :=
  match name, args with
  | "SessionLock", [VString sid] => SessionLock (L := Sample.lib) (SS := SampleRpc.service) bob sid
  | _, _ => ret (0, None)
  end.

(** A client locks a session, asks for a method that does not exist and goes. *)
Definition requests : list Request :=
  [Req "SessionLock" [JStr "a"] 1; Req "Nothing" [] 2].

Lemma null_argument_panics_witness :
  Call func (d_ctx (L := Sample.lib) bob) "SessionLock" [JNull]
    (SampleRpc.state (JobInfo "" "")) = None.
Proof.
  apply (null_argument_panics func (d_ctx (L := Sample.lib) bob)
    (Method "SessionLock" [GString] [RNumber; RError]) [] []).
  - vm_compute. reflexivity.
  - reflexivity.
  - reflexivity.
  - constructor.
Defined.

Lemma connection_cleanup_witness : exists resps s',
  Handle (L := Sample.lib) (EL := SampleFormat.errors) (SS := SampleRpc.service) (fun _ => false)
    SampleRpc.broken func bob (fun _ => true) requests
    (SampleRpc.state (JobInfo (Itoa (Pid (d_ctx (L := Sample.lib) bob))) "")) = Some (resps, s') /\
  (forall sid x, svc_session (L := Sample.lib) (SessionService := SampleRpc.service) (st_sess s') sid = Some x ->
     s_lpid x <> Pid (d_ctx (L := Sample.lib) bob)) /\
  spawned s' = [["--action=revert-configuration"]].
Proof.
  pose (s0 := SampleRpc.state (JobInfo (Itoa (Pid (d_ctx (L := Sample.lib) bob))) "")).
  pose (job_of := fun r : option (list (Response Z) * Server.sstate (W := SampleRpc.W)) => match r with
    | Some (_, s1) => bool_decide (ji_Session (st_job s1) <> "") && bool_decide (ji_PersistId (st_job s1) = "")
        && bool_decide (ji_Session (st_job s1) = Itoa (Pid (d_ctx (L := Sample.lib) bob)))
        && match spawned s1 with [] => true | _ => false end
    | None => false end : bool).
  assert (Hrun : match Handle (L := Sample.lib) (EL := SampleFormat.errors) (SS := SampleRpc.service)
    (fun _ => false) SampleRpc.broken func bob (fun _ => true) requests s0
    with Some _ => true | None => false end = true) by (vm_compute; reflexivity).
  assert (Hjob : job_of (serve_requests (EL := SampleFormat.errors)
    (fun _ => false) func (d_ctx (L := Sample.lib) bob) (fun _ => true) requests s0) = true)
    by (vm_compute; reflexivity).
  destruct (Handle (L := Sample.lib) (EL := SampleFormat.errors) (SS := SampleRpc.service)
    (fun _ => false) SampleRpc.broken func bob (fun _ => true) requests s0) as [[resps s']|] eqn:E;
    [clear Hrun|discriminate Hrun].
  exists resps, s'. split; [exact E|].
  destruct (connection_cleanup (L := Sample.lib) (EL := SampleFormat.errors) (SS := SampleRpc.service)
    (fun _ => false) SampleRpc.broken func bob (fun _ => true) requests s0 resps s' ltac:(discriminate) E)
    as (s1 & H1 & H2 & _ & H4).
  rewrite H1 in Hjob. unfold job_of in Hjob.
  apply andb_prop in Hjob as [[[J1 J2]%andb_prop J3]%andb_prop J4].
  apply bool_decide_eq_true in J1, J2, J3. split; [exact H2|].
  rewrite H4, decide_True by (split_and!; assumption). now destruct (spawned s1).
Defined.
End SampleConn.
