(* ===== verification/Methods.v ===== *)
(** The methods behind the method table: [NewSrv] of [server/server.go] finds
    the methods of [Disp] by reflection and [Call] of [server/conn.go] calls
    them with the arguments it converted.  Here the table of Conn.v meets the
    methods of Dispatcher.v and the files after it, so that a connection is one
    computation from its requests to the sessions; and what the lock of a
    session is worth is shown of whole connections. *)

From S2P Require Import Prelude GoLib Errors Rpc GoFmt External Configd LogLevel Sample Session.
From S2P Require Import StateTree Load EditConfig Commit SessionServer SessionMgr Service.
From S2P Require Import Expand CliFormat Server ConfigMgmt Daemon Dispatcher CommitRpc.
From S2P Require Import Templates Compare RpcCall LoadKeys Conn.

Open Scope Z_scope.

(** ** Results *)

(** The first result of a method, as one type. *)
Inductive resval :=
  | VRBool (b : bool)
  | VRString (s : string)
  | VRNumber (z : Z)
  | VRMapString (m : gmap string string)
  | VRMapInt (m : gmap string Z)
  | VRMapStruct (m : gset string)
  | VRSlice (l : list string).

Definition res_type (r : resval) : gores :=
  match r with
  | VRBool _ => RBool
  | VRString _ => RString
  | VRNumber _ => RNumber
  | VRMapString _ => RMapString
  | VRMapInt _ => RMapInt
  | VRMapStruct _ => RMapStruct
  | VRSlice _ => RSlice
  end.

Definition val_type (v : goval) (t : gotype) : bool :=
  match v, t with
  | VString _, GString | VBool _, GBool | VInt _, GInt | VInt _, GDB | VFlags _, GFlags => true
  | _, _ => false
  end.

(** A flag that is no boolean is not one of those looked at. *)
Definition flags_of (l : list (string * json)) : list (string * flag_value) :=
  map (fun f => (fst f, match snd f with JBool b => FBool b | _ => FOther end)) l.

(** ** What else the process holds *)

Class ProcessState `{ConfigLib} (W : Type) `{SS : !SessionService W} := {
  ps_log : W -> Settings;
  ps_set_log : Settings -> W -> W;
  ps_calls : W -> list vci_call;
  ps_set_calls : list vci_call -> W -> W;
  (** neither is part of a session *)
  ps_set_log_session : forall l w sid, svc_session (ps_set_log l w) sid = svc_session w sid;
  ps_set_calls_session : forall l w sid, svc_session (ps_set_calls l w) sid = svc_session w sid
}.

Section Methods.
Context {L : ConfigLib} {E : ErrorLib} {O : OSLib} {T : TmplLib} {C : CompareLib} {RL : RpcLib}
        {K : KeysLib}.
Context {W : Type} `{SS : !SessionService W} {X : Scripts W} `{PS : !ProcessState W}.
Context (ErrPath : list string -> string).
Context (config_mgmt : list string -> ConfirmedCommitInfo -> ConfirmedCommitInfo * string * bool).
Context (un_Marshal : UNode -> string -> list union_option -> string * option error).
Context (AllowedValues : snode -> UNode -> NodeRef -> W -> list string + error).
Context (component : list vci_call -> vci_call -> string + error).
Context (reader_error : list string -> option error).
(** [auth.AuthPerm(perm)] *)
Context (AuthPerm_of : Z -> AuthPerm).
(** [Auth.GetPerms] *)
Context (GetPerms : list string -> gmap string string).
(** the order in which the debug settings are listed *)
Context (log_range : Settings -> list (Z * cfgDebugSetting)).

Abbreviation St := (Server.sstate (W := W)).

(** ** The methods that are left *)

Definition AuthGetPerms (d : Disp) : gmap string string * option error := (GetPerms (Groups (d_ctx d)), None).

Definition Disp_ExpandWithPrefix (d : Disp) (path prefix : string) (pos : Z) : option (string * option error) :=
  match ExpandWithPrefix ErrPath (d_ms d) path prefix pos with
  | Expanded ps => Some (Pathstr ps, None)
  | Failed err => Some ("", FormatConfigPathError (Some err))
  | OutOfRange => None
  end.
Definition Disp_Expand (d : Disp) (path : string) : option (string * option error) :=
  Disp_ExpandWithPrefix d path NoPrefix InvalidPos.

(** The settings and the calls of components are the process's, not a session's. *)
Definition on_sess_state (f : W -> W) (s : St) : St := SState (st_job s) (st_trace s) (f (st_sess s)).

Definition Disp_SetConfigDebug (sid logName level : string) : M St (string * option error) :=
  w <- gets st_sess ;;
  let '(r, m) := SetConfigDebug log_range logName level (ps_log w) in
  modify (on_sess_state (ps_set_log m)) ;;; ret r.

Definition on_calls {A} (m : M (list vci_call) A) : M St A := fun s =>
  match m (ps_calls (st_sess s)) with
  | Some (a, calls) => Some (a, on_sess_state (ps_set_calls calls) s)
  | None => None
  end.

(** ** The table *)

Definition res {A} (f : A -> resval) (m : M St (A * option error)) : M St (resval * option error) :=
  r <- m ;; ret (f (fst r), snd r).
Definition pure {A} (f : A -> resval) (r : A * option error) : M St (resval * option error) :=
  ret (f (fst r), snd r).
Definition total {A} (f : A -> resval) (r : option (A * option error)) : M St (resval * option error) :=
  match r with Some r => pure f r | None => go_panic end.
Definition map_res (h : list (string * string)) : resval := VRMapString (list_to_map h).

(** [m.Func] of each method, applied to its arguments. *)
Definition funcs (d : Disp) : list (string * (list goval -> option (M St (resval * option error)))) := [
    ("AuthAuthorize", fun args => match args with
       | [VString path; VInt perm] =>
           Some (pure VRBool (AuthAuthorize d path (AuthPerm_of perm)))
       | _ => None end);
    ("AuthGetPerms", fun args => match args with
       | [] =>
           Some (pure VRMapString (AuthGetPerms d))
       | _ => None end);
    ("CallRpc", fun args => match args with
       | [VString ns; VString rpc; VString a; VString enc] =>
           Some (res VRString (on_calls (CallRpc component d ns rpc a enc)))
       | _ => None end);
    ("CallRpcXml", fun args => match args with
       | [VString ns; VString rpc; VString a] =>
           Some (res VRString (on_calls (CallRpcXml component d ns rpc a)))
       | _ => None end);
    ("CancelCommit", fun args => match args with
       | [VString sid; VString comment; VString persistid; VBool force; VBool debug] =>
           Some (res VRString (CancelCommit ErrPath config_mgmt d sid comment persistid force debug))
       | _ => None end);
    ("Comment", fun args => match args with
       | [VString sid; VString path] =>
           Some (res VRBool (Comment sid path))
       | _ => None end);
    ("Commit", fun args => match args with
       | [VString sid; VString message; VBool debug] =>
           Some (res VRString (CommitRpc.Commit ErrPath config_mgmt d sid message debug))
       | _ => None end);
    ("CommitConfirm", fun args => match args with
       | [VString sid; VString message; VBool debug; VInt mins] =>
           Some (res VRString (CommitConfirm ErrPath config_mgmt d sid message debug mins))
       | _ => None end);
    ("Compare", fun args => match args with
       | [VString old; VString new; VString spath; VBool ctxdiff] =>
           Some (pure VRString (Compare d old new spath ctxdiff))
       | _ => None end);
    ("CompareConfigRevisions", fun args => match args with
       | [VString sid; VString one; VString two] =>
           Some (res VRString (CompareConfigRevisions ErrPath d sid one two))
       | _ => None end);
    ("CompareSessionChanges", fun args => match args with
       | [VString sid] =>
           Some (res VRString (CompareSessionChanges ErrPath d sid))
       | _ => None end);
    ("Confirm", fun args => match args with
       | [VString _] =>
           Some (res VRString (Confirm ErrPath config_mgmt d))
       | _ => None end);
    ("ConfirmPersistId", fun args => match args with
       | [VString persistid] =>
           Some (res VRString (ConfirmPersistId ErrPath config_mgmt d persistid))
       | _ => None end);
    ("ConfirmSilent", fun args => match args with
       | [VString _] =>
           Some (res VRString (ConfirmSilent config_mgmt))
       | _ => None end);
    ("ConfirmedCommit", fun args => match args with
       | [VString sid; VString message; VBool confirmed; VString timeout; VString persist; VString persistid; VBool debug] =>
           Some (res VRString (ConfirmedCommit ErrPath config_mgmt d sid message confirmed timeout persist persistid debug))
       | _ => None end);
    ("ConfirmingCommit", fun args => match args with
       | [] =>
           Some (res VRString (ConfirmingCommit config_mgmt))
       | _ => None end);
    ("Copy", fun args => match args with
       | [VString sid; VString fpath; VString tpath] =>
           Some (res VRBool (Copy sid fpath tpath))
       | _ => None end);
    ("CopyConfig", fun args => match args with
       | [VString sid; VString sd; VString se; VString sc; VString su; VString td; VString tu] =>
           Some (res VRString (CopyConfig ErrPath d sid sd se sc su td tu))
       | _ => None end);
    ("Delete", fun args => match args with
       | [VString sid; VString path] =>
           Some (res VRBool (Delete ErrPath d sid path))
       | _ => None end);
    ("Discard", fun args => match args with
       | [VString sid] =>
           Some (res VRBool (Discard ErrPath d sid))
       | _ => None end);
    ("EditConfigXML", fun args => match args with
       | [VString sid; VString target; VString defop; VString testopt; VString erropt; VString config] =>
           Some (res VRString (EditConfigXML d sid target defop testopt erropt config))
       | _ => None end);
    ("EditGetEnv", fun args => match args with
       | [VString sid] =>
           Some (res VRMapString (EditGetEnv sid))
       | _ => None end);
    ("Exists", fun args => match args with
       | [VInt db; VString sid; VString path] =>
           Some (res VRBool (Exists d db sid path))
       | _ => None end);
    ("Expand", fun args => match args with
       | [VString path] =>
           Some (total VRString (Disp_Expand d path))
       | _ => None end);
    ("ExpandWithPrefix", fun args => match args with
       | [VString path; VString prefix; VInt pos] =>
           Some (total VRString (Disp_ExpandWithPrefix d path prefix pos))
       | _ => None end);
    ("ExtractArchive", fun args => match args with
       | [VString sid; VString revision; VString dest] =>
           Some (res VRString (ExtractArchive sid revision dest))
       | _ => None end);
    ("Get", fun args => match args with
       | [VInt db; VString sid; VString path] =>
           Some (res VRSlice (Get d db sid path))
       | _ => None end);
    ("GetCommitLog", fun args => match args with
       | [] =>
           Some (pure VRMapString GetCommitLog)
       | _ => None end);
    ("GetCompletions", fun args => match args with
       | [VString sid; VBool schema; VString path] =>
           Some (res VRMapString (GetCompletions AllowedValues d sid schema path))
       | _ => None end);
    ("GetConfigSystemFeatures", fun args => match args with
       | [] =>
           Some (pure VRMapStruct (GetConfigSystemFeatures d))
       | _ => None end);
    ("GetDeviations", fun args => match args with
       | [] =>
           Some (pure VRMapString (GetDeviations d))
       | _ => None end);
    ("GetFeatures", fun args => match args with
       | [] =>
           Some (pure VRMapString (GetFeatures d))
       | _ => None end);
    ("GetHelp", fun args => match args with
       | [VString sid; VBool schema; VString path] =>
           Some (res map_res (GetHelp d sid schema path))
       | _ => None end);
    ("GetModuleSchemas", fun args => match args with
       | [] =>
           Some (pure VRString (GetModuleSchemas d))
       | _ => None end);
    ("GetSchemas", fun args => match args with [] => Some (pure VRString (GetSchemas d)) | _ => None end);
    ("Load", fun args => match args with
       | [VString sid; VString file] =>
           Some (res VRBool (Load_ ErrPath d sid file))
       | _ => None end);
    ("LoadFrom", fun args => match args with
       | [VString sid; VString source; VString ri] =>
           Some (res VRBool (LoadFrom ErrPath d sid source ri))
       | _ => None end);
    ("LoadKeys", fun args => match args with
       | [VString sid; VString user; VString source; VString ri] =>
           Some (res VRString (LoadKeys ErrPath config_mgmt reader_error d sid user source ri))
       | _ => None end);
    ("LoadReportWarnings", fun args => match args with
       | [VString sid; VString file] =>
           Some (res VRBool (LoadReportWarnings ErrPath d sid file))
       | _ => None end);
    ("Merge", fun args => match args with
       | [VString sid; VString file] =>
           Some (res VRBool (Merge_ ErrPath d sid file))
       | _ => None end);
    ("MergeReportWarnings", fun args => match args with
       | [VString sid; VString file] =>
           Some (res VRBool (MergeReportWarnings ErrPath d sid file))
       | _ => None end);
    ("MigrateConfigFile", fun args => match args with
       | [VString file] =>
           Some (pure VRString (MigrateConfigFile file))
       | _ => None end);
    ("NodeGetComment", fun args => match args with
       | [VString sid; VString path] =>
           Some (res VRMapInt (NodeGetComment sid path))
       | _ => None end);
    ("NodeGetCompleteEnv", fun args => match args with
       | [VString sid; VString path] =>
           Some (res VRMapInt (NodeGetCompleteEnv sid path))
       | _ => None end);
    ("NodeGetStatus", fun args => match args with
       | [VInt db; VString sid; VString path] =>
           Some (res VRNumber (NodeGetStatus d db sid path))
       | _ => None end);
    ("NodeGetType", fun args => match args with
       | [VString sid; VString path] =>
           Some (res VRNumber (NodeGetType d sid path))
       | _ => None end);
    ("NodeIsDefault", fun args => match args with
       | [VInt db; VString sid; VString path] =>
           Some (res VRBool (NodeIsDefault d db sid path))
       | _ => None end);
    ("ReadConfigFile", fun args => match args with
       | [VString file] =>
           Some (res VRString (ReadConfigFile d file))
       | _ => None end);
    ("ReadConfigFileRaw", fun args => match args with
       | [VString file] =>
           Some (pure VRString (ReadConfigFileRaw d file))
       | _ => None end);
    ("Rename", fun args => match args with
       | [VString sid; VString fpath; VString tpath] =>
           Some (res VRBool (Rename sid fpath tpath))
       | _ => None end);
    ("Rollback", fun args => match args with
       | [VString sid; VString revision; VString comment; VBool debug] =>
           Some (res VRString (Rollback ErrPath config_mgmt d sid revision comment debug))
       | _ => None end);
    ("Save", fun args => match args with
       | [VString _] =>
           Some (res VRBool (Save ErrPath d))
       | _ => None end);
    ("SaveTo", fun args => match args with
       | [VString dest; VString ri] =>
           Some (res VRBool (SaveTo ErrPath d dest ri))
       | _ => None end);
    ("SchemaGet", fun args => match args with
       | [VString name; VString format] =>
           Some (pure VRString (SchemaGet d name format))
       | _ => None end);
    ("SessionChanged", fun args => match args with
       | [VString sid] =>
           Some (res VRBool (SessionChanged d sid))
       | _ => None end);
    ("SessionExists", fun args => match args with
       | [VString sid] =>
           Some (res VRBool (SessionExists d sid))
       | _ => None end);
    ("SessionGetEnv", fun args => match args with
       | [VString sid] =>
           Some (res VRMapString (SessionGetEnv sid))
       | _ => None end);
    ("SessionLock", fun args => match args with
       | [VString sid] =>
           Some (res VRNumber (SessionLock d sid))
       | _ => None end);
    ("SessionLocked", fun args => match args with
       | [VString sid] =>
           Some (res VRNumber (SessionLocked d sid))
       | _ => None end);
    ("SessionMarkSaved", fun args => match args with
       | [VString sid] =>
           Some (res VRBool (SessionMarkSaved d sid))
       | _ => None end);
    ("SessionMarkUnsaved", fun args => match args with
       | [VString sid] =>
           Some (res VRBool (SessionMarkUnsaved d sid))
       | _ => None end);
    ("SessionSaved", fun args => match args with
       | [VString sid] =>
           Some (res VRBool (SessionSaved d sid))
       | _ => None end);
    ("SessionSetup", fun args => match args with
       | [VString sid] =>
           Some (res VRBool (SessionSetup d sid))
       | _ => None end);
    ("SessionSetupShared", fun args => match args with
       | [VString sid] =>
           Some (res VRBool (SessionSetupShared d sid))
       | _ => None end);
    ("SessionTeardown", fun args => match args with
       | [VString sid] =>
           Some (res VRBool (SessionTeardown d sid))
       | _ => None end);
    ("SessionUnlock", fun args => match args with
       | [VString sid] =>
           Some (res VRNumber (SessionUnlock d sid))
       | _ => None end);
    ("Set", fun args => match args with
       | [VString sid; VString path] =>
           Some (res VRString (Set_ ErrPath d sid path))
       | _ => None end);
    ("SetConfigDebug", fun args => match args with
       | [VString sid; VString logName; VString level] =>
           Some (res VRString (Disp_SetConfigDebug sid logName level))
       | _ => None end);
    ("Show", fun args => match args with
       | [VInt db; VString sid; VString path; VBool hide] =>
           Some (res VRString (Show ErrPath d db sid path hide))
       | _ => None end);
    ("ShowConfigWithContextDiffs", fun args => match args with
       | [VString sid; VString path; VBool defaults] =>
           Some (res VRString (ShowConfigWithContextDiffs ErrPath d sid path defaults))
       | _ => None end);
    ("ShowDefaults", fun args => match args with
       | [VInt db; VString sid; VString path; VBool hide] =>
           Some (res VRString (ShowDefaults ErrPath d db sid path hide))
       | _ => None end);
    ("TmplGet", fun args => match args with
       | [VString path] =>
           Some (total VRMapString (TmplGet d path))
       | _ => None end);
    ("TmplGetAllowed", fun args => match args with
       | [VString sid; VString path] =>
           Some (res VRSlice (TmplGetAllowed AllowedValues d sid path))
       | _ => None end);
    ("TmplGetChildren", fun args => match args with
       | [VString path] =>
           Some (total VRSlice (TmplGetChildren d path))
       | _ => None end);
    ("TmplValidatePath", fun args => match args with
       | [VString path] =>
           Some (pure VRBool (TmplValidatePath d path))
       | _ => None end);
    ("TmplValidateValues", fun args => match args with
       | [VString path] =>
           Some (pure VRBool (TmplValidateValues d path))
       | _ => None end);
    ("TreeGet", fun args => match args with
       | [VInt db; VString sid; VString path; VString enc; VFlags flags] =>
           Some (res VRString (TreeGet un_Marshal d db sid path enc (flags_of flags)))
       | _ => None end);
    ("TreeGetFull", fun args => match args with
       | [VInt db; VString sid; VString path; VString enc; VFlags flags] =>
           Some (res VRString (TreeGetFull un_Marshal d db sid path enc (flags_of flags)))
       | _ => None end);
    ("Validate", fun args => match args with
       | [VString sid] =>
           Some (res VRString (Validate_ ErrPath d sid))
       | _ => None end);
    ("ValidateConfig", fun args => match args with
       | [VString sid; VString enc; VString config] =>
           Some (res VRString (ValidateConfig ErrPath d sid enc config))
       | _ => None end);
    ("ValidatePath", fun args => match args with
       | [VString sid; VString path] =>
           Some (res VRString (ValidatePath d sid path))
       | _ => None end)
  ].

Fixpoint func_in (l : list (string * (list goval -> option (M St (resval * option error)))))
    (name : string) (args : list goval) : option (M St (resval * option error)) :=
  match l with
  | [] => None
  | (n, f) :: l' => if bool_decide (n = name) then f args else func_in l' name args
  end.

(** [reflect] panics when a method is called with arguments it does not take;
    [Call] has seen to it that it does ([methods_typed]). *)
Definition func (d : Disp) (name : string) (args : list goval) : M St (resval * option error) :=
  default go_panic (func_in (funcs d) name args).
End Methods.

Lemma func_in_elim {L : ConfigLib} {W}
    (l : list (string * (list goval -> option (M (Server.sstate (W := W)) (resval * option error))))) name args f :
  func_in l name args = Some f -> exists e, In e l /\ fst e = name /\ snd e args = Some f.
Proof.
  induction l as [|[n f0] l IH]; [done|]. cbn [func_in]. case_bool_decide as Hn.
  - intros Hf. exists (n, f0). by split_and!; [left| |].
  - intros Hf. destruct (IH Hf) as (e & He & H). exists e. split; [by right|done].
Qed.

(** The shape of the arguments an entry of the table takes. *)
Ltac args_of H :=
  repeat match type of H with
  | context [match ?v with _ => _ end] => is_var v; destruct v; try discriminate H
  end.

(** The bodies of the methods, down to what several of them share. *)
Ltac unfold_methods :=
  unfold CallRpc, Comment, Copy, Rename, not_supported, CancelCommit, Rollback, CommitRpc.Commit,
    CommitConfirm, ConfirmedCommit, commitInternal, CompareConfigRevisions, compareConfigRevisionsInternal,
    CompareSessionChanges, compareSessionChangesInternal, against_running, ShowForceSecrets,
    ShowConfigWithContextDiffs, showConfigWithContextDiffsInternal, ReadConfigFile,
    readConfigFileForceShowSecrets, Confirm, ConfirmPersistId, confirmInternal,
    confirmPersistIdInternal, ConfirmSilent, ConfirmingCommit, CopyConfig, copyConfigInternal,
    Delete, deleteInternal, Discard, discardInternal, EditConfigXML, EditGetEnv, Exists, ExtractArchive,
    Get, GetCompletions, Load_, LoadReportWarnings, LoadFrom, loadFromInternal, LoadKeys, loadKeysInternal,
    userIsConfigured, Merge_, MergeReportWarnings, mergeReportWarningsInternal, NodeGetComment,
    NodeGetCompleteEnv, NodeGetStatus, NodeGetType, NodeIsDefault, SessionExists, SessionGetEnv,
    SessionLock, SessionLocked, SessionMarkSaved, SessionMarkUnsaved, SessionSaved, SessionSetup,
    SessionSetupShared, SessionTeardown, SessionUnlock, Set_, setInternal, Show, ShowDefaults,
    Validate_, validateInternal, ValidateConfig, ValidatePath, logConfirmedCommitEvent, setConfirmTimeout.

(** ** Types *)

Section Types.
Context {L : ConfigLib} {E : ErrorLib} {O : OSLib} {T : TmplLib} {C : CompareLib} {RL : RpcLib}
        {K : KeysLib}.
Context {W : Type} `{SS : !SessionService W} {X : Scripts W} `{PS : !ProcessState W}.
Context (ErrPath : list string -> string).
Context (config_mgmt : list string -> ConfirmedCommitInfo -> ConfirmedCommitInfo * string * bool).
Context (un_Marshal : UNode -> string -> list union_option -> string * option error).
Context (AllowedValues : snode -> UNode -> NodeRef -> W -> list string + error).
Context (component : list vci_call -> vci_call -> string + error).
Context (reader_error : list string -> option error).
Context (AuthPerm_of : Z -> AuthPerm) (GetPerms : list string -> gmap string string).
Context (log_range : Settings -> list (Z * cfgDebugSetting)).

Abbreviation St := (Server.sstate (W := W)).
Abbreviation funcs := (funcs ErrPath config_mgmt un_Marshal AllowedValues component reader_error
  AuthPerm_of GetPerms log_range).
Abbreviation func := (func ErrPath config_mgmt un_Marshal AllowedValues component reader_error
  AuthPerm_of GetPerms log_range).

(** The results of a computation have a type. *)
Definition typed (t : gores) (m : M St (resval * option error)) : Prop :=
  forall s r s', m s = Some (r, s') -> res_type (fst r) = t.

Lemma typed_res {A} (f : A -> resval) m t : (forall a, res_type (f a) = t) -> typed t (res f m).
Proof.
  intros Hf s r s' H. apply bind_Some in H as (a & s1 & _ & H). injection H as <- <-. apply Hf.
Qed.
Lemma typed_pure {A} (f : A -> resval) r t : (forall a, res_type (f a) = t) -> typed t (pure f r).
Proof. intros Hf s r' s' [= <- <-]. apply Hf. Qed.
Lemma typed_total {A} (f : A -> resval) r t : (forall a, res_type (f a) = t) -> typed t (total f r).
Proof. intros Hf. destruct r as [r|]; [by apply typed_pure|intros s r s' [=]]. Qed.

(** One method of the table and its entry. *)
Definition fits (m : go_method) (e : string * (list goval -> option (M St (resval * option error)))) : Prop :=
  m_name m = fst e /\
  forall args, Forall2 (fun v t => val_type v t = true) args (m_in m) ->
    exists f t, snd e args = Some f /\ m_out m = [t; RError] /\ typed t f.

Ltac split_args H :=
  repeat match type of H with
  | Forall2 _ ?l (_ :: _) =>
      let v := fresh "v" in let H1 := fresh in let H2 := fresh in
      apply Forall2_cons_inv_r in H as (v & ? & H1 & H2 & ->);
      destruct v; cbn in H1; try discriminate H1; clear H1; rename H2 into H
  | Forall2 _ ?l [] => apply Forall2_nil_inv_r in H as ->
  end.

Lemma funcs_fit d : Forall2 fits srv_m (funcs d).
Proof.
  unfold srv_m, Disp_methods, funcs. cbn [List.filter is_rpc m_out].
  repeat constructor; cbn [fst snd m_name m_in m_out]; intros args H; split_args H;
    (do 2 eexists; split; [reflexivity|split; [reflexivity|]];
     first [apply typed_res; reflexivity | apply typed_pure; reflexivity | apply typed_total; reflexivity]).
Qed.

Lemma fits_find ms es name m args : Forall2 fits ms es ->
  find (fun m => bool_decide (m_name m = name)) ms = Some m ->
  Forall2 (fun v t => val_type v t = true) args (m_in m) ->
  exists f t, func_in es name args = Some f /\ m_out m = [t; RError] /\ typed t f.
Proof.
  intros HF. induction HF as [|m0 [n f0] ms es [Hn Hf] HF IH]; [done|].
  cbn [find func_in fst snd] in *. subst n. case_bool_decide; [|exact IH].
  intros [= <-]. apply Hf.
Qed.

(** What [convert_args] lets through has the types of the parameters. *)
Lemma convert_type j t v : convert j t = ArgOk v -> val_type v t = true.
Proof. by destruct j, t; cbn; intros [= <-]. Qed.

Lemma convert_args_types name params : forall args vals, length args = length params ->
  convert_args name args params = Some (inl vals) -> Forall2 (fun v t => val_type v t = true) vals params.
Proof.
  induction params as [|t params IH]; intros [|j args] vals Hl; cbn [convert_args length] in *; try done.
  { intros [= <-]. constructor. }
  destruct (convert j t) as [v| |] eqn:Ec; try done.
  destruct (convert_args name args params) as [[xs|e]|] eqn:Ea; try done.
  intros [= <-]. constructor; [by eapply convert_type|]. apply (IH args); [by injection Hl|done].
Qed.
End Types.

(** ** What a method does to a session it may not touch *)

Section Locked.
Context {L : ConfigLib} {E : ErrorLib} {O : OSLib} {T : TmplLib} {C : CompareLib} {RL : RpcLib}
        {K : KeysLib}.
Context {W : Type} `{SS : !SessionService W} {X : Scripts W} `{PS : !ProcessState W}.
Context (ErrPath : list string -> string).
Context (config_mgmt : list string -> ConfirmedCommitInfo -> ConfirmedCommitInfo * string * bool).
Context (un_Marshal : UNode -> string -> list union_option -> string * option error).
Context (AllowedValues : snode -> UNode -> NodeRef -> W -> list string + error).
Context (component : list vci_call -> vci_call -> string + error).
Context (reader_error : list string -> option error).
Context (AuthPerm_of : Z -> AuthPerm) (GetPerms : list string -> gmap string string).
Context (log_range : Settings -> list (Z * cfgDebugSetting)).

Abbreviation St := (Server.sstate (W := W)).
Abbreviation funcs := (funcs ErrPath config_mgmt un_Marshal AllowedValues component reader_error
  AuthPerm_of GetPerms log_range).
Abbreviation func := (func ErrPath config_mgmt un_Marshal AllowedValues component reader_error
  AuthPerm_of GetPerms log_range).

(** The methods that load a configuration over a session, which no lock stops. *)
Definition load_methods : list string :=
  ["Load"; "LoadFrom"; "LoadReportWarnings"; "CopyConfig"; "Rollback"; "CancelCommit"].

(** The session ValidateConfig makes for the configuration it is given. *)
Definition validate_sid (d : Disp) : string := "VALIDATE" +:+ Itoa (Pid (d_ctx d)).

Definition loads_into (d : Disp) (k name : string) (args : list goval) : bool :=
  match args with
  | VString sid :: _ =>
      (bool_decide (sid = k) && elem_b name load_methods)
      || (bool_decide (validate_sid d = k) && bool_decide (name = "ValidateConfig"))
  | _ => false
  end.

(** A session [k] in state [sess], locked by another process than the client. *)
Context (d : Disp) (k : string) (sess : session).
Hypothesis Hk : k <> EFFECTIVE_sid.
Hypothesis Hlocked : s_lpid sess <> 0.
Hypothesis Hother : Pid (d_ctx d) <> s_lpid sess.

Abbreviation same := (Dispatcher.same (W := W) k (Some sess)).

Lemma quiet {A} sid (r : request A) term : req_ctx r = d_ctx d -> (is_load r = true -> k <> sid) ->
  preserves same (ask sid r term).
Proof.
  intros Hc Hl. destruct (is_load r) eqn:El.
  - apply ask_same; auto.
  - eapply ask_foreign_same; [done|done|done|]. split; [by rewrite Hc|]. by rewrite El.
Qed.

Lemma res_same {A} (f : A -> resval) m : preserves same m -> preserves same (res f m).
Proof. intros Hm. unfold res. apply preserves_bind; [exact Hm|intros a; apply preserves_ret]. Qed.
Lemma pure_same {A} (f : A -> resval) r : preserves same (pure f r).
Proof. apply preserves_ret. Qed.
Lemma total_same {A} (f : A -> resval) r : preserves same (total f r).
Proof. destruct r; [apply pure_same|apply preserves_panic]. Qed.

Lemma on_calls_same {A} (m : M (list vci_call) A) : preserves same (on_calls m).
Proof.
  intros s a s' Hs H. unfold on_calls in H. destruct (m _) as [[b calls]|]; [|done].
  injection H as _ <-. unfold Dispatcher.same, on_sess_state. cbn. by rewrite ps_set_calls_session.
Qed.
Lemma SetConfigDebug_same sid logName level : preserves same (Disp_SetConfigDebug log_range sid logName level).
Proof.
  unfold Disp_SetConfigDebug. apply preserves_bind; [apply preserves_gets|intros w].
  destruct (SetConfigDebug _ _ _ _) as [r m]. apply preserves_bind; [|intros []; apply preserves_ret].
  apply preserves_modify. intros s Hs. unfold Dispatcher.same, on_sess_state. cbn.
  by rewrite ps_set_log_session.
Qed.

(** The session is there, so that creating it does nothing, and locked, so
    that the client cannot destroy it. *)
Lemma Create_same sid st stFull shared : preserves same (on_svc (svc_Create (d_ctx d) sid st stFull shared)).
Proof.
  intros s a s' Hs. unfold on_svc. destruct (svc_Create _ _ _ _ _ _) as [[b w]|] eqn:Em; [|done].
  intros [= <- <-]. exact (svc_Create_there _ _ _ _ _ _ _ _ _ _ Em Hs).
Qed.
Lemma Destroy_same sid : preserves same (on_svc (svc_Destroy (d_ctx d) sid)).
Proof.
  intros s a s' Hs. unfold on_svc. destruct (svc_Destroy _ _ _) as [[b w]|] eqn:Em; [|done].
  intros [= <- <-]. refine (svc_Destroy_locked _ _ _ _ _ _ _ Em Hs Hlocked _). congruence.
Qed.

Ltac lk_step := first
  [ apply Create_same | apply Destroy_same
  | (apply quiet; [reflexivity|first [discriminate|intros _; congruence]])
  | isolate_base ].

Lemma count_missing_same name ps index : forall left,
  preserves same (count_missing d name ps left index).
Proof. intros left. revert index. induction left as [|left IH]; intros index; cbn [count_missing]; repeat first [apply IH|lk_step]. Qed.

Lemma leafref_values_locked lrNode root ps :
  preserves same (leafref_values AllowedValues lrNode root ps).
Proof. unfold leafref_values. repeat lk_step. Qed.
Lemma getLeafrefVals_same sid ps sn : preserves same (getLeafrefVals AllowedValues d sid ps sn).
Proof.
  unfold getLeafrefVals, getROSession.
  repeat first [apply count_missing_same | apply leafref_values_locked | lk_step].
Qed.
Lemma TmplGetAllowed_same sid path : preserves same (TmplGetAllowed AllowedValues d sid path).
Proof. unfold TmplGetAllowed. repeat first [apply getLeafrefVals_same | lk_step]. Qed.

Lemma ask_ro_quiet {A} db sid (r : request A) term : req_ctx r = d_ctx d -> is_load r = false ->
  preserves same (ask_ro d db sid r term).
Proof.
  intros Hc Hl. unfold ask_ro, getROSession. apply preserves_bind; [apply preserves_gets|].
  intros [name|]; [|apply preserves_panic]. apply quiet; [done|by rewrite Hl].
Qed.

Lemma confirmed_same sid msg debug t cmt rev :
  preserves same (confirmedCommitInternal ErrPath config_mgmt d sid msg debug t cmt rev).
Proof.
  apply confirmedCommitInternal_same with (loads := false).
  intros A r term Hc Hl. apply quiet; [done|]. intros E1. by specialize (Hl E1).
Qed.

Lemma set_each_same sid cmds : preserves same (set_each d sid cmds).
Proof.
  induction cmds as [|cmd cmds IH]; cbn [set_each]; [apply preserves_ret|].
  unfold setInternal. repeat first [apply IH | lk_step].
Qed.
Lemma parse_lines_same sid user e : forall lines n,
  preserves same (parse_lines (setPublicKeyForUser d sid user) lines n e).
Proof.
  induction lines as [|line lines IH]; intros n; cbn [parse_lines]; [apply preserves_ret|].
  repeat first [apply IH | apply set_each_same | lk_step].
Qed.
Lemma loadKeysFrom_same sid user source cmd args :
  preserves same (loadKeysFrom ErrPath config_mgmt reader_error d sid user source cmd args).
Proof.
  unfold loadKeysFrom, loadKeysParse, SessionChanged, ConfirmSilent, commitInternal.
  repeat first [apply parse_lines_same | apply confirmed_same | lk_step].
Qed.

(** The loads, which are for another session. *)
Lemma rollback_same sid revision comment debug : k <> sid ->
  preserves same (rollbackInternal ErrPath config_mgmt d sid revision comment debug).
Proof.
  intros Hs. apply rollbackInternal_same with (loads := true); [|done].
  intros A r term Hc _. by apply quiet.
Qed.
Lemma load_reader_same sid file r : k <> sid ->
  preserves same (loadReportWarningsReader d sid file r).
Proof.
  intros Hs. apply loadReportWarningsReader_same with (loads := true); [|done].
  intros A q term Hc _. by apply quiet.
Qed.

(** The session ValidateConfig loads into is the one it has just created. *)
Lemma validateConfig_same sid encoding config : k <> validate_sid d ->
  preserves same (validateConfigInternal ErrPath d sid encoding config).
Proof.
  intros Hn. unfold validateConfigInternal. fold (validate_sid d). set (sn := validate_sid d) in *.
  intros s a s' Hs H. apply bind_Some in H as ([b err] & s1 & H1 & H).
  assert (Hs1 : same s1).
  { revert H1. unfold SessionSetup. apply (preserves_bind same); [apply Create_same| |exact Hs].
    intros e. apply preserves_ret. }
  cbn [snd] in H. destruct err as [err|]; [by injection H as _ <-|].
  assert (Hg : svc_Get (d_ctx d) sn (st_sess s1) = None).
  { unfold SessionSetup in H1. apply bind_Some in H1 as (e & s0 & H1 & H2). injection H2 as _ -> <-.
    unfold on_svc in H1. destruct (svc_Create _ _ _ _ _ _) as [[e w]|] eqn:Ec; [|done].
    injection H1 as -> <-. cbn [st_sess]. apply svc_Create_ok in Ec as (x & Hx & Hp).
    unfold svc_Get. by rewrite Hx, Hp. }
  apply bind_Some in H as (r & s2 & H2 & H).
  assert (Hs2 : same s2).
  { apply bind_Some in H2 as (e & s3 & H2 & H3). unfold ask_ro, getROSession in H2.
    rewrite (bind_eq _ _ s1 (Some sn) s1) in H2.
    2: { unfold gets. change (CANDIDATE =? RUNNING) with false. change (CANDIDATE =? EFFECTIVE) with false.
         change ((CANDIDATE =? AUTO) || (CANDIDATE =? CANDIDATE)) with true. cbv zeta iota. by rewrite Hg. }
    assert (Hs3 : same s3) by (revert Hs1 H2; apply quiet; [reflexivity|by intros _]).
    refine ((_ : preserves same _) _ _ _ Hs3 H3). unfold Validate_, validateInternal. repeat lk_step. }
  refine ((_ : preserves same _) _ _ _ Hs2 H). unfold SessionTeardown. repeat lk_step.
Qed.

Definition entry_same (e : string * (list goval -> option (M St (resval * option error)))) : Prop :=
  forall args f, loads_into d k (fst e) args = false -> snd e args = Some f -> preserves same f.

Ltac not_loading := match goal with
  | H : loads_into ?d ?k "ValidateConfig" _ = false |- _ =>
      assert (k <> validate_sid d)
        by (intros Ek; cbn in H; by rewrite (bool_decide_true (validate_sid d = k)), orb_true_r in H)
  | H : loads_into ?d ?k _ (VString ?sid :: _) = false |- _ =>
      assert (k <> sid) by (intros <-; cbn in H; by rewrite bool_decide_true in H)
  end.

Lemma funcs_same : Forall entry_same (funcs d).
Proof.
  unfold funcs. repeat constructor; intros args f Hl H; cbn [fst snd] in *; args_of H; injection H as <-;
    first [apply pure_same | apply total_same | apply res_same].
  all: try apply on_calls_same; try apply SetConfigDebug_same.
  all: try not_loading.
  all: unfold_methods; unfold readCfgFile, Save, SaveTo, saveToInternal, writeTempRunningConfigFile, writeRunningConfigToFile, copyFile,
    uploadFile, run_as_caller, SessionChanged, show, TreeGet, TreeGetFull, TreeGetFullWithWarnings,
    GetHelp, getROSession, smgr_Get, getConfirmedCommitInfo.
  all: repeat first
    [ apply confirmed_same | (apply rollback_same; assumption) | (apply load_reader_same; assumption)
    | (apply validateConfig_same; assumption) | apply loadKeysFrom_same | apply TmplGetAllowed_same | (apply ask_ro_quiet; reflexivity) | lk_step ].
  all: unfold Exists, against_running, ShowForceSecrets; repeat first [(apply ask_ro_quiet; reflexivity) | lk_step].
Qed.
Lemma func_same name args : loads_into d k name args = false -> preserves same (func d name args).
Proof.
  intros Hl. unfold func, Methods.func.
  destruct (func_in _ _ _) as [f|] eqn:Ef; cbn [default]; [|apply preserves_panic].
  apply func_in_elim in Ef as (e & He & <- & Hf).
  pose proof (proj1 (List.Forall_forall _ _) funcs_same e He) as H. by apply (H args).
Qed.

(** Of a request as it comes from the client. *)
Definition request_loads (r : Request) : bool :=
  match rq_Args r with
  | JStr sid :: _ => loads_into d k (rq_Method r) [VString sid]
  | _ => false
  end.

Lemma Call_same r : request_loads r = false ->
  preserves same (Call (func d) (d_ctx d) (rq_Method r) (rq_Args r)).
Proof.
  intros Hl. unfold Call. destruct (find_method (rq_Method r)) as [m|]; [|apply preserves_ret].
  destruct (negb _); [apply preserves_ret|]. destruct (negb _); [apply preserves_ret|].
  destruct (convert_args _ _ _) as [[vals|err]|] eqn:Ec; [|apply preserves_ret|apply preserves_panic].
  apply preserves_bind; [|intros x; apply preserves_ret]. apply func_same.
  unfold request_loads in Hl. destruct (rq_Args r) as [|j args]; cbn in Ec; [by injection Ec as <-|].
  destruct (m_in m) as [|t params]; [by injection Ec as <-|].
  destruct (convert j t) as [v| |] eqn:Ev; try done.
  destruct (convert_args _ args params) as [[xs|e]|]; try done. injection Ec as <-.
  destruct j, t; cbn in Ev; try done; injection Ev as <-; try done.
Qed.

Lemma termination_same : preserves same (sessionTermination config_mgmt d).
Proof. unfold sessionTermination, getConfirmedCommitInfo. repeat lk_step. Qed.

Lemma unlock_same : preserves same (unlock_all (d_ctx d)).
Proof.
  intros s a s' Hs H. unfold unlock_all in H.
  destruct (svc_UnlockAllPid_ok (d_ctx d) (st_sess s)) as (err & w & Hu & Hw). rewrite Hu in H.
  injection H as _ <-. unfold Dispatcher.same in *. cbn. rewrite Hw, Hs. cbn.
  by rewrite (proj2 (Z.eqb_neq _ _) (not_eq_sym Hother)), andb_false_r.
Qed.
End Locked.

(** ** The server at work

    Each connection is a goroutine of its own, so the requests of all clients
    come in some order, and connections end in between. *)

Inductive srv_event `{ConfigLib} :=
  | SRequest (d : Disp) (r : Request)
  | SEnd (d : Disp).
Definition ev_client `{ConfigLib} (e : srv_event) : Disp := match e with SRequest d _ | SEnd d => d end.

#[local] Opaque Disp_methods Call.

Section Events.
Context {L : ConfigLib} {W R : Type} `{SS : !SessionService W}.
Context (config_mgmt : list string -> ConfirmedCommitInfo -> ConfirmedCommitInfo * string * bool).
Abbreviation St := (Server.sstate (W := W)).
Context (func : Disp -> string -> list goval -> M St (R * option error)).

(** What the client is answered, if it asked. *)
Definition srv_step (e : srv_event) : M St (list (option R * option error)) :=
  match e with
  | SRequest d r => a <- Call (func d) (d_ctx d) (rq_Method r) (rq_Args r) ;; ret [a]
  | SEnd d => sessionTermination config_mgmt d ;;; unlock_all (d_ctx d) ;;; ret []
  end.

Fixpoint srv_run (es : list srv_event) : M St (list (option R * option error)) :=
  match es with
  | [] => ret []
  | e :: es' => a <- srv_step e ;; l <- srv_run es' ;; ret (a ++ l)
  end.

(** One connection alone is its requests and its end. *)
Lemma Handle_events {E : ErrorLib} MgmtErrorRef d reqs s resps s' :
  Handle MgmtErrorRef config_mgmt (func d) d (fun _ => true) reqs s = Some (resps, s') ->
  exists answers, srv_run (map (SRequest d) reqs ++ [SEnd d]) s = Some (answers, s') /\
    resps = zip_with (fun a r => newResponse MgmtErrorRef (fst a) (snd a) (rq_Id r)) answers reqs.
Proof.
  unfold Handle. intros H. apply bind_Some in H as (rs & s1 & H1 & H).
  apply bind_Some in H as (e & s2 & H2 & H). apply bind_Some in H as ([] & s3 & H3 & H). injection H as -> ->.
  assert (Hend : srv_step (SEnd d) s1 = Some ([], s')).
  { cbn [srv_step]. by rewrite (bind_eq _ _ _ _ _ H2), (bind_eq _ _ _ _ _ H3). }
  clear H2 H3. revert s resps H1.
  induction reqs as [|r reqs IH]; intros s rs H1; cbn [serve_requests map app srv_run] in *.
  - injection H1 as <- <-. exists []. by rewrite (bind_eq _ _ _ _ _ Hend).
  - apply bind_Some in H1 as (x & s2' & H2 & H1). cbn [negb] in H1.
    apply bind_Some in H1 as (rs' & s4 & H3 & H1). injection H1 as <- <-.
    destruct (IH _ _ H3) as (l & Hl & ->). exists (x :: l). split; [|done].
    assert (Hs : srv_step (SRequest d r) s = Some ([x], s2')) by (cbn [srv_step]; by rewrite (bind_eq _ _ _ _ _ H2)).
    by rewrite (bind_eq _ _ _ _ _ Hs), (bind_eq _ _ _ _ _ Hl).
Qed.

End Events.

Section Server.
Context {L : ConfigLib} {E : ErrorLib} {O : OSLib} {T : TmplLib} {C : CompareLib} {RL : RpcLib}
        {K : KeysLib}.
Context {W : Type} `{SS : !SessionService W} {X : Scripts W} `{PS : !ProcessState W}.
Context (ErrPath : list string -> string).
Context (config_mgmt : list string -> ConfirmedCommitInfo -> ConfirmedCommitInfo * string * bool).
Context (un_Marshal : UNode -> string -> list union_option -> string * option error).
Context (AllowedValues : snode -> UNode -> NodeRef -> W -> list string + error).
Context (component : list vci_call -> vci_call -> string + error).
Context (reader_error : list string -> option error).
Context (AuthPerm_of : Z -> AuthPerm) (GetPerms : list string -> gmap string string).
Context (log_range : Settings -> list (Z * cfgDebugSetting)).

Abbreviation St := (Server.sstate (W := W)).
Abbreviation func := (func ErrPath config_mgmt un_Marshal AllowedValues component reader_error
  AuthPerm_of GetPerms log_range).
Abbreviation srv_run := (srv_run config_mgmt func).

(** A request or an end of a connection of another process than [p], that
    loads nothing into session [k]. *)
Definition ev_foreign (p : Z) (k : string) (e : srv_event) : Prop :=
  Pid (d_ctx (ev_client e)) <> p /\
  match e with SRequest d r => request_loads d k r = false | SEnd _ => True end.

(** ** Properties *)

(** The method table is complete and its types are right: a request whose
    arguments [Call] could convert reaches a method that takes them, and what
    the method answers has the type the table says. *)
Theorem methods_typed d method m args vals : find_method method = Some m ->
  length args = length (m_in m) -> convert_args method args (m_in m) = Some (inl vals) ->
  exists f t, func_in (funcs ErrPath config_mgmt un_Marshal AllowedValues component reader_error
      AuthPerm_of GetPerms log_range d) method vals = Some f /\
    m_out m = [t; RError] /\ typed t f.
Proof.
  intros Hm Hl Hc. unfold find_method in Hm. eapply fits_find; [apply funcs_fit|exact Hm|].
  by eapply convert_args_types.
Qed.

(** C2: the lock of a session holds through the whole server: whatever requests
    the clients of other processes send, for this session or others, in
    whatever order, and however their connections end, the locked session is
    exactly as it was (candidate, lock, marks) and still there; only the
    methods that load a configuration into it can change it.  (The session
    EFFECTIVE, which every commit works on, is apart.) *)
Theorem server_respects_lock es k sess s answers s' :
  svc_session (st_sess s) k = Some sess -> s_lpid sess <> 0 -> k <> EFFECTIVE_sid ->
  Forall (ev_foreign (s_lpid sess) k) es ->
  srv_run es s = Some (answers, s') -> svc_session (st_sess s') k = Some sess.
Proof.
  intros Hs Hl Hk Hf. revert s Hs answers. induction Hf as [|e es [Hp Hr] _ IH]; intros s Hs answers H.
  { by injection H as _ <-. }
  cbn [Methods.srv_run] in H. apply bind_Some in H as (a & s1 & H1 & H).
  apply bind_Some in H as (l & s2 & H2 & H). injection H as _ <-. revert H2. apply IH.
  destruct e as [d r|d]; cbn [srv_step ev_client] in *.
  - apply bind_Some in H1 as (x & s3 & H2 & H1). injection H1 as _ <-.
    refine (Call_same ErrPath config_mgmt un_Marshal AllowedValues component reader_error AuthPerm_of
      GetPerms log_range d k sess Hk Hl Hp r Hr _ _ _ Hs H2).
  - refine ((_ : preserves (Dispatcher.same k (Some sess)) _) _ _ _ Hs H1).
    apply preserves_bind; [|intros e; apply preserves_bind; [|intros []; apply preserves_ret]].
    + apply (termination_same config_mgmt d k sess).
    + by apply (unlock_same d k sess).
Qed.
End Server.

(** ** The daemon's sessions with the calls made of components *)

Section WithCalls.
Context {L : ConfigLib} {W : Type} {SS : SessionService W}.

Definition beside {A} (m : M W A) : M (W * list vci_call) A := fun '(w, calls) =>
  match m w with Some (a, w') => Some (a, (w', calls)) | None => None end.

Lemma beside_Some {A} (m : M W A) w calls a w' : beside m (w, calls) = Some (a, w') ->
  exists w1, m w = Some (a, w1) /\ w' = (w1, calls).
Proof. cbn. destruct (m w) as [[b w1]|]; [|done]. intros [= <- <-]. eauto. Qed.

#[export] Program Instance calls_service : SessionService (W * list vci_call) := {|
  svc_session w := svc_session (fst w);
  svc_Create ctx sid st stFull shared := beside (svc_Create ctx sid st stFull shared);
  svc_Destroy ctx sid := beside (svc_Destroy ctx sid);
  svc_UnlockAllPid ctx := beside (svc_UnlockAllPid ctx);
  svc_ask A sid r term := beside (svc_ask sid r term)
|}.
Next Obligation. intros A r sid term [w c] H. cbn. by rewrite svc_ask_gone. Qed.
Next Obligation.
  intros A r sid term [w c] H. destruct (svc_ask_read A r sid term w H) as [a Ha].
  exists a. cbn. by rewrite Ha.
Qed.
Next Obligation.
  intros A r sid term [w c] a w' other (w1 & H & ->)%beside_Some Hn He. cbn. by eapply svc_ask_other.
Qed.
Next Obligation.
  intros ctx sid st stFull shared [w c] a w' other (w1 & H & ->)%beside_Some Hn. cbn.
  by eapply svc_Create_other.
Qed.
Next Obligation.
  intros ctx sid [w c] a w' other (w1 & H & ->)%beside_Some Hn. cbn. by eapply svc_Destroy_other.
Qed.
Next Obligation. intros ctx sid [w c] w' (w1 & H & ->)%beside_Some. cbn. by eapply svc_Destroy_ok. Qed.
Next Obligation.
  intros ctx [w c]. destruct (svc_UnlockAllPid_ok ctx w) as (err & w' & H & Hs).
  exists err, (w', c). cbn. by rewrite H.
Qed.
Next Obligation.
  intros ctx sid st stFull shared [w c] w' (w1 & H & ->)%beside_Some. cbn. by eapply svc_Create_ok.
Qed.
Next Obligation.
  intros ctx sid st stFull shared [w c] a w' k s (w1 & H & ->)%beside_Some Hs. cbn.
  by eapply svc_Create_there.
Qed.
Next Obligation.
  intros A r sid term [w c] a w' s (w1 & H & ->)%beside_Some Hs Hl Hf He. cbn. by eapply svc_ask_locked.
Qed.
Next Obligation.
  intros ctx sid [w c] a w' k s (w1 & H & ->)%beside_Some Hs Hl Hp. cbn. by eapply svc_Destroy_locked.
Qed.
End WithCalls.

Section DaemonState.
Context {L : ConfigLib} {SL : StateLib} {CL : CommitLib}.
Context (xml_config : string -> list xml_elem + error) (fuel : nat).

Definition set_dm_log (l : Settings) (d : daemon) : daemon :=
  Daemon (dm_mgr d) (dm_cm d) l (dm_rodisk d) (dm_trace d).

#[export] Instance daemon_process :
    ProcessState (SS := calls_service (SS := daemon_service xml_config fuel)) (daemon * list vci_call).
Proof.
  refine {| ps_log w := dm_log (fst w); ps_set_log l w := (set_dm_log l (fst w), snd w);
            ps_calls := snd; ps_set_calls l w := (fst w, l) |}.
  - by intros l [w c] sid.
  - by intros l [w c] sid.
Defined.
End DaemonState.

(** ** A server at work *)

Module SampleMethods.
Abbreviation W := (daemon (L := Sample.lib) * list vci_call)%type.
#[export] Instance service : SessionService (L := Sample.lib) W := calls_service (SS := SampleRpc.service).
#[export] Instance process : ProcessState (SS := service) W :=
  daemon_process (SL := SampleState.statelib) (CL := SampleCommit.commitlib) SampleEdit.xml 3.

Abbreviation bob := (SampleDisp.disp Sample.allow).
Abbreviation state := (Server.sstate (W := W)).

(** Session "a" of process 44, locked; bob is process 10. *)
Definition locked : session (L := Sample.lib) :=
  Session (L := Sample.lib) "a" (Some 7) 44 false [["service"]] [] Sample.root Sample.root.
Definition before : state :=
  let d := start_sessions (L := Sample.lib) SampleDaemon.system Sample.root Sample.root SampleDaemon.empty in
  SState (JobInfo "" "") []
    (set_table (L := Sample.lib) (<["a" := locked]> (dm_table d)) d, []).

Definition events : list (srv_event (H := Sample.lib)) :=
  [SRequest bob (Req "SessionLock" [JStr "a"] 1);
   SRequest bob (Req "Set" [JStr "a"; JStr "/system"] 2);
   SRequest bob (Req "Discard" [JStr "a"] 3);
   SRequest bob (Req "SessionTeardown" [JStr "a"] 4);
   SRequest bob (Req "SessionSetup" [JStr "b"] 5);
   SRequest bob (Req "Load" [JStr "b"; JStr "/etc/config"] 6);
   SRequest bob (Req "Set" [JNum 1 1; JStr "a"] 7);
   SRequest bob (Req "CallRpc" [JStr "clock"; JStr "reset"; JStr "{}"; JStr "json"] 8);
   SEnd bob].

Abbreviation server := (srv_run (L := Sample.lib) (SS := service) SampleRpc.broken
  (func (E := SampleFormat.errors) (O := SampleOS.os) (T := SampleTemplates.templates) (X := SampleTemplates.scripts)
     (C := SampleCompare.comparing) (RL := SampleRpcs.rpcs) (K := SampleKeys.keys) (SS := service)
     (PS := process) SampleRpc.ErrPath SampleRpc.broken (fun _ _ _ => ("", None)) (fun _ _ _ _ => inl [])
     (fun _ _ => inl "") (fun _ => None) (fun _ => P_READ) (fun _ => ∅) (fun _ => []))).

Lemma server_respects_lock_witness : exists answers s', server events before = Some (answers, s') /\
  svc_session (SessionService := service) (st_sess s') "a" = Some locked.
Proof.
  assert (Hrun : match server events before with Some _ => true | None => false end = true)
    by (vm_compute; reflexivity).
  destruct (server events before) as [[answers s']|] eqn:E; [clear Hrun|discriminate Hrun].
  exists answers, s'. split; [exact eq_refl|].
  refine (server_respects_lock (E := SampleFormat.errors) (O := SampleOS.os) (T := SampleTemplates.templates) (X := SampleTemplates.scripts)
     (C := SampleCompare.comparing) (RL := SampleRpcs.rpcs) (K := SampleKeys.keys) (SS := service)
     (PS := process) SampleRpc.ErrPath SampleRpc.broken (fun _ _ _ => ("", None)) (fun _ _ _ _ => inl [])
     (fun _ _ => inl "") (fun _ => None) (fun _ => P_READ) (fun _ => ∅) (fun _ => []) events "a" locked
     before answers s' _ _ _ _ E).
  - vm_compute. reflexivity.
  - discriminate.
  - discriminate.
  - unfold events. repeat constructor; first [discriminate | reflexivity].
Defined.
End SampleMethods.
