(* ===== verification/Commands.v ===== *)
(** The commands of a client: which methods of [Disp] stand for a command of the
    user, for which command line each is authorised and accounted, and that
    each method of the table (Methods.v) does so ([server/aaa.go] and the calls
    of [authCommand] and [accountCmdWrap] in [server/dispatcher.go],
    [server/config_mgmt.go] and [server/load_keys.go]). *)

From S2P Require Import Prelude GoLib Errors Rpc GoFmt External Configd LogLevel Sample Session.
From S2P Require Import StateTree Load EditConfig Commit SessionServer SessionMgr Service.
From S2P Require Import Expand CliFormat Server ConfigMgmt Daemon Dispatcher CommitRpc.
From S2P Require Import Templates Compare RpcCall LoadKeys Conn Methods.

Open Scope Z_scope.

Section Commands.
Context {L : ConfigLib} {E : ErrorLib} {O : OSLib} {T : TmplLib} {C : CompareLib} {RL : RpcLib}
        {K : KeysLib}.
Context {W : Type} `{SS : !SessionService W} {X : Scripts W} `{PS : !ProcessState W}.
Context (ErrPath : list string -> string).
Context (config_mgmt : list string -> ConfirmedCommitInfo -> ConfirmedCommitInfo * string * bool).
Context (un_Marshal : UNode -> string -> list union_option -> string * option error).
Context (AllowedValues : snode -> UNode -> NodeRef -> W -> list string + error).
Context (component : list vci_call -> vci_call -> string + error).
Context (reader_error : list string -> option error).
Context (AuthPerm_of : Z -> AuthPerm) (GetPerms : list string -> gmap string string).
Context (log_range : Settings -> list (Z * cfgDebugSetting)).

Abbreviation St := (Server.sstate (W := W)).
Abbreviation funcs := (funcs ErrPath config_mgmt un_Marshal AllowedValues component reader_error
  AuthPerm_of GetPerms log_range).
Abbreviation func := (func ErrPath config_mgmt un_Marshal AllowedValues component reader_error
  AuthPerm_of GetPerms log_range).

(** ** The command lines *)

(** A request is refused before it is a command, or is the command with these
    arguments and this path, authorised as such or accounted only. *)
Inductive line :=
  | Refused
  | Line (authorised : bool) (cmd : string) (args path : list string).

(** [uri] with its routing instance and encoding, if it has any. *)
Definition uri_args (uri routingInstance encoding : string) : list string :=
  (if bool_decide (routingInstance = "") then [] else ["routing-instance"; routingInstance])
  ++ (if bool_decide (encoding = "") then [] else ["encoding"; encoding]) ++ [uri].
Definition comment_words (message : string) : list string :=
  if bool_decide (message = "") then [] else ["comment"; message].
(** The command on a URI, its password blotted out. *)
Definition uri_line (cmd uri : string) (args : string -> list string) : line :=
  match parseMgmtURI uri with
  | inl (_, redacted) => Line true cmd (args redacted) []
  | inr _ => Refused
  end.

(** The pending confirmed commit is [info]. *)
Definition commands (d : Disp) (info : ConfirmedCommitInfo)
  : list (string * (list goval -> option line)) := [
  ("Set", fun args => match args with
     | [VString _; VString path] =>
         Some (match NormalizePath (d_ms d) (Makepath path) with
               | inl ps => Line true "set" [] ps
               | inr _ => Refused
               end)
     | _ => None end);
  ("Delete", fun args => match args with
     | [VString _; VString path] => Some (Line true "delete" [] (Makepath path))
     | _ => None end);
  ("Show", fun args => match args with
     | [VInt _; VString _; VString path; VBool _] => Some (Line true "show" [] (Makepath path))
     | _ => None end);
  ("ShowDefaults", fun args => match args with
     | [VInt _; VString _; VString path; VBool _] => Some (Line true "show" ["-all"] (Makepath path))
     | _ => None end);
  ("ShowConfigWithContextDiffs", fun args => match args with
     | [VString _; VString path; VBool all] =>
         Some (Line true "show" (if all then ["-all"] else []) (Makepath path))
     | _ => None end);
  ("CompareConfigRevisions", fun args => match args with
     | [VString _; VString one; VString two] =>
         Some (Line true "compare" (if bool_decide (one = "session") then [two] else [one; two]) [])
     | _ => None end);
  ("CompareSessionChanges", fun args => match args with
     | [VString _] => Some (Line true "compare" [] [])
     | _ => None end);
  ("Rollback", fun args => match args with
     | [VString _; VString revision; VString comment; VBool _] =>
         Some (if bool_decide (revision = "revert") then Line true "cancel-commit" (comment_words comment) []
               else Line true "rollback" (revision :: comment_words comment) [])
     | _ => None end);
  ("CancelCommit", fun args => match args with
     | [VString _; VString comment; VString persistid; VBool force; VBool _] =>
         Some (match (if force then None else cancel_checks info (Itoa (Pid (d_ctx d))) persistid) with
               | Some _ => Refused
               | None => Line true "cancel-commit" (comment_words comment) []
               end)
     | _ => None end);
  ("Load", fun args => match args with
     | [VString _; VString file] => Some (Line true "load" [file] [])
     | _ => None end);
  ("LoadReportWarnings", fun args => match args with
     | [VString _; VString file] => Some (Line true "load" [file] [])
     | _ => None end);
  ("Merge", fun args => match args with
     | [VString _; VString file] => Some (Line true "merge" [file] [])
     | _ => None end);
  ("MergeReportWarnings", fun args => match args with
     | [VString _; VString file] => Some (Line true "merge" [file] [])
     | _ => None end);
  ("LoadFrom", fun args => match args with
     | [VString _; VString source; VString ri] =>
         Some (uri_line "load" source (fun redacted => uri_args redacted ri ""))
     | _ => None end);
  ("SaveTo", fun args => match args with
     | [VString dest; VString ri] => Some (uri_line "save" dest (fun redacted => uri_args redacted ri ""))
     | _ => None end);
  ("CopyConfig", fun args => match args with
     | [VString _; VString _; VString encoding; VString _; VString _; VString _; VString _] =>
         Some (Line true "load" (uri_args "copy-config" "" encoding) [])
     | _ => None end);
  ("LoadKeys", fun args => match args with
     | [VString _; VString user; VString source; VString ri] =>
         Some (if loadKeysIsSupported d
               then uri_line "loadkey" source (fun redacted => user :: uri_args redacted ri "")
               else Refused)
     | _ => None end);
  ("Commit", fun args => match args with
     | [VString _; VString message; VBool _] => Some (Line false "commit" (comment_words message) [])
     | _ => None end);
  ("CommitConfirm", fun args => match args with
     | [VString _; VString message; VBool _; VInt mins] =>
         Some (Line false "commit-confirm" (Itoa mins :: comment_words message) [])
     | _ => None end);
  ("ConfirmedCommit", fun args => match args with
     | [VString _; VString message; VBool confirmed; VString timeout; VString persist; VString persistid; VBool _] =>
         Some (match newCommitInfo confirmed timeout persist persistid with
               | inl _ => Line false "commit" (comment_words message) []
               | inr _ => Refused
               end)
     | _ => None end);
  ("Confirm", fun args => match args with
     | [VString _] => Some (Line false "confirm" [] [])
     | _ => None end);
  ("ConfirmPersistId", fun args => match args with
     | [VString persistid] => Some (Line false "confirm" ["persist-id"; persistid] [])
     | _ => None end);
  ("Discard", fun args => match args with
     | [VString _] => Some (Line false "discard" [] [])
     | _ => None end);
  ("Validate", fun args => match args with
     | [VString _] => Some (Line false "validate" [] [])
     | _ => None end);
  ("ValidateConfig", fun args => match args with
     | [VString _; VString _; VString _] => Some (Line false "validate" [] [])
     | _ => None end)
].

Definition command_of (d : Disp) (info : ConfirmedCommitInfo) (name : string) (args : list goval)
  : option line :=
  match List.find (fun e => String.eqb (fst e) name) (commands d info) with
  | Some e => snd e args
  | None => None
  end.

(** ** What is demanded of a method *)

Definition is_log (e : sevent) : Prop := match e with EvLog _ _ => True | _ => False end.

(** No more than the log has changed; the trace has its latest event first. *)
Definition nothing_done (s s' : St) : Prop :=
  st_job s' = st_job s /\ st_sess s' = st_sess s /\
  exists logs, Forall is_log logs /\ st_trace s' = logs ++ st_trace s.

(** [Load] and [Merge] keep the warnings to themselves. *)
Definition drops_warnings (name : string) : bool := elem_b name ["Load"; "Merge"].

(** Everything a method records, but for the log, is between the records of the
    command, and its error is in the last of them. *)
Definition accounted (name : string) (a : commandArgs) (err : option error) (s s' : St) : Prop :=
  exists e work logs, Forall is_log logs /\
    st_trace s' = EvStop e :: work ++ EvStart (ca_cmd a) (ca_attrs a) :: logs ++ st_trace s /\
    (err = e \/ (drops_warnings name = true /\ err = None)).

Definition allowed (d : Disp) (a : commandArgs) : bool :=
  AuthorizeCommand (cx_Auth (d_ctx d)) (Uid (d_ctx d)) (Groups (d_ctx d)) (ca_cmd a) (Some (ca_attrs a)).

Definition obeys (d : Disp) (name : string) (l : line) (err : option error) (s s' : St) : Prop :=
  match l with
  | Refused => err <> None /\ nothing_done s s'
  | Line authorised cmd args path =>
      match newCommandArgs ErrPath d cmd args path with
      | Some a =>
          if negb authorised || allowed d a then accounted name a err s s'
          else err = Some access_denied /\ nothing_done s s'
      | None => err = Some access_denied /\ nothing_done s s'
      end
  end.

(** ** What has been recorded stays *)

Section Grows.
Context (t0 : list sevent).
Definition grown (s : St) : Prop := t0 `suffix_of` st_trace s.
Abbreviation grows m := (preserves grown m).

Lemma emit_grows e : grows (emit_s e).
Proof. apply preserves_modify. intros s Hs. by apply suffix_cons_r. Qed.
Lemma logEvent_grows pfx msg : grows (logEvent pfx msg).
Proof. unfold logEvent. destruct (filter _ _); [apply preserves_ret|apply emit_grows]. Qed.
Lemma spawn_grows args : grows (spawn_config_mgmt config_mgmt args).
Proof.
  unfold spawn_config_mgmt. go_step; [apply emit_grows|]. apply preserves_gets_bind. intros s Hs.
  destruct (config_mgmt args (st_job s)) as [[job out] ok].
  repeat first [by apply preserves_modify | go_step].
Qed.
Lemma on_svc_grows {A} (m : M W A) : grows (on_svc m).
Proof. intros s a s' Hs. unfold on_svc. destruct (m _) as [[b w]|]; [|done]. by intros [= <- <-]. Qed.

Lemma account_grows {A} args (fn : M St (A * option error)) : grows fn -> grows (accountCmdWrap args fn).
Proof. intros Hf. unfold accountCmdWrap. repeat first [apply emit_grows | exact Hf | go_step]. Qed.
Lemma authorised_grows {A} d (zero : A) args fn : grows fn -> grows (authorised_cmd d zero args fn).
Proof. intros Hf. unfold authorised_cmd. destruct (negb _); [apply preserves_ret|by apply account_grows]. Qed.

Ltac gr_step := first
  [ apply emit_grows | apply logEvent_grows | apply spawn_grows | apply on_svc_grows
  | apply account_grows | apply authorised_grows | apply preserves_gets | go_step ].

Lemma ask_ro_grows {A} d db sid (r : request A) term : grows (ask_ro d db sid r term).
Proof. unfold ask_ro, getROSession, ask. repeat gr_step. Qed.

Lemma SaveTo_grows d dest ri : grows (SaveTo ErrPath d dest ri).
Proof.
  unfold SaveTo, saveToInternal, writeTempRunningConfigFile, writeRunningConfigToFile, show, copyFile,
    uploadFile, run_as_caller.
  repeat first [apply ask_ro_grows | gr_step].
Qed.
Lemma confirmed_grows d sid msg debug t cmt rev :
  grows (confirmedCommitInternal ErrPath config_mgmt d sid msg debug t cmt rev).
Proof.
  unfold confirmedCommitInternal, performConfirmingCommitIfRequired, after_commit, Save, ConfirmingCommit,
    setConfirmedCommitTimeout, setConfirmTimeout, getConfirmedCommitInfo, logConfirmedCommitEvent,
    with_session, smgr_Get, ask.
  repeat first [apply SaveTo_grows | gr_step].
Qed.
Lemma load_reader_grows d sid file r : grows (loadReportWarningsReader d sid file r).
Proof. unfold loadReportWarningsReader, smgr_Get, ask. repeat gr_step. Qed.
Lemma changed_grows d sid : grows (SessionChanged d sid).
Proof. unfold SessionChanged, with_session, smgr_Get, ask. repeat gr_step. Qed.
Lemma rollback_grows d sid revision comment debug :
  grows (rollbackInternal ErrPath config_mgmt d sid revision comment debug).
Proof.
  unfold rollbackInternal, ConfirmSilent, check_revision, load_and_commit, loadArchivedConfig,
    commitInternal, rollback_error, logRollbackError, logRollbackEvent.
  repeat first [apply changed_grows | apply load_reader_grows | apply confirmed_grows | gr_step].
Qed.
Lemma set_each_grows d sid cmds : grows (set_each d sid cmds).
Proof.
  induction cmds as [|cmd cmds IH]; cbn [set_each]; [apply preserves_ret|].
  unfold setInternal, with_session, smgr_Get, ask. repeat first [apply IH | gr_step].
Qed.
Lemma parse_lines_grows d sid user e : forall lines n,
  grows (parse_lines (setPublicKeyForUser d sid user) lines n e).
Proof.
  induction lines as [|line lines IH]; intros n; cbn [parse_lines]; [apply preserves_ret|].
  repeat first [apply IH | apply set_each_grows | gr_step].
Qed.
Lemma loadKeys_grows d sid user source ri local args :
  grows (loadKeysInternal ErrPath config_mgmt reader_error d sid user source ri local args).
Proof.
  unfold loadKeysInternal, userIsConfigured, Exists, loadKeysFrom, loadKeysParse, ConfirmSilent, commitInternal.
  repeat first [apply ask_ro_grows | apply parse_lines_grows | apply changed_grows | apply confirmed_grows
    | gr_step].
Qed.
Lemma validateConfig_grows d sid encoding config :
  grows (validateConfigInternal ErrPath d sid encoding config).
Proof.
  unfold validateConfigInternal, SessionSetup, SessionTeardown, Validate_, validateInternal, with_session,
    smgr_Get, ask.
  repeat first [apply ask_ro_grows | gr_step].
Qed.
End Grows.

(** ** A client's methods obey *)

Section Client.
Context (d : Disp).
Hypothesis Hd : Configd (d_ctx d) = false.
Hypothesis d_tree : sn_kind (ms_node (d_ms d)) = KTree.

Definition obeying {A} (name : string) (l : line) (s : St) (m : M St (A * option error)) : Prop :=
  forall r s', m s = Some (r, s') -> obeys d name l (snd r) s s'.

Lemma client_args cmd args path :
  newCommandArgsForAaa ErrPath d cmd args path = newCommandArgs ErrPath d cmd args path.
Proof. unfold newCommandArgsForAaa. by rewrite Hd. Qed.
(** Without a path there is nothing to expand. *)
Lemma pathless_args cmd args : exists a, newCommandArgs ErrPath d cmd args [] = Some a.
Proof. unfold newCommandArgs, expandPath, processnode. rewrite d_tree. cbn. eauto. Qed.

Lemma nothing_done_refl s : nothing_done s s.
Proof. split_and!; [done..|]. by exists []. Qed.

Lemma accounted_run {A} name a (fn : M St (A * option error)) s r s' :
  (forall t0, preserves (grown t0) fn) ->
  accountCmdWrap (Some a) fn s = Some (r, s') -> accounted name a (snd r) s s'.
Proof.
  intros Hg H. unfold accountCmdWrap, emit_s in H. inv_run.
  edestruct (Hg (EvStart (ca_cmd a) (ca_attrs a) :: st_trace s)) as [work Hw]; [|eassumption|].
  - by exists [].
  - eexists _, work, []. split; [constructor|]. split; [|by left]. cbn. by rewrite Hw.
Qed.

Lemma authorised_obeys {A} name (zero : A) cmd args path fn s : (forall t0, preserves (grown t0) fn) ->
  obeying name (Line true cmd args path) s
    (authorised_cmd d zero (newCommandArgsForAaa ErrPath d cmd args path) fn).
Proof.
  intros Hg r s' H. rewrite client_args in H. unfold authorised_cmd, authCommand in H. rewrite Hd in H.
  unfold obeys, allowed. cbn [orb negb].
  destruct (newCommandArgs _ _ _ _ _) as [a|]; cbn [negb] in H;
    [destruct (AuthorizeCommand _ _ _ _ _); cbn [negb] in H; [by eapply accounted_run|]|];
    injection H as <- <-; (split; [done|apply nothing_done_refl]).
Qed.
Lemma accounted_obeys {A} name cmd args (fn : M St (A * option error)) s : (forall t0, preserves (grown t0) fn) ->
  obeying name (Line false cmd args []) s (accountCmdWrap (newCommandArgsForAaa ErrPath d cmd args []) fn).
Proof.
  intros Hg r s' H. rewrite client_args in H. unfold obeys. cbn [orb negb].
  destruct (pathless_args cmd args) as [a Ha]. rewrite Ha in *. by eapply accounted_run.
Qed.
Lemma refused_obeys {A} name (zero : A) err s : obeying name Refused s (ret (zero, Some err)).
Proof. intros r s' [= <- <-]. split; [done|apply nothing_done_refl]. Qed.

(** A line of the log before it all. *)
Lemma obeys_after_log name l err pfx msg s s' :
  obeys d name l err (put_event (EvLog pfx msg) s) s' -> obeys d name l err s s'.
Proof.
  assert (Hn : nothing_done (put_event (EvLog pfx msg) s) s' -> nothing_done s s').
  { intros (Hj & Hs & logs & Hl & Htr). split_and!; [done..|]. exists (logs ++ [EvLog pfx msg]).
    rewrite <- app_assoc. split; [|done]. apply Forall_app. by repeat constructor. }
  assert (Ha : forall a, accounted name a err (put_event (EvLog pfx msg) s) s' -> accounted name a err s s').
  { intros a (e & work & logs & Hl & Htr & He). exists e, work, (logs ++ [EvLog pfx msg]).
    rewrite <- app_assoc. split_and!; [|done..]. apply Forall_app. by repeat constructor. }
  unfold obeys. repeat case_match; naive_solver.
Qed.
Lemma emitting_obeys {A} name l pfx msg (k : M St (A * option error)) s :
  (forall s1, st_job s1 = st_job s -> obeying name l s1 k) ->
  obeying name l s (bind (emit_s (EvLog pfx msg)) (fun _ => k)).
Proof. intros Hk r s' H. by apply (obeys_after_log _ _ _ pfx msg), (Hk (put_event (EvLog pfx msg) s)). Qed.
Lemma logging_obeys {A} name l pfx msg (k : M St (A * option error)) s :
  (forall s1, st_job s1 = st_job s -> obeying name l s1 k) ->
  obeying name l s (bind (logEvent pfx msg) (fun _ => k)).
Proof.
  intros Hk. unfold logEvent. destruct (filter _ _); [|by apply emitting_obeys].
  intros r s' H. by apply (Hk s).
Qed.

(** The methods that log between the authorisation and the account. *)
Lemma logged_obeys {A} name (zero : A) cmd args msg fn s : (forall t0, preserves (grown t0) fn) ->
  obeying name (Line true cmd args []) s
    (if negb (authCommand d (newCommandArgsForAaa ErrPath d cmd args [])) then ret (zero, Some access_denied)
     else (if negb (Configd (d_ctx d)) then emit_s (EvLog "" msg) else ret tt) ;;;
       accountCmdWrap (newCommandArgsForAaa ErrPath d cmd args []) fn).
Proof.
  intros Hg. rewrite Hd. cbn [negb]. unfold authCommand. rewrite Hd, client_args.
  destruct (pathless_args cmd args) as [a Ha]. rewrite Ha.
  destruct (AuthorizeCommand _ _ _ _ _) eqn:Hz; cbn [negb].
  - apply emitting_obeys. intros s1 _ r s' H. unfold obeys, allowed. rewrite Ha, Hz. by eapply accounted_run.
  - intros r s' [= <- <-]. unfold obeys, allowed. rewrite Ha, Hz. split; [done|apply nothing_done_refl].
Qed.

(** The result of the table. *)
Lemma res_obeys {A} name l (f : A -> resval) m s : obeying name l s m -> obeying name l s (res f m).
Proof.
  intros Hm [v err] s' H. unfold res in H. apply bind_Some in H as (r & s1 & H1 & H2).
  injection H2 as <- <- <-. exact (Hm _ _ H1).
Qed.
(** [Load] and [Merge]: true without the warnings, or as it was. *)
Lemma dropping_obeys name cmd args fn s : drops_warnings name = true ->
  (forall t0, preserves (grown t0) fn) ->
  obeying name (Line true cmd args []) s
    (r <- authorised_cmd d false (newCommandArgsForAaa ErrPath d cmd args []) fn ;;
     ret (if fst r then (true, None) else r)).
Proof.
  intros Hn Hg r s' H. apply bind_Some in H as ([b err] & s1 & H1 & [= <- <-]).
  pose proof (authorised_obeys name false cmd args [] fn s Hg _ _ H1) as Ho.
  rewrite client_args in H1. unfold authorised_cmd, authCommand in H1. rewrite Hd in H1.
  destruct b; [|done]. unfold obeys, allowed in *. cbn [orb negb fst snd] in *.
  destruct (pathless_args cmd args) as [a Ha]. rewrite Ha in *.
  destruct (AuthorizeCommand _ _ _ _ _); cbn [negb] in H1; [|discriminate].
  destruct Ho as (e & work & logs & Hl & Htr & _). exists e, work, logs. split_and!; [done..|by right].
Qed.

Lemma comment_words_eq message : comment_args message = comment_words message.
Proof. unfold comment_args, comment_words. rewrite bool_decide_not. by destruct (bool_decide _). Qed.
Lemma uri_args_eq cmd uri ri enc :
  cfgMgmtCommandArgs ErrPath d cmd uri ri enc = newCommandArgsForAaa ErrPath d cmd (uri_args uri ri enc) [].
Proof.
  unfold cfgMgmtCommandArgs, uri_args. rewrite !bool_decide_not.
  by destruct (bool_decide (ri = "")), (bool_decide (enc = "")).
Qed.

(** ** The table *)

Definition entry_obeys (e : string * (list goval -> option (M St (resval * option error)))) : Prop :=
  forall args f l s, command_of d (st_job s) (fst e) args = Some l -> snd e args = Some f ->
    obeying (fst e) l s f.

Ltac grow := intros t0;
  unfold setInternal, deleteInternal, discardInternal, mergeReportWarningsInternal, copyConfigInternal,
    validateInternal, commitInternal, confirmInternal, confirmPersistIdInternal, loadFromInternal,
    saveToInternal, writeTempRunningConfigFile, writeRunningConfigToFile, copyFile, uploadFile, run_as_caller,
    compareConfigRevisionsInternal, compareSessionChangesInternal, showConfigWithContextDiffsInternal,
    against_running, ShowForceSecrets, readConfigFileForceShowSecrets, readCfgFile, show, getROSession,
    with_session, smgr_Get, ask;
  repeat first
    [ apply ask_ro_grows | apply confirmed_grows | apply rollback_grows | apply load_reader_grows
    | apply loadKeys_grows | apply validateConfig_grows | apply spawn_grows | apply on_svc_grows
    | apply emit_grows | apply preserves_gets | go_step ].

Lemma Rollback_obeys name sid revision comment debug s :
  obeying name (if bool_decide (revision = "revert") then Line true "cancel-commit" (comment_words comment) []
                else Line true "rollback" (revision :: comment_words comment) []) s
    (Rollback ErrPath config_mgmt d sid revision comment debug).
Proof.
  unfold Rollback, rollbackCommandAuthArgs. rewrite comment_words_eq.
  destruct (bool_decide _); apply authorised_obeys; grow.
Qed.
Lemma CancelCommit_obeys sid comment persistid (force debug : bool) s :
  obeying "CancelCommit"
    (match (if force then None else cancel_checks (st_job s) (Itoa (Pid (d_ctx d))) persistid) with
     | Some _ => Refused
     | None => Line true "cancel-commit" (comment_words comment) []
     end) s (CancelCommit ErrPath config_mgmt d sid comment persistid force debug).
Proof.
  unfold CancelCommit, getConfirmedCommitInfo. intros r s' H. rewrite (bind_eq _ _ s (st_job s) s eq_refl) in H.
  revert r s' H. destruct (if force then None else _); [apply refused_obeys|].
  apply logging_obeys. intros s1 _. exact (Rollback_obeys _ sid "revert" comment debug s1).
Qed.
Lemma CompareConfigRevisions_obeys sid one two s :
  obeying "CompareConfigRevisions"
    (Line true "compare" (if bool_decide (one = "session") then [two] else [one; two]) []) s
    (CompareConfigRevisions ErrPath d sid one two).
Proof.
  unfold CompareConfigRevisions. rewrite bool_decide_not.
  destruct (bool_decide (one = "session")); apply authorised_obeys; grow.
Qed.

(** A command on a URI that is one. *)
Lemma uri_obeys {A} name cmd uri args s (m : M St (A * option error)) :
  (forall local redacted, parseMgmtURI uri = inl (local, redacted) ->
     obeying name (Line true cmd (args redacted) []) s m) ->
  (forall err, parseMgmtURI uri = inr err -> obeying name Refused s m) ->
  obeying name (uri_line cmd uri args) s m.
Proof. intros H1 H2. unfold uri_line. destruct (parseMgmtURI uri) as [[]|]; eauto. Qed.

Lemma LoadKeys_obeys sid user source ri s :
  obeying "LoadKeys"
    (if loadKeysIsSupported d then uri_line "loadkey" source (fun redacted => user :: uri_args redacted ri "")
     else Refused) s
    (LoadKeys ErrPath config_mgmt reader_error d sid user source ri).
Proof.
  unfold LoadKeys, loadKeyCommandArgs, not_supported.
  destruct (loadKeysIsSupported d); cbn [negb]; [|apply refused_obeys].
  apply uri_obeys; [intros local red ->|intros err ->; apply refused_obeys]. cbv zeta.
  replace (user :: uri_args red ri "") with
    ([user] ++ (if bool_decide (ri <> "") then ["routing-instance"; ri] else []) ++ [red])
    by (unfold uri_args; rewrite bool_decide_not; by destruct (bool_decide _)).
  apply authorised_obeys. intros t0. apply loadKeys_grows.
Qed.

Lemma funcs_obey : Forall entry_obeys (funcs d).
Proof.
  unfold funcs. repeat constructor; intros args f l s Hl H;
    cbn [command_of commands List.find fst snd String.eqb Ascii.eqb Bool.eqb] in *; try discriminate Hl;
    args_of H; injection H as <-; injection Hl as <-;
    try (apply uri_obeys; [intros local red Hu|intros err Hu]); try apply res_obeys.
  all: try apply CancelCommit_obeys; try apply CompareConfigRevisions_obeys; try apply Rollback_obeys.
  all: try solve [(apply authorised_obeys || apply accounted_obeys || apply dropping_obeys); try done; grow].
  all: try apply LoadKeys_obeys.
  all: unfold CommitRpc.Commit, CommitConfirm, ConfirmedCommit, CopyConfig, LoadFrom, SaveTo, Set_, normalizePath;
    rewrite ?comment_words_eq, ?Hu, ?uri_args_eq.
  all: repeat match goal with |- context [match ?x with inl _ => _ | inr _ => _ end] => destruct x end.
  all: first [apply refused_obeys | apply authorised_obeys | apply accounted_obeys | apply logged_obeys]; grow.
Qed.
End Client.

(** ** Property *)

(** C35: every method that is a command of the user does what that command needs:
    when its arguments cannot be one, or the client is not authorised for the
    whole command line, the path written out, it answers with an error and does
    nothing but log; otherwise whatever it does is accounted for: the start
    record with that command line comes first and the stop record last, with
    the error the client gets ([Load] and [Merge] keep warnings from the
    client).  [commands] is the table of these methods and their command lines;
    it says of the commits, confirmations, discard and validations that they
    are only accounted. *)
Theorem commands_authorised d name args l s v err s' :
  Configd (d_ctx d) = false -> sn_kind (ms_node (d_ms d)) = KTree ->
  command_of d (st_job s) name args = Some l ->
  func d name args s = Some ((v, err), s') -> obeys d name l err s s'.
Proof.
  intros Hd Ht Hl H. unfold func, Methods.func in H.
  destruct (func_in _ _ _) as [f|] eqn:Ef; cbn [default] in H; [|done].
  apply func_in_elim in Ef as (e & He & <- & Hf).
  exact (proj1 (List.Forall_forall _ _) (funcs_obey d Hd Ht) e He args f l s Hl Hf _ _ H).
Qed.
End Commands.

(** ** Two clients *)

Module SampleCommands.
Abbreviation bob := (SampleDisp.disp Sample.allow).
Abbreviation eve := (SampleDisp.disp Sample.deny).
Abbreviation call := (func (E := SampleFormat.errors) (O := SampleOS.os) (T := SampleTemplates.templates)
  (X := SampleTemplates.scripts) (C := SampleCompare.comparing) (RL := SampleRpcs.rpcs) (K := SampleKeys.keys)
  (SS := SampleMethods.service) (PS := SampleMethods.process) SampleRpc.ErrPath SampleRpc.broken
  (fun _ _ _ => ("", None)) (fun _ _ _ _ => inl []) (fun _ _ => inl "") (fun _ => None) (fun _ => P_READ)
  (fun _ => ∅) (fun _ => [])).
Abbreviation obeys_here := (obeys (L := Sample.lib) (W := SampleMethods.W) SampleRpc.ErrPath).
Definition args : list goval := [VString "a"; VString "/sys/host"].

(** Both delete a node of the session, by an abbreviated path; Eve may not. *)
Lemma commands_authorised_witness :
  (exists err s', call bob "Delete" args SampleMethods.before = Some ((VRBool false, err), s') /\
     obeys_here bob "Delete" (Line true "delete" [] ["sys"; "host"]) err SampleMethods.before s' /\
     newCommandArgs (L := Sample.lib) SampleRpc.ErrPath bob "delete" [] ["sys"; "host"] =
       Some (CommandArgs ["delete"; "system"; "host-name"]
         [{| Secret := false |}; {| Secret := false |}; {| Secret := false |}])) /\
  (exists s', call eve "Delete" args SampleMethods.before = Some ((VRBool false, Some access_denied), s') /\
     st_sess s' = st_sess SampleMethods.before).
Proof.
  split.
  - assert (Hrun : match call bob "Delete" args SampleMethods.before with
                   | Some ((VRBool b, _), _) => negb b | _ => false end = true) by (vm_compute; reflexivity).
    destruct (call bob "Delete" args SampleMethods.before) as [[[v err] s']|] eqn:Er; [|discriminate Hrun].
    destruct v as [[]| | | | | |]; try discriminate Hrun. exists err, s'. split; [reflexivity|]. split.
    + refine (commands_authorised (L := Sample.lib) _ _ _ _ _ _ _ _ _ bob "Delete" args _
        SampleMethods.before _ err s' _ _ _ Er); reflexivity.
    + vm_compute. reflexivity.
  - assert (Hrun : match call eve "Delete" args SampleMethods.before with
                   | Some ((VRBool b, Some _), _) => negb b | _ => false end = true) by (vm_compute; reflexivity).
    destruct (call eve "Delete" args SampleMethods.before) as [[[v err] s']|] eqn:Er; [|discriminate Hrun].
    destruct v as [[]| | | | | |], err as [err|]; try discriminate Hrun. exists s'.
    assert (Ho : obeys_here eve "Delete" (Line true "delete" [] ["sys"; "host"]) (Some err)
      SampleMethods.before s').
    { refine (commands_authorised (L := Sample.lib) _ _ _ _ _ _ _ _ _ eve "Delete" args _
        SampleMethods.before _ (Some err) s' _ _ _ Er); reflexivity. }
    unfold obeys in Ho. cbn [orb negb] in Ho. destruct (newCommandArgs _ _ _ _ _) as [a|].
    + change (allowed (L := Sample.lib) eve a) with false in Ho. destruct Ho as [[= ->] (_ & Hs & _)]. by split.
    + destruct Ho as [[= ->] (_ & Hs & _)]. by split.
Defined.
End SampleCommands.
