(* ===== verification/Confined.v ===== *)
(** What a client cannot get at it cannot learn either: a session of one user
    is out of reach of the clients of others through the whole server of
    Methods.v.  Two servers that differ in nothing but that session are run side
    by side ([related], Prelude.v), against the interface of Service.v.  The one
    way in is a script for the allowed values, which is run for whatever session
    the client names ([script_tells]). *)

From S2P Require Import Prelude GoLib Errors Rpc GoFmt External Configd LogLevel Sample Session.
From S2P Require Import StateTree Load EditConfig Commit SessionServer SessionMgr Service.
From S2P Require Import Expand CliFormat Server ConfigMgmt Daemon Dispatcher CommitRpc.
From S2P Require Import Templates Compare RpcCall LoadKeys Conn Methods.

Open Scope Z_scope.

(** The rest of the process does not depend on the session either. *)
Class ConfinedState `{ConfigLib} (W : Type) `{PS : ProcessState W, CF : !Confined W} := {
  cs_log : forall k w1 w2, svc_agree k w1 w2 -> ps_log w1 = ps_log w2;
  cs_calls : forall k w1 w2, svc_agree k w1 w2 -> ps_calls w1 = ps_calls w2;
  cs_set_log : forall k l w1 w2, svc_agree k w1 w2 -> svc_agree k (ps_set_log l w1) (ps_set_log l w2);
  cs_set_calls : forall k l w1 w2, svc_agree k w1 w2 -> svc_agree k (ps_set_calls l w1) (ps_set_calls l w2)
}.

Section Confined.
Context {L : ConfigLib} {E : ErrorLib} {O : OSLib} {T : TmplLib} {C : CompareLib} {RL : RpcLib}
        {K : KeysLib}.
Context {W : Type} `{SS : !SessionService W} {X : Scripts W} `{PS : !ProcessState W} `{CF : !Confined W}
        `{CS : !ConfinedState W}.
Context (ErrPath : list string -> string).
Context (config_mgmt : list string -> ConfirmedCommitInfo -> ConfirmedCommitInfo * string * bool).
Context (un_Marshal : UNode -> string -> list union_option -> string * option error).
Context (AllowedValues : snode -> UNode -> NodeRef -> W -> list string + error).
Context (component : list vci_call -> vci_call -> string + error).
Context (reader_error : list string -> option error).
Context (AuthPerm_of : Z -> AuthPerm) (GetPerms : list string -> gmap string string).
Context (log_range : Settings -> list (Z * cfgDebugSetting)).

Abbreviation St := (Server.sstate (W := W)).
Abbreviation funcs := (funcs ErrPath config_mgmt un_Marshal AllowedValues component reader_error
  AuthPerm_of GetPerms log_range).
Abbreviation func := (func ErrPath config_mgmt un_Marshal AllowedValues component reader_error
  AuthPerm_of GetPerms log_range).

(** The methods that run a script of the schema for a session without asking
    whose it is ([Disp.TmplGetAllowed], and through it [GetCompletions]). *)
Definition script_methods : list string := ["TmplGetAllowed"; "GetCompletions"].
Definition runs_script (k name : string) (vals : list goval) : bool :=
  elem_b name script_methods &&
  match vals with VString sid :: _ => bool_decide (sid = k) | _ => false end.
(** The request as it comes from the client. *)
Definition script_request (k : string) (r : Request) : bool :=
  match rq_Args r with
  | JStr sid :: _ => runs_script k (rq_Method r) [VString sid]
  | _ => false
  end.
Definition script_event (k : string) (e : srv_event) : bool :=
  match e with SRequest _ r => script_request k r | SEnd _ => false end.

(** A session [k], [x1] in one server and [x2] in the other. *)
Context (k : string) (x1 x2 : session).
Hypothesis Hk : k <> EFFECTIVE_sid.
Hypothesis Hrun : k <> RUNNING_sid.

(** The evaluation of a leafref reads the tree it is given, which is never
    that of the session. *)
Hypothesis AllowedValues_confined : forall sn root nref w1 w2, svc_agree k w1 w2 ->
  AllowedValues sn root nref w1 = AllowedValues sn root nref w2.

(** A script that is run for another session asks about that one. *)
Hypothesis ExecNoErr_confined : forall sid ps action w1 w2, sid <> k -> svc_agree k w1 w2 ->
  ExecNoErr sid ps action w1 = ExecNoErr sid ps action w2.

Record apart (s t : St) : Prop := {
  ap_job : st_job s = st_job t;
  ap_trace : st_trace s = st_trace t;
  ap_agree : svc_agree k (st_sess s) (st_sess t);
  ap_left : svc_session (st_sess s) k = Some x1;
  ap_right : svc_session (st_sess t) k = Some x2
}.

Abbreviation alike m := (related apart m m).

(** ** Requests and lookups *)

Lemma ask_alike {A} sid (r : request A) term : sid <> k -> alike (ask sid r term).
Proof.
  intros Hn s t [Hj Ht Ha H1 H2]. unfold ask, on_svc.
  pose proof (svc_agree_ask k A r sid term Hn Hk _ _ Ha) as H.
  destruct (svc_ask sid r term (st_sess s)) as [[a w]|] eqn:E1,
    (svc_ask sid r term (st_sess t)) as [[b v]|] eqn:E2; cbn in H; try done.
  destruct H as [<- H]. split; [done|]. split; cbn; [done..| |].
  - rewrite (svc_ask_other _ _ _ _ _ _ _ _ E1); congruence.
  - rewrite (svc_ask_other _ _ _ _ _ _ _ _ E2); congruence.
Qed.

Lemma gets_alike {A} (f : St -> A) : (forall s t, apart s t -> f s = f t) -> alike (gets f).
Proof. apply related_gets. Qed.

Lemma emit_alike e : alike (emit_s e).
Proof. apply related_modify. intros s t []. split; cbn; congruence. Qed.

Lemma logEvent_alike pfx msg : alike (logEvent pfx msg).
Proof. unfold logEvent. destruct (filter _ _); [apply related_ret|apply emit_alike]. Qed.

Lemma job_alike : alike getConfirmedCommitInfo.
Proof. apply gets_alike. by intros s t []. Qed.

Lemma spawn_alike args : alike (spawn_config_mgmt config_mgmt args).
Proof.
  unfold spawn_config_mgmt. apply related_bind; [apply emit_alike|intros _].
  apply related_gets_bind. intros s t Hs. unfold id. rewrite (ap_job _ _ Hs).
  destruct (config_mgmt args (st_job t)) as [[job out] ok].
  apply related_bind; [|intros _; destruct (negb ok); apply related_ret].
  apply related_modify. intros s' t' []. by split.
Qed.

Lemma account_alike {A} args (fn : M St (A * option error)) : alike fn -> alike (accountCmdWrap args fn).
Proof.
  intros Hf. unfold accountCmdWrap. destruct args; [|done].
  repeat first [apply emit_alike | exact Hf | rel_step].
Qed.
Lemma authorised_alike {A} d (zero : A) args fn : alike fn -> alike (authorised_cmd d zero args fn).
Proof.
  intros Hf. unfold authorised_cmd. destruct (negb _); [apply related_ret|]. by apply account_alike.
Qed.

(** A lookup by anybody, of another session. *)
Lemma svc_Get_other ctx sid s t : sid <> k -> apart s t ->
  svc_Get ctx sid (st_sess s) = svc_Get ctx sid (st_sess t).
Proof.
  intros Hn Hs. unfold svc_Get. by rewrite (svc_agree_session k _ _ _ (ap_agree _ _ Hs) Hn).
Qed.

(** RUNNING is open to everybody, and is not [k]. *)
Lemma show_running_alike d sid path hs sd : alike (show d RUNNING sid path hs sd).
Proof.
  unfold show, ask_ro, getROSession. apply related_gets_bind. intros s t Hs. cbv zeta.
  change (RUNNING =? RUNNING) with true. cbn iota. rewrite (svc_Get_other _ RUNNING_sid s t) by done.
  destruct (svc_Get (d_ctx d) RUNNING_sid (st_sess t)); [apply related_panic|by apply ask_alike].
Qed.

Lemma writeTemp_alike d : alike (writeTempRunningConfigFile d).
Proof.
  unfold writeTempRunningConfigFile, writeRunningConfigToFile. destruct TempFile; [apply related_ret|]. apply related_bind; [apply show_running_alike|].
  intros [cfg [err|]]; [apply related_ret|]. cbv zeta. destruct (write_temp _); apply related_ret.
Qed.

Lemma SaveTo_alike d dest ri : alike (SaveTo ErrPath d dest ri).
Proof.
  unfold SaveTo. destruct (parseMgmtURI dest) as [[local red]|err]; [|apply related_ret].
  apply authorised_alike. unfold saveToInternal, copyFile, uploadFile, run_as_caller.
  repeat first [apply writeTemp_alike | apply emit_alike | rel_step].
Qed.

Lemma after_commit_alike d t cmt out : alike (after_commit ErrPath config_mgmt d t cmt out).
Proof.
  unfold after_commit, Save. apply related_bind; [apply SaveTo_alike|intros [ok err]].
  unfold setConfirmedCommitTimeout, setConfirmTimeout, logConfirmedCommitEvent.
  repeat first [apply spawn_alike | apply logEvent_alike | rel_step].
Qed.

Lemma performConfirming_alike pid cmt rev :
  alike (performConfirmingCommitIfRequired config_mgmt pid cmt rev).
Proof.
  unfold performConfirmingCommitIfRequired, ConfirmingCommit, logConfirmedCommitEvent.
  repeat first [apply job_alike | apply spawn_alike | apply logEvent_alike | rel_step].
Qed.

Section Client.
Context (d : Disp).
Hypothesis Hd1 : permitted (d_ctx d) x1 = false.
Hypothesis Hd2 : permitted (d_ctx d) x2 = false.

(** The client's lookup of [k] fails in both. *)
Lemma svc_Get_k s t : apart s t ->
  svc_Get (d_ctx d) k (st_sess s) = Some access_denied /\ svc_Get (d_ctx d) k (st_sess t) = Some access_denied.
Proof.
  intros [_ _ _ H1 H2]. unfold svc_Get. by rewrite H1, H2, Hd1, Hd2.
Qed.
Lemma svc_Get_client sid s t : apart s t ->
  svc_Get (d_ctx d) sid (st_sess s) = svc_Get (d_ctx d) sid (st_sess t).
Proof.
  intros Hs. destruct (decide (sid = k)) as [->|Hn]; [|by apply svc_Get_other].
  destruct (svc_Get_k s t Hs) as [E1 E2]. congruence.
Qed.

Lemma Get_bind_alike {A} sid (c : option error -> M St A) :
  (sid <> k -> alike (c None)) -> (forall e, alike (c (Some e))) -> alike (bind (smgr_Get d sid) c).
Proof.
  intros Hn He. apply related_gets_bind. intros s t Hs. rewrite (svc_Get_client sid s t Hs).
  destruct (svc_Get (d_ctx d) sid (st_sess t)) as [e|] eqn:Eg; [apply He|]. apply Hn. intros ->.
  destruct (svc_Get_k s t Hs) as [_ E2]. congruence.
Qed.

Lemma with_session_alike {A} (zero : A) sid c : (sid <> k -> alike c) -> alike (with_session d zero sid c).
Proof. intros Hc. apply Get_bind_alike; [exact Hc|intros e; apply related_ret]. Qed.

(** The session a read-only method works on is never [k]. *)
Lemma getRO_bind_alike {A} db sid (c : option string -> M St A) :
  (forall name, name <> k -> alike (c (Some name))) -> alike (c None) ->
  alike (bind (getROSession d db sid) c).
Proof.
  intros Hn H0. apply related_gets_bind. intros s t Hs. cbv zeta.
  rewrite !(fun name => svc_Get_client name s t Hs).
  destruct (svc_Get_k s t Hs) as [_ Ek].
  repeat match goal with
  | |- context [match svc_Get ?c ?n ?w with _ => _ end] => destruct (svc_Get c n w) eqn:?
  | |- context [if ?b then _ else _] => destruct b
  end; first [exact H0 | apply Hn; first [exact (not_eq_sym Hrun) | exact (not_eq_sym Hk) | intros Es; rewrite Es in *; congruence]].
Qed.

Ltac al_step := first
  [ apply emit_alike | apply logEvent_alike | apply spawn_alike | apply job_alike
  | apply account_alike | apply authorised_alike | (apply ask_alike; assumption)
  | (apply with_session_alike; intros ?) | (apply Get_bind_alike; [intros ?|intros ?])
  | (apply getRO_bind_alike; [intros ? ?|]) | rel_step ].

Lemma ask_ro_alike {A} db sid (r : request A) term : alike (ask_ro d db sid r term).
Proof. unfold ask_ro. repeat al_step. Qed.

(** The session's auther is that of a session the client may get at. *)
Lemma auther_alike name s t : name <> k -> apart s t ->
  auther_of d name (st_sess s) = auther_of d name (st_sess t).
Proof.
  intros Hn Hs. unfold auther_of. by rewrite (svc_agree_session k _ _ _ (ap_agree _ _ Hs) Hn).
Qed.

Lemma TreeGet_alike db sid path enc flags : alike (TreeGet un_Marshal d db sid path enc flags).
Proof.
  unfold TreeGet. cbv zeta. apply getRO_bind_alike; [|apply related_panic]. intros name Hn.
  apply related_bind; [by apply ask_alike|]. intros [[ut|] [err|]]; try apply related_ret.
  apply related_gets_bind. intros s t Hs. unfold id. rewrite (auther_alike name s t Hn Hs). apply related_ret.
Qed.

Lemma TreeGetFull_alike db sid path enc flags : alike (TreeGetFull un_Marshal d db sid path enc flags).
Proof.
  unfold TreeGetFull. apply related_bind; [|intros r; apply related_ret].
  unfold TreeGetFullWithWarnings. cbv zeta. apply getRO_bind_alike; [|apply related_panic]. intros name Hn.
  apply related_bind; [by apply ask_alike|]. intros [[[ut|] [err|]] warns]; try apply related_ret.
  apply related_gets_bind. intros s t Hs. unfold id. rewrite (auther_alike name s t Hn Hs).
  destruct (un_Marshal ut enc _). apply related_ret.
Qed.

Lemma GetHelp_alike sid schema path : alike (GetHelp d sid schema path).
Proof.
  unfold GetHelp. cbv zeta. apply getRO_bind_alike; [|apply related_panic]. intros name Hn.
  apply related_gets_bind. intros s t Hs. unfold id.
  rewrite (svc_agree_session k _ _ _ (ap_agree _ _ Hs) Hn).
  destruct (svc_session (st_sess t) name); [|apply related_ret].
  apply related_bind; [by apply ask_alike|]. intros h. apply related_ret.
Qed.

Lemma readCfgFile_alike file force : alike (readCfgFile d file force).
Proof.
  unfold readCfgFile. destruct (readCfgFile_raw file) as [text|err]; [|apply related_ret].
  destruct (fst (load_Load file (Some text) (d_ms d))) as [dtree|err]; [|apply related_ret].
  apply getRO_bind_alike; [|apply related_panic]. intros name Hn.
  apply related_gets_bind. intros s t Hs. unfold id. rewrite (auther_alike name s t Hn Hs).
  cbv zeta. apply related_ret.
Qed.

Lemma leafref_values_alike lrNode root ps : alike (leafref_values AllowedValues lrNode root ps).
Proof.
  unfold leafref_values. destruct (MakeNodeRef _ _) as [nref|]; [|apply related_panic].
  apply related_gets_bind. intros s t Hs. unfold id.
  rewrite (AllowedValues_confined _ _ _ _ _ (ap_agree _ _ Hs)). apply related_ret.
Qed.

Lemma count_missing_alike name ps : name <> k -> forall left index,
  alike (count_missing d name ps left index).
Proof.
  intros Hn left. induction left as [|left IH]; intros index; cbn [count_missing];
    repeat first [apply IH | al_step].
Qed.

Lemma getLeafrefVals_alike sid ps sn : alike (getLeafrefVals AllowedValues d sid ps sn).
Proof.
  unfold getLeafrefVals.
  repeat first [(apply count_missing_alike; assumption) | apply leafref_values_alike | al_step].
Qed.

Lemma TmplGetAllowed_alike sid path : sid <> k -> alike (TmplGetAllowed AllowedValues d sid path).
Proof.
  intros Hn. unfold TmplGetAllowed. cbv zeta. repeat case_match; try apply related_ret.
  - repeat first [apply getLeafrefVals_alike | al_step].
  - apply related_gets_bind. intros s1 s2 Hs. unfold id.
    rewrite (ExecNoErr_confined _ _ _ _ _ Hn (ap_agree _ _ Hs)). repeat case_match; apply related_ret.
Qed.

(** Creating and destroying *)
Lemma Create_alike sid st stFull shared : alike (on_svc (svc_Create (d_ctx d) sid st stFull shared)).
Proof.
  intros s t Hs. destruct Hs as [Hj Ht Ha H1 H2]. unfold on_svc.
  pose proof (svc_agree_Create k (d_ctx d) sid st stFull shared _ _ Ha Hk) as H.
  specialize (H (fun _ => conj (ex_intro _ x1 (conj H1 Hd1)) (ex_intro _ x2 (conj H2 Hd2)))).
  destruct (svc_Create _ _ _ _ _ (st_sess s)) as [[a w]|] eqn:E1,
    (svc_Create _ _ _ _ _ (st_sess t)) as [[b v]|] eqn:E2; cbn in H; try done.
  destruct H as [<- H]. split; [done|]. split; cbn; [done..| |];
    eapply svc_Create_there; eassumption.
Qed.
Lemma Destroy_alike sid : alike (on_svc (svc_Destroy (d_ctx d) sid)).
Proof.
  intros s t Hs. destruct Hs as [Hj Ht Ha H1 H2]. unfold on_svc.
  pose proof (svc_agree_Destroy k (d_ctx d) sid _ _ Ha Hk) as H.
  specialize (H (fun _ => conj (ex_intro _ x1 (conj H1 Hd1)) (ex_intro _ x2 (conj H2 Hd2)))).
  assert (Hkeep : forall w a w' x, svc_Destroy (d_ctx d) sid w = Some (a, w') ->
    svc_session w k = Some x -> permitted (d_ctx d) x = false -> svc_session w' k = Some x).
  { intros w a w' x Hw Hx Hp. destruct (decide (k = sid)) as [<-|Hn].
    - by eapply svc_Destroy_denied.
    - rewrite <- Hx. by eapply svc_Destroy_other. }
  destruct (svc_Destroy _ _ (st_sess s)) as [[a w]|] eqn:E1,
    (svc_Destroy _ _ (st_sess t)) as [[b v]|] eqn:E2; cbn in H; try done.
  destruct H as [<- H]. split; [done|]. split; cbn; [done..| |]; eapply Hkeep; eassumption.
Qed.

(** Commits, loads, keys *)
Lemma confirmed_alike sid msg debug t cmt rev :
  alike (confirmedCommitInternal ErrPath config_mgmt d sid msg debug t cmt rev).
Proof.
  unfold confirmedCommitInternal.
  repeat first [apply performConfirming_alike | apply after_commit_alike | al_step].
Qed.

Lemma load_reader_alike sid file r : alike (loadReportWarningsReader d sid file r).
Proof. unfold loadReportWarningsReader. repeat al_step. Qed.

Lemma changed_alike sid : alike (SessionChanged d sid).
Proof. unfold SessionChanged. repeat al_step. Qed.

Lemma rollback_alike sid revision comment debug :
  alike (rollbackInternal ErrPath config_mgmt d sid revision comment debug).
Proof.
  unfold rollbackInternal, ConfirmSilent, check_revision, load_and_commit, loadArchivedConfig,
    commitInternal, rollback_error, logRollbackError, logRollbackEvent.
  repeat first [apply changed_alike | apply load_reader_alike | apply confirmed_alike | al_step].
Qed.

Lemma set_each_alike sid cmds : alike (set_each d sid cmds).
Proof.
  induction cmds as [|cmd cmds IH]; cbn [set_each]; [apply related_ret|].
  unfold setInternal. repeat first [apply IH | al_step].
Qed.
Lemma parse_lines_alike sid user e : forall lines n,
  alike (parse_lines (setPublicKeyForUser d sid user) lines n e).
Proof.
  induction lines as [|line lines IH]; intros n; cbn [parse_lines]; [apply related_ret|].
  repeat first [apply IH | apply set_each_alike | al_step].
Qed.
Lemma loadKeysFrom_alike sid user source cmd args :
  alike (loadKeysFrom ErrPath config_mgmt reader_error d sid user source cmd args).
Proof.
  unfold loadKeysFrom, loadKeysParse, ConfirmSilent, commitInternal.
  repeat first [apply parse_lines_alike | apply changed_alike | apply confirmed_alike | al_step].
Qed.

(** ** The table *)

Lemma res_alike {A} (f : A -> resval) m : alike m -> alike (res f m).
Proof. intros Hm. unfold res. apply related_bind; [exact Hm|intros a; apply related_ret]. Qed.
Lemma total_alike {A} (f : A -> resval) r : alike (total f r).
Proof. destruct r; [apply related_ret|apply related_panic]. Qed.

Lemma on_calls_alike {A} (m : M (list vci_call) A) : alike (on_calls m).
Proof.
  intros s t [Hj Ht Ha H1 H2]. unfold on_calls. rewrite (cs_calls k _ _ Ha).
  destruct (m (ps_calls (st_sess t))) as [[a calls]|]; [|done]. split; [done|].
  split; cbn; [done..|by apply cs_set_calls|by rewrite ps_set_calls_session|by rewrite ps_set_calls_session].
Qed.
Lemma SetConfigDebug_alike sid logName level : alike (Disp_SetConfigDebug log_range sid logName level).
Proof.
  unfold Disp_SetConfigDebug. apply related_gets_bind. intros s t Hs.
  rewrite (cs_log k _ _ (ap_agree _ _ Hs)).
  destruct (SetConfigDebug _ _ _ _) as [r m]. apply related_bind; [|intros _; apply related_ret].
  apply related_modify. intros s' t' [Hj Ht Ha H1 H2].
  split; cbn; [done..|by apply cs_set_log|by rewrite ps_set_log_session|by rewrite ps_set_log_session].
Qed.

Definition entry_alike (e : string * (list goval -> option (M St (resval * option error)))) : Prop :=
  forall args f, snd e args = Some f -> runs_script k (fst e) args = false -> alike f.

Lemma show_alike db sid path hs sd : alike (show d db sid path hs sd).
Proof. apply ask_ro_alike. Qed.

Lemma funcs_alike : Forall entry_alike (funcs d).
Proof.
  unfold funcs. repeat constructor; intros args f H Hsid; cbn [fst snd] in *; args_of H; injection H as <-;
    first [apply related_ret | apply total_alike | apply res_alike].
  all: unfold runs_script in Hsid; cbn in Hsid; try apply bool_decide_eq_false_1 in Hsid.
  all: try apply on_calls_alike; try apply SetConfigDebug_alike.
  all: unfold_methods; unfold Save, validateConfigInternal, copyFile, uploadFile, run_as_caller.
  all: repeat first
    [ apply confirmed_alike | apply rollback_alike | apply load_reader_alike | apply loadKeysFrom_alike
    | (apply TmplGetAllowed_alike; assumption) | apply changed_alike | apply SaveTo_alike | apply readCfgFile_alike
    | apply TreeGet_alike | apply TreeGetFull_alike | apply GetHelp_alike | apply show_alike
    | apply ask_ro_alike | apply Create_alike | apply Destroy_alike | al_step ].
  all: unfold Exists, against_running, ShowForceSecrets, SessionSetup, SessionTeardown;
    repeat first [apply ask_ro_alike | apply Create_alike | apply Destroy_alike | al_step].
Qed.

Lemma func_alike name args : runs_script k name args = false -> alike (func d name args).
Proof.
  intros Hsid. unfold func, Methods.func. destruct (func_in _ _ _) as [f|] eqn:Ef; cbn [default]; [|apply related_panic].
  apply func_in_elim in Ef as (e & He & <- & Hf).
  exact (proj1 (List.Forall_forall _ _) funcs_alike e He args f Hf Hsid).
Qed.

(** The session a request names is that of the values it is converted to. *)
Lemma script_request_vals r params vals : script_request k r = false ->
  convert_args (rq_Method r) (rq_Args r) params = Some (inl vals) ->
  runs_script k (rq_Method r) vals = false.
Proof.
  unfold script_request. intros Hr H. destruct (rq_Args r) as [|j args], params as [|t params];
    cbn [convert_args] in H; try (injection H as <-; unfold runs_script; by rewrite andb_false_r).
  destruct (convert j t) as [v| |] eqn:Ec; try done.
  destruct (convert_args _ args params) as [[vs|e]|]; try done. injection H as <-.
  destruct j, t; try discriminate Ec; injection Ec as <-; try exact Hr;
    unfold runs_script; by rewrite andb_false_r.
Qed.

Lemma Call_alike r : script_request k r = false ->
  alike (Call (func d) (d_ctx d) (rq_Method r) (rq_Args r)).
Proof.
  intros Hr. unfold Call. destruct (find_method _) as [m|]; [|apply related_ret].
  destruct (negb _); [apply related_ret|]. destruct (negb _); [apply related_ret|].
  destruct (convert_args _ _ _) as [[vals|err]|] eqn:Ec; [|apply related_ret|apply related_panic].
  apply related_bind; [|intros x; apply related_ret].
  by apply func_alike, (script_request_vals r (m_in m)).
Qed.

Hypothesis Hp1 : s_lpid x1 <> 0 -> s_lpid x1 <> Pid (d_ctx d).
Hypothesis Hp2 : s_lpid x2 <> 0 -> s_lpid x2 <> Pid (d_ctx d).

(** The end of a connection gives back the locks of that process, and the
    session is not locked by it. *)
Lemma unlock_all_alike : alike (unlock_all (d_ctx d)).
Proof.
  intros s t [Hj Ht Ha H1 H2]. unfold unlock_all.
  pose proof (svc_agree_UnlockAllPid k (d_ctx d) Hk _ _ Ha) as H.
  destruct (svc_UnlockAllPid_ok (d_ctx d) (st_sess s)) as (e1 & w1 & E1 & U1).
  destruct (svc_UnlockAllPid_ok (d_ctx d) (st_sess t)) as (e2 & w2 & E2 & U2).
  rewrite E1, E2 in *. destruct H as [_ H]. split; [done|].
  assert (Hkeep : forall x : session, (s_lpid x <> 0 -> s_lpid x <> Pid (d_ctx d)) ->
    (if negb (s_lpid x =? 0) && (s_lpid x =? Pid (d_ctx d)) then set_lpid 0 x else x) = x).
  { intros x Hx. destruct (Z.eqb_spec (s_lpid x) 0) as [|H0]; [done|]. cbn [negb andb].
    by rewrite (proj2 (Z.eqb_neq _ _) (Hx H0)). }
  split; cbn; [done..| |].
  - rewrite U1, H1. cbn. by rewrite Hkeep.
  - rewrite U2, H2. cbn. by rewrite Hkeep.
Qed.

Lemma termination_alike : alike (sessionTermination config_mgmt d).
Proof. unfold sessionTermination. repeat al_step. Qed.
End Client.

(** A client that may not get at the session, of another process than the one
    that has locked it, if any. *)
Definition outsider (x : session) (c : Context) : Prop :=
  permitted c x = false /\ (s_lpid x <> 0 -> s_lpid x <> Pid c).

(** ** Property *)

(** C3: a session is confined to those who may get at it: let two servers differ
    in session [k] and nothing else; whatever requests the other clients send,
    but for the allowed values and completions of that very session, in whatever
    order, and however their connections end, both servers give the same
    answers, run the same commands, keep the same accounts and log, and still
    differ in nothing but that session, which in each of them is just as it was.
    So those clients can neither change it nor learn anything of it.  The
    exception is real ([script_tells]): a script for the allowed values is run
    for any session the client names.  A script run for another session, and
    the evaluation of a leafref over the tree of another, are taken not to
    depend on this one; the session is not RUNNING or EFFECTIVE; and a command the server starts (the callbacks
    of a commit, config-mgmt) is here no more than the command it is. *)
Theorem session_confined es s t :
  Forall (fun e => (outsider x1 (d_ctx (ev_client e)) /\ outsider x2 (d_ctx (ev_client e))) /\
    script_event k e = false) es ->
  apart s t ->
  same_outcome apart (srv_run config_mgmt func es s) (srv_run config_mgmt func es t).
Proof.
  intros Hes. revert s t. change (alike (srv_run config_mgmt func es)).
  induction Hes as [|e es [[[P1 L1] [P2 L2]] Hr] _ IH]; cbn [srv_run]; [apply related_ret|].
  apply related_bind; [|intros a; apply related_bind; [exact IH|intros l; apply related_ret]].
  destruct e as [d r|d]; cbn [srv_step ev_client script_event] in *.
  - apply related_bind; [by apply Call_alike|intros a; apply related_ret].
  - apply related_bind; [by apply termination_alike|intros _].
    apply related_bind; [by apply unlock_all_alike|intros _; apply related_ret].
Qed.
End Confined.

(** ** The daemon's sessions are confined *)

Section Instances.
Context {L : ConfigLib} {SL : StateLib} {CL : CommitLib}.
Context (xml_config : string -> list xml_elem + error) (fuel : nat).

Definition calls_agree (k : string) (w1 w2 : daemon * list vci_call) : Prop :=
  dm_agree k (fst w1) (fst w2) /\ snd w1 = snd w2.

Lemma beside_related {A} k (m n : M daemon A) : related (dm_agree k) m n ->
  related (calls_agree k) (beside m) (beside n).
Proof.
  intros H [w1 c1] [w2 c2] [Ha Hc]. specialize (H w1 w2 Ha). cbn in *.
  destruct (m w1) as [[a v1]|], (n w2) as [[b v2]|]; cbn in *; try done. by destruct H.
Qed.

#[export] Instance calls_confined :
    Confined (daemon * list vci_call) (H := calls_service (SS := daemon_service xml_config fuel)).
Proof.
  pose (DS := daemon_service xml_config fuel). pose (DC := daemon_confined xml_config fuel).
  refine {| svc_agree := calls_agree |}.
  - intros k w1 w2 other [Ha _] Ho. cbn. exact (svc_agree_session (Confined := DC) k _ _ other Ha Ho).
  - intros k A r sid term Hn He. apply beside_related.
    exact (svc_agree_ask (Confined := DC) k A r sid term Hn He).
  - intros k ctx sid st stFull shared [w1 c1] [w2 c2] [Ha Hc] He Hd. cbn in Hc. subst c2.
    pose proof (svc_agree_Create (Confined := DC) k ctx sid st stFull shared w1 w2 Ha He Hd) as H.
    cbn [svc_Create calls_service beside] in *.
    destruct (svc_Create _ _ _ _ _ w1) as [[a v1]|], (svc_Create _ _ _ _ _ w2) as [[b v2]|]; cbn in *;
      try done. by destruct H.
  - intros k ctx sid [w1 c1] [w2 c2] [Ha Hc] He Hd. cbn in Hc. subst c2.
    pose proof (svc_agree_Destroy (Confined := DC) k ctx sid w1 w2 Ha He Hd) as H.
    cbn [svc_Destroy calls_service beside] in *.
    destruct (svc_Destroy _ _ w1) as [[a v1]|], (svc_Destroy _ _ w2) as [[b v2]|]; cbn in *; try done.
    by destruct H.
  - intros ctx [w c] a w' k s (w1 & H & ->)%beside_Some Hs Hp. cbn in *.
    exact (svc_Destroy_denied (Confined := DC) ctx w a w1 k s H Hs Hp).
  - intros k ctx He. apply beside_related. exact (svc_agree_UnlockAllPid (Confined := DC) k ctx He).
Defined.

#[export] Instance daemon_confined_state :
    ConfinedState (daemon * list vci_call) (PS := daemon_process xml_config fuel) (CF := calls_confined).
Proof.
  split.
  - intros k [w1 c1] [w2 c2] [(Hs & Hc & Hl & Ht) _]. exact Hl.
  - intros k [w1 c1] [w2 c2] [_ Hc]. exact Hc.
  - intros k l [w1 c1] [w2 c2] [(Hs & Hc & Hl & Hr & Ht) H]. split; [|exact H]. by split_and!.
  - intros k l [w1 c1] [w2 c2] [Ha _]. by split.
Qed.
End Instances.

(** ** Two servers *)

Module SampleConfined.
Abbreviation bob := (SampleDisp.disp Sample.allow).
#[export] Instance confined : Confined (L := Sample.lib) SampleMethods.W (H := SampleMethods.service) :=
  calls_confined (L := Sample.lib) SampleEdit.xml 3.
#[export] Instance confined_state :
    ConfinedState (H := Sample.lib) SampleMethods.W (PS := SampleMethods.process) (CF := confined) :=
  daemon_confined_state (L := Sample.lib) (SL := SampleState.statelib) (CL := SampleCommit.commitlib)
    SampleEdit.xml 3.

(** Session "a" of user 99, with what he is about to configure. *)
Definition session_a (candidate : list (list string)) : session (L := Sample.lib) :=
  Session (L := Sample.lib) "a" (Some 99) 0 false candidate [] Sample.root Sample.root.
Definition base : daemon (L := Sample.lib) :=
  start_sessions (L := Sample.lib) SampleDaemon.system Sample.root Sample.root SampleDaemon.empty.
Definition server_with (candidate : list (list string)) : SampleMethods.state :=
  SState (JobInfo "" "") []
    (set_table (L := Sample.lib) (<["a" := session_a candidate]> (dm_table base)) base, []).

(** The script of a host name asks for the candidate of the session it is told. *)
#[local] Instance asking_scripts : Scripts SampleMethods.W :=
  {| ExecNoErr sid _ _ w :=
       match svc_session (SessionService := SampleMethods.service) w sid with
       | Some x => inl (Some (String.concat "," (List.concat (s_candidate (L := Sample.lib) x))))
       | None => inl None
       end |}.
Abbreviation server := (srv_run (L := Sample.lib) (SS := SampleMethods.service) SampleRpc.broken
  (func (E := SampleFormat.errors) (O := SampleOS.os) (T := SampleTemplates.templates) (X := asking_scripts)
     (C := SampleCompare.comparing) (RL := SampleRpcs.rpcs) (K := SampleKeys.keys) (SS := SampleMethods.service)
     (PS := SampleMethods.process) SampleRpc.ErrPath SampleRpc.broken (fun _ _ _ => ("", None))
     (fun _ _ _ _ => inl []) (fun _ _ => inl "") (fun _ => None) (fun _ => P_READ) (fun _ => ∅) (fun _ => []))).

(** Bob, user 7, tries to look into it, to change it and to get rid of it. *)
Definition attempts : list (srv_event (H := Sample.lib)) :=
  map (SRequest (H := Sample.lib) bob)
    [Req "Show" [JNum 2 1; JStr "a"; JStr ""; JBool false] 1;
     Req "CompareSessionChanges" [JStr "a"] 2;
     Req "SessionChanged" [JStr "a"] 3;
     Req "Set" [JStr "a"; JStr "/system"] 4;
     Req "Load" [JStr "a"; JStr "/etc/config"] 5;
     Req "SessionSetup" [JStr "a"] 6;
     Req "SessionTeardown" [JStr "a"] 7;
     Req "SessionSetup" [JStr "b"] 8;
     Req "TmplGetAllowed" [JStr "b"; JStr "/system/host-name"] 11;
     Req "Set" [JStr "b"; JStr "/service"] 9;
     Req "Commit" [JStr "b"; JStr ""; JBool false] 10] ++ [SEnd (H := Sample.lib) bob].

Abbreviation differ := (apart (L := Sample.lib) (CF := confined) "a" (session_a [["service"]]) (session_a [])).

Lemma servers_differ : differ (server_with [["service"]]) (server_with []).
Proof.
  split; [done..| |vm_compute; reflexivity|vm_compute; reflexivity].
  split; [|done]. apply agree_set_table; [discriminate|by split_and!|].
  intros other Ho. by rewrite !lookup_insert_ne by congruence.
Qed.

Lemma session_confined_witness :
  same_outcome differ (server attempts (server_with [["service"]]))
    (server attempts (server_with [])) /\
  match server attempts (server_with []) with Some (l, _) => length l = 11%nat | None => False end.
Proof.
  split; [|vm_compute; reflexivity].
  refine (session_confined (L := Sample.lib) (E := SampleFormat.errors) (O := SampleOS.os)
     (T := SampleTemplates.templates) (X := asking_scripts) (C := SampleCompare.comparing) (RL := SampleRpcs.rpcs)
     (K := SampleKeys.keys) (SS := SampleMethods.service) (PS := SampleMethods.process)
     (CF := confined) (CS := confined_state)
     SampleRpc.ErrPath SampleRpc.broken (fun _ _ _ => ("", None)) (fun _ _ _ _ => inl [])
     (fun _ _ => inl "") (fun _ => None) (fun _ => P_READ) (fun _ => ∅) (fun _ => [])
     "a" (session_a [["service"]]) (session_a []) _ _ _ _ attempts (server_with [["service"]])
     (server_with []) _ servers_differ).
  - discriminate.
  - discriminate.
  - reflexivity.
  - intros sid ps action w1 w2 Hn Ha. cbn [ExecNoErr asking_scripts].
    by rewrite (svc_agree_session (Confined := confined) "a" w1 w2 sid Ha Hn).
  - unfold attempts. repeat constructor; first [discriminate|reflexivity].
Defined.

(** The script of session "a" tells Bob what its user is about to configure. *)
Definition ask_script : list (srv_event (H := Sample.lib)) :=
  [SRequest bob (Req "TmplGetAllowed" [JStr "a"; JStr "/system/host-name"] 1)].
Definition told (s : SampleMethods.state) := fst <$> server ask_script s.
Lemma script_tells : told (server_with [["service"]]) <> told (server_with []).
Proof. vm_compute. discriminate. Qed.
End SampleConfined.
