(* ===== verification/Answers.v ===== *)
(** Every request of a client is answered: the methods behind the server's
    table neither panic nor get stuck, so that no client ends the daemon, but
    for the requests named here.  Proved against sessions that always answer
    ([Answering], Service.v), which the daemon's are (Progress.v). *)

From S2P Require Import Prelude GoLib Errors Rpc GoFmt External Configd LogLevel Sample Session.
From S2P Require Import StateTree Load EditConfig Commit SessionServer SessionMgr Service.
From S2P Require Import Expand CliFormat Server ConfigMgmt Daemon Dispatcher CommitRpc.
From S2P Require Import Templates Compare RpcCall LoadKeys Conn Methods Progress.

Open Scope Z_scope.

(** The rest of the process may change. *)
Class AnsweringState `{ConfigLib} (W : Type) `{PS : ProcessState W, AS : !Answering W} := {
  as_set_log : forall l w, svc_ready w -> svc_ready (ps_set_log l w);
  as_set_calls : forall l w, svc_ready w -> svc_ready (ps_set_calls l w)
}.

(** ** The requests that may end the daemon *)

(** A database number is one of the four. *)
Definition is_db (db : Z) : bool :=
  (db =? AUTO) || (db =? RUNNING) || (db =? CANDIDATE) || (db =? EFFECTIVE).
(** Following a leafref dereferences what the schema of the tree may not have. *)
Definition leafref_methods : list string := ["TmplGetAllowed"; "GetCompletions"].
(** Loading keys needs the arguments of the command, which configd has not. *)
Definition sound_method `{ConfigLib} (d : Disp) (name : string) : bool :=
  negb (elem_b name leafref_methods) && negb (bool_decide (name = "LoadKeys") && Configd (d_ctx d)).
Definition sound_vals (vals : list goval) : bool :=
  match vals with VInt db :: _ => is_db db | _ => true end.

Definition is_null (j : json) : bool := match j with JNull => true | _ => false end.
Definition sound_request `{ConfigLib} (d : Disp) (r : Request) : bool :=
  sound_method d (rq_Method r) && negb (existsb is_null (rq_Args r))
  && match find_method (rq_Method r), rq_Args r with
     | Some m, JNum n den :: _ =>
         match m_in m with GDB :: _ => is_db (Z.quot n (Z.pos den)) | _ => true end
     | _, _ => true
     end.

Section Answers.
Context {L : ConfigLib} {E : ErrorLib} {O : OSLib} {T : TmplLib} {C : CompareLib} {RL : RpcLib}
        {K : KeysLib}.
Context {W : Type} `{SS : !SessionService W} {X : Scripts W} `{PS : !ProcessState W} `{AS : !Answering W}
        `{ASt : !AnsweringState W}.
Context (ErrPath : list string -> string).
Context (config_mgmt : list string -> ConfirmedCommitInfo -> ConfirmedCommitInfo * string * bool).
Context (un_Marshal : UNode -> string -> list union_option -> string * option error).
Context (AllowedValues : snode -> UNode -> NodeRef -> W -> list string + error).
Context (component : list vci_call -> vci_call -> string + error).
Context (reader_error : list string -> option error).
Context (AuthPerm_of : Z -> AuthPerm) (GetPerms : list string -> gmap string string).
Context (log_range : Settings -> list (Z * cfgDebugSetting)).

(** A model set is a tree, and the lists of a schema have keys. *)
Hypothesis ms_tree : forall ms, sn_kind (ms_node ms) = KTree.
Hypothesis tmpl_keys : forall ms ps sn, PathDescendant ms ps = Some sn -> sn_kind sn = KList -> sn_keys sn <> [].

Abbreviation St := (Server.sstate (W := W)).
Abbreviation funcs := (funcs ErrPath config_mgmt un_Marshal AllowedValues component reader_error
  AuthPerm_of GetPerms log_range).
Abbreviation func := (func ErrPath config_mgmt un_Marshal AllowedValues component reader_error
  AuthPerm_of GetPerms log_range).

Definition ready (s : St) : Prop := svc_ready (st_sess s).
Abbreviation answers m := (returns ready m).

(** ** Commands *)

Lemma same_sessions_answers f : (forall s, st_sess (f s) = st_sess s) -> answers (modify f).
Proof. intros Hf. apply returns_modify. intros s Hs. unfold ready. by rewrite Hf. Qed.
Lemma emit_answers e : answers (emit_s e).
Proof. by apply same_sessions_answers. Qed.
Lemma logEvent_answers pfx msg : answers (logEvent pfx msg).
Proof. unfold logEvent. repeat first [apply emit_answers | go_step]. Qed.
Lemma spawn_answers args : answers (spawn_config_mgmt config_mgmt args).
Proof.
  unfold spawn_config_mgmt. go_step; [apply emit_answers|]. go_step; [apply returns_gets|].
  destruct (config_mgmt args (st_job _)) as [[job out] ok].
  repeat first [by apply same_sessions_answers | go_step].
Qed.
Lemma job_answers : answers getConfirmedCommitInfo.
Proof. apply returns_gets. Qed.
Lemma account_answers {A} args (fn : M St (A * option error)) : answers fn -> answers (accountCmdWrap args fn).
Proof. intros Hf. unfold accountCmdWrap. repeat first [exact Hf | apply emit_answers | go_step]. Qed.
Lemma authorised_answers {A} d (zero : A) args fn : answers fn -> answers (authorised_cmd d zero args fn).
Proof. intros Hf. unfold authorised_cmd. go_step; [apply returns_ret|by apply account_answers]. Qed.

Lemma on_svc_answers {A} (m : M W A) : returns svc_ready m -> answers (on_svc m).
Proof.
  intros Hm s Hs. destruct (Hm _ Hs) as (a & w & E' & Hw). unfold on_svc. rewrite E'.
  by exists a, (SState (st_job s) (st_trace s) w).
Qed.

(** Clients are not the system itself. *)
Abbreviation client d := (Pid (d_ctx d) <> SYSTEM).

Lemma ask_answers {A} d sid (r : request A) term : client d -> req_ctx r = d_ctx d ->
  answers (ask sid r term).
Proof. intros Hpid Hc. apply on_svc_answers, svc_ready_ask. by rewrite Hc. Qed.

(** The running session is always to be had. *)
Lemma getRO_bind_answers {A} d db sid (c : option string -> M St A) : is_db db = true ->
  (forall name, answers (c (Some name))) -> answers (bind (getROSession d db sid) c).
Proof.
  intros Hdb Hc s Hs. unfold getROSession.
  destruct (svc_ready_running (d_ctx d) _ Hs) as (x & Hx & Hp).
  assert (Hr : svc_Get (d_ctx d) RUNNING_sid (st_sess s) = None) by (unfold svc_Get; by rewrite Hx, Hp).
  rewrite (bind_eq _ _ s _ s eq_refl). cbv zeta. rewrite !Hr.
  assert (Hgo : forall name, exists a s', c (match svc_Get (d_ctx d) name (st_sess s) with
    None => Some name | Some _ => Some RUNNING_sid end) s = Some (a, s') /\ ready s').
  { intros name. destruct (svc_Get _ name _); by apply Hc. }
  unfold is_db in Hdb.
  destruct (db =? RUNNING); [by apply Hc|]. destruct (db =? EFFECTIVE); [apply Hgo|].
  destruct (db =? AUTO); [apply Hgo|]. destruct (db =? CANDIDATE); [apply Hgo|done].
Qed.

Lemma smgr_Get_answers d sid : answers (smgr_Get d sid).
Proof. apply returns_gets. Qed.
Lemma with_session_answers {A} d (zero : A) sid c : answers c -> answers (with_session d zero sid c).
Proof. intros Hc. unfold with_session. go_step; [apply returns_gets|]. repeat first [exact Hc | go_step]. Qed.

Lemma Create_answers d sid st stFull shared : answers (on_svc (svc_Create (d_ctx d) sid st stFull shared)).
Proof. apply on_svc_answers, svc_ready_Create. Qed.
Lemma Destroy_answers d sid : client d -> answers (on_svc (svc_Destroy (d_ctx d) sid)).
Proof. intros Hpid. by apply on_svc_answers, svc_ready_Destroy. Qed.

Ltac an_step := first
  [ apply emit_answers | apply logEvent_answers | apply spawn_answers | apply job_answers
  | apply account_answers | apply authorised_answers | (eapply ask_answers; [eassumption|reflexivity])
  | apply with_session_answers | apply smgr_Get_answers | apply Create_answers | (apply Destroy_answers; assumption)
  | (apply getRO_bind_answers; [first [assumption | reflexivity]|intros ?]) | go_step ].

Lemma ask_ro_answers {A} d db sid (r : request A) term : client d -> is_db db = true ->
  req_ctx r = d_ctx d ->
  answers (ask_ro d db sid r term).
Proof. intros Hpid Hdb Hc. unfold ask_ro. apply getRO_bind_answers; [done|intros name].
  by apply (ask_answers d). Qed.
Lemma show_answers d db sid path hs sd : client d -> is_db db = true -> answers (show d db sid path hs sd).
Proof. intros Hpid Hdb. by apply ask_ro_answers. Qed.

Lemma SaveTo_answers d dest ri : client d -> answers (SaveTo ErrPath d dest ri).
Proof.
  intros Hpid.   unfold SaveTo, saveToInternal, writeTempRunningConfigFile, writeRunningConfigToFile, copyFile, uploadFile, run_as_caller.
  repeat first [(apply show_answers; [assumption|reflexivity]) | an_step].
Qed.
Lemma after_commit_answers d t cmt out : client d -> answers (after_commit ErrPath config_mgmt d t cmt out).
Proof.
  intros Hpid.   unfold after_commit, Save, setConfirmedCommitTimeout, setConfirmTimeout, logConfirmedCommitEvent.
  repeat first [(apply SaveTo_answers; exact Hpid) | an_step].
Qed.
Lemma performConfirming_answers pid cmt rev : answers (performConfirmingCommitIfRequired config_mgmt pid cmt rev).
Proof.
  unfold performConfirmingCommitIfRequired, ConfirmingCommit, logConfirmedCommitEvent. repeat an_step.
Qed.
Lemma confirmed_answers d sid msg debug t cmt rev : client d ->
  answers (confirmedCommitInternal ErrPath config_mgmt d sid msg debug t cmt rev).
Proof.
  intros Hpid.   unfold confirmedCommitInternal.
  repeat first [apply performConfirming_answers | (apply after_commit_answers; exact Hpid) | an_step].
Qed.

Section Methods.
Context (d : Disp).
Hypothesis Hpid : client d.

Ltac cl_step := first
  [ (apply confirmed_answers; exact Hpid) | (apply SaveTo_answers; exact Hpid)
  | (apply ask_ro_answers; [exact Hpid|first [assumption|reflexivity]|reflexivity]) | an_step ].

Lemma load_reader_answers sid file r : answers (loadReportWarningsReader d sid file r).
Proof. unfold loadReportWarningsReader. repeat cl_step. Qed.
Lemma changed_answers sid : answers (SessionChanged d sid).
Proof. unfold SessionChanged. repeat cl_step. Qed.

Lemma rollback_answers sid revision comment debug :
  answers (rollbackInternal ErrPath config_mgmt d sid revision comment debug).
Proof.
  unfold rollbackInternal, ConfirmSilent, check_revision, load_and_commit, loadArchivedConfig,
    commitInternal, rollback_error, logRollbackError, logRollbackEvent.
  repeat first [apply changed_answers | apply load_reader_answers | cl_step].
Qed.

Lemma set_each_answers sid cmds : answers (set_each d sid cmds).
Proof.
  induction cmds as [|cmd cmds IH]; cbn [set_each]; [apply returns_ret|].
  unfold setInternal. repeat first [exact IH | cl_step].
Qed.
Lemma parse_lines_answers sid user e : forall lines n,
  answers (parse_lines (setPublicKeyForUser d sid user) lines n e).
Proof.
  induction lines as [|line lines IH]; intros n; cbn [parse_lines]; [repeat cl_step|].
  repeat first [apply IH | apply set_each_answers | cl_step].
Qed.

(** A client has the arguments of the command it gives. *)
Lemma loadKey_args user source ri : Configd (d_ctx d) = false ->
  exists args, loadKeyCommandArgs ErrPath d user source ri = Some args.
Proof.
  intros Hc. unfold loadKeyCommandArgs, newCommandArgsForAaa, newCommandArgs, expandPath, processnode.
  rewrite Hc, ms_tree. cbn. eauto.
Qed.
Lemma loadKeysFrom_answers sid user source cmd args :
  answers (loadKeysFrom ErrPath config_mgmt reader_error d sid user source cmd (Some args)).
Proof.
  unfold loadKeysFrom, loadKeysParse, ConfirmSilent, commitInternal.
  repeat first [apply parse_lines_answers | apply changed_answers | cl_step].
Qed.
Lemma LoadKeys_answers sid user source ri : Configd (d_ctx d) = false ->
  answers (LoadKeys ErrPath config_mgmt reader_error d sid user source ri).
Proof.
  intros Hc. unfold LoadKeys. go_step; [apply returns_ret|].
  destruct (parseMgmtURI source) as [[local red]|err]; [|apply returns_ret]. cbv zeta.
  destruct (loadKey_args user red ri Hc) as [args ->].
  unfold loadKeysInternal, userIsConfigured, Exists.
  repeat first [apply loadKeysFrom_answers | cl_step].
Qed.

(** ** The methods that only compute *)

Lemma processleaf_inside sch path cpath : processleaf sch path cpath <> OutOfRange.
Proof. unfold processleaf. by repeat case_match. Qed.

Lemma processchildrenskip_inside full n : forall sch path cpath skip prefix pos, (length path <= n)%nat ->
  processchildrenskip ErrPath full sch path cpath skip prefix pos <> OutOfRange.
Proof.
  induction n as [|n IH]; intros sch [|val path] cpath skip prefix pos Hn; cbn in Hn |- *; try done; [lia|].
  destruct (find_matches _ _ _ _ _ _ _) as [[|m [|]] pm]; try done.
  destruct (_ && _); [done|].
  destruct (sn_kind m); try done; try (apply IH; lia); try apply processleaf_inside.
  destruct path as [|key path]; [done|]. apply IH. cbn in Hn. lia.
Qed.

Lemma Expand_total path prefix pos : exists r, Disp_ExpandWithPrefix ErrPath d path prefix pos = Some r.
Proof.
  unfold Disp_ExpandWithPrefix, ExpandWithPrefix, expandPath, processnode. rewrite ms_tree.
  pose proof (processchildrenskip_inside (Makepath path) (length (Makepath path)) (ms_node (d_ms d))
    (Makepath path) [] [] prefix (pos + 1 - 1) (Nat.le_refl _)) as H.
  destruct (processchildrenskip _ _ _ _ _ _ _ _); [by eexists..|done].
Qed.

Lemma template_keys ps sn : schemaPathDescendant d ps = inl sn -> sn_kind sn = KList -> sn_keys sn <> [].
Proof.
  unfold schemaPathDescendant. destruct (PathDescendant _ ps) eqn:Ep; [|done]. intros [= <-].
  by eapply tmpl_keys.
Qed.
Lemma TmplGet_total path : exists r, TmplGet d path = Some r.
Proof.
  unfold TmplGet. destruct (schemaPathDescendant d _) as [sn|] eqn:Es; [|by eexists].
  pose proof (template_keys _ _ Es) as Hk. destruct (sn_kind sn); try by eexists.
  destruct (sn_keys sn); [by specialize (Hk eq_refl)|by eexists].
Qed.
Lemma TmplGetChildren_total path : exists r, TmplGetChildren d path = Some r.
Proof.
  unfold TmplGetChildren. destruct (negb _); [by eexists|].
  destruct (schemaPathDescendant d _) as [sn|] eqn:Es; [|by eexists].
  pose proof (template_keys _ _ Es) as Hk. destruct (sn_kind sn); try (destruct (negb _ && _); by eexists).
  destruct (negb _ && _); [by eexists|]. destruct (sn_keys sn); [by specialize (Hk eq_refl)|by eexists].
Qed.

(** A component is called with the input its RPC has. *)
Lemma CallRpc_returns ns rpc a enc : returns (fun _ => True) (CallRpc component d ns rpc a enc).
Proof.
  unfold CallRpc, handleVciRpc, vrc_CallRpc.
  destruct (findRpc d ns rpc enc) as [[r modns]|] eqn:Ef; [|apply returns_ret].
  destruct (findRpc_Input _ _ _ _ _ _ Ef) as [input ->].
  repeat first [by apply returns_modify | go_step].
Qed.
Lemma on_calls_answers {A} (m : M (list vci_call) A) : returns (fun _ => True) m -> answers (on_calls m).
Proof.
  intros Hm s Hs. destruct (Hm (ps_calls (st_sess s)) I) as (a & calls & Em & _).
  exists a, (on_sess_state (ps_set_calls calls) s). unfold on_calls. rewrite Em.
  split; [done|]. by apply as_set_calls.
Qed.
Lemma SetConfigDebug_answers sid logName level : answers (Disp_SetConfigDebug log_range sid logName level).
Proof.
  unfold Disp_SetConfigDebug. go_step; [apply returns_gets|].
  destruct (SetConfigDebug _ _ _ _) as [r m]. go_step; [|apply returns_ret].
  apply returns_modify. intros s Hs. by apply as_set_log.
Qed.

(** ** The table *)

Lemma res_answers {A} (f : A -> resval) m : answers m -> answers (res f m).
Proof. intros Hm. unfold res. by repeat first [exact Hm | go_step]. Qed.
Lemma total_answers {A} (f : A -> resval) r : (exists x, r = Some x) -> answers (total f r).
Proof. intros [x ->]. apply returns_ret. Qed.

Definition entry_answers (e : string * (list goval -> option (M St (resval * option error)))) : Prop :=
  forall args f, sound_method d (fst e) = true -> sound_vals args = true -> snd e args = Some f -> answers f.

Lemma funcs_answer : Forall entry_answers (funcs d).
Proof.
  unfold funcs. repeat constructor; intros args f Hm Hv H; cbn [fst snd] in *; args_of H; injection H as <-;
    first [apply returns_ret | apply total_answers; first [apply Expand_total | apply TmplGet_total | apply TmplGetChildren_total] | apply res_answers | idtac].
  all: cbn [sound_vals] in Hv; try discriminate Hm.
  all: try apply on_calls_answers; try apply SetConfigDebug_answers.
  all: unfold CallRpcXml; try apply CallRpc_returns.
  all: try (apply LoadKeys_answers; unfold sound_method in Hm; cbn in Hm; by apply negb_true_iff in Hm).
  all: unfold_methods; unfold Save, validateConfigInternal, copyFile, uploadFile, run_as_caller,
    TreeGetFull, TreeGetFullWithWarnings, TreeGet, GetHelp, readCfgFile, against_running, SessionSetup,
    SessionTeardown.
  all: repeat first
    [ apply rollback_answers | apply load_reader_answers | apply changed_answers | cl_step
    | (apply show_answers; [exact Hpid|first [assumption|reflexivity]]) ].
Qed.

Lemma convert_args_no_null name params : forall args, existsb is_null args = false ->
  convert_args name args params <> None.
Proof.
  induction params as [|t params IH]; intros [|j args] Hn; cbn in *; try done.
  apply orb_false_iff in Hn as [Hj Hn]. specialize (IH args Hn).
  destruct (convert j t) eqn:Ec; [|done|by destruct j, t].
  by destruct (convert_args name args params) as [[]|].
Qed.

(** No method takes a plain number first. *)
Lemma find_method_first name m : find_method name = Some m ->
  match m_in m with GInt :: _ => False | _ => True end.
Proof.
  unfold find_method. intros H. apply find_some in H as [H _].
  assert (Hall : forallb (fun m => match m_in m with GInt :: _ => false | _ => true end) srv_m = true)
    by reflexivity.
  rewrite forallb_forall in Hall. specialize (Hall m H). by destruct (m_in m) as [|[] ?].
Qed.

Lemma converted_sound name m args vals : find_method name = Some m ->
  convert_args name args (m_in m) = Some (inl vals) ->
  match args with
  | JNum n den :: _ => match m_in m with GDB :: _ => is_db (Z.quot n (Z.pos den)) | _ => true end
  | _ => true
  end = true -> sound_vals vals = true.
Proof.
  intros Hm Hc Hdb. apply find_method_first in Hm. revert Hc.
  destruct args as [|j args], (m_in m) as [|t params]; cbn; try (by intros [= <-]).
  destruct (convert j t) as [v| |] eqn:Ev; try done.
  destruct (convert_args _ args params) as [[xs|e]|]; try done. intros [= <-].
  by destruct j, t; cbn in Ev; try done; injection Ev as <-.
Qed.

Lemma Call_answers r : sound_request d r = true -> answers (Call (func d) (d_ctx d) (rq_Method r) (rq_Args r)).
Proof.
  unfold sound_request. rewrite !andb_true_iff, negb_true_iff. intros [[Hm Hn] Hdb].
  unfold Call. destruct (find_method (rq_Method r)) as [m|] eqn:Ef; [|apply returns_ret].
  destruct (negb _); [apply returns_ret|].
  destruct (Nat.eqb_spec (length (rq_Args r)) (length (m_in m))) as [Hl|]; [cbn [negb]|apply returns_ret].
  destruct (convert_args _ _ _) as [[vals|err]|] eqn:Ec;
    [|apply returns_ret|by apply convert_args_no_null in Ec].
  apply returns_bind; [|intros x; apply returns_ret].
  destruct (methods_typed ErrPath config_mgmt un_Marshal AllowedValues component reader_error
    AuthPerm_of GetPerms log_range d _ m _ vals Ef Hl Ec) as (f & t & Hf & _).
  unfold func, Methods.func. rewrite Hf. cbn [default].
  apply func_in_elim in Hf as (e & He & Hname & Hf).
  refine (proj1 (List.Forall_forall _ _) funcs_answer e He vals f _ _ Hf); [by rewrite Hname|].
  eapply converted_sound; [exact Ef|exact Ec|]. by destruct (rq_Args r) as [|[]].
Qed.

Lemma termination_answers : answers (sessionTermination config_mgmt d).
Proof. unfold sessionTermination. repeat an_step. Qed.
Lemma unlock_all_answers : answers (unlock_all (d_ctx d)).
Proof.
  intros s Hs. destruct (svc_ready_UnlockAllPid (d_ctx d) Hpid _ Hs) as (err & w & Hu & Hw).
  exists tt, (SState (st_job s) (st_trace s) w). unfold unlock_all. by rewrite Hu.
Qed.
End Methods.

(** ** Property *)

Definition sound_event (e : srv_event) : Prop :=
  client (ev_client e) /\ match e with SRequest d r => sound_request d r = true | SEnd _ => True end.
Definition is_request (e : srv_event) : bool := match e with SRequest _ _ => true | SEnd _ => false end.

End Answers.

(** ** The daemon's sessions *)

Section Instances.
Context {L : ConfigLib} {SL : StateLib} {CL : CommitLib}.
Context (xml_config : string -> list xml_elem + error) (fuel : nat) `{DC : !Documented fuel}.

Lemma beside_answers {A} (m : M daemon A) : returns (dm_ready) m ->
  returns (fun w => dm_ready (fst w)) (beside m).
Proof.
  intros Hm [w c] Hw. destruct (Hm w Hw) as (a & w1 & E & H1). exists a, (w1, c). cbn. by rewrite E.
Qed.

#[export] Instance calls_answer :
    Answering (daemon * list vci_call) (H := calls_service (SS := daemon_service xml_config fuel)).
Proof.
  pose (DA := daemon_answers xml_config fuel).
  refine {| svc_ready := fun w => dm_ready (fst w) |}.
  - intros ctx w Hw. exact (svc_ready_running (Answering := DA) ctx (fst w) Hw).
  - intros A r sid term Hp. apply beside_answers. exact (svc_ready_ask (Answering := DA) A r sid term Hp).
  - intros. apply beside_answers. exact (svc_ready_Create (Answering := DA) _ _ _ _ _).
  - intros ctx sid Hp. apply beside_answers. exact (svc_ready_Destroy (Answering := DA) ctx sid Hp).
  - intros ctx Hp. apply beside_answers. exact (svc_ready_UnlockAllPid (Answering := DA) ctx Hp).
Defined.

#[export] Instance daemon_answering_state :
    AnsweringState (daemon * list vci_call) (PS := daemon_process xml_config fuel) (AS := calls_answer).
Proof. by split. Qed.
End Instances.

(** ** A server that answers *)

Module SampleAnswers.
#[export] Instance answering : Answering (L := Sample.lib) SampleMethods.W (H := SampleMethods.service) :=
  calls_answer (L := Sample.lib) (DC := SampleProgress.documented) SampleEdit.xml 3.
#[export] Instance answering_state :
    AnsweringState (H := Sample.lib) SampleMethods.W (PS := SampleMethods.process) (AS := answering) :=
  daemon_answering_state (L := Sample.lib) (DC := SampleProgress.documented) SampleEdit.xml 3.

(** The server as it starts, and clients that set, commit, edit, read and go. *)
Abbreviation bob := (SampleDisp.disp Sample.allow).
Definition start : SampleMethods.state :=
  SState (JobInfo "" "") []
    (start_sessions (L := Sample.lib) SampleDaemon.system Sample.root Sample.root SampleDaemon.empty, []).
Definition requests : list (srv_event (H := Sample.lib)) :=
  map (SRequest (H := Sample.lib) bob)
    [Req "SessionSetup" [JStr "a"] 1;
     Req "Set" [JStr "a"; JStr "/system/host-name/x"] 2;
     Req "Commit" [JStr "a"; JStr ""; JBool false] 3;
     Req "EditConfigXML" [JStr "a"; JStr "candidate"; JStr "merge"; JStr ""; JStr ""; JStr "delete"] 4;
     Req "TreeGetFull" [JNum 3 1; JStr "a"; JStr "/"; JStr "json"; JObj []] 5;
     Req "Expand" [JStr "/sys/host"] 6;
     Req "Load" [JStr "RUNNING"; JStr "/service"] 7;
     Req "Commit" [JStr "EFFECTIVE"; JStr ""; JBool false] 8;
     Req "NoSuchMethod" [] 9] ++ [SEnd (H := Sample.lib) bob].


(** The exceptions are real: these requests end the daemon. *)
Lemma null_ends_daemon :
  SampleMethods.server [SRequest (H := Sample.lib) bob (Req "Set" [JNull; JStr "/service"] 1)] start = None.
Proof. vm_compute. reflexivity. Qed.
Lemma fifth_database_ends_daemon :
  SampleMethods.server [SRequest (H := Sample.lib) bob (Req "Get" [JNum 4 1; JStr "a"; JStr "/service"] 1)] start = None.
Proof. vm_compute. reflexivity. Qed.
End SampleAnswers.
