(* ===== verification/Client.v ===== *)
(** [client/client.go]: the outcome of a call, the decoding of its result, the
    calls the library offers, and that they fit the methods of the server. *)

From S2P Require Import Prelude GoLib Errors Rpc External Configd LogLevel Sample Session.
From S2P Require Import SessionServer SessionMgr Service Expand CliFormat Server Conn.

Open Scope Z_scope.

(** ** The outcome of a call *)

Section Outcome.
Context {EL : ErrorLib} {R : Type}.

(** [Client.call], after the decoding. *)
Definition client_outcome (rep : Response R) : option R * option error :=
  match rs_Error rep with
  | Some err => (rs_Result rep, Some (EGo err))
  | None =>
      if bool_decide (length (rs_MgmtErrList rep) <> 0%nat)
      then (rs_Result rep, Some (EMgmtList (rs_MgmtErrList rep)))
      else (rs_Result rep, None)
  end.
End Outcome.

(** ** The result of a call *)

(** What a call of the client makes of the result. *)
Inductive client_kind :=
  | CBool | CBoolIgnore | CString | CInt | CMap | CMapString | CMapStruct | CSliceString.

(** What the caller gets; a [map[string]struct{}] is its keys. *)
Inductive client_value :=
  | DNone
  | DBool (b : bool)
  | DInt (z : Z)
  | DString (s : string)
  | DMap (l : list (string * json))
  | DMapString (l : list (string * string))
  | DKeys (l : list string)
  | DSlice (l : list json)
  | DStrings (l : list string).

(** The verb %T on what [encoding/json] decodes. *)
Definition json_T (j : json) : string :=
  match j with
  | JNull => "<nil>" | JBool _ => "bool" | JNum _ _ => "float64" | JStr _ => "string"
  | JArr _ => "[]interface {}" | JObj _ => "map[string]interface {}"
  end.

Definition wrong_type (method : string) (i : json) (expecting : string) : error :=
  EGo ("wrong return type for " +:+ method +:+ " got " +:+ json_T i +:+ " expecting " +:+ expecting).

Section Decode.
Context (method : string) (out : json * option error).

Definition callBoolIgnore : client_value * option error :=
  match out with
  | (_, Some err) => (DNone, Some err)
  | (JBool _, None) => (DNone, None)
  | (i, None) => (DNone, Some (wrong_type method i "bool"))
  end.
Definition callBool : client_value * option error :=
  match out with
  | (_, Some err) => (DBool false, Some err)
  | (JBool v, None) => (DBool v, None)
  | (i, None) => (DBool false, Some (wrong_type method i "bool"))
  end.
Definition callInt : client_value * option error :=
  match out with
  | (_, Some err) => (DInt (-1), Some err)
  | (JNum n d, None) => (DInt (Z.quot n (Z.pos d)), None)
  | (i, None) => (DInt (-1), Some (wrong_type method i "float64"))
  end.
Definition callString : client_value * option error :=
  match out with
  | (_, Some err) => (DString "", Some err)
  | (JStr v, None) => (DString v, None)
  | (i, None) => (DString "", Some (wrong_type method i "string"))
  end.
Definition callMap : client_value * option error :=
  match out with
  | (_, Some err) => (DMap [], Some err)
  | (JObj v, None) => (DMap v, None)
  | (i, None) => (DMap [], Some (wrong_type method i "map[string]interface{}"))
  end.

(** The first value that is not a text is an error. *)
Fixpoint strings_of (vals : list json) : list string + error :=
  match vals with
  | [] => inl []
  | JStr str :: vals' =>
      match strings_of vals' with inl out => inl (str :: out) | inr err => inr err end
  | val :: _ => inr (wrong_type method val "string")
  end.

Definition callMapString : client_value * option error :=
  match out with
  | (_, Some err) => (DMapString [], Some err)
  | (JObj v, None) =>
      match strings_of (map snd v) with
      | inl strs => (DMapString (combine (map fst v) strs), None)
      | inr err => (DMapString [], Some err)
      end
  | (i, None) => (DMapString [], Some (wrong_type method i "map[string]interface{}"))
  end.
Definition callMapStruct : client_value * option error :=
  match callMap with
  | (_, Some err) => (DKeys [], Some err)
  | (DMap v, None) => (DKeys (map fst v), None)
  | (_, None) => (DKeys [], None)
  end.
Definition callSlice : client_value * option error :=
  match out with
  | (_, Some err) => (DSlice [], Some err)
  | (JArr v, None) => (DSlice v, None)
  | (i, None) => (DSlice [], Some (wrong_type method i "[]string"))
  end.
Definition callSliceString : client_value * option error :=
  match out with
  | (_, Some err) => (DStrings [], Some err)
  | (JArr v, None) =>
      match strings_of v with
      | inl strs => (DStrings strs, None)
      | inr err => (DStrings [], Some err)
      end
  | (i, None) => (DStrings [], Some (wrong_type method i "[]string"))
  end.

Definition decode (k : client_kind) : client_value * option error :=
  match k with
  | CBool => callBool | CBoolIgnore => callBoolIgnore | CString => callString | CInt => callInt
  | CMap => callMap | CMapString => callMapString | CMapStruct => callMapStruct
  | CSliceString => callSliceString
  end.
End Decode.

(** ** The calls *)

Record client_call := ClientCall { cc_name : string; cc_args : list gotype; cc_kind : client_kind }.

(** The exported methods of [Client] and the arguments they send: sessions,
    templates and reading, editing and committing, the rest. *)
Definition Client_read_calls : list client_call := [
  ClientCall "SessionExists" [GString] CBool;
  ClientCall "SessionSetup" [GString] CBoolIgnore;
  ClientCall "SessionSetupShared" [GString] CBoolIgnore;
  ClientCall "SessionTeardown" [GString] CBoolIgnore;
  ClientCall "SessionChanged" [GString] CBool;
  ClientCall "SessionSaved" [GString] CBool;
  ClientCall "SessionMarkSaved" [GString] CBoolIgnore;
  ClientCall "SessionMarkUnsaved" [GString] CBoolIgnore;
  ClientCall "SessionGetEnv" [GString] CMap;
  ClientCall "TmplGet" [GString] CMapString;
  ClientCall "TmplGetChildren" [GString] CSliceString;
  ClientCall "TmplGetAllowed" [GString; GString] CSliceString;
  ClientCall "TmplValidatePath" [GString] CBool;
  ClientCall "TmplValidateValues" [GString] CBool;
  ClientCall "Get" [GDB; GString; GString] CSliceString;
  ClientCall "TreeGet" [GDB; GString; GString; GString; GFlags] CString;
  ClientCall "TreeGetFull" [GDB; GString; GString; GString; GFlags] CString;
  ClientCall "Exists" [GDB; GString; GString] CBool;
  ClientCall "NodeGetStatus" [GDB; GString; GString] CInt;
  ClientCall "NodeGetType" [GString; GString] CInt
].
Definition Client_edit_calls : list client_call := [
  ClientCall "Set" [GString; GString] CString;
  ClientCall "ValidatePath" [GString; GString] CString;
  ClientCall "Delete" [GString; GString] CBoolIgnore;
  ClientCall "Rename" [GString; GString; GString] CBoolIgnore;
  ClientCall "Copy" [GString; GString; GString] CBoolIgnore;
  ClientCall "Comment" [GString; GString] CBoolIgnore;
  ClientCall "CancelCommit" [GString; GString; GString; GBool; GBool] CString;
  ClientCall "Rollback" [GString; GString; GString; GBool] CString;
  ClientCall "Confirm" [GString] CString;
  ClientCall "ConfirmPersistId" [GString] CString;
  ClientCall "ConfirmSilent" [GString] CString;
  ClientCall "CommitConfirm" [GString; GString; GBool; GInt] CString;
  ClientCall "Commit" [GString; GString; GBool] CString;
  ClientCall "Discard" [GString] CBoolIgnore;
  ClientCall "Save" [GString] CBoolIgnore;
  ClientCall "SaveTo" [GString; GString] CBoolIgnore;
  ClientCall "ExtractArchive" [GString; GString; GString] CString;
  ClientCall "Load" [GString; GString] CBoolIgnore;
  ClientCall "LoadFrom" [GString; GString; GString] CBoolIgnore;
  ClientCall "LoadKeys" [GString; GString; GString; GString] CString;
  ClientCall "Merge" [GString; GString] CBoolIgnore;
  ClientCall "LoadReportWarnings" [GString; GString] CBool;
  ClientCall "MergeReportWarnings" [GString; GString] CBool
].
Definition Client_other_calls : list client_call := [
  ClientCall "Validate" [GString] CString;
  ClientCall "Show" [GDB; GString; GString] CString;
  ClientCall "ShowConfigWithContextDiffs" [GString; GString; GBool] CString;
  ClientCall "SchemaGet" [GString; GString] CString;
  ClientCall "GetSchemas" [] CString;
  ClientCall "GetModuleSchemas" [] CString;
  ClientCall "GetFeatures" [] CMapString;
  ClientCall "GetDeviations" [] CMapString;
  ClientCall "GetCommitLog" [] CMapString;
  ClientCall "GetConfigSystemFeatures" [] CMapStruct;
  ClientCall "AuthAuthorize" [GString; GInt] CBool;
  ClientCall "AuthGetPerms" [] CMapString;
  ClientCall "GetCompletions" [GString; GBool; GString] CMapString;
  ClientCall "GetHelp" [GString; GBool; GString] CMapString;
  ClientCall "ReadConfigFile" [GString] CString;
  ClientCall "ReadConfigFileRaw" [GString] CString;
  ClientCall "CallRpc" [GString; GString; GString; GString] CString;
  ClientCall "CallRpcXml" [GString; GString; GString] CString;
  ClientCall "MigrateConfigFile" [GString] CString;
  ClientCall "Expand" [GString] CString;
  ClientCall "ExpandWithPrefix" [GString; GString; GInt] CString;
  ClientCall "Compare" [GString; GString; GString; GBool] CString;
  ClientCall "CompareConfigRevisions" [GString; GString; GString] CString;
  ClientCall "CompareSessionChanges" [GString] CString;
  ClientCall "SetConfigDebug" [GString; GString; GString] CString
].
Definition Client_calls : list client_call :=
  Client_read_calls ++ Client_edit_calls ++ Client_other_calls.

(** An argument of a Go type, as JSON. *)
Definition encodes (t : gotype) (j : json) : Prop :=
  match t, j with
  | GString, JStr _ | GBool, JBool _ | GFlags, JObj _ => True
  | (GInt | GDB), JNum _ d => d = 1%positive
  | _, _ => False
  end.

(** The kind a result type has after JSON. *)
Definition result_kind (r : gores) (k : client_kind) : bool :=
  match r, k with
  | RBool, (CBool | CBoolIgnore) | RString, CString | RNumber, CInt | RMapString, (CMapString | CMap | CMapStruct)
  | RMapInt, (CMap | CMapStruct) | RMapStruct, (CMap | CMapStruct) | RSlice, CSliceString => true
  | _, _ => false
  end.

(** An argument of type [a] is accepted for a parameter of type [p]. *)
Definition accepts (a p : gotype) : bool :=
  match a, p with
  | GString, GString | GBool, GBool | GFlags, GFlags => true
  | (GInt | GDB), (GInt | GDB) => true
  | _, _ => false
  end.

Definition call_fits (c : client_call) : bool :=
  match find_method (cc_name c) with
  | Some m =>
      Nat.eqb (length (cc_args c)) (length (m_in m))
      && forallb (fun ap => accepts (fst ap) (snd ap)) (combine (cc_args c) (m_in m))
      && match m_out m with r :: _ => result_kind r (cc_kind c) | [] => false end
  | None => false
  end.

(** A result of a Go type, as JSON: a nil map or slice would be [JNull], which
    the client takes for a wrong type. *)
Definition result_encodes (r : gores) (j : json) : Prop :=
  match r, j with
  | RBool, JBool _ | RString, JStr _ | (RMapInt | RMapStruct), JObj _ => True
  | RNumber, JNum _ d => d = 1%positive
  | RMapString, JObj l => Forall (fun v => exists s, v = JStr s) (map snd l)
  | RSlice, JArr l => Forall (fun v => exists s, v = JStr s) l
  | _, _ => False
  end.

(** ** Lemmas *)

Lemma convert_accepts a p j : encodes a j -> accepts a p = true -> exists v, convert j p = ArgOk v.
Proof. destruct a, p, j; cbn; try done; eauto. Qed.

Lemma convert_args_accepts name args kinds params : Forall2 encodes kinds args ->
  length kinds = length params ->
  forallb (fun ap => accepts (fst ap) (snd ap)) (combine kinds params) = true ->
  exists vals, convert_args name args params = Some (inl vals) /\ length vals = length params.
Proof.
  intros He. revert params. induction He as [|a j kinds args Ha He IH]; intros [|p params]; try done.
  - intros _ _. by exists [].
  - intros [= Hlen] Hf. cbn in Hf. apply andb_prop in Hf as [Hap Hf].
    destruct (convert_accepts a p j Ha Hap) as [v Hv].
    destruct (IH params Hlen Hf) as (vals & Hvs & Hl).
    exists (v :: vals). cbn. rewrite Hv, Hvs. split; [done|]. by rewrite Hl.
Qed.

Lemma strings_of_ok method l : Forall (fun v => exists s, v = JStr s) l ->
  exists strs, strings_of method l = inl strs.
Proof.
  induction 1 as [|v l [s ->] _ [strs IH]]; [by exists []|]. exists (s :: strs). cbn. by rewrite IH.
Qed.

Lemma decode_result method r k j : result_kind r k = true -> result_encodes r j ->
  exists v, decode method (j, None) k = (v, None).
Proof.
  destruct r, k; try discriminate; intros _; destruct j; try done; cbn; intros He; eauto;
    unfold callMapString, callSliceString; destruct (strings_of_ok method _ He) as [strs ->]; eauto.
Qed.

Lemma Client_calls_checked :
  forallb (fun c => bool_decide (cc_name c = "Show") || call_fits c) Client_calls = true.
Proof. vm_compute. reflexivity. Qed.

#[local] Opaque Disp_methods Client_calls find_method.

Lemma Client_call_fits c : In c Client_calls -> cc_name c <> "Show" -> call_fits c = true.
Proof.
  pose proof Client_calls_checked as Hall. revert Hall. generalize Client_calls. intros l Hall Hc Hn.
  apply (proj1 (forallb_forall _ _) Hall) in Hc. rewrite bool_decide_false in Hc by exact Hn. exact Hc.
Qed.

(** ** Properties *)

(** C24: the client library fits the server: every call but Show is a method of
    the server, sends as many arguments as it takes, each of them convertible
    whatever its value, and can read every result of the method that is not a
    nil map or slice. *)
Theorem client_calls_fit c args :
  In c Client_calls -> cc_name c <> "Show" -> Forall2 encodes (cc_args c) args ->
  exists m vals, find_method (cc_name c) = Some m /\ length args = length (m_in m) /\
    convert_args (cc_name c) args (m_in m) = Some (inl vals) /\
    exists r, m_out m = [r; RError] /\
      forall j, result_encodes r j -> exists v, decode (cc_name c) (j, None) (cc_kind c) = (v, None).
Proof.
  intros Hc Hn He. apply (Client_call_fits c) in Hc as Hfit; [|done]. unfold call_fits in Hfit.
  destruct (find_method (cc_name c)) as [m|] eqn:Em; [|done].
  apply andb_prop in Hfit as [[Hlen Hf]%andb_prop Hr]. apply Nat.eqb_eq in Hlen.
  destruct (convert_args_accepts (cc_name c) args (cc_args c) (m_in m) He Hlen Hf) as (vals & Hv & _).
  destruct (find_method_rpc _ _ Em) as [r Hm]. rewrite Hm in Hr.
  exists m, vals. split; [done|]. split; [by rewrite <- Hlen, (Forall2_length _ _ _ He)|].
  split; [done|]. exists r. split; [done|]. intros j. by apply decode_result.
Qed.

(** [Show] has a fourth parameter the client does not send. *)
Example client_Show_refused : forall db sid path,
  Call (S := unit) (R := unit) (fun _ _ => ret (tt, None)) (Sample.client 1 1 Sample.allow) "Show"
    [JNum db 1; JStr sid; JStr path] tt = Some ((None, Some (EArgN "Show" 3 4)), tt).
Proof. reflexivity. Qed.

(** What the caller sees of what a method returned. *)
Definition received {EL : ErrorLib} {R} (MgmtErrorRef : error -> bool) (r : option R) (err : option error)
  : option R * option error :=
  match err with
  | None => (r, None)
  | Some (EMgmtList []) => (None, None)
  | Some (EMgmtList es) => (None, Some (EMgmtList es))
  | Some e => (None, Some (if MgmtErrorRef e then EMgmtList [e] else EGo (Error e)))
  end.
Lemma outcome_received {EL : ErrorLib} {R} (MgmtErrorRef : error -> bool) (r : option R) err id :
  client_outcome (newResponse MgmtErrorRef r err id) = received MgmtErrorRef r err.
Proof.
  unfold newResponse, client_outcome, received. destruct err as [[m|[|e es]| | | | | | |]|]; try done; cbn;
    destruct (MgmtErrorRef _); reflexivity.
Qed.

(** What a method returns reaches the caller of the client: the result when
    there is no error, the management errors as they are (a single one as a
    list), any other error by its text; the caller sees an error exactly when
    there was one, but for an empty list of management errors. *)
Theorem response_roundtrip {EL : ErrorLib} {R} (MgmtErrorRef : error -> bool) (r : option R) err id :
  client_outcome (newResponse MgmtErrorRef r err id) =
  match err with
  | None => (r, None)
  | Some (EMgmtList []) => (None, None)
  | Some (EMgmtList es) => (None, Some (EMgmtList es))
  | Some e => (None, Some (if MgmtErrorRef e then EMgmtList [e] else EGo (Error e)))
  end.
Proof. exact (outcome_received MgmtErrorRef r err id). Qed.


(** ** Concrete calls *)

Module SampleClient.
Lemma client_calls_fit_witness : exists m vals,
  find_method "SessionTeardown" = Some m /\ length [JStr "a"] = length (m_in m) /\
  convert_args "SessionTeardown" [JStr "a"] (m_in m) = Some (inl vals) /\
  exists r, m_out m = [r; RError] /\
    forall j, result_encodes r j -> exists v, decode "SessionTeardown" (j, None) CBoolIgnore = (v, None).
Proof.
  apply (client_calls_fit (ClientCall "SessionTeardown" [GString] CBoolIgnore) [JStr "a"]).
  - assert (Hb : existsb (fun c => bool_decide (cc_name c = "SessionTeardown") &&
      bool_decide (cc_args c = [GString]) && match cc_kind c with CBoolIgnore => true | _ => false end)
      Client_calls = true) by (vm_compute; reflexivity).
    apply existsb_exists in Hb as [[n a k] [Hin Hb]]. cbn [cc_name cc_args cc_kind] in Hb.
    apply andb_prop in Hb as [[H1 H2]%andb_prop H3].
    apply bool_decide_eq_true in H1, H2. subst n a. destruct k; (discriminate || exact Hin).
  - discriminate.
  - repeat constructor.
Defined.
End SampleClient.
