(* ===== verification/Connect.v ===== *)
(** [client/client.go], the connection: the options of [Connect], [Dial],
    [Close], and [Client.call], which sends a request and waits for its
    response.  Proved against the server's side of the conversation (Conn.v): the
    n-th call gets what the n-th call of a method returned. *)

From S2P Require Import Prelude GoLib Errors Rpc GoFmt External Configd LogLevel Sample Session.
From S2P Require Import SessionServer SessionMgr Service Expand CliFormat Server CommitRpc Conn Client.

Open Scope Z_scope.

(** ** Where to connect *)

Definition DEFAULT_CONFIG_SOCKET : string := "/var/run/vyatta/configd/main.sock".

Record connectOptions := { co_sid : string; co_addr : string; co_networkType : string }.
Definition ConnectOption : Type := connectOptions -> connectOptions.

Definition SessionID (sid : string) : ConnectOption := fun opts =>
  {| co_sid := sid; co_addr := co_addr opts; co_networkType := co_networkType opts |}.
Definition Address (addr : string) : ConnectOption := fun opts =>
  {| co_sid := co_sid opts; co_addr := addr; co_networkType := co_networkType opts |}.
Definition Network (network : string) : ConnectOption := fun opts =>
  {| co_sid := co_sid opts; co_addr := co_addr opts; co_networkType := network |}.

(** [GetFuncName], of the caller's name, if the runtime has one. *)
Definition GetFuncName (fn : option string) : string :=
  match fn with
  | None => "invalid"
  | Some name => List.last (Split name "."%char) ""
  end.

Section Client.
Context {R : Type}.

(** One turn of the conversation, as the connection will have it: the request
    cannot be written, the response cannot be read, or it comes. *)
Inductive turn := WriteFails (e : error) | ReadFails (e : error) | Answer (resp : Response R).

Record client := Client {
  cl_sid : string;
  cl_id : Z;
  cl_sent : list Request;     (** what has been written *)
  cl_turns : list turn;       (** what the connection will do *)
  cl_closed : bool
}.

Section Connect.
(** [net.Dial], by network and address; the environment. *)
Context (net_Dial : string -> string -> list turn + error) (VYATTA_CONFIG_SOCKET : string).

Definition Dial (network address sid : string) : client + error :=
  match net_Dial network address with
  | inr e => inr e
  | inl turns => inl (Client sid 0 [] turns false)
  end.

Definition resolve (opts : list ConnectOption) : connectOptions :=
  let cOpts := fold_left (fun o opt => opt o) opts {| co_sid := ""; co_addr := ""; co_networkType := "unix" |} in
  if bool_decide (co_addr cOpts = "") then
    Address (if bool_decide (VYATTA_CONFIG_SOCKET = "") then DEFAULT_CONFIG_SOCKET else VYATTA_CONFIG_SOCKET) cOpts
  else cOpts.
Definition Connect (opts : list ConnectOption) : client + error :=
  let cOpts := resolve opts in Dial (co_networkType cOpts) (co_addr cOpts) (co_sid cOpts).
End Connect.

Definition Close (c : client) : client := Client (cl_sid c) (cl_id c) (cl_sent c) (cl_turns c) true.

(** [Client.call]; a connection that does nothing any more ends in [io.EOF]. *)
Definition call (method : string) (args : list json) : M client (option R * option error) := fun c =>
  let id := cl_id c + 1 in
  let req := Req method args id in
  match cl_turns c with
  | [] => Some ((None, Some (EGo "EOF")), Client (cl_sid c) id (cl_sent c ++ [req]) [] (cl_closed c))
  | WriteFails e :: turns => Some ((None, Some e), Client (cl_sid c) id (cl_sent c) turns (cl_closed c))
  | ReadFails e :: turns => Some ((None, Some e), Client (cl_sid c) id (cl_sent c ++ [req]) turns (cl_closed c))
  | Answer rep :: turns =>
      Some (client_outcome rep, Client (cl_sid c) id (cl_sent c ++ [req]) turns (cl_closed c))
  end.

Definition method_call : Type := string * list json.
Definition calls (cs : list method_call) : M client (list (option R * option error)) :=
  forM cs (fun '(method, args) => call method args).

(** What they send. *)
Fixpoint requests (id : Z) (cs : list method_call) : list Request :=
  match cs with
  | [] => []
  | (method, args) :: cs' => Req method args (id + 1) :: requests (id + 1) cs'
  end.
End Client.
Arguments turn R : clear implicits.
Arguments client R : clear implicits.

(** [CallRpc]: one call on a connection of its own, closed at the end. *)
Definition CallRpc (net_Dial : string -> string -> list (turn json) + error) (VYATTA_CONFIG_SOCKET : string)
    (namespace name args encoding : string) : (client_value * option error) * option (client json) :=
  match Connect net_Dial VYATTA_CONFIG_SOCKET [] with
  | inr e => ((DString "", Some e), None)
  | inl c =>
      match call "CallRpc" [JStr namespace; JStr name; JStr args; JStr encoding] c with
      | Some ((r, err), c') => (callString "CallRpc" (default JNull r, err), Some (Close c'))
      | None => ((DString "", None), None)
      end
  end.

(** ** Options *)

(** Each option is about one thing, and the last one of a kind counts. *)
Lemma option_last env opts addr : addr <> "" -> co_addr (resolve env (opts ++ [Address addr])) = addr.
Proof.
  intros Ha. unfold resolve. rewrite fold_left_app. cbn [fold_left Address co_addr].
  by rewrite bool_decide_false.
Qed.
Lemma options_commute env a sid net : resolve env [Address a; SessionID sid; Network net] =
  resolve env [Network net; SessionID sid; Address a].
Proof. done. Qed.
(** Nothing given: the socket of the environment, or the daemon's. *)
Lemma resolve_default env : resolve env [] =
  {| co_sid := ""; co_addr := if bool_decide (env = "") then DEFAULT_CONFIG_SOCKET else env;
     co_networkType := "unix" |}.
Proof. done. Qed.

(** ** A conversation *)

(** The table of methods is not looked at here. *)
#[local] Opaque Disp_methods find_method Conn.Call.

Section Conversation.
Context {L : ConfigLib} {EL : ErrorLib} {W R : Type}.
Abbreviation S := (Server.sstate (W := W)).
Context (MgmtErrorRef : error -> bool) (func : string -> list goval -> M S (R * option error)).

Lemma serve_requests_cons ctx req reqs s resps s' :
  serve_requests MgmtErrorRef func ctx (fun _ => true) (req :: reqs) s = Some (resps, s') ->
  exists r s1 resps1, Call func ctx (rq_Method req) (rq_Args req) s = Some (r, s1) /\
    serve_requests MgmtErrorRef func ctx (fun _ => true) reqs s1 = Some (resps1, s') /\
    resps = newResponse MgmtErrorRef (fst r) (snd r) (rq_Id req) :: resps1.
Proof.
  intros Hs. apply bind_Some in Hs as (r & s1 & Hr & Hs). apply bind_Some in Hs as (resps1 & s2 & Hs & He).
  exists r, s1, resps1. split; [exact Hr|]. injection He as <- <-. split; [exact Hs|reflexivity].
Qed.

(** C25: a client and the connection that serves it: the calls get, one after
    the other, what the methods returned to them, however they fail; every
    request is written, under an id of its own, and no response is left over. *)
Theorem conversation ctx cs c s resps s' :
  serve_requests MgmtErrorRef func ctx (fun _ => true) (requests (cl_id c) cs) s = Some (resps, s') ->
  cl_turns c = map Answer resps ->
  exists results c',
    forM cs (fun '(method, args) => Call func ctx method args) s = Some (results, s') /\
    calls cs c = Some (map (fun r => received MgmtErrorRef (fst r) (snd r)) results, c') /\
    cl_turns c' = [] /\ cl_sent c' = cl_sent c ++ requests (cl_id c) cs.
Proof.
  revert c s resps. induction cs as [|[method args] cs IH]; intros c s resps Hs Ht.
  - injection Hs as <- <-. exists [], c. by rewrite app_nil_r.
  - apply serve_requests_cons in Hs as (r & s1 & resps1 & Hr & Hs & ->). cbn [map] in Ht.
    set (req := Req method args (cl_id c + 1)).
    destruct (IH (Client (cl_sid c) (cl_id c + 1) (cl_sent c ++ [req]) (map Answer resps1) (cl_closed c))
      s1 resps1 Hs eq_refl) as (results & c' & Hm & Hc & Htr & Hsent).
    exists (r :: results), c'. split.
    { cbn [mapM_go]. by rewrite (bind_eq _ _ _ _ _ Hr), (bind_eq _ _ _ _ _ Hm). }
    split; [|split; [exact Htr|cbn [requests]; rewrite Hsent; cbn [cl_sent]; by rewrite <- app_assoc]].
    unfold calls in *. cbn [mapM_go map]. unfold bind at 1, call. rewrite Ht. fold req.
    rewrite outcome_received. by rewrite (bind_eq _ _ _ _ _ Hc).
Qed.
End Conversation.

Module SampleConnect.
Import SampleConn.
Definition start : Server.sstate (W := SampleRpc.W) := SampleRpc.state (JobInfo "" "").
Definition asked : list method_call := [("SessionLock", [JStr "a"]); ("Nothing", []); ("SessionLock", [JStr "gone"])].
Abbreviation served := (serve_requests (EL := SampleFormat.errors) (fun _ => false) func
  (d_ctx (L := Sample.lib) bob) (fun _ => true) (Connect.requests 0 asked) start).
Definition responses : list (Response Z) := match served with Some (resps, _) => resps | None => [] end.
Definition fresh : client Z := Client "sid" 0 [] (map Answer responses) false.

(** A lock, a method there is not, and a session there is not. *)
Lemma conversation_witness : exists results c',
  calls asked fresh = Some (map (fun r => received (EL := SampleFormat.errors) (fun _ => false) (fst r) (snd r)) results, c') /\
  cl_turns c' = [] /\ length (cl_sent c') = 3%nat.
Proof.
  assert (Hrun : match served with Some _ => true | None => false end = true) by (vm_compute; reflexivity).
  destruct served as [[resps s']|] eqn:E; [clear Hrun|discriminate Hrun].
  destruct (conversation (EL := SampleFormat.errors) (fun _ => false) func
    (d_ctx (L := Sample.lib) bob) asked fresh start resps s' E) as (results & c' & _ & Hc & Ht & Hs).
  - unfold fresh, responses. rewrite E. reflexivity.
  - exists results, c'. split; [exact Hc|]. split; [exact Ht|]. rewrite Hs. reflexivity.
Defined.
End SampleConnect.
