(* ===== verification/Cli.v ===== *)
(** [cmd/cfgcli]: the configuration mode commands.  This file: the process as
    computations that may end it, the calls of the client library, the command
    line under the cursor ([completefns.go]), the validation of the arguments
    of each command, and the lookup of a command ([commands.go]).  CliComplete.v
    has completion, CliRun.v what the commands do. *)

From S2P Require Import Prelude GoLib Errors Rpc GoFmt External Configd Sample CliFormat Server.

Open Scope Z_scope.

(** ** The calls of the client *)

(** [cfgManager]: the methods of the client library the commands use. *)
Inductive ccall :=
  | CExpand (path : string) | CExpandWithPrefix (path prefix : string) (pos : Z)
  | CGetCompletions (schema : bool) (path : string)
  | CTmplValidatePath (path : string) | CNodeGetType (path : string)
  | CTmplGet (path : string) | CSet (path : string)
  | CCancelCommit (comment persistid : string) (force debug : bool)
  | CCommit (message : string) (debug : bool)
  | CCommitConfirm (message : string) (debug : bool) (mins : Z)
  | CCompareConfigRevisions (revOne revTwo : string) | CCompareSessionChanges
  | CConfirm | CConfirmSilent | CConfirmPersistId (persistid : string)
  | CDelete (path : string) | CDiscard
  | CLoadFrom (source routingInstance : string)
  | CLoadKeys (user source routingInstance : string)
  | CMergeReportWarnings (file : string)
  | CRollback (revision comment : string) (debug : bool)
  | CSave (file : string) | CSaveTo (dest routingInstance : string)
  | CShowConfigWithContextDiffs (path : string) (showDefaults : bool)
  | CValidate
  | CExists (db : DB) (path : string) | CGet (db : DB) (path : string)
  | CGetCommitLog | CGetConfigSystemFeatures | CSessionChanged | CSessionMarkSaved.

Definition answer (c : ccall) : Type :=
  match c with
  | CExpand _ | CExpandWithPrefix _ _ _ | CSet _ | CCancelCommit _ _ _ _ | CCommit _ _
  | CCommitConfirm _ _ _ | CCompareConfigRevisions _ _ | CCompareSessionChanges | CConfirm
  | CConfirmSilent | CConfirmPersistId _ | CLoadKeys _ _ _ | CRollback _ _ _
  | CShowConfigWithContextDiffs _ _ | CValidate => string * option error
  | CGetCompletions _ _ | CTmplGet _ | CGetCommitLog => gmap string string * option error
  | CTmplValidatePath _ | CMergeReportWarnings _ | CExists _ _ | CSessionChanged => bool * option error
  | CNodeGetType _ => NodeType * option error
  | CGet _ _ => list string * option error
  | CGetConfigSystemFeatures => gset string * option error
  | CDelete _ | CDiscard | CLoadFrom _ _ | CSave _ | CSaveTo _ _ | CSessionMarkSaved => option error
  end.

(** The daemon at the other end: its state and its answers. *)
Class CfgManager (C : Type) := cm_call : forall c : ccall, C -> answer c * C.

(** ** The process *)

(** What it does: calls, output, a snippet for bash with its environment (run
    at once, or printed for the caller to evaluate), a log entry. *)
Inductive cli_event :=
  | OCall (c : ccall)
  | OOut (text : string)
  | OErr (text : string)
  | OShell (snippet : string) (env : list string)
  | OLog (msg : string).

Section Process.
Context {C : Type} `{CM : !CfgManager C}.

(** The events are the latest first. *)
Record cli := Cli { cl_daemon : C; cl_events : list cli_event }.

(** A computation ends with a value or with the process, by an exit code; a
    run-time panic is [None]. *)
Definition P (A : Type) : Type := M cli (A + Z).
Definition pret {A} (a : A) : P A := ret (inl a).
Definition pexit {A} (code : Z) : P A := ret (inr code).
Definition pbind {A B} (m : P A) (k : A -> P B) : P B :=
  r <- m ;; match r with inl a => k a | inr code => pexit code end.

Definition put_out (e : cli_event) : P unit :=
  fun s => Some (inl tt, Cli (cl_daemon s) (e :: cl_events s)).

Definition call (c : ccall) : P (answer c) :=
  fun s => let '(a, d) := cm_call c (cl_daemon s) in Some (inl a, Cli d (OCall c :: cl_events s)).
End Process.
Arguments cli C : clear implicits.
Arguments P C A : clear implicits.

Notation "x <-- m ;; k" := (pbind m (fun x => k))
  (at level 100, m at next level, right associativity) : go_scope.
Notation "m ;-- k" := (pbind m (fun _ => k)) (at level 100, right associativity) : go_scope.

(** ** The command line *)

(** [Ctx]; of bash's variables [Args] is COMP_WORDS and [CompCurIdx] COMP_CWORD;
    [Prefix] is the word up to the cursor.  [Spare] is what the array of [Args]
    holds past its end, which a slice of it can take in. *)
Record Ctx := MkCtx {
  Args : list string;
  Spare : list string;
  CompCurIdx : Z;
  CompCurWord : string;
  Prefix : string;
  DoHelp : bool;
  Print : bool;
  All : bool;
  HasLoadKey : bool;
  HasConfigMgmt : bool;
  HasRoutingInstance : bool
}.

Definition with_Args (a sp : list string) (c : Ctx) : Ctx :=
  MkCtx a sp (CompCurIdx c) (CompCurWord c) (Prefix c) (DoHelp c) (Print c) (All c)
    (HasLoadKey c) (HasConfigMgmt c) (HasRoutingInstance c).
Definition with_CompCurIdx (i : Z) (c : Ctx) : Ctx :=
  MkCtx (Args c) (Spare c) i (CompCurWord c) (Prefix c) (DoHelp c) (Print c) (All c)
    (HasLoadKey c) (HasConfigMgmt c) (HasRoutingInstance c).
Definition with_DoHelp (h : bool) (c : Ctx) : Ctx :=
  MkCtx (Args c) (Spare c) (CompCurIdx c) (CompCurWord c) (Prefix c) h (Print c) (All c)
    (HasLoadKey c) (HasConfigMgmt c) (HasRoutingInstance c).
Definition with_All (a : bool) (c : Ctx) : Ctx :=
  MkCtx (Args c) (Spare c) (CompCurIdx c) (CompCurWord c) (Prefix c) (DoHelp c) (Print c) a
    (HasLoadKey c) (HasConfigMgmt c) (HasRoutingInstance c).

Definition nargs (ctx : Ctx) : Z := Z.of_nat (length (Args ctx)).

(** "Invalid command: <words> [<word>]". *)
Definition invalid (args : list string) (word : string) : error :=
  EGo ("Invalid command: " +:+ Join args " " +:+ " [" +:+ word +:+ "]").

(** [strings.HasPrefix], the other way round: [word] abbreviates [keyword]. *)
Definition abbreviates (word keyword : string) : bool := HasPrefix keyword word.

(** ** Keywords with arguments *)

Record cmdDef := CmdDef {
  needArg : bool; argpresent : bool; argval : string;
  present : bool; pos : Z; help : string; atStart : bool
}.
Abbreviation cmdDefs := (gmap string cmdDef).

Definition assignArgument (keyword value : string) (c : cmdDefs) : cmdDefs :=
  match c !! keyword with
  | Some def => <[keyword := CmdDef (needArg def) true value (present def) (pos def) (help def) (atStart def)]> c
  | None => c
  end.

Definition keywordPresent (keyword : string) (p : Z) (c : cmdDefs) : bool * cmdDefs :=
  match c !! keyword with
  | Some def =>
      (needArg def,
       <[keyword := CmdDef (needArg def) (argpresent def) (argval def) true p (help def) (atStart def)]> c)
  | None => (false, c)
  end.

Section Keywords.
(** The order in which Go ranges over a map. *)
Context (range : forall {A : Type}, gmap string A -> list (string * A)).
Arguments range {A}.

Definition keyword_matches (keywordPos idx : Z) (prefix val : string) (kd : string * cmdDef) : bool :=
  let '(keyword, def) := kd in
  (negb (atStart def) || (idx =? 0))
  && (abbreviates val keyword
      || (bool_decide (prefix <> "") && (keywordPos =? idx + 1) && abbreviates prefix keyword)).

Definition matchKeyword (keywordPos idx : Z) (prefix val : string) (c : cmdDefs) : string :=
  match find (keyword_matches keywordPos idx prefix val) (range c) with
  | Some (keyword, _) => keyword
  | None => ""
  end.

(** The loop over the words; [done] are those before. *)
Fixpoint validate_words (keywordPos : Z) (prefix : string) (done rest : list string) (idx : Z)
    (match_ : string) (needarg : bool) (cmds : cmdDefs) : cmdDefs * (string + error) :=
  match rest with
  | [] => (cmds, inl match_)
  | val :: rest' =>
      if needarg then
        validate_words keywordPos prefix (done ++ [val]) rest' (idx + 1) match_ false
          (assignArgument match_ val cmds)
      else
        let match_ := matchKeyword keywordPos idx prefix val cmds in
        if bool_decide (match_ = "") then
          (cmds, inr (EGo ("Invalid command: " +:+ Join done " " +:+ " [" +:+ val +:+ "]" +:+ nl)))
        else
          let '(needarg, cmds) := keywordPresent match_ (idx + 1) cmds in
          validate_words keywordPos prefix (done ++ [val]) rest' (idx + 1)
            (if needarg then match_ else "") needarg cmds
  end.

(** The slice [args[1:]] of no words is out of range. *)
Definition validateKeywordsAndArguments (args : list string) (keywordPos : Z) (prefix : string)
    (cmds : cmdDefs) : option (cmdDefs * (string + error)) :=
  match args with
  | [] => None
  | cmd :: words => Some (validate_words keywordPos prefix [cmd] words 0 "" false cmds)
  end.

Definition removeTrailingEmptyArgument (args : list string) : option (list string) :=
  match last args with
  | None => None
  | Some "" => init_opt args
  | Some _ => Some args
  end.

Definition cancel_commit_defs : cmdDefs :=
  {["force" := CmdDef false false "" false 0 "Force cancelling of pending confirmed commit" true;
    "comment" := CmdDef true false "" false 0 "Comment for the commit log" false;
    "persist-id" := CmdDef true false "" false 0 "Persist-id of confirmed commit" true]}.

(** [cancel-commit [{ force | persist-id <text> }] [comment <text>]]. *)
Definition processCancelCommitCmd (ctx : Ctx) : option (cmdDefs * (string + error)) :=
  args ← removeTrailingEmptyArgument (Args ctx);
  validateKeywordsAndArguments args (CompCurIdx ctx) (Prefix ctx) cancel_commit_defs.
End Keywords.

(** ** Validation *)

Section Valid.
Context {L : ConfigLib} {E : ErrorLib} {C : Type} `{CM : !CfgManager C}.
Context (range : forall {A : Type}, gmap string A -> list (string * A)).
Arguments range {A}.
(** VYATTA_EDIT_LEVEL *)
Context (edit_level : string).

Abbreviation P := (P C).

Definition of_option {A} (o : option A) : P A :=
  match o with Some a => pret a | None => go_panic end.

(** [ctx.Args[i]] and [ctx.Args[0:n]]. *)
Definition arg (ctx : Ctx) (i : Z) : P string :=
  if i <? 0 then go_panic else of_option (Args ctx !! Z.to_nat i).
Definition args_to (ctx : Ctx) (n : Z) : P (list string) :=
  let array := Args ctx ++ Spare ctx in
  if (n <? 0) || (Z.of_nat (length array) <? n) then go_panic else pret (take (Z.to_nat n) array).

(** The first [n] words are fine, word [i] is not. *)
Definition invalid_at (ctx : Ctx) (n i : Z) : P (option error) :=
  words <-- args_to ctx n ;; word <-- arg ctx i ;; pret (Some (invalid words word)).
(** ... or what is typed of it. *)
Definition invalid_prefix_at (ctx : Ctx) (n : Z) : P (option error) :=
  words <-- args_to ctx n ;; pret (Some (invalid words (Prefix ctx))).

Definition has_prefix (ctx : Ctx) : bool := bool_decide (Prefix ctx <> "").
(** [n] words with something typed, or more: one too many. *)
Definition too_many (ctx : Ctx) (n : Z) : bool := (has_prefix ctx && (nargs ctx =? n)) || (n <? nargs ctx).

Definition validSingleCommand (ctx : Ctx) : P (option error) :=
  if too_many ctx 2 then invalid_at ctx 1 1 else pret None.

Definition loadsaveValid (ctx : Ctx) : P (option error) :=
  if HasRoutingInstance ctx then
    if elem_b (CompCurIdx ctx) [1; 2; 3] then pret None
    else if too_many ctx 5 then invalid_at ctx (nargs ctx) (CompCurIdx ctx) else pret None
  else if CompCurIdx ctx =? 1 then pret None
  else if too_many ctx 3 then invalid_at ctx 2 2 else pret None.

Definition loadKeyValid (ctx : Ctx) : P (option error) :=
  if HasRoutingInstance ctx then
    if elem_b (CompCurIdx ctx) [1; 2; 3; 4] then pret None
    else if too_many ctx 6 then invalid_at ctx (nargs ctx) (CompCurIdx ctx) else pret None
  else if elem_b (CompCurIdx ctx) [1; 2] then pret None
  else if too_many ctx 4 then invalid_at ctx 3 3 else pret None.

Definition mergeValid (ctx : Ctx) : P (option error) :=
  if CompCurIdx ctx =? 1 then pret None
  else if nargs ctx <? 2 then pret (Some (EGo "Invalid command: merge requires a path argument"))
  else if 3 <=? nargs ctx then invalid_at ctx 2 2
  else pret None.

(** A keyword at [keywordPos] with one argument, when there is anything. *)
Definition validateArgumentIfAny (args : list string) (keywordPos : nat) (prefix keyword : string)
  : option (option error) :=
  let n := length args in
  if Nat.eqb n (keywordPos + 1) then
    word ← args !! keywordPos;
    if negb (abbreviates prefix keyword) && negb (abbreviates word keyword)
    then Some (Some (invalid (take keywordPos args) word))
    else Some None
  else if (keywordPos + 1 <? n)%nat && negb (abbreviates (default "" (args !! keywordPos)) keyword) then
    word ← args !! keywordPos;
    Some (Some (invalid (take keywordPos args) word))
  else if (keywordPos + 3 <=? n)%nat then
    word ← args !! (keywordPos + 2)%nat;
    Some (Some (invalid (take (keywordPos + 2) args) word))
  else Some None.
Definition validateCommentIfAny args keywordPos prefix :=
  validateArgumentIfAny args keywordPos prefix "comment".
Definition validatePersistIdIfAny args keywordPos prefix :=
  validateArgumentIfAny args keywordPos prefix "persist-id".

Definition trimmed (ctx : Ctx) : P (list string) := of_option (removeTrailingEmptyArgument (Args ctx)).

(** [rollback <ver> [comment <comment>]] *)
Definition rollbackValid (ctx : Ctx) : P (option error) :=
  if nargs ctx <=? 2 then pret None
  else args <-- trimmed ctx ;; of_option (validateCommentIfAny args 2 (Prefix ctx)).

Definition cancelcommitValid (ctx : Ctx) : P (option error) :=
  if nargs ctx =? 1 then pret None
  else
    r <-- of_option (processCancelCommitCmd (@range) ctx) ;;
    pret match snd r with inr err => Some err | inl _ => None end.

Definition confirmValid (ctx : Ctx) : P (option error) :=
  if nargs ctx =? 1 then pret None
  else args <-- trimmed ctx ;; of_option (validatePersistIdIfAny args 1 (Prefix ctx)).

(** [commit-confirm <timeout> [comment <comment>]] *)
Definition commitConfValid (ctx : Ctx) : P (option error) :=
  if nargs ctx =? 1 then pret (Some (EGo "Timeout must be specified for commit-confirm"))
  else
    args <-- trimmed ctx ;;
    let bad_timeout :=
      match args with
      | _ :: t :: _ =>
          match Atoi t with
          | Some timeout => if timeout <=? 0 then Some (EGo ("Invalid timeout: " +:+ t)) else None
          | None => Some (EGo ("Invalid timeout: " +:+ t))
          end
      | _ => None
      end in
    match bad_timeout with
    | Some err => pret (Some err)
    | None => of_option (validateCommentIfAny args 2 (Prefix ctx))
    end.

Definition commitValid (ctx : Ctx) : P (option error) :=
  if nargs ctx =? 1 then pret None
  else args <-- trimmed ctx ;; of_option (validateCommentIfAny args 1 (Prefix ctx)).

Definition is_number (s : string) : bool := match Atoi s with Some _ => true | None => false end.

Definition compareValid (ctx : Ctx) : P (option error) :=
  if nargs ctx =? 1 then pret None
  else if negb (HasConfigMgmt ctx) then validSingleCommand ctx
  else if CompCurIdx ctx =? 1 then
    if negb (has_prefix ctx) || abbreviates (Prefix ctx) "saved" || is_number (Prefix ctx) then pret None
    else invalid_prefix_at ctx 1
  else if CompCurIdx ctx =? 2 then
    a1 <-- arg ctx 1 ;;
    if abbreviates a1 "saved" then
      if has_prefix ctx then invalid_prefix_at ctx 2 else pret None
    else if is_number a1 then
      if has_prefix ctx && negb (is_number (Prefix ctx)) then invalid_prefix_at ctx 2 else pret None
    else invalid_at ctx 1 1
  else
    a1 <-- arg ctx 1 ;;
    if abbreviates a1 "saved" then
      if too_many ctx 3 then invalid_at ctx 2 2 else pret None
    else if too_many ctx 4 then invalid_at ctx 3 3
    else pret None.

Definition exitValid (ctx : Ctx) : P (option error) :=
  if CompCurIdx ctx =? 1 then
    if negb (abbreviates (Prefix ctx) "discard") then invalid_prefix_at ctx 1 else pret None
  else if CompCurIdx ctx =? 2 then
    if has_prefix ctx then invalid_prefix_at ctx 2 else pret None
  else if too_many ctx 3 then invalid_at ctx 2 2
  else pret None.

(** ** Paths *)

(** [handleError], [printError] and [handleCompError]. *)
Definition handleError (err : option error) : P unit :=
  match err with
  | None => pret tt
  | Some err =>
      put_out (OErr (nl +:+ "  " +:+ replace_byte "010"%char (nl +:+ "  ") (Error err) +:+ nl +:+ nl)) ;-- pexit 1
  end.
Definition printError (err : error) : P unit :=
  put_out (OErr (nl +:+ nl +:+ "  " +:+ Error err +:+ nl)).
Definition handleCompError (err : option error) (errHandler : error -> P unit) : P unit :=
  match err with
  | None => pret tt
  | Some err =>
      errHandler err ;--
      put_out (OOut (nl +:+ nl +:+ "  COMPREPLY=( " +:+ dquote +:+ dquote +:+ " " +:+ dquote +:+ " " +:+ dquote +:+ " )" +:+ nl)) ;-- pexit 1
  end.

Definition editPathLength (args : list string) : list string * Z :=
  let epath := Makepath edit_level in (epath ++ args, Z.of_nat (length epath)).
Definition editPath (args : list string) : list string := fst (editPathLength args).

Definition expandPathString (path : list string) (errHandler : error -> P unit) : P string :=
  r <-- call (CExpand (Pathstr path)) ;;
  handleCompError (snd r) errHandler ;-- pret (fst r).
Definition ExpandPath (path : list string) : P (list string) :=
  pstr <-- expandPathString path printError ;; pret (Makepath pstr).

Definition checkValidPath (ctx : Ctx) : P (option error) :=
  words <-- of_option (match Args ctx with [] => None | _ :: ws => Some ws end) ;;
  let path := editPath words in
  match last path with
  | None => pret None
  | Some x =>
      fine <-- (if negb (has_prefix ctx) && bool_decide (x = "") then
                  q <-- ExpandPath (take (length path - 1) path) ;;
                  r <-- call (CTmplValidatePath (Pathstr q)) ;; pret (fst r)
                else pret false) ;;
      if (fine : bool) then pret None
      else
        r <-- call (CExpandWithPrefix (Pathstr path) (Prefix ctx) (CompCurIdx ctx - 1)) ;;
        pret match snd r with
             | Some err => if Contains (Error err) "is not valid" then Some err else None
             | None => None
             end
  end.
End Valid.

(** ** The commands *)

Definition populateCommands : gmap string string := list_to_map [
  ("commit", "Commit the current set of changes");
  ("compare", "Compare configuration revisions");
  ("delete", "Delete a configuration element");
  ("discard", "Discard uncommitted changes");
  ("edit", "Edit a sub-element");
  ("exit", "Exit from this configuration level");
  ("load", "Load configuration from a file and replace candidate configuration");
  ("merge", "Merge configuration from a file into the candidate configuration");
  ("run", "Run an operational-mode command");
  ("save", "Save configuration to a file");
  ("set", "Set the value of a parameter or create a new element");
  ("show", "Show the configuration (default values may be suppressed)");
  ("top", "Set the edit level to the root");
  ("up", "Set the edit level one level up");
  ("validate", "Validate the current set of changes")].

Definition set_if (b : bool) (name help : string) (cmds : gmap string string) : gmap string string :=
  if b then <[name := help]> cmds else delete name cmds.

(** [cancel-commit] is added and not removed again; the process asks once. *)
Definition updateDynamicCommands (hasConfigMgmt hasLoadKey : bool) (cmds : gmap string string)
  : gmap string string :=
  let cmds := set_if hasConfigMgmt "confirm" "Confirm configuration changes" cmds in
  let cmds := if hasConfigMgmt then <["cancel-commit" := "Cancel a confirmed commit"]> cmds else cmds in
  let cmds := set_if hasConfigMgmt "rollback" "Rollback to a previous configuration" cmds in
  let cmds := set_if hasConfigMgmt "commit-confirm"
    "Commit the current set of changes; rollback if not confirmed" cmds in
  set_if hasLoadKey "loadkey" "Load user SSH key from a file" cmds.

Section Lookup.
Context (range : forall {A : Type}, gmap string A -> list (string * A)).
Arguments range {A}.
Context (Commands : gmap string string).

(** The loop: an exact match ends it. *)
Fixpoint expand_loop (name : string) (cmds : list (string * string)) (matches : list string)
  : string + list string :=
  match cmds with
  | [] => inr matches
  | (k, _) :: cmds' =>
      if bool_decide (k = name) then inl name
      else if HasPrefix k name then expand_loop name cmds' (matches ++ [k])
      else expand_loop name cmds' matches
  end.

Definition ExpandCommand (name : string) : string + error :=
  match expand_loop name (range Commands) [] with
  | inl name => inl name
  | inr [] => inr (new_error (UnknownElementApplication name))
  | inr [k] => inl k
  | inr matches =>
      inr (new_error (PathAmbiguous []
        (map (fun v => (v, default "" (Commands !! v))) matches)))
  end.

Definition GetCommand (name : string) : string + error :=
  match ExpandCommand name with
  | inr err => inr err
  | inl name =>
      match Commands !! name with
      | Some _ => inl name
      | None => inr (EGo ("Invalid command " +:+ name))
      end
  end.
End Lookup.

(** [ValidFn] of each command. *)
Definition ValidFn {L : ConfigLib} {E : ErrorLib} {C : Type} `{CM : !CfgManager C}
    (range : forall A : Type, gmap string A -> list (string * A)) (edit_level name : string)
  : option (Ctx -> P C (option error)) :=
  if elem_b name ["discard"; "top"; "up"; "validate"] then Some validSingleCommand
  else if elem_b name ["delete"; "edit"; "set"; "show"] then Some (checkValidPath edit_level)
  else if elem_b name ["load"; "save"] then Some loadsaveValid
  else if bool_decide (name = "commit") then Some commitValid
  else if bool_decide (name = "compare") then Some compareValid
  else if bool_decide (name = "exit") then Some exitValid
  else if bool_decide (name = "merge") then Some mergeValid
  else if bool_decide (name = "confirm") then Some confirmValid
  else if bool_decide (name = "cancel-commit") then Some (cancelcommitValid range)
  else if bool_decide (name = "rollback") then Some rollbackValid
  else if bool_decide (name = "commit-confirm") then Some commitConfValid
  else if bool_decide (name = "loadkey") then Some loadKeyValid
  else None.

(** ** Lemmas *)

Section CliLemmas.
Context (range : forall {A : Type}, gmap string A -> list (string * A)).
Arguments range {A}.
Hypothesis range_perm : forall A (m : gmap string A), range m ≡ₚ map_to_list m.

Lemma in_range {A} (m : gmap string A) k x : (k, x) ∈ range m <-> m !! k = Some x.
Proof. by rewrite range_perm, elem_of_map_to_list. Qed.

Lemma range_NoDup {A} (m : gmap string A) : NoDup (map fst (range m)).
Proof. rewrite range_perm. apply (NoDup_fst_map_to_list m). Qed.

Lemma expand_loop_spec name l : forall acc,
  expand_loop name l acc =
  if existsb (fun kv => bool_decide (fst kv = name)) l then inl name
  else inr (acc ++ List.filter (fun k => HasPrefix k name) (map fst l)).
Proof.
  induction l as [|[k v] l IH]; intros acc; cbn [expand_loop existsb map List.filter fst];
    [by rewrite app_nil_r|].
  case_bool_decide as Hk; [done|]. cbn [orb]. destruct (HasPrefix k name); [|apply IH].
  rewrite IH. destruct (existsb _ l); [done|]. by rewrite <- app_assoc.
Qed.

Lemma existsb_key {A} (m : gmap string A) name :
  existsb (fun kv => bool_decide (fst kv = name)) (range m) = true <-> is_Some (m !! name).
Proof.
  rewrite existsb_exists. split.
  - intros ([k x] & Hin & Hk). apply bool_decide_eq_true in Hk. cbn in Hk. subst k.
    exists x. apply in_range. by apply list_elem_of_In.
  - intros [x Hx]. exists (name, x). split; [by apply list_elem_of_In, in_range|].
    by apply bool_decide_eq_true.
Qed.

Lemma in_matches {A} (m : gmap string A) name k :
  k ∈ List.filter (fun k => HasPrefix k name) (map fst (range m)) <->
  is_Some (m !! k) /\ HasPrefix k name = true.
Proof.
  rewrite list_elem_of_In, filter_In, in_map_iff. split.
  - intros [([k' x] & <- & Hin) Hp]. split; [|done]. exists x. apply in_range. by apply list_elem_of_In.
  - intros [[x Hx] Hp]. split; [|done]. exists (k, x). split; [done|]. by apply list_elem_of_In, in_range.
Qed.

Lemma matches_NoDup {A} (m : gmap string A) name :
  NoDup (List.filter (fun k => HasPrefix k name) (map fst (range m))).
Proof.
  pose proof (range_NoDup m) as Hn. apply NoDup_ListNoDup in Hn. apply NoDup_ListNoDup.
  by apply List.NoDup_filter.
Qed.

(** ** Properties *)

(** C31: a word stands for the command of that name, or for the only one it
    abbreviates, in whatever order the table is ranged over; it is refused
    when there is none, and as ambiguous when there are several. *)
Theorem ExpandCommand_spec Commands name :
  match ExpandCommand (@range) Commands name with
  | inl k =>
      is_Some (Commands !! k) /\ HasPrefix k name = true /\
      (k = name \/ forall k', is_Some (Commands !! k') -> HasPrefix k' name = true -> k' = k)
  | inr err =>
      Commands !! name = None /\
      (err = new_error (UnknownElementApplication name) /\
         (forall k, is_Some (Commands !! k) -> HasPrefix k name = false) \/
       exists k1 k2 l, k1 <> k2 /\ err = new_error (PathAmbiguous [] l) /\
         is_Some (Commands !! k1) /\ HasPrefix k1 name = true /\
         is_Some (Commands !! k2) /\ HasPrefix k2 name = true)
  end.
Proof.
  unfold ExpandCommand. rewrite expand_loop_spec. cbn [app].
  destruct (existsb _ (range Commands)) eqn:Ex.
  - apply existsb_key in Ex. split_and!; [done|apply HasPrefix_refl|by left].
  - assert (Hn : Commands !! name = None).
    { destruct (Commands !! name) eqn:E; [|done].
      assert (is_Some (Commands !! name)) as Hs by eauto. apply existsb_key in Hs. congruence. }
    pose proof (in_matches Commands name) as Hin. pose proof (matches_NoDup Commands name) as Hd.
    destruct (List.filter _ _) as [|k1 [|k2 l]].
    + split; [done|]. left. split; [done|]. intros k Hk. destruct (HasPrefix k name) eqn:Ep; [|done].
      by assert (k ∈ @nil string) as ?%not_elem_of_nil by by apply Hin.
    + assert (k1 ∈ [k1]) as [Hs Hp]%Hin by by left. split_and!; [done..|].
      right. intros k' Hs' Hp'. assert (k' ∈ [k1]) as Hk by by apply Hin. by apply list_elem_of_singleton in Hk.
    + split; [done|]. right. apply NoDup_cons in Hd as [Hd _].
      assert (k1 ∈ k1 :: k2 :: l) as [? ?]%Hin by by left.
      assert (k2 ∈ k1 :: k2 :: l) as [? ?]%Hin by (right; by left).
      eexists k1, k2, _. split_and!; try done. intros ->. apply Hd. by left.
Qed.
End CliLemmas.

(** ** Keywords and the order of the map *)

Lemma find_unique {A} (f : A -> bool) l1 l2 : l1 ≡ₚ l2 ->
  (forall x y, x ∈ l1 -> y ∈ l1 -> f x = true -> f y = true -> x = y) -> find f l1 = find f l2.
Proof.
  intros Hp Hu. destruct (find f l1) as [x|] eqn:E1.
  - apply find_some in E1 as [Hin Hx]. destruct (find f l2) as [y|] eqn:E2.
    + apply find_some in E2 as [Hin2 Hy]. f_equal. apply Hu; try done; [by apply list_elem_of_In|].
      rewrite Hp. by apply list_elem_of_In.
    + assert (f x = false); [|congruence]. apply (find_none _ _ E2).
      apply list_elem_of_In. rewrite <- Hp. by apply list_elem_of_In.
  - destruct (find f l2) as [y|] eqn:E2; [|done]. apply find_some in E2 as [Hin2 Hy].
    assert (f y = false); [|congruence]. apply (find_none _ _ E1).
    apply list_elem_of_In. rewrite Hp. by apply list_elem_of_In.
Qed.

Definition cancel_keywords : gset string := {["force"; "comment"; "persist-id"]}.

(** A word that is not empty abbreviates one of them at most. *)
Lemma cancel_keywords_distinct val k1 k2 : val <> "" -> k1 ∈ cancel_keywords -> k2 ∈ cancel_keywords ->
  HasPrefix k1 val = true -> HasPrefix k2 val = true -> k1 = k2.
Proof.
  intros Hv H1 H2 Hp1%HasPrefix_spec Hp2%HasPrefix_spec. destruct val as [|c val]; [done|].
  destruct Hp1 as [t1 E1], Hp2 as [t2 E2].
  change (k1 = String c (val +:+ t1)) in E1. change (k2 = String c (val +:+ t2)) in E2.
  unfold cancel_keywords in H1, H2. set_unfold in H1. set_unfold in H2.
  destruct_or?; subst; try done; injection E1 as <- _; discriminate E2.
Qed.

Lemma assignArgument_dom k v (c : cmdDefs) : dom (assignArgument k v c) = dom c.
Proof.
  unfold assignArgument. destruct (c !! k) eqn:E; [|done]. rewrite dom_insert_L.
  apply elem_of_dom_2 in E. set_solver.
Qed.
Lemma keywordPresent_dom k p (c : cmdDefs) : dom (snd (keywordPresent k p c)) = dom c.
Proof.
  unfold keywordPresent. destruct (c !! k) eqn:E; [|done]. cbn [snd]. rewrite dom_insert_L.
  apply elem_of_dom_2 in E. set_solver.
Qed.

Section Order.
Context (r1 r2 : forall {A : Type}, gmap string A -> list (string * A)).
Arguments r1 {A}.
Arguments r2 {A}.
Hypothesis r1_perm : forall A (m : gmap string A), r1 m ≡ₚ map_to_list m.
Hypothesis r2_perm : forall A (m : gmap string A), r2 m ≡ₚ map_to_list m.

Lemma matchKeyword_order idx prefix val (cmds : cmdDefs) : 0 <= idx -> val <> "" ->
  dom cmds ⊆ cancel_keywords ->
  matchKeyword (@r1) 0 idx prefix val cmds = matchKeyword (@r2) 0 idx prefix val cmds.
Proof.
  intros Hi Hv Hd. unfold matchKeyword.
  erewrite (find_unique _ (r1 cmds) (r2 cmds)); [done|by rewrite r1_perm, r2_perm|].
  intros [k1 d1] [k2 d2] Hin1 Hin2 H1 H2. unfold keyword_matches in H1, H2.
  rewrite (proj2 (Z.eqb_neq 0 (idx + 1))), andb_false_r, orb_false_r in H1, H2 by lia.
  apply andb_prop in H1 as [_ H1], H2 as [_ H2].
  rewrite r1_perm, elem_of_map_to_list in Hin1, Hin2.
  assert (k1 = k2) as ->; [|congruence].
  apply (cancel_keywords_distinct val); try done; apply Hd; by eapply elem_of_dom_2.
Qed.

Lemma validate_words_order prefix rest : Forall (fun w => w <> "") rest ->
  forall done_ idx match_ needarg (cmds : cmdDefs), 0 <= idx -> dom cmds ⊆ cancel_keywords ->
  validate_words (@r1) 0 prefix done_ rest idx match_ needarg cmds =
  validate_words (@r2) 0 prefix done_ rest idx match_ needarg cmds.
Proof.
  induction 1 as [|w rest Hw Hrest IH]; intros done_ idx match_ needarg cmds Hi Hd; [done|].
  cbn [validate_words]. destruct needarg.
  - apply IH; [lia|]. by rewrite assignArgument_dom.
  - rewrite matchKeyword_order by done. case_bool_decide; [done|].
    destruct (keywordPresent _ _ cmds) as [b cmds'] eqn:E. apply IH; [lia|].
    pose proof (keywordPresent_dom (matchKeyword (@r2) 0 idx prefix w cmds) (idx + 1) cmds) as Hk.
    rewrite E in Hk. cbn [snd] in Hk. by rewrite Hk.
Qed.

(** How cancel-commit is read when it is run does not depend on the order
    in which Go ranges over its keywords, as long as no word is empty. *)
Theorem cancel_commit_deterministic ctx : CompCurIdx ctx = 0 -> Forall (fun w => w <> "") (Args ctx) ->
  processCancelCommitCmd (@r1) ctx = processCancelCommitCmd (@r2) ctx.
Proof.
  intros Hc Hw. unfold processCancelCommitCmd. rewrite Hc.
  destruct (removeTrailingEmptyArgument (Args ctx)) as [args|] eqn:E; [|done]. cbn.
  assert (Hargs : Forall (fun w => w <> "") args).
  { unfold removeTrailingEmptyArgument in E. destruct (last (Args ctx)) as [[|c x]|]; [|by injection E as <-|done].
    unfold init_opt in E. destruct (Args ctx); [done|]. injection E as <-. by apply Forall_take. }
  unfold validateKeywordsAndArguments. destruct args as [|a words]; [done|].
  apply Forall_cons in Hargs as [_ Hargs].
  rewrite (validate_words_order (Prefix ctx) words Hargs); [done|done|].
  by apply (bool_decide_unpack (dom cancel_commit_defs ⊆ cancel_keywords)).
Qed.
End Order.

(** An empty word in the middle is whatever keyword comes first. *)
Example empty_word_random : forall prefix,
  (let defs := cancel_commit_defs in
   let by_order ks := matchKeyword (fun A m => omap (fun k => (fun x => (k, x)) <$> m !! k) ks) 0 0 prefix "" defs in
   (by_order ["force"; "comment"; "persist-id"], by_order ["comment"; "persist-id"; "force"]))
  = ("force", "comment").
Proof. reflexivity. Qed.

(** ** Concrete command lines *)

Module SampleCli.
Definition sorted {A : Type} (m : gmap string A) : list (string * A) := map_to_list m.
Definition backwards {A : Type} (m : gmap string A) : list (string * A) := reverse (map_to_list m).
Definition commands : gmap string string := updateDynamicCommands true false populateCommands.

Example commit_is_itself : ExpandCommand (@sorted) commands "commit" = inl "commit".
Proof. vm_compute. reflexivity. Qed.

Lemma ExpandCommand_spec_witness : exists k, ExpandCommand (@sorted) commands "roll" = inl k /\
  is_Some (commands !! k) /\ HasPrefix k "roll" = true.
Proof.
  assert (Hk : ExpandCommand (@sorted) commands "roll" = inl "rollback") by (vm_compute; reflexivity).
  exists "rollback". split; [exact Hk|].
  pose proof (ExpandCommand_spec (@sorted) (fun A m => Permutation_refl _) commands "roll") as H.
  rewrite Hk in H. split; [exact (proj1 H)|exact (proj1 (proj2 H))].
Defined.

Definition cancel_ctx : Ctx :=
  MkCtx ["cancel-commit"; "force"; "com"; "undone"] [] 0 "" "__noncomp__" false false false false true false.

Lemma cancel_commit_deterministic_witness :
  processCancelCommitCmd (@sorted) cancel_ctx = processCancelCommitCmd (@backwards) cancel_ctx.
Proof.
  apply (cancel_commit_deterministic (@sorted) (@backwards)
    (fun A m => Permutation_refl _) (fun A m => reverse_Permutation _)); [reflexivity|].
  repeat constructor; discriminate.
Defined.
End SampleCli.
