(* ===== verification/CliComplete.v ===== *)
(** [cmd/cfgcli/completefns.go]: completion.  A completion is a text for bash to
    evaluate: an [echo] of the help and an assignment of COMPREPLY; the help is
    laid out by [text/tabwriter]. *)

From S2P Require Import Prelude GoLib Errors Rpc GoFmt External Configd Sample CliFormat Server Cli.

Open Scope Z_scope.

(** ** text/tabwriter *)

(** Runes, on valid UTF-8: the bytes that do not continue one. *)
Definition continues (c : ascii) : bool :=
  let n := nat_of_ascii c in (128 <=? n)%nat && (n <? 192)%nat.
Fixpoint rune_count (s : string) : nat :=
  match s with EmptyString => O | String c s' => ((if continues c then 0 else 1) + rune_count s')%nat end.

(** The widest cell of column [j] among the first lines that have one before
    their last. *)
Fixpoint run_width (j : nat) (lines : list (list string)) : nat :=
  match lines with
  | l :: lines' =>
      if (j + 1 <? length l)%nat
      then Nat.max (rune_count (nth j l "")) (run_width j lines') else O
  | [] => O
  end.

(** The cells of a line, all but the last padded to the width of their block:
    the lines around it without a gap in that column, one space more, and 8 at
    least. *)
Definition column_width (above here_and_below : list (list string)) (j : nat) : nat :=
  Nat.max 8 (1 + Nat.max (run_width j above) (run_width j here_and_below))%nat.
Fixpoint render_cells (width : nat -> nat) (cells : list string) (j : nat) : string :=
  match cells with
  | [] => ""
  | [c] => c
  | c :: cells' => c +:+ Repeat " " (width j - rune_count c) +:+ render_cells width cells' (S j)
  end.
Fixpoint render_lines (above lines : list (list string)) : list string :=
  match lines with
  | [] => []
  | l :: lines' =>
      render_cells (column_width above lines) l 0 :: render_lines (l :: above) lines'
  end.

(** [tabwriter.NewWriter(buf, 8, 0, 1, ' ', 0)] on a whole text. *)
Definition tabwriter (text : string) : string :=
  Join (render_lines [] (map (fun l => Split l "009"%char) (Split text "010"%char))) nl.

(** ** bash *)

Definition pager : string := "${VYATTA_PAGER:-cat}".

Definition backquote : ascii := "096"%char.
(** The characters that mean something between double quotes. *)
Definition is_active (c : ascii) : bool :=
  Ascii.eqb c "\"%char || Ascii.eqb c "034"%char || Ascii.eqb c "$"%char || Ascii.eqb c backquote.

(** The replacer of [getCompReply], and [escapeConfig]. *)
Fixpoint escapeConfig (s : string) : string :=
  match s with
  | EmptyString => ""
  | String c s' => if is_active c then String "\"%char (String c (escapeConfig s')) else String c (escapeConfig s')
  end.

Definition quoted (s : string) : string := dquote +:+ s +:+ dquote.

Definition getCompReply (dohelp : bool) (helptext : string) (compreply : list string) : string :=
  (if dohelp && bool_decide (helptext <> "")
   then "echo " +:+ quoted (escapeConfig helptext) +:+ " | " +:+ pager +:+ ";" else "")
  +:+ "COMPREPLY=( " +:+ Join compreply " " +:+ " )".

(** ** Candidates *)

(** The first rune, as its bytes; of nothing it is U+FFFD. *)
Fixpoint take_continuing (s : string) : string :=
  match s with
  | String c s' => if continues c then String c (take_continuing s') else ""
  | EmptyString => ""
  end.
Definition first_rune (s : string) : string :=
  match s with
  | EmptyString => String (ascii_of_nat 239) (String (ascii_of_nat 191) (String (ascii_of_nat 189) ""))
  | String c s' => String c (take_continuing s')
  end.

Definition makeAmbiguous (compreply : list string) : bool :=
  Nat.eqb (length compreply) 1
  || match map first_rune compreply with
     | [] => false
     | r :: rs => forallb (fun x => bool_decide (x = r)) rs
     end.

(** Placeholders such as <Enter> are shown, but are not candidates. *)
Definition placeholder (k : string) : bool := HasPrefix k "<" && HasSuffix k ">".

Definition CompHeader : string := nl +:+ "Possible Completions:".
Definition defaultcomps : gmap string string := {["<Enter>" := "Execute the current command"]}.

Definition prefixFilterMap (m : gmap string string) (pfx : string) : gmap string string :=
  filter (fun kv => HasPrefix (fst kv) pfx = true) m.

(** [CompCurWord] is the word before the cursor's. *)
Definition prefix (ctx : Ctx) : string :=
  if bool_decide (CompCurWord ctx = "") then
    match Args ctx with [] => "" | a :: _ => a end
  else Prefix ctx.

(** What is read from the schema, not from the configuration. *)
Definition fromschema (cmd : string) : bool :=
  negb (elem_b cmd ["delete"; "show"; "comment"; "activate"; "deactivate"]).

Section Complete.
Context {L : ConfigLib} {E : ErrorLib} {C : Type} `{CM : !CfgManager C}.
Context (range : forall {A : Type}, gmap string A -> list (string * A)).
Arguments range {A}.
(** danos/utils/natsort *)
Context (natsort : list string -> list string).
Context (edit_level : string).

Abbreviation P := (P C).
Abbreviation ExpandPath := (ExpandPath (C := C)).

(** The words to show and the placeholders. *)
Definition mapkeys (pfx : string) (m : gmap string string) : list string * list string :=
  let ks := List.filter (fun k => HasPrefix k pfx) (map fst (range m)) in
  (natsort (List.filter (fun k => negb (placeholder k)) ks), natsort (List.filter placeholder ks)).

Definition type_prefix (t : NodeType) : string :=
  if t =? LEAF_LIST then "+ "
  else if t =? CONTAINER then " >"
  else if t =? LIST then "+>"
  else "  ".

Definition gettypeprefix (args : list string) : P string :=
  let path := Pathstr args in
  v <-- call (CTmplValidatePath path) ;;
  if negb (fst v) then pret "  "
  else
    t <-- call (CNodeGetType path) ;;
    pret match snd t with Some _ => "  " | None => type_prefix (fst t) end.

(** The words before the cursor, and the expansion of a path of which the word at
    [pos] is being typed: the program has them, and no command uses them. *)
Definition getCurrentPath (ctx : Ctx) : P (list string) :=
  match Args ctx with
  | [] => go_panic
  | _ :: words =>
      if CompCurIdx ctx =? 0 then pret words
      else if CompCurIdx ctx <? 1 then go_panic
      else ws <-- args_to ctx (CompCurIdx ctx) ;; pret (tail ws)
  end.
Definition expandPathStringWithPrefix (path : list string) (errHandler : error -> P unit) (pfx : string)
    (pos : Z) : P string :=
  r <-- call (CExpandWithPrefix (Pathstr path) pfx pos) ;;
  handleCompError (snd r) errHandler ;-- pret (fst r).
Definition ExpandPathWithPrefix (path : list string) (pfx : string) (pos : Z) : P (list string) :=
  pstr <-- expandPathStringWithPrefix path printError pfx pos ;; pret (Makepath pstr).

(** ** Help *)

(** The lines of the help; only after the last word there is no newline. *)
Definition help_text (lines lastless : list string) : string :=
  tabwriter (CompHeader +:+ nl +:+ String.concat "" (map (fun l => l +:+ nl) lines) +:+ Join lastless nl).

Definition comp_help (comps : gmap string string) (k : string) : string := default "" (comps !! k).

Definition printHelp (comps : gmap string string) : string :=
  let '(keys, nckeys) := mapkeys "" comps in
  let line k := "  " +:+ k +:+ tab +:+ comp_help comps k in
  help_text (map line nckeys) (map line keys).

(** One line per name, asking for its kind. *)
Fixpoint path_lines (path : list string) (comps : gmap string string) (names : list string)
  : P (list string) :=
  match names with
  | [] => pret []
  | name :: names' =>
      typfx <-- gettypeprefix (CopyAppend path name) ;;
      ls <-- path_lines path comps names' ;;
      pret ((typfx +:+ " " +:+ name +:+ tab +:+ comp_help comps name) :: ls)
  end.

Definition printPathHelp (ctx : Ctx) (comps : gmap string string) : P string :=
  match Args ctx with
  | [] => go_panic
  | _ :: words =>
      path <-- ExpandPath words ;;
      let '(keys, nckeys) := mapkeys "" comps in
      ls1 <-- path_lines path comps nckeys ;;
      ls2 <-- path_lines path comps keys ;;
      pret (help_text ls1 ls2)
  end.

(** ** The reply *)

(** Bash would complete a single candidate at once: until something is typed
    there are two. *)
Definition hack_ambiguous (ctx : Ctx) (cur : string) (compreply : list string) : list string :=
  if bool_decide (cur = "")
     || match compreply with [] => false | r :: _ => HasPrefix r cur end
  then
    if bool_decide (prefix ctx = "") then
      match compreply with
      | [] => [quoted " " +:+ " "; quoted ""]
      | _ => if makeAmbiguous compreply then compreply ++ [" "] else compreply
      end
    else compreply
  else compreply.

Definition append_space (appendSpace : bool) (compreply : list string) : list string :=
  match compreply with
  | [r] => if appendSpace then [r +:+ " "] else compreply
  | _ => compreply
  end.

(** Whether the help is to be shown instead of the candidates: not when a
    single one continues what is typed. *)
Definition single_candidate (cur pfx : string) (compreply : list string) : bool :=
  match compreply with
  | [r] => (bool_decide (cur <> "") && HasPrefix r cur) || (bool_decide (pfx <> "") && HasPrefix r pfx)
  | _ => false
  end.

Definition doComplete (ctx : Ctx) (appendSpace : bool) (compsin : gmap string string)
    (prntFn : gmap string string -> P string) : P string :=
  cur <-- (if (0 <? nargs ctx) && (CompCurIdx ctx <? nargs ctx) then arg ctx (CompCurIdx ctx)
           else pret (Prefix ctx)) ;;
  let comps := prefixFilterMap compsin (prefix ctx) in
  let compreply := List.filter (fun k => negb (placeholder k)) (map fst (range comps)) in
  let compreply := append_space appendSpace (hack_ambiguous ctx cur compreply) in
  let dohelp := DoHelp ctx || bool_decide (cur = "") in
  if single_candidate cur (Prefix ctx) compreply then pret (getCompReply false "" compreply)
  else if dohelp || Nat.eqb (length compreply) 0 then
    helptext <-- prntFn (if Nat.eqb (length compreply) 0 then compsin else comps) ;;
    pret (getCompReply true helptext [quoted ""; quoted " "])
  else pret (getCompReply dohelp "" compreply).

Definition printHelpFn (m : gmap string string) : P string := pret (printHelp m).

(** ** The completion of each command *)

Definition singleCommandComp (ctx : Ctx) : P string := doComplete ctx true defaultcomps printHelpFn.

Definition routingInstanceArg : string := "routing-instance".

(** [ctx.Prefix == ""]: the kinds of location; otherwise only Enter. *)
Definition loadsaveComp (ctx : Ctx) (opname prep : string) : gmap string string :=
  if bool_decide (Prefix ctx = "") then
    let what := opname +:+ " " +:+ prep +:+ " " in
    let remote := what +:+ "file on remote machine" in
    list_to_map [
      ("<Enter>", if bool_decide (opname = "Save")
                  then "(deprecated - 'commit' saves system config file)"
                  else what +:+ "system config file");
      ("<file>", what +:+ "file on local machine");
      ("scp://<user>:<passwd>@<host>/<file>", remote);
      ("ftp://<user>:<passwd>@<host>/<file>", remote);
      ("http://<user>:<passwd>@<host>/<file>", remote);
      ("tftp://<host>/<file>", remote)]
  else defaultcomps.

Definition ri_loadsaveComp (ctx : Ctx) (opname prep : string) : gmap string string :=
  let m := loadsaveComp ctx opname prep in
  if bool_decide (Prefix ctx = "")
  then <[routingInstanceArg := "Use routing instance for remote connection"]> m else m.

Definition names_map (names : list string) : gmap string string :=
  list_to_map (map (fun n => (n, "")) names).

Definition riComp (ctx : Ctx) (opname prep : string) : P (gmap string string) :=
  if bool_decide (Prefix ctx = "") then
    a <-- arg ctx (CompCurIdx ctx - 1) ;;
    if bool_decide (a = routingInstanceArg) then
      r <-- call (CGet RUNNING "routing/routing-instance") ;;
      pret match snd r with Some _ => ∅ | None => names_map (fst r) end
    else pret defaultcomps
  else pret defaultcomps.

(** The location, from position [p] on: with routing instances also
    "routing-instance <name>" before it. *)
Definition location_comp (ctx : Ctx) (p : Z) (opname prep : string) (otherwise : gmap string string)
  : P (gmap string string) :=
  if HasRoutingInstance ctx then
    if CompCurIdx ctx =? p then pret (ri_loadsaveComp ctx opname prep)
    else if CompCurIdx ctx =? p + 1 then riComp ctx opname prep
    else if CompCurIdx ctx =? p + 2 then pret (loadsaveComp ctx opname prep)
    else pret otherwise
  else if CompCurIdx ctx =? p then pret (loadsaveComp ctx opname prep)
  else pret otherwise.

Definition loadComp (ctx : Ctx) : P string :=
  m <-- location_comp ctx 1 "Load" "from" defaultcomps ;; doComplete ctx true m printHelpFn.
Definition saveComp (ctx : Ctx) : P string :=
  m <-- location_comp ctx 1 "Save" "to" defaultcomps ;; doComplete ctx true m printHelpFn.
Definition loadkeyComp (ctx : Ctx) : P string :=
  users <-- (if CompCurIdx ctx =? 1 then
               r <-- call (CGet CANDIDATE "/system/login/user") ;;
               handleError (snd r) ;-- pret (names_map (fst r))
             else pret defaultcomps) ;;
  m <-- location_comp ctx 2 "Load" "from" users ;; doComplete ctx true m printHelpFn.

Definition by_index (ctx : Ctx) (cases : list (Z * gmap string string)) : gmap string string :=
  match find (fun c => CompCurIdx ctx =? fst c) cases with Some (_, m) => m | None => defaultcomps end.

Definition comment_help : gmap string string := {["<text>" := "Comment for the commit log"]}.

Definition rollbackComp (ctx : Ctx) : P string :=
  m <-- (if CompCurIdx ctx =? 1 then
           r <-- call CGetCommitLog ;; pret (fst r ∪ {["<N>" := "Rollback to revision N"]})
         else
           pret (by_index ctx
             [(2, {["<Enter>" := "Execute the current command"; "comment" := "Comment for commit log"]});
              (3, {["<text>" := "Comment for commit log"]})])) ;;
  doComplete ctx true m printHelpFn.

(** A keyword can follow when it is not there yet, or still being typed. *)
Definition keyword_open (n : Z) (def : cmdDef) : bool :=
  (negb (present def) || (pos def =? n - 1) || (needArg def && negb (argpresent def)))
  && (negb (atStart def) || (n <=? 2)).

Definition cancelcommitComp (ctx : Ctx) : P string :=
  r <-- of_option (processCancelCommitCmd (@range) ctx) ;;
  let '(commands, match_) := r in
  let match_ := match match_ with inl m => m | inr _ => "" end in
  let n := nargs ctx in
  let def := default (CmdDef false false "" false 0 "" false) (commands !! match_) in
  let m : gmap string string :=
    if bool_decide (match_ <> "")
       && ((needArg def && negb (argpresent def) && negb (pos def =? n - 1)) || (pos def =? n - 2))
    then {["<text>" := help def]}
    else <["<Enter>" := "Cancel pending confirmed commit"]>
           (help <$> filter (fun kd => keyword_open n (snd kd) = true) commands) in
  doComplete ctx true m printHelpFn.

Definition confirmComp (ctx : Ctx) : P string :=
  doComplete ctx true (by_index ctx
    [(1, {["<Enter>" := "Confirm acceptance of running configuration";
           "persist-id" := "Persist-id of pending confirmed commit"]});
     (2, {["<text>" := "Persist-id of pending confirmed commit"]})]) printHelpFn.

Definition commitConfComp (ctx : Ctx) : P string :=
  doComplete ctx true (by_index ctx
    [(1, {["<value>" := "Time (minutes) to issue 'confirm' before automatic rollback"]});
     (2, {["<Enter>" := "Commit working configuration subject to confirmation";
           "comment" := "Comment for commit log"]});
     (3, comment_help)]) printHelpFn.

Definition commitComp (ctx : Ctx) : P string :=
  doComplete ctx true (by_index ctx
    [(1, {["<Enter>" := "Commit working configuration"; "comment" := "Comment for commit log"]});
     (2, comment_help)]) printHelpFn.

Definition compareComp (ctx : Ctx) : P string :=
  m <-- (if negb (HasConfigMgmt ctx) then pret defaultcomps
         else
           r <-- call CGetCommitLog ;;
           let commits := fst r in
           if CompCurIdx ctx =? 1 then
             pret (commits ∪ {["<Enter>" := "Compare candidate with running";
                               "saved" := "Compare candidate with saved";
                               "<N>" := "Compare candidate with revision N";
                               "<N> <M>" := "Compare revision N with revision M"]})
           else if CompCurIdx ctx =? 2 then
             a1 <-- arg ctx 1 ;;
             if abbreviates a1 "saved" then pret {["<Enter>" := "Compare candidate with saved"]}
             else pret (commits ∪ {["<Enter>" := "Compare candidate with revision N";
                                    "<M>" := "Compare revision N with revision M"]})
           else pret defaultcomps) ;;
  doComplete ctx true m printHelpFn.

Definition getcompletions (args : list string) : P (gmap string string) :=
  match args with
  | [] => go_panic
  | cmd :: path =>
      r <-- call (CGetCompletions (fromschema cmd) (Pathstr path)) ;;
      handleCompError (snd r) printError ;-- pret (fst r)
  end.

(** The words before the cursor, below the edit level, in full; the array is
    not read past them any more. *)
Definition pathComp (ctx : Ctx) : P string :=
  if CompCurIdx ctx <? 1 then go_panic
  else
    words <-- args_to ctx (CompCurIdx ctx) ;;
    let '(epath, elen) := editPathLength edit_level (tail words) in
    path <-- ExpandPath epath ;;
    let ctx := with_CompCurIdx (CompCurIdx ctx + elen) (with_Args (take 1 (Args ctx) ++ path) [] ctx) in
    m <-- getcompletions (Args ctx) ;;
    doComplete ctx true m (printPathHelp ctx).

Definition exitComp (ctx : Ctx) : P string :=
  doComplete ctx true (by_index ctx
    [(1, {["<Enter>" := "Execute the current command"; "discard" := "Discard any changes"]})]) printHelpFn.

Definition mergeComp (ctx : Ctx) : P string :=
  doComplete ctx true (by_index ctx [(1, {["<file>" := "Load from file on local machine"]})]) printHelpFn.

Definition runComp (ctx : Ctx) : P string := pret "".

Definition firstWordComp (Commands : gmap string string) (ctx : Ctx) : P string :=
  doComplete ctx true Commands printHelpFn.

(** [CompFn] of each command. *)
Definition CompFn (name : string) : Ctx -> P string :=
  if elem_b name ["discard"; "top"; "up"; "validate"] then singleCommandComp
  else if elem_b name ["delete"; "edit"; "set"; "show"] then pathComp
  else if bool_decide (name = "load") then loadComp
  else if bool_decide (name = "save") then saveComp
  else if bool_decide (name = "commit") then commitComp
  else if bool_decide (name = "compare") then compareComp
  else if bool_decide (name = "exit") then exitComp
  else if bool_decide (name = "merge") then mergeComp
  else if bool_decide (name = "confirm") then confirmComp
  else if bool_decide (name = "cancel-commit") then cancelcommitComp
  else if bool_decide (name = "rollback") then rollbackComp
  else if bool_decide (name = "commit-confirm") then commitConfComp
  else if bool_decide (name = "loadkey") then loadkeyComp
  else runComp.
End Complete.

(** ** What bash makes of a text between double quotes *)

(** Up to the closing quote: the text and what follows it.  A backslash is
    itself but before the characters it can quote, and before a newline, which
    both go; a dollar sign and a backquote would be expanded, so there is no
    such text. *)
Fixpoint read_quoted (s : string) : option (string * string) :=
  match s with
  | EmptyString => None
  | String c s' =>
      if Ascii.eqb c "034"%char then Some ("", s')
      else if Ascii.eqb c "$"%char || Ascii.eqb c backquote then None
      else if Ascii.eqb c "\"%char then
        match s' with
        | EmptyString => None
        | String d s'' =>
            '(t, r) ← read_quoted s'';
            if is_active d then Some (String d t, r)
            else if Ascii.eqb d "010"%char then Some (t, r)
            else Some (String c (String d t), r)
        end
      else '(t, r) ← read_quoted s'; Some (String c t, r)
  end.

Lemma read_quoted_escaped s rest : read_quoted (escapeConfig s +:+ dquote +:+ rest) = Some (s, rest).
Proof.
  induction s as [|c s IH]; [reflexivity|]. cbn [escapeConfig]. destruct (is_active c) eqn:Ea.
  - change (String "\"%char (String c (escapeConfig s)) +:+ dquote +:+ rest)
      with (String "\"%char (String c (escapeConfig s +:+ dquote +:+ rest))).
    cbn [read_quoted]. rewrite Ea, IH. reflexivity.
  - change (String c (escapeConfig s) +:+ dquote +:+ rest)
      with (String c (escapeConfig s +:+ dquote +:+ rest)).
    unfold is_active in Ea. apply orb_false_elim in Ea as [Ea E4].
    apply orb_false_elim in Ea as [Ea E3]. apply orb_false_elim in Ea as [E1 E2].
    cbn [read_quoted]. rewrite E2, E3, E4, E1. cbn. by rewrite IH.
Qed.

(** ** Properties *)

(** C20: help texts, and configurations shown or compared, reach the screen as
    they are: whatever they contain, what bash reads between the quotes of the
    snippet is the text, and nothing of it is executed. *)
Theorem output_printed_literally c s compreply :
  (exists t, getCompReply true (String c s) compreply = "echo " +:+ dquote +:+ t /\
     read_quoted t =
       Some (String c s, " | " +:+ pager +:+ ";COMPREPLY=( " +:+ Join compreply " " +:+ " )")) /\
  read_quoted (escapeConfig (String c s) +:+ dquote +:+ " | " +:+ pager) =
    Some (String c s, " | " +:+ pager).
Proof.
  split; [|apply read_quoted_escaped]. set (text := String c s).
  exists (escapeConfig text +:+ dquote +:+ " | " +:+ pager +:+ ";COMPREPLY=( " +:+ Join compreply " " +:+ " )").
  split; [|apply read_quoted_escaped]. unfold getCompReply, quoted.
  rewrite bool_decide_true by done. cbn [andb]. by rewrite !append_assoc.
Qed.

(** The candidates themselves are not escaped: one that was configured by
    somebody else is executed when the list of them is evaluated. *)
Example candidate_executed :
  getCompReply false "" ["$(reboot)"] = "COMPREPLY=( $(reboot) )".
Proof. reflexivity. Qed.

(** A candidate, and a word of a reply made of one. *)
Definition candidate (ctx : Ctx) (compsin : gmap string string) (k : string) : Prop :=
  is_Some (compsin !! k) /\ HasPrefix k (prefix ctx) = true /\ placeholder k = false.
Definition candidate_word (ctx : Ctx) (compsin : gmap string string) (w : string) : Prop :=
  exists k, candidate ctx compsin k /\ (w = k \/ w = k +:+ " ").
(** ... or one of the words that only keep bash from completing. *)
Definition filler (w : string) : Prop := w = " " \/ w = quoted "" \/ w = quoted " " \/ w = quoted " " +:+ " ".

Section Candidates.
Context {C : Type} `{CM : !CfgManager C}.
Context (range : forall A : Type, gmap string A -> list (string * A)).
Hypothesis range_perm : forall A (m : gmap string A), range A m ≡ₚ map_to_list m.

(** The list as it is, or two words at least, of which some only fill. *)
Lemma hack_ambiguous_cases ctx cur l :
  hack_ambiguous ctx cur l = l \/
  (2 <= length (hack_ambiguous ctx cur l))%nat /\ Forall (fun w => w ∈ l \/ filler w) (hack_ambiguous ctx cur l).
Proof.
  unfold hack_ambiguous, filler. destruct (_ || _); [|by left]. destruct (bool_decide _); [|by left].
  destruct l as [|k l']; [right; split; [cbn; lia|]|].
  { repeat (apply Forall_cons; split; [right; auto 6|]). constructor. }
  destruct (makeAmbiguous (k :: l')); [right|by left]. split; [cbn; rewrite length_app; cbn; lia|].
  apply Forall_app. split; [apply Forall_forall; intros x Hx; by left|].
  apply Forall_cons. split; [right; auto 6|constructor].
Qed.

(** Completion never offers what is not possible: every word of a reply is
    one of the candidates that continue what is typed, and no placeholder, but
    for the blanks that keep bash from completing. *)
Theorem candidates_sound ctx appendSpace compsin prnt s t s' :
  doComplete (C := C) range ctx appendSpace compsin prnt s = Some (inl t, s') ->
  exists help text words, t = getCompReply help text words /\
    Forall (fun w => candidate_word ctx compsin w \/ filler w) words /\
    (text = "" -> s' = s \/ words = [quoted ""; quoted " "]).
Proof.
  unfold doComplete. intros H. apply bind_Some in H as ([cur|n] & s1 & Ec & H); [|done].
  assert (Hs1 : s1 = s).
  { destruct (_ && _); [|by injection Ec]. unfold arg in Ec. destruct (_ <? 0); [done|].
    destruct (Args ctx !! _); [|done]. by injection Ec. }
  subst s1.
  set (comps := prefixFilterMap compsin (prefix ctx)) in *.
  set (l := List.filter (fun k => negb (placeholder k)) (map fst (range _ comps))) in *.
  assert (Hl : Forall (candidate ctx compsin) l).
  { apply Forall_forall. intros k Hk. apply list_elem_of_In, filter_In in Hk as [Hk Hp].
    apply in_map_iff in Hk as ([k' x] & <- & Hk). apply list_elem_of_In in Hk.
    rewrite range_perm, elem_of_map_to_list in Hk. apply map_lookup_filter_Some in Hk as [Hk Hpre].
    cbn [fst] in *. unfold candidate. split_and!; [eauto|exact Hpre|].
    by destruct (placeholder k'). }
  assert (Hw : Forall (fun w => candidate_word ctx compsin w \/ filler w)
    (append_space appendSpace (hack_ambiguous ctx cur l))).
  { destruct (hack_ambiguous_cases ctx cur l) as [Hh|[H2 Hf]]; [rewrite Hh|].
    - unfold append_space. destruct Hl as [|k l' Hk Hl']; [constructor|].
      assert (Hall : Forall (fun w => candidate_word ctx compsin w \/ filler w) (k :: l')).
      { constructor; [left; exists k; auto|]. eapply Forall_impl; [exact Hl'|].
        intros w Hw. left. exists w. auto. }
      destruct l'; [|exact Hall]. destruct appendSpace; [|exact Hall].
      constructor; [left; exists k; auto|constructor].
    - unfold append_space. destruct (hack_ambiguous ctx cur l) as [|x [|y l']]; [constructor|cbn in H2; lia|].
      eapply Forall_impl; [exact Hf|]. intros w [Hw|Hw]; [left|by right].
      exists w. split; [|by left]. rewrite Forall_forall in Hl. by apply Hl. }
  destruct (single_candidate _ _ _); [|destruct (_ || _)].
  - injection H as <- <-. eexists _, _, _. split; [reflexivity|]. split; [exact Hw|]. by left.
  - apply bind_Some in H as ([text|n] & s2 & E2 & H); [|done]. injection H as <- <-.
    eexists _, _, _. split; [reflexivity|]. split; [|by right].
    repeat (apply Forall_cons; split; [right; unfold filler; auto 6|]). constructor.
  - injection H as <- <-. eexists _, _, _. split; [reflexivity|]. split; [exact Hw|]. by left.
Qed.
End Candidates.

(** ** A concrete completion *)

Module SampleComplete.
(** "roll" is typed, with no other word before it. *)
Definition ctx : Ctx := MkCtx ["roll"] [] 0 "roll" "roll" false false false false true false.
Definition start : cli unit := Cli tt [].
Definition help (m : gmap string string) : P unit string := pret (printHelp (@SampleCli.sorted) id m).

Example help_columns :
  printHelp (@SampleCli.sorted) id {["up" := "Up"; "validate" := "Check"]} =
  nl +:+ "Possible Completions:" +:+ nl +:+ "  up       Up" +:+ nl +:+ "  validate Check".
Proof. vm_compute. reflexivity. Qed.

Lemma candidates_sound_witness : exists help_ text words,
  "COMPREPLY=( rollback  )" = getCompReply help_ text words /\
  Forall (fun w => candidate_word ctx SampleCli.commands w \/ filler w) words.
Proof.
  assert (Hr : doComplete (C := unit) (@SampleCli.sorted) ctx true SampleCli.commands help start
    = Some (inl "COMPREPLY=( rollback  )", start)) by (vm_compute; reflexivity).
  destruct (candidates_sound (C := unit) (@SampleCli.sorted) (fun A m => Permutation_refl _) ctx true
    SampleCli.commands help start "COMPREPLY=( rollback  )" start Hr) as (h & t & ws & H1 & H2 & _).
  exists h, t, ws. split; [exact H1|exact H2].
Defined.
End SampleComplete.
