(* ===== verification/CliRun.v ===== *)
(** [cmd/cfgcli/runfns.go] and [main.go]: what the commands do once their
    arguments are validated, and the two ways a command line is handled: [run]
    and [complete]. *)

From S2P Require Import Prelude GoLib Errors Rpc GoFmt External Configd Sample CliFormat Server.
From S2P Require Import Cli CliComplete.

Open Scope Z_scope.

(** ** Standard library *)

(** [regexp.MatchString(`^\w+://.+`, uri)]. *)
Definition word_char (c : ascii) : bool :=
  let n := nat_of_ascii c in
  ((48 <=? n) && (n <=? 57) || (65 <=? n) && (n <=? 90) || (97 <=? n) && (n <=? 122) || (n =? 95))%nat.
Fixpoint skip_word (s : string) : string :=
  match s with String c s' => if word_char c then skip_word s' else s | EmptyString => "" end.
Definition is_url (uri : string) : bool :=
  match uri with
  | String c _ =>
      word_char c && HasPrefix (skip_word uri) "://"
      && match str_drop 3 (skip_word uri) with
         | String x _ => negb (Ascii.eqb x "010"%char)
         | EmptyString => false
         end
  | EmptyString => false
  end.

(** A string as [encoding/json] writes it, on ASCII. *)
Definition hex_digit (n : nat) : ascii := ascii_of_nat (if (n <? 10)%nat then 48 + n else 87 + n).
Definition json_byte (c : ascii) : string :=
  let n := nat_of_ascii c in
  if Ascii.eqb c "034"%char then String "\"%char (String c "")
  else if Ascii.eqb c "\"%char then "\\"
  else if (n =? 10)%nat then "\n" else if (n =? 13)%nat then "\r" else if (n =? 9)%nat then "\t"
  else if (n <? 32)%nat || elem_b c ["<"%char; ">"%char; "&"%char]
  then "\u00" +:+ String (hex_digit (n / 16)) (String (hex_digit (n mod 16)) "")
  else String c "".
Fixpoint json_bytes (s : string) : string :=
  match s with EmptyString => "" | String c s' => json_byte c +:+ json_bytes s' end.
Definition json_string (s : string) : string := quoted (json_bytes s).

(** [FlagSet.Parse] with the one flag -all: the rest of the arguments, the
    flag, and what is printed about a mistake. *)
Definition flag_usage : string := "Usage of show:" +:+ nl +:+ "  -all" +:+ nl +:+ "    " +:+ tab +:+ "Show defaults" +:+ nl.
Definition ParseBool (s : string) : option bool :=
  if elem_b s ["1"; "t"; "T"; "TRUE"; "true"; "True"] then Some true
  else if elem_b s ["0"; "f"; "F"; "FALSE"; "false"; "False"] then Some false
  else None.
Fixpoint split_eq (s : string) : string * option string :=
  match s with
  | EmptyString => ("", None)
  | String c s' =>
      if Ascii.eqb c "="%char then ("", Some s')
      else let '(n, v) := split_eq s' in (String c n, v)
  end.
Fixpoint parse_flags (args : list string) (all : bool) : list string * bool * string :=
  match args with
  | [] => ([], all, "")
  | s :: args' =>
      if negb (HasPrefix s "-") || (String.length s <? 2)%nat then (args, all, "")
      else if bool_decide (s = "--") then (args', all, "")
      else
        let name := str_drop (if HasPrefix s "--" then 2 else 1) s in
        if HasPrefix name "-" || HasPrefix name "=" then
          (args, all, "bad flag syntax: " +:+ s +:+ nl +:+ flag_usage)
        else
          let '(name, value) := split_eq name in
          if bool_decide (name = "all") then
            match value with
            | None => parse_flags args' true
            | Some v =>
                match ParseBool v with
                | Some b => parse_flags args' b
                | None =>
                    (args', false, "invalid boolean value " +:+ Quote v +:+ " for -all: parse error" +:+ nl
                                   +:+ flag_usage)
                end
            end
          else if elem_b name ["help"; "h"] then (args', all, flag_usage)
          else (args', all, "flag provided but not defined: -" +:+ name +:+ nl +:+ flag_usage)
  end.

(** ** Constants *)

Definition editenv : string := "VYATTA_EDIT_LEVEL".
Definition configDir : string := "/config".
Definition configBootPath : string := configDir +:+ "/config.boot".

Section Run.
Context {L : ConfigLib} {E : ErrorLib} {C : Type} `{CM : !CfgManager C}.
Context (range : forall {A : Type}, gmap string A -> list (string * A)).
Arguments range {A}.
Context (natsort : list string -> list string).
(** The environment: the edit level, COMMIT_DEBUG. *)
Context (edit_level commit_debug : string).
(** bash, run on a snippet with additions to its environment: its output. *)
Context (bash : string -> list (string * string) -> string * option error).

Abbreviation P := (P C).
Abbreviation expandPathString := (expandPathString (C := C)).
Abbreviation ExpandPath := (ExpandPath (C := C)).
Abbreviation exit0 := (pexit 0).

(** ** Output, errors, bash *)

Definition printOutput (out : string) : P unit :=
  put_out (OOut (nl +:+ nl +:+ "  " +:+ replace_byte "010"%char ("  " +:+ nl) out +:+ nl)).

Definition handleNoError (msg : string) : P unit :=
  put_out (OErr (nl +:+ "  " +:+ replace_byte "010"%char (nl +:+ "  ") msg +:+ nl +:+ nl)).

Definition handleErrorNoIndent (operation : string) (err : option error) : P unit :=
  match err with
  | None => pret tt
  | Some err =>
      let text := match err with
                  | EMgmtList es =>
                      CustomError es FormatCommitOrValErrors +:+ nl +:+ nl +:+ operation +:+ " failed!" +:+ nl
                  | _ => Error err
                  end in
      put_out (OErr (nl +:+ text +:+ nl +:+ nl)) ;-- pexit 1
  end.

Definition logRollbackEvent (msg : string) : P unit :=
  match filter (fun s => s <> "") (Split msg "010"%char) with
  | [] => pret tt
  | s :: _ => put_out (OLog ("Rollback: " +:+ s))
  end.

Definition sessionChanged : P bool :=
  r <-- call CSessionChanged ;; handleError (snd r) ;-- pret (fst r).

Definition doSnippitAndContinue (ctx : Ctx) (snippit : string) (env : list (string * string)) : P unit :=
  if Print ctx then
    put_out (OOut (String.concat "" (map (fun e => fst e +:+ "=" +:+ quoted (snd e) +:+ " ") env) +:+ snippit))
  else
    put_out (OShell snippit (map (fun e => fst e +:+ "=" +:+ snd e) env)) ;--
    match bash snippit env with
    | (_, Some err) => handleError (Some err)
    | (bashOut, None) => if bool_decide (bashOut <> "") then printOutput bashOut else pret tt
    end.
Definition doSnippit {A} (ctx : Ctx) (snippit : string) (env : list (string * string)) : P A :=
  doSnippitAndContinue ctx snippit env ;-- exit0.

(** [echo "%s"] of a text, as it is. *)
Definition echo_raw (text : string) : string := "echo " +:+ quoted text +:+ nl.
(** ... and of a text for bash to print. *)
Definition echo_escaped (text : string) : string := "echo -n " +:+ quoted (escapeConfig text) +:+ " | " +:+ pager.

Definition isCommitDebugOn : bool := bool_decide (commit_debug <> "").

(** The word after a keyword, which must be there if the keyword is. *)
Definition argument_after (ctx : Ctx) (keywordPos : Z) (missing : string) : P string :=
  if nargs ctx =? keywordPos + 1 then handleError (Some (EGo missing)) ;-- pret ""
  else if keywordPos + 1 <? nargs ctx then arg ctx (keywordPos + 1)
  else pret "".
Definition validateConfirmPersistIdIfAny (ctx : Ctx) (p : Z) : P string :=
  argument_after ctx p "Please provide persisit-id.".
Definition validateCommitCommentIfAny (ctx : Ctx) (p : Z) : P string :=
  argument_after ctx p "Please provide comment.".

(** ** Loading and saving *)

(** [<uri>] or [routing-instance <name> <uri>]; a local path below /config. *)
Definition parseCfgMgmtCmdArgs (args : list string) (usage : string) : P (string * string) :=
  r <-- match args with
        | [a; name; u] =>
            if bool_decide (a = routingInstanceArg) then pret (u, name)
            else handleError (Some (EGo ("Invalid arguments: " +:+ Join args " " +:+ nl +:+ "Usage: " +:+ usage)))
                 ;-- pret ("", "")
        | [u] => pret (u, "")
        | _ => handleError (Some (EGo ("Invalid arguments: " +:+ Join args " " +:+ nl +:+ "Usage: " +:+ usage)))
               ;-- pret ("", "")
        end ;;
  let '(uri, routingInstance) := r in
  pret (if is_url uri || HasPrefix uri "/" then uri else configDir +:+ "/" +:+ uri, routingInstance).

Definition saveRunInternal (ctx : Ctx) (args : list string) : P unit :=
  changed <-- sessionChanged ;;
  let warning :=
    if (changed : bool)
    then "echo " +:+ quoted "Warning: you have uncommitted changes that will not be saved." +:+ nl else "" in
  saved <-- match args with
            | [] => r <-- call (CSave configBootPath) ;; handleError r ;-- pret ""
            | _ =>
                d <-- parseCfgMgmtCmdArgs args "save [routing-instance <name>] <destination>" ;;
                let '(dest, routingInstance) := d in
                r <-- call (CSaveTo dest routingInstance) ;;
                handleError r ;--
                pret ("echo " +:+ quoted ("Configuration saved to '" +:+ dest +:+ "'") +:+ nl)
            end ;;
  r <-- call CSessionMarkSaved ;;
  handleError r ;--
  doSnippitAndContinue ctx (warning +:+ saved) [].

Definition saveRun (ctx : Ctx) : P unit :=
  match Args ctx with
  | [_] =>
      handleNoError "'commit' saves configuration.  This command has no effect" ;-- exit0
  | _ => saveRunInternal ctx (tail (Args ctx)) ;-- exit0
  end.

Definition loadRun (ctx : Ctx) : P unit :=
  changed <-- sessionChanged ;;
  (if (changed : bool)
   then handleError (Some (EGo ("Cannot load: configuration modified." +:+ nl +:+
          "Commit or discard the changes before loading a config file.")))
   else pret tt) ;--
  d <-- (if nargs ctx <? 2 then pret (configBootPath, "")
         else parseCfgMgmtCmdArgs (tail (Args ctx)) "load [routing-instance <name>] <source>") ;;
  let '(source, routingInstance) := d in
  err <-- call (CLoadFrom source routingInstance) ;;
  sessionHasChanged <-- sessionChanged ;;
  let buf :=
    match err with Some e => trim_right (fun c => Ascii.eqb c "010"%char) (Error e) +:+ nl +:+ nl | None => "" end
    +:+ (if bool_decide (err = None) || sessionHasChanged
         then "Configuration loaded from '" +:+ source +:+ "'" else "")
    +:+ (if (sessionHasChanged : bool)
         then " will replace the existing configuration" +:+ nl
              +:+ "Use 'compare' to view the changes, or 'commit' to make them active"
         else nl +:+ "No configuration changes to commit") in
  match err with
  | Some _ => handleError (Some (EGo buf))
  | None => doSnippit ctx ("echo -e " +:+ quoted buf) []
  end.

Definition loadkeyRun (ctx : Ctx) : P unit :=
  let usage := "loadkey <user> [routing-instance <name>] <source>" in
  if nargs ctx <? 3 then handleError (Some (EGo ("Invalid command, usage is:" +:+ nl +:+ "  " +:+ usage)))
  else
    changed <-- sessionChanged ;;
    (if (changed : bool)
     then handleError (Some (EGo ("Cannot load key: configuration modified." +:+ nl +:+
            "Commit or discard the changes before loading a key.")))
     else pret tt) ;--
    user <-- arg ctx 1 ;;
    d <-- parseCfgMgmtCmdArgs (drop 2 (Args ctx)) usage ;;
    r <-- call (CLoadKeys user (fst d) (snd d)) ;;
    handleError (snd r) ;--
    if bool_decide (fst r <> "") then doSnippit ctx ("echo " +:+ quoted (fst r)) [] else exit0.

Definition mergeRun (ctx : Ctx) : P unit :=
  r <-- call (CMergeReportWarnings (Join (tail (Args ctx)) " ")) ;;
  let '(ok, errOrWarn) := r in
  if negb ok then handleError errOrWarn
  else
    match errOrWarn with Some e => handleNoError (Error e) | None => pret tt end ;-- exit0.

(** ** Commits *)

Definition confirmRun (ctx : Ctx) : P unit :=
  persistid <-- validateConfirmPersistIdIfAny ctx 1 ;;
  r <-- (if bool_decide (persistid = "") then call CConfirm else call (CConfirmPersistId persistid)) ;;
  let '(out, err) := r in
  handleErrorNoIndent "Confirm" err ;--
  logRollbackEvent "Commit confirmed." ;--
  if bool_decide (out <> "") then doSnippit ctx (echo_raw out) [] else pret tt.

Definition confirmSilentRun : P unit :=
  call CConfirmSilent ;--
  logRollbackEvent "Commit/Rollback operation - any pending rollback cancelled.".

(** A timeout of 0 is a commit without one. *)
Definition commitRunInternal (ctx : Ctx) (comment : string) (confirmTimeout : Z) : P unit :=
  changed <-- sessionChanged ;;
  (if negb changed then handleError (Some (EGo "No configuration changes to commit")) else pret tt) ;--
  out <-- (if negb (confirmTimeout =? 0) then
             r <-- call (CCommitConfirm comment isCommitDebugOn confirmTimeout) ;;
             handleErrorNoIndent "Commit" (snd r) ;--
             logRollbackEvent ("Commit will rollback in " +:+ Itoa confirmTimeout
                               +:+ " minutes unless confirmed.") ;--
             pret (fst r)
           else
             r <-- call (CCommit comment isCommitDebugOn) ;;
             handleErrorNoIndent "Commit" (snd r) ;-- pret (fst r)) ;;
  (if bool_decide (out <> "") then doSnippitAndContinue ctx (echo_raw out) [] else pret tt) ;--
  saveRunInternal ctx [].

Definition commitConfRun (ctx : Ctx) : P unit :=
  comment <-- validateCommitCommentIfAny ctx 2 ;;
  t <-- arg ctx 1 ;;
  commitRunInternal ctx comment (default 0 (Atoi t)).

Definition commitRun (ctx : Ctx) : P unit :=
  comment <-- validateCommitCommentIfAny ctx 1 ;;
  confirmSilentRun ;--
  commitRunInternal ctx comment 0 ;-- exit0.

Definition getCmdArg (cmds : cmdDefs) (arg : string) : bool * string :=
  match cmds !! arg with Some def => (present def, argval def) | None => (false, "") end.

(** The output comes before the error, and ends the process. *)
Definition output_then_error (ctx : Ctx) (r : string * option error) : P unit :=
  let '(out, err) := r in
  (if bool_decide (out <> "") then doSnippit ctx (echo_raw out) [] else pret tt) ;--
  handleError err ;-- exit0.

Definition cancelcommitRun (ctx : Ctx) : P unit :=
  r <-- of_option (processCancelCommitCmd (@range) ctx) ;;
  let cmds := fst r in
  out <-- call (CCancelCommit (snd (getCmdArg cmds "comment")) (snd (getCmdArg cmds "persist-id"))
                  (fst (getCmdArg cmds "force")) isCommitDebugOn) ;;
  output_then_error ctx out.

(** Only the whole word comment is looked at. *)
Definition rollbackRun (ctx : Ctx) : P unit :=
  (if nargs ctx <=? 1
   then handleError (Some (EGo ("Missing argument, usage is:" +:+ nl +:+ "  rollback <revision> [comment <text>]")))
   else pret tt) ;--
  comment <-- (if 4 <=? nargs ctx then
                 k <-- arg ctx 2 ;;
                 if bool_decide (k = "comment") then arg ctx 3 else pret ""
               else pret "") ;;
  revision <-- arg ctx 1 ;;
  out <-- call (CRollback revision comment isCommitDebugOn) ;;
  output_then_error ctx out.

Definition compareRun (ctx : Ctx) : P unit :=
  r <-- match Args ctx with
        | [_] => r <-- call CCompareSessionChanges ;; pret (r, "")
        | _ :: a1 :: a2 :: _ =>
            r <-- call (CCompareConfigRevisions a1 a2) ;;
            pret (r, if bool_decide (fst r = "")
                     then "No changes between revision " +:+ a1 +:+ " and revision " +:+ a2 +:+ " configurations"
                     else "")
        | [_; a1] =>
            r <-- call (CCompareConfigRevisions "session" a1) ;;
            pret (r, if bool_decide (fst r = "") && negb (bool_decide (a1 = "saved"))
                     then "No changes between working and revision " +:+ a1 +:+ " configurations"
                     else "")
        | [] => go_panic
        end ;;
  let '((diff, err), msg) := r in
  handleError err ;--
  (if bool_decide (diff <> "") then doSnippit ctx (echo_escaped diff) []
   else if bool_decide (msg <> "") then doSnippit ctx (echo_raw msg) []
   else exit0).

Definition validateRun (ctx : Ctx) : P unit :=
  changed <-- sessionChanged ;;
  (if negb changed then handleError (Some (EGo "No configuration changes to validate")) else pret tt) ;--
  r <-- call CValidate ;;
  handleErrorNoIndent "Validate" (snd r) ;--
  if bool_decide (fst r <> "") then doSnippit ctx (echo_raw (fst r)) [] else exit0.

Definition discardRun (ctx : Ctx) : P unit :=
  r <-- call CDiscard ;; handleError r ;-- exit0.

(** ** Paths *)

Definition words (ctx : Ctx) : list string := tail (Args ctx).

Definition need_path (ctx : Ctx) (cmd : string) : P unit :=
  match words ctx with
  | [] => handleError (Some (EGo ("Must specify a path to " +:+ cmd)))
  | _ => pret tt
  end.
Definition expanded (ctx : Ctx) : P string := expandPathString (editPath edit_level (words ctx)) (fun e => handleError (Some e)).

Definition deleteRun (ctx : Ctx) : P unit :=
  need_path ctx "delete" ;--
  path <-- expanded ctx ;;
  r <-- call (CDelete path) ;; handleError r ;-- exit0.

Definition doEditSnippit {A} (ctx : Ctx) (path : list string) : P A :=
  let pathstr := match path with [] => "/" | _ => Pathstr path end in
  let prompt := "edit" +:+ String.concat "" (map (fun e => " " +:+ e) path) in
  doSnippit ctx ("export " +:+ editenv +:+ "='" +:+ pathstr +:+ "'; export PS1='[" +:+ prompt
                 +:+ "]\n\u@\h# ';") [].

Definition tmpl_is (tmpl : gmap string string) (k v : string) : bool := bool_decide (default "" (tmpl !! k) = v).
Definition isListKey (tmpl : gmap string string) : bool := tmpl_is tmpl "is_value" "1" && tmpl_is tmpl "tag" "1".
Definition isValue (tmpl : gmap string string) : bool := tmpl_is tmpl "is_value" "1".

Definition editRun (ctx : Ctx) : P unit :=
  path <-- ExpandPath (editPath edit_level (words ctx)) ;;
  t <-- call (CTmplGet (Pathstr path)) ;;
  handleError (snd t) ;--
  (if negb (isListKey (fst t)) && negb (tmpl_is (fst t) "type" "")
   then handleError (Some (EGo ("The " +:+ quoted "edit" +:+ " command cannot be issued at the specified level")))
   else pret tt) ;--
  ok <-- call (CExists CANDIDATE (Pathstr path)) ;;
  handleError (snd ok) ;--
  (if negb (fst ok) then call (CSet (Pathstr path)) ;-- pret tt else pret tt) ;--
  doEditSnippit ctx path.

Definition isSecret (path : string) : P bool :=
  t <-- call (CTmplGet path) ;; handleError (snd t) ;-- pret (tmpl_is (fst t) "secret" "1").

Definition setRun (ctx : Ctx) : P unit :=
  need_path ctx "set" ;--
  path <-- expanded ctx ;;
  t <-- call (CTmplGet path) ;;
  handleError (snd t) ;--
  secret <-- (if negb (isValue (fst t)) then isSecret path else pret false) ;;
  (if (secret : bool) then doSnippit ctx ("cfgcli -action setSecret " +:+ path) [] else pret tt) ;--
  r <-- call (CSet path) ;;
  handleError (snd r) ;--
  if bool_decide (fst r <> "") then doSnippit ctx (echo_raw (fst r)) [] else exit0.

Definition showRun (ctx : Ctx) : P unit :=
  err <-- checkValidPath edit_level ctx ;;
  handleError err ;--
  path <-- expandPathString (editPath edit_level (words ctx)) printError ;;
  r <-- call (CShowConfigWithContextDiffs path (All ctx)) ;;
  handleError (snd r) ;--
  if bool_decide (fst r <> "") then doSnippit ctx (echo_escaped (fst r)) [] else pret tt.

Definition topRun (ctx : Ctx) : P unit :=
  (if bool_decide (edit_level = "/") then handleError (Some (EGo "Already at the top level")) else pret tt) ;--
  doEditSnippit ctx [].

Definition upRun (ctx : Ctx) : P unit :=
  (if bool_decide (edit_level = "/") then handleError (Some (EGo "Already at the top level")) else pret tt) ;--
  let path := Makepath edit_level in
  t <-- call (CTmplGet (Pathstr path)) ;;
  handleError (snd t) ;--
  let popnum := if isListKey (fst t) then 2%nat else 1%nat in
  if (length path <? popnum)%nat then go_panic
  else doEditSnippit ctx (take (length path - popnum) path).

(** ** The rest *)

Definition bool_text (b : bool) : string := if b then "true" else "false".

Definition exit_snippet (changed undiscarded : bool) : string :=
  let t2 := tab +:+ tab in let t3 := t2 +:+ tab in let t4 := t3 +:+ tab in
  nl +:+ t2 +:+ "if ! cli-shell-api editLevelAtRoot; then" +:+ nl
  +:+ t3 +:+ "reset_edit_level" +:+ nl
  +:+ t3 +:+ "return 0" +:+ nl
  +:+ t2 +:+ "fi" +:+ nl
  +:+ t2 +:+ "if " +:+ bool_text changed +:+ "; then" +:+ nl
  +:+ t3 +:+ "if " +:+ bool_text undiscarded +:+ "; then" +:+ nl
  +:+ t4 +:+ "echo " +:+ quoted "Cannot exit: configuration modified." +:+ nl
  +:+ "       " +:+ tab +:+ tab +:+ tab +:+ "echo " +:+ quoted "Use 'exit discard' to discard the changes and exit." +:+ nl
  +:+ t4 +:+ "return 1" +:+ nl
  +:+ t3 +:+ "fi" +:+ nl
  +:+ t2 +:+ "fi" +:+ nl
  +:+ t2 +:+ "builtin exit" +:+ nl
  +:+ tab.

Definition exitRun (ctx : Ctx) : P unit :=
  discard <-- match words ctx with
              | a :: _ => if abbreviates a "discard" then sessionChanged else pret false
              | [] => pret false
              end ;;
  changed <-- sessionChanged ;;
  doSnippit ctx (exit_snippet changed (negb discard)) [].

Definition encodeOpcArgs (ctx : Ctx) (args : list string) : string :=
  let out := "{" +:+ quoted "args" +:+ ":[" +:+ Join (map json_string args) "," +:+ "]}" in
  if Print ctx then replace_byte "034"%char (String "\"%char dquote) out else out.

Definition runRun (ctx : Ctx) : P unit :=
  match words ctx with
  | [] => handleError (Some (EGo "Incomplete command: run"))
  | a :: _ =>
      let args := words ctx in
      let opc := ("OPC_ARGS", encodeOpcArgs ctx args) in
      if HasPrefix a "/" then doSnippit ctx (Join args " ") []
      else if abbreviates a "set" then doSnippit ctx ("_vyatta_op_run " +:+ quoted "${@:2}") []
      else if abbreviates a "show" then
        doSnippit ctx ("/opt/vyatta/bin/opc -op run-from-env | " +:+ pager) [opc]
      else doSnippit ctx "/opt/vyatta/bin/opc -op run-from-env" [opc]
  end.

(** [RunFn] of each command. *)
Definition RunFn (name : string) : Ctx -> P unit :=
  if bool_decide (name = "commit") then commitRun
  else if bool_decide (name = "compare") then compareRun
  else if bool_decide (name = "delete") then deleteRun
  else if bool_decide (name = "discard") then discardRun
  else if bool_decide (name = "edit") then editRun
  else if bool_decide (name = "exit") then exitRun
  else if bool_decide (name = "load") then loadRun
  else if bool_decide (name = "merge") then mergeRun
  else if bool_decide (name = "save") then saveRun
  else if bool_decide (name = "set") then setRun
  else if bool_decide (name = "show") then showRun
  else if bool_decide (name = "top") then topRun
  else if bool_decide (name = "up") then upRun
  else if bool_decide (name = "validate") then validateRun
  else if bool_decide (name = "confirm") then confirmRun
  else if bool_decide (name = "cancel-commit") then cancelcommitRun
  else if bool_decide (name = "rollback") then rollbackRun
  else if bool_decide (name = "commit-confirm") then commitConfRun
  else if bool_decide (name = "loadkey") then loadkeyRun
  else runRun.

(** ** main *)

(** [checkLoadKey], [checkConfigMgmt], [checkRoutingInstance]: each asks. *)
Definition has_feature (name : string) : P bool :=
  r <-- call CGetConfigSystemFeatures ;;
  pret match snd r with Some _ => false | None => bool_decide (name ∈ fst r) end.

(** The words that are left are moved to the front of the array. *)
Definition parseShowAll (ctx : Ctx) : P Ctx :=
  match Args ctx with
  | [] => go_panic
  | cmd :: ws =>
      let '(rest, all, complaint) := parse_flags ws false in
      let stale := drop (length rest) (ws ++ Spare ctx) in
      (if bool_decide (complaint <> "") then put_out (OErr complaint) else pret tt) ;--
      pret (with_All all (with_Args (cmd :: rest) stale ctx))
  end.

Definition set_name (name : string) (ctx : Ctx) : Ctx := with_Args (name :: tail (Args ctx)) (Spare ctx) ctx.

(** The context of a command line, with the features the daemon has. *)
Definition make_ctx (args : list string) (cidx : Z) (cword pfx : string) (dohelp printcmd : bool) : P Ctx :=
  hasLoadKey <-- has_feature "loadkeys" ;;
  hasConfigMgmt <-- has_feature "config-mgmt" ;;
  hasRoutingInstance <-- has_feature "routing-instance" ;;
  pret (MkCtx args [] cidx cword pfx dohelp printcmd false hasLoadKey hasConfigMgmt hasRoutingInstance).

(** The validation of a command, if it has one. *)
Definition valid (name : string) (ctx : Ctx) : P (option error) :=
  match ValidFn (@range) edit_level name with
  | Some f => f ctx
  | None => pret None
  end.

Definition run (Commands : gmap string string) (args : list string) (printcmd : bool) : P (option error) :=
  match args with
  | [] => handleError (Some (EGo "Must supply command to run")) ;-- pret None
  | a :: _ =>
      ctx <-- make_ctx args 0 "" "__noncomp__" false printcmd ;;
      match GetCommand (@range) Commands a with
      | inr err => pret (Some err)
      | inl name =>
          let ctx := set_name name ctx in
          ctx <-- (if bool_decide (name = "show") then parseShowAll ctx else pret ctx) ;;
          err <-- valid name ctx ;;
          match err with
          | Some err => pret (Some err)
          | None => RunFn name ctx ;-- pret None
          end
      end
  end.
Definition run_handler (Commands : gmap string string) (args : list string) (printcmd : bool) : P unit :=
  err <-- run Commands args printcmd ;; handleError err.

Definition complete (Commands : gmap string string) (args : list string) (cidx : Z) (cword pfx : string)
    (dohelp printcmd : bool) : P (string + error) :=
  ctx <-- make_ctx args cidx cword pfx dohelp printcmd ;;
  match args with
  | [] => t <-- firstWordComp (@range) natsort Commands ctx ;; pret (inl t)
  | a :: _ =>
      if cidx =? 0 then t <-- firstWordComp (@range) natsort Commands ctx ;; pret (inl t)
      else
        match GetCommand (@range) Commands a with
        | inr err => pret (inr err)
        | inl name =>
            let ctx := set_name name ctx in
            ctx <-- (if bool_decide (name = "show") then
                       c <-- parseShowAll ctx ;;
                       pret (if All c && (1 <? CompCurIdx c) then with_CompCurIdx (CompCurIdx c - 1) c else c)
                     else pret ctx) ;;
            err <-- valid name ctx ;;
            match err with
            | Some err => pret (inr err)
            | None => t <-- CompFn (@range) natsort edit_level name ctx ;; pret (inl t)
            end
        end
  end.
Definition complete_handler (Commands : gmap string string) (args : list string) (cidx : Z)
    (cword pfx : string) (dohelp printcmd : bool) : P unit :=
  r <-- complete Commands args cidx cword pfx dohelp printcmd ;;
  match r with
  | inr err => handleCompError (Some err) printError
  | inl completionText => put_out (OOut completionText)
  end.

Definition expand (path : list string) : P unit :=
  r <-- call (CExpand (Pathstr path)) ;;
  handleError (snd r) ;--
  put_out (OOut (Join (Makepath (fst r)) " " +:+ nl)) ;-- exit0.

(** [setSecret]: the pairs typed until two agree; then the input is at its end. *)
Fixpoint ask_secret (typed : list ((string + error) * (string + error))) : P string :=
  match typed with
  | [] => handleError (Some (EGo "EOF")) ;-- pret ""
  | (inr err, _) :: _ => handleError (Some err) ;-- pret ""
  | (inl _, inr err) :: _ => handleError (Some err) ;-- pret ""
  | (inl p, inl p2) :: typed' =>
      if bool_decide (p = p2) then pret p
      else put_out (OErr ("Secrets do not match" +:+ nl)) ;-- ask_secret typed'
  end.
Definition setSecret (args : list string) (typed : list ((string + error) * (string + error))) : P unit :=
  match args with
  | [] => handleError (Some (EGo "Must supply path to set"))
  | pathstr :: _ =>
      secret <-- isSecret pathstr ;;
      (if negb secret then handleError (Some (EGo "Path doesn't require a secret")) else pret tt) ;--
      passwd <-- ask_secret typed ;;
      r <-- call (CSet (Pathstr (Makepath pathstr ++ [passwd]))) ;;
      handleError (snd r) ;--
      if bool_decide (fst r <> "") then printOutput (fst r) else pret tt
  end.

(** [initShell]: the abbreviations of the commands, as bash is told of them. *)
Fixpoint proper_prefixes (s : string) : list string :=
  match s with
  | EmptyString => []
  | String c s' => "" :: map (String c) (proper_prefixes s')
  end.
Definition reserved_words : list string := [""; "for"; "do"; "done"; "if"; "fi"; "case"; "while"; "tr"].
Definition shell_words (Commands : gmap string string) : gmap string bool :=
  list_to_map (map (fun k => (k, true))
    (flat_map (fun cmd => cmd :: List.filter (fun p => negb (elem_b p reserved_words)) (proper_prefixes cmd))
       (map fst (range Commands)))).
Definition initShell (Commands : gmap string string) : P unit :=
  put_out (OOut (
    "complete -E -F vyatta_config_complete" +:+ nl
    +:+ "complete -I -F vyatta_config_default_complete" +:+ nl
    +:+ String.concat "" (map (fun kv =>
          let k := fst kv in
          "complete -F " +:+ (if abbreviates k "run" then "vyatta_run_complete" else "vyatta_config_complete")
          +:+ " " +:+ k +:+ nl
          +:+ "alias " +:+ k +:+ "='vyatta_cfg_run " +:+ k +:+ "'" +:+ nl) (range (shell_words Commands)))
    +:+ "shopt -s histverify" +:+ nl)).
End Run.

(** ** Lemmas *)

Create HintDb cli discriminated.

Section Safe.
Context {C : Type} `{CM : !CfgManager C}.

(** No panic, from any state. *)
Definition safe {A} (m : P C A) : Prop := forall s, m s <> None.

(** What ends the process whatever happens. *)
Definition exits {A} (m : P C A) (code : Z) : Prop := forall s, exists s', m s = Some (inr code, s').

Lemma safe_pret {A} (a : A) : safe (pret a).
Proof. done. Qed.
Lemma safe_pexit {A} n : safe (pexit (A := A) n).
Proof. done. Qed.
Lemma safe_put e : safe (put_out e).
Proof. done. Qed.
Lemma safe_call c : safe (call c).
Proof. intros s. unfold call. by destruct (cm_call c (cl_daemon s)). Qed.

Lemma safe_pbind {A B} (m : P C A) (k : A -> P C B) :
  safe m -> (forall a, safe (k a)) -> safe (pbind m k).
Proof.
  intros Hm Hk s. unfold pbind, bind. specialize (Hm s).
  destruct (m s) as [[[a|n] s']|]; [apply Hk|done|done].
Qed.

(** A result that comes back satisfies [Q]. *)
Definition yields {A} (Q : A -> Prop) (m : P C A) : Prop :=
  forall s, match m s with None => False | Some (inl a, _) => Q a | Some (inr _, _) => True end.

Lemma safe_pbind_yields {A B} (Q : A -> Prop) (m : P C A) (k : A -> P C B) :
  yields Q m -> (forall a, Q a -> safe (k a)) -> safe (pbind m k).
Proof.
  intros Hm Hk s. unfold pbind, bind. specialize (Hm s).
  destruct (m s) as [[[a|n] s']|]; [by apply Hk|done|done].
Qed.

Lemma exits_pbind {A B} (m : P C A) (k : A -> P C B) n : exits m n -> exits (pbind m k) n.
Proof. intros Hm s. destruct (Hm s) as [s' E]. exists s'. unfold pbind, bind. by rewrite E. Qed.

Lemma exits_safe {A} (m : P C A) n : exits m n -> safe m.
Proof. intros Hm s. destruct (Hm s) as [s' E]. by rewrite E. Qed.

Lemma safe_of_option {A} (o : option A) : o <> None -> safe (of_option o).
Proof. by destruct o. Qed.

Lemma safe_arg ctx i : 0 <= i < nargs ctx -> safe (arg ctx i).
Proof.
  intros Hi. unfold arg. rewrite (proj2 (Z.ltb_ge i 0)) by lia. apply safe_of_option.
  intros H. apply lookup_ge_None in H. unfold nargs in Hi. lia.
Qed.

Lemma safe_args_to ctx n : 0 <= n <= nargs ctx -> safe (args_to ctx n).
Proof.
  intros Hn. unfold args_to, nargs in *. cbv zeta. rewrite length_app.
  rewrite (proj2 (Z.ltb_ge n 0)), (proj2 (Z.ltb_ge _ n)) by lia. done.
Qed.

Lemma safe_invalid_at ctx n i : 0 <= n <= nargs ctx -> 0 <= i < nargs ctx -> safe (invalid_at ctx n i).
Proof.
  intros Hn Hi. apply safe_pbind; [by apply safe_args_to|]. intros ws.
  apply safe_pbind; [by apply safe_arg|]. intros w. apply safe_pret.
Qed.

Context {L : ConfigLib} {E : ErrorLib}.

Lemma exits_handleError e : exits (handleError (Some e)) 1.
Proof. by eexists. Qed.

Lemma safe_handleError err : safe (handleError err).
Proof. by destruct err. Qed.
Lemma safe_printError e : safe (printError e).
Proof. done. Qed.
Lemma safe_handleErrorNoIndent op err : safe (handleErrorNoIndent op err).
Proof. by destruct err. Qed.
Lemma safe_handleNoError msg : safe (handleNoError msg).
Proof. done. Qed.
Lemma safe_printOutput msg : safe (printOutput msg).
Proof. done. Qed.
Lemma safe_log msg : safe (logRollbackEvent msg).
Proof. unfold logRollbackEvent. by destruct (filter _ _). Qed.

Lemma safe_handleCompError err h : (forall e, safe (h e)) -> safe (handleCompError err h).
Proof.
  intros Hh. destruct err as [e|]; [|done]. cbn [handleCompError].
  apply safe_pbind; [apply Hh|]. intros _. apply safe_pbind; done.
Qed.
End Safe.

#[export] Hint Resolve safe_pret safe_pexit safe_put safe_call safe_handleError safe_printError
  safe_handleErrorNoIndent safe_handleNoError safe_printOutput safe_log safe_handleCompError : cli.

(** One step into a command, for [safe] goals. *)
Ltac safe_step :=
  match goal with
  | |- forall _, _ => intros ?
  | |- safe (pbind (handleError (Some _)) _) => apply (exits_safe _ 1), exits_pbind, exits_handleError
  | |- safe (pbind (pbind (handleError (Some _)) _) _) =>
      apply (exits_safe _ 1), exits_pbind, exits_pbind, exits_handleError
  | |- safe (let '(_, _) := ?x in _) => destruct x
  | |- safe (let _ := _ in _) => cbv zeta
  | |- safe (pbind (if ?b then _ else _) _) => destruct b eqn:?
  | |- safe (pbind (match ?x with _ => _ end) _) => destruct x eqn:?
  | |- safe (if ?b then _ else _) => destruct b eqn:?
  | |- safe (match ?x with _ => _ end) => destruct x eqn:?
  | |- safe (pbind _ _) => apply safe_pbind; [|intros ?]
  | |- safe (call ?c) => exact (safe_call c)
  | |- safe _ => solve [eauto with cli]
  end.
Ltac safe_tac := repeat (cbv beta; safe_step).

Section Returns.
Context {L : ConfigLib} {E : ErrorLib} {C : Type} `{CM : !CfgManager C}.
Context (range : forall {A : Type}, gmap string A -> list (string * A)).
Context (natsort : list string -> list string).
Context (edit_level commit_debug : string).
Context (bash : string -> list (string * string) -> string * option error).

Lemma safe_snippet ctx t env : safe (C := C) (doSnippitAndContinue bash ctx t env).
Proof. unfold doSnippitAndContinue. safe_tac. Qed.
Lemma safe_doSnippit {A} ctx t env : safe (C := C) (A := A) (doSnippit bash ctx t env).
Proof. unfold doSnippit. safe_tac. apply safe_snippet. Qed.
Hint Resolve safe_snippet safe_doSnippit : cli.

Lemma safe_sessionChanged : safe (C := C) sessionChanged.
Proof. unfold sessionChanged. safe_tac. Qed.
Lemma safe_expandPathString path h : (forall e, safe (h e)) -> safe (C := C) (expandPathString path h).
Proof. intros Hh. unfold expandPathString. safe_tac. Qed.
Lemma safe_ExpandPath path : safe (C := C) (ExpandPath path).
Proof. unfold ExpandPath. safe_tac. apply safe_expandPathString. safe_tac. Qed.
Lemma safe_expanded ctx : safe (C := C) (expanded edit_level ctx).
Proof. apply safe_expandPathString. safe_tac. Qed.
Hint Resolve safe_sessionChanged safe_ExpandPath safe_expanded : cli.

Lemma safe_parseCfgMgmtCmdArgs args usage : safe (C := C) (parseCfgMgmtCmdArgs args usage).
Proof. unfold parseCfgMgmtCmdArgs. safe_tac. Qed.
Hint Resolve safe_parseCfgMgmtCmdArgs : cli.

Lemma safe_saveRunInternal ctx args : safe (C := C) (saveRunInternal bash ctx args).
Proof. unfold saveRunInternal. safe_tac. Qed.
Hint Resolve safe_saveRunInternal : cli.

Lemma safe_commitRunInternal ctx comment t : safe (C := C) (commitRunInternal commit_debug bash ctx comment t).
Proof. unfold commitRunInternal. safe_tac. Qed.
Hint Resolve safe_commitRunInternal : cli.

Lemma safe_argument_after ctx p m : 0 <= p -> safe (C := C) (argument_after ctx p m).
Proof.
  intros Hp. unfold argument_after. safe_tac. apply safe_arg. lia.
Qed.

(** ** Validation of a command that is run *)

(** A command line with the name of a command, and one that is run: no cursor. *)
Definition named (ctx : Ctx) : Prop := exists name ws, Args ctx = name :: ws /\ name <> "".
Definition runnable (ctx : Ctx) : Prop := CompCurIdx ctx = 0 /\ named ctx.

Lemma runnable_named ctx : runnable ctx -> named ctx.
Proof. by intros [_ ?]. Qed.
Hint Resolve runnable_named : cli core.

Lemma named_nargs ctx : named ctx -> 1 <= nargs ctx.
Proof. intros (name & ws & E1 & _). unfold nargs. rewrite E1. cbn. lia. Qed.

Lemma trimmed_args ctx : named ctx -> exists args,
  removeTrailingEmptyArgument (Args ctx) = Some args /\ args <> [] /\
  (args = Args ctx \/ Args ctx = args ++ [""]).
Proof.
  intros (name & ws & Ea & Hn). rewrite Ea. unfold removeTrailingEmptyArgument.
  destruct (last (name :: ws)) as [x|] eqn:El; [|by apply last_None in El].
  destruct x as [|c x]; [|by exists (name :: ws); split_and!; [..|left]].
  apply last_Some in El as [l El]. unfold init_opt. rewrite El, length_app. cbn [length].
  destruct l as [|y l]; [by injection El|].
  exists (y :: l). replace (length (y :: l) + 1 - 1)%nat with (length (y :: l)) by lia.
  rewrite take_app_length. cbn [app]. split_and!; [done..|by right].
Qed.

Lemma validateArgumentIfAny_some args p prefix keyword :
  validateArgumentIfAny args p prefix keyword <> None.
Proof.
  unfold validateArgumentIfAny.
  destruct (Nat.eqb_spec (length args) (p + 1)) as [Hn|Hn].
  - destruct (args !! p) eqn:Ep; [|apply lookup_ge_None in Ep; lia]. cbn. by destruct (_ && _).
  - destruct (Nat.ltb_spec (p + 1) (length args)) as [Hl|Hl]; cbn [andb].
    + destruct (args !! p) eqn:Ep; [|apply lookup_ge_None in Ep; lia]. cbn [default from_option id].
      destruct (negb _); [done|]. destruct (Nat.leb_spec (p + 3) (length args)) as [H3|H3]; [|done].
      destruct (args !! (p + 2)%nat) eqn:E2; [done|apply lookup_ge_None in E2; lia].
    + destruct (Nat.leb_spec (p + 3) (length args)); [lia|done].
Qed.

Lemma safe_trimmed ctx : named ctx -> safe (C := C) (trimmed ctx).
Proof. intros Hr. destruct (trimmed_args ctx Hr) as (args & E1 & _). unfold trimmed. by rewrite E1. Qed.

Lemma safe_keyword_argument args p prefix keyword :
  safe (C := C) (of_option (validateArgumentIfAny args p prefix keyword)).
Proof. apply safe_of_option, validateArgumentIfAny_some. Qed.

Lemma processCancelCommitCmd_some ctx : named ctx -> processCancelCommitCmd (@range) ctx <> None.
Proof.
  intros Hr. destruct (trimmed_args ctx Hr) as (args & E1 & Hne & _).
  unfold processCancelCommitCmd. rewrite E1. cbn. unfold validateKeywordsAndArguments. by destruct args.
Qed.

Lemma too_many_nargs ctx n : too_many ctx n = true -> n <= nargs ctx.
Proof.
  unfold too_many. intros [[_ H]%andb_prop|H]%orb_prop;
    [apply Z.eqb_eq in H|apply Z.ltb_lt in H]; lia.
Qed.

Lemma safe_too_many ctx n a i : 0 <= a <= n -> 0 <= i < n ->
  safe (C := C) (if too_many ctx n then invalid_at ctx a i else pret None).
Proof.
  intros Ha Hi. destruct (too_many ctx n) eqn:Et; [|apply safe_pret].
  apply too_many_nargs in Et. apply safe_invalid_at; lia.
Qed.
Hint Resolve safe_trimmed safe_keyword_argument : cli.

Lemma safe_checkValidPath ctx : named ctx -> safe (C := C) (checkValidPath edit_level ctx).
Proof.
  intros (name & ws & Ea & _). unfold checkValidPath. rewrite Ea.
  apply safe_pbind; [apply safe_pret|]. intros w. safe_tac.
Qed.

Lemma safe_keyword_valid ctx (n : bool) p keyword : named ctx ->
  safe (C := C) (if n then pret None
    else args <-- trimmed ctx ;; of_option (validateArgumentIfAny args p (Prefix ctx) keyword)).
Proof. intros Hr. safe_tac. Qed.

Lemma safe_commitConfValid ctx : named ctx -> safe (C := C) (commitConfValid ctx).
Proof. intros Hr. unfold commitConfValid, validateCommentIfAny. safe_tac. Qed.

(** A cursor in the words. *)
Definition cursor_ok (ctx : Ctx) : Prop := 0 <= CompCurIdx ctx < nargs ctx.

Lemma runnable_cursor ctx : runnable ctx -> cursor_ok ctx.
Proof. intros [Hc Hn%named_nargs]. unfold cursor_ok. lia. Qed.

(** What is validated as a path does not look at the cursor's word. *)
Definition path_commands : list string := ["delete"; "edit"; "set"; "show"].

Lemma safe_invalid_prefix_at ctx n : 0 <= n <= nargs ctx -> safe (C := C) (invalid_prefix_at ctx n).
Proof. intros Hn. apply safe_pbind; [by apply safe_args_to|]. intros ws. apply safe_pret. Qed.

Lemma safe_loadsave ctx : cursor_ok ctx -> safe (C := C) (loadsaveValid ctx) /\ safe (C := C) (loadKeyValid ctx).
Proof.
  intros Hc. unfold cursor_ok in Hc. unfold loadsaveValid, loadKeyValid.
  split; (destruct (HasRoutingInstance ctx);
    [destruct (elem_b _ _); [apply safe_pret|]; destruct (too_many ctx _); [apply safe_invalid_at; lia|apply safe_pret]|]).
  - destruct (_ =? _); [apply safe_pret|apply safe_too_many; lia].
  - destruct (elem_b _ _); [apply safe_pret|apply safe_too_many; lia].
Qed.

Lemma safe_mergeValid ctx : named ctx -> safe (C := C) (mergeValid ctx).
Proof.
  intros Hr. unfold mergeValid. safe_tac. apply safe_invalid_at; [lia|].
  apply Z.leb_le in Heqb1. lia.
Qed.

Lemma safe_compareValid ctx : cursor_ok ctx -> safe (C := C) (compareValid ctx).
Proof.
  intros Hc. unfold cursor_ok in Hc. unfold compareValid, validSingleCommand.
  destruct (Z.eqb_spec (nargs ctx) 1) as [E1|E1]; [apply safe_pret|].
  destruct (negb (HasConfigMgmt ctx)); [apply safe_too_many; lia|].
  destruct (Z.eqb_spec (CompCurIdx ctx) 1) as [E2|E2];
    [destruct (_ || _); [apply safe_pret|apply safe_invalid_prefix_at; lia]|].
  destruct (Z.eqb_spec (CompCurIdx ctx) 2) as [E3|E3];
    (apply safe_pbind; [apply safe_arg; lia|]; intros a1; destruct (abbreviates a1 "saved")).
  - destruct (has_prefix ctx); [apply safe_invalid_prefix_at; lia|apply safe_pret].
  - destruct (is_number a1); [|apply safe_invalid_at; lia].
    destruct (_ && _); [apply safe_invalid_prefix_at; lia|apply safe_pret].
  - apply safe_too_many; lia.
  - apply safe_too_many; lia.
Qed.

Lemma safe_exitValid ctx : cursor_ok ctx -> safe (C := C) (exitValid ctx).
Proof.
  intros Hc. unfold cursor_ok in Hc. unfold exitValid.
  destruct (Z.eqb_spec (CompCurIdx ctx) 1) as [E2|E2];
    [destruct (negb _); [apply safe_invalid_prefix_at; lia|apply safe_pret]|].
  destruct (Z.eqb_spec (CompCurIdx ctx) 2) as [E3|E3];
    [destruct (has_prefix ctx); [apply safe_invalid_prefix_at; lia|apply safe_pret]|].
  apply safe_too_many; lia.
Qed.

Lemma safe_valid name ctx : named ctx -> (elem_b name path_commands = false -> cursor_ok ctx) ->
  safe (C := C) (valid (@range) edit_level name ctx).
Proof.
  intros Hr Hc. unfold valid, ValidFn. fold path_commands.
  destruct (elem_b name ["discard"; "top"; "up"; "validate"]).
  { unfold validSingleCommand. apply safe_too_many; lia. }
  destruct (elem_b name path_commands); [by apply safe_checkValidPath|].
  specialize (Hc eq_refl). destruct (safe_loadsave ctx Hc).
  repeat match goal with
  | |- safe (match (if ?b then _ else _) with _ => _ end) => destruct b
  end; unfold commitValid, confirmValid, rollbackValid, validateCommentIfAny, validatePersistIdIfAny;
    eauto using safe_keyword_valid, safe_mergeValid, safe_compareValid,
      safe_exitValid, safe_commitConfValid, safe_pret.
  unfold cancelcommitValid. safe_tac. apply safe_of_option. by apply processCancelCommitCmd_some.
Qed.

(** ** The commands themselves *)

(** The edit level is the root, or a path the template can be asked of, and
    then it is a key only below a list. *)
Definition edit_level_ok : Prop :=
  edit_level = "/" \/
  ((1 <= length (Makepath edit_level))%nat /\
   forall d : C, isListKey (fst (fst (cm_call (CTmplGet (Pathstr (Makepath edit_level))) d))) = true ->
     (2 <= length (Makepath edit_level))%nat).

Lemma safe_upRun ctx : edit_level_ok -> safe (upRun edit_level bash ctx).
Proof.
  intros Hok. unfold upRun. case_bool_decide as He; [safe_tac|].
  destruct Hok as [Hok|[H1 H2]]; [done|]. apply safe_pbind; [apply safe_pret|]. intros _. cbv zeta.
  apply (safe_pbind_yields (fun t : gmap string string * option error =>
    isListKey (fst t) = true -> (2 <= length (Makepath edit_level))%nat)).
  - intros s. unfold call. specialize (H2 (cl_daemon s)).
    destruct (cm_call (CTmplGet (Pathstr (Makepath edit_level))) (cl_daemon s)) as [a d]. exact H2.
  - intros t Ht. apply safe_pbind; [apply safe_handleError|]. intros _.
    destruct (isListKey (fst t)).
    + rewrite (proj2 (Nat.ltb_ge _ _)); [apply safe_doSnippit|by apply Ht].
    + rewrite (proj2 (Nat.ltb_ge _ _)); [apply safe_doSnippit|done].
Qed.

Lemma safe_isSecret path : safe (C := C) (isSecret path).
Proof. unfold isSecret. safe_tac. Qed.
Lemma safe_doEditSnippit {A} ctx path : safe (C := C) (A := A) (doEditSnippit bash ctx path).
Proof. apply safe_doSnippit. Qed.
Hint Resolve safe_isSecret safe_doEditSnippit safe_upRun : cli.

Lemma safe_commitConfRun ctx : 2 <= nargs ctx -> safe (C := C) (commitConfRun commit_debug bash ctx).
Proof.
  intros Hn. unfold commitConfRun. apply safe_pbind; [apply safe_argument_after; lia|]. intros c.
  apply safe_pbind; [apply safe_arg; lia|]. intros t. safe_tac.
Qed.

Lemma safe_commitRun ctx : safe (C := C) (commitRun commit_debug bash ctx).
Proof.
  unfold commitRun, confirmSilentRun. apply safe_pbind; [apply safe_argument_after; lia|]. intros c. safe_tac.
Qed.

Lemma safe_confirmRun ctx : safe (C := C) (confirmRun bash ctx).
Proof. unfold confirmRun. apply safe_pbind; [apply safe_argument_after; lia|]. intros c. safe_tac. Qed.

Lemma safe_output_then_error ctx r : safe (C := C) (output_then_error bash ctx r).
Proof. unfold output_then_error. safe_tac. Qed.
Hint Resolve safe_output_then_error : cli.

Lemma safe_cancelcommitRun ctx : named ctx ->
  safe (C := C) (cancelcommitRun (@range) commit_debug bash ctx).
Proof.
  intros Hr. unfold cancelcommitRun.
  apply safe_pbind; [by apply safe_of_option, processCancelCommitCmd_some|]. safe_tac.
Qed.

Lemma safe_rollbackRun ctx : runnable ctx -> safe (C := C) (rollbackRun commit_debug bash ctx).
Proof.
  intros Hr. pose proof (named_nargs ctx (proj2 Hr)). unfold rollbackRun.
  destruct (Z.leb_spec (nargs ctx) 1); [safe_tac|]. apply safe_pbind; [apply safe_pret|]. intros _.
  apply safe_pbind.
  - destruct (Z.leb_spec 4 (nargs ctx)); [|apply safe_pret].
    apply safe_pbind; [apply safe_arg; lia|]. intros k. case_bool_decide; [apply safe_arg; lia|apply safe_pret].
  - intros c. apply safe_pbind; [apply safe_arg; lia|]. safe_tac.
Qed.

Lemma safe_compareRun ctx : runnable ctx -> safe (C := C) (compareRun bash ctx).
Proof.
  intros (_ & name & ws & Ea & _). unfold compareRun. rewrite Ea.
  destruct ws as [|a1 [|a2 ws]]; (apply safe_pbind; [safe_tac|]); safe_tac.
Qed.

Lemma safe_loadkeyRun ctx : safe (C := C) (loadkeyRun bash ctx).
Proof.
  unfold loadkeyRun. cbv zeta. destruct (Z.ltb_spec (nargs ctx) 3); [safe_tac|].
  apply safe_pbind; [safe_tac|]. intros ch. destruct ch; [safe_tac|].
  apply safe_pbind; [apply safe_pret|]. intros _. apply safe_pbind; [apply safe_arg; lia|]. safe_tac.
Qed.

Lemma safe_loadRun ctx : safe (C := C) (loadRun bash ctx).
Proof. unfold loadRun. safe_tac. Qed.

Lemma safe_setRun ctx : safe (C := C) (setRun edit_level bash ctx).
Proof. unfold setRun, need_path. safe_tac. Qed.

Lemma safe_editRun ctx : safe (C := C) (editRun edit_level bash ctx).
Proof. unfold editRun. safe_tac. Qed.

Lemma safe_showRun ctx : named ctx -> safe (C := C) (showRun edit_level bash ctx).
Proof.
  intros Hr. unfold showRun. apply safe_pbind; [by apply safe_checkValidPath|]. intros err.
  apply safe_pbind; [safe_tac|]. intros _.
  apply safe_pbind; [apply safe_expandPathString; safe_tac|]. safe_tac.
Qed.

Lemma safe_RunFn name ctx : runnable ctx -> edit_level_ok ->
  (name = "commit-confirm" -> 2 <= nargs ctx) ->
  safe (RunFn (@range) edit_level commit_debug bash name ctx).
Proof.
  intros Hr Hok Hc. unfold RunFn.
  repeat case_bool_decide; try (by eauto using safe_commitConfRun);
    eauto using safe_commitRun, safe_compareRun, safe_editRun, safe_loadRun, safe_setRun, safe_showRun,
      safe_upRun, safe_confirmRun, safe_cancelcommitRun, safe_rollbackRun, safe_loadkeyRun;
    unfold deleteRun, need_path, discardRun, exitRun, mergeRun, saveRun, topRun, validateRun, runRun;
    safe_tac.
Qed.

Lemma yields_commitConfValid ctx : runnable ctx ->
  yields (fun err => err = None -> 2 <= nargs ctx) (commitConfValid (C := C) ctx).
Proof.
  intros Hr s. pose proof (named_nargs ctx (proj2 Hr)).
  destruct (commitConfValid ctx s) as [[[err|n] s']|] eqn:Ev; [|done|by apply (safe_commitConfValid ctx (proj2 Hr) s)].
  intros ->. destruct (Z.eqb_spec (nargs ctx) 1) as [H1|H1]; [|lia].
  unfold commitConfValid in Ev. by rewrite (proj2 (Z.eqb_eq _ _) H1) in Ev.
Qed.

Lemma safe_make_ctx args cidx cword pfx dohelp printcmd : safe (C := C) (make_ctx args cidx cword pfx dohelp printcmd).
Proof. unfold make_ctx, has_feature. safe_tac. Qed.

Lemma yields_make_ctx args cidx cword pfx dohelp printcmd :
  yields (fun ctx => CompCurIdx ctx = cidx /\ Args ctx = args /\ Spare ctx = [])
    (make_ctx (C := C) args cidx cword pfx dohelp printcmd).
Proof.
  intros s. pose proof (safe_make_ctx args cidx cword pfx dohelp printcmd s) as Hs.
  unfold make_ctx, has_feature, pbind, bind, call, pret, ret in *.
  repeat (destruct (cm_call _ _) as [? ?]; cbn in *). done.
Qed.

Lemma parse_flags_length args : forall all, (length (fst (fst (parse_flags args all))) <= length args)%nat.
Proof.
  induction args as [|x args IH]; intros all; [done|]. cbn [parse_flags].
  destruct (_ || _); [done|]. case_bool_decide; [cbn; lia|]. destruct (_ || _); [done|].
  destruct (split_eq _) as [n v]. case_bool_decide; [destruct v as [v|]; [destruct (ParseBool v)|]|destruct (elem_b _ _)];
    cbn [fst]; cbn [length]; try lia; (etransitivity; [apply IH|lia]).
Qed.

(** The words are fewer at most; the array stays. *)
Lemma yields_parseShowAll ctx : named ctx ->
  yields (fun ctx' => named ctx' /\ CompCurIdx ctx' = CompCurIdx ctx /\
    length (Args ctx' ++ Spare ctx') = length (Args ctx ++ Spare ctx)) (parseShowAll (C := C) ctx).
Proof.
  intros (name & ws & Ea & Hn) s. unfold parseShowAll. rewrite Ea.
  pose proof (parse_flags_length ws false) as Hl.
  destruct (parse_flags ws false) as [[rest all] complaint]. cbn [fst] in Hl.
  assert (H : named (with_All all (with_Args (name :: rest) (drop (length rest) (ws ++ Spare ctx)) ctx)))
    by (by exists name, rest).
  unfold pbind, bind. destruct (bool_decide _); cbn -[drop]; (split; [exact H|]; split; [done|]);
    rewrite !length_app, length_drop, length_app; lia.
Qed.
End Returns.

Lemma GetCommand_known (range : forall A : Type, gmap string A -> list (string * A)) Commands a name :
  GetCommand range Commands a = inl name -> is_Some (Commands !! name).
Proof.
  unfold GetCommand. destruct (ExpandCommand range Commands a) as [n|e]; [|done].
  destruct (Commands !! n) eqn:En; [|done]. intros [= <-]. eauto.
Qed.

(** ** Properties *)

Section Properties.
Context {L : ConfigLib} {E : ErrorLib} {C : Type} `{CM : !CfgManager C}.
Context (range : forall A : Type, gmap string A -> list (string * A)).
Context (natsort : list string -> list string).
Context (edit_level commit_debug : string).
Context (bash : string -> list (string * string) -> string * option error).

Lemma safe_run_handler (Commands : gmap string string) args printcmd :
  Commands !! "" = None -> edit_level_ok (C := C) edit_level ->
  safe (run_handler (C := C) range edit_level commit_debug bash Commands args printcmd).
Proof.
  intros Hempty Hok. unfold run_handler. apply safe_pbind; [|intros err; apply safe_handleError].
  unfold run. destruct args as [|a ws]; [safe_tac|].
  eapply safe_pbind_yields; [apply yields_make_ctx|]. intros ctx (Hc & Ha & _).
  destruct (GetCommand range Commands a) as [name|e] eqn:Eg; [|apply safe_pret].
  assert (Hname : name <> "").
  { intros ->. apply GetCommand_known in Eg. rewrite Hempty in Eg. by destruct Eg. }
  assert (Hr : runnable (set_name name ctx)).
  { split; [exact Hc|]. exists name, ws. unfold set_name. cbn. by rewrite Ha. }
  cbv zeta. apply (safe_pbind_yields runnable).
  { case_bool_decide; [|intros s0; exact Hr]. intros s0.
    pose proof (yields_parseShowAll _ (proj2 Hr) s0) as Hy.
    destruct (parseShowAll _ s0) as [[[c|x] s1]|]; [|done..].
    destruct Hy as (Hn & Hi & _). split; [|exact Hn]. rewrite Hi. exact (proj1 Hr). }
  intros ctx' Hr'. eapply (safe_pbind_yields (fun err => err = None ->
    name = "commit-confirm" -> 2 <= nargs ctx')).
  - intros s0. pose proof (safe_valid range edit_level name ctx' (proj2 Hr') (fun _ => runnable_cursor ctx' Hr') s0) as Hv.
    destruct (decide (name = "commit-confirm")) as [->|Hn].
    + pose proof (yields_commitConfValid ctx' Hr' s0) as Hy.
      change (valid (C := C) range edit_level "commit-confirm" ctx') with (commitConfValid (C := C) ctx').
      destruct (commitConfValid ctx' s0) as [[[e|] s1]|]; auto.
    + destruct (valid range edit_level name ctx' s0) as [[[e|] s1]|]; [by intros _ ?|done|done].
  - intros [e|] Hn; [apply safe_pret|]. apply safe_pbind; [|intros _; apply safe_pret].
    apply safe_RunFn; auto.
Qed.

(** Whatever words are typed, and whatever the daemon answers, a command
    that is run ends without a run-time panic: no index of the words is out of
    range.  The one thing it relies on is the edit level, for up. *)
Theorem run_returns (Commands : gmap string string) args printcmd s :
  Commands !! "" = None -> edit_level_ok (C := C) edit_level ->
  exists r s', run_handler range edit_level commit_debug bash Commands args printcmd s = Some (r, s').
Proof.
  intros Hempty Hok. pose proof (safe_run_handler Commands args printcmd Hempty Hok s) as Hs.
  destruct (run_handler _ _ _ _ _ _ _ _) as [[r s']|]; [eauto|done].
Qed.

(** C21: a commit-confirm that passes its validation has a timeout of at least a
    minute, with which it is committed, or its only argument is the empty word:
    that one is not looked at, and the commit is an ordinary one, which nothing
    reverts. *)
Theorem commit_confirm_timeout ctx s s' : runnable ctx ->
  commitConfValid (C := C) ctx s = Some (inl None, s') ->
  (exists t n, Args ctx !! 1%nat = Some t /\ Atoi t = Some n /\ 0 < n /\
     forall s0, commitConfRun (C := C) commit_debug bash ctx s0 =
       (comment <-- validateCommitCommentIfAny ctx 2 ;; commitRunInternal commit_debug bash ctx comment n) s0) \/
  (exists name, Args ctx = [name; ""] /\
     forall s0, commitConfRun (C := C) commit_debug bash ctx s0 = commitRunInternal commit_debug bash ctx "" 0 s0).
Proof.
  intros Hr Hv. destruct (trimmed_args ctx (proj2 Hr)) as (args & Et & Hne & Hargs).
  unfold commitConfValid in Hv. destruct (Z.eqb_spec (nargs ctx) 1) as [H1|H1]; [done|].
  unfold trimmed in Hv. rewrite Et in Hv. destruct args as [|name [|t rest]]; [done| |].
  - right. exists name. destruct Hargs as [Ha|Ha]; [unfold nargs in H1; by rewrite <- Ha in H1|].
    split; [done|]. intros s0. unfold commitConfRun, validateCommitCommentIfAny, argument_after, arg, nargs.
    by rewrite Ha.
  - assert (Ht : Args ctx !! 1%nat = Some t).
    { destruct Hargs as [<-| ->]; [done|]. by rewrite lookup_app_l by (cbn; lia). }
    left. exists t. unfold pbind at 1, bind at 1 in Hv. cbn in Hv.
    destruct (Atoi t) as [n|] eqn:En; [|done]. destruct (Z.leb_spec n 0); [done|].
    exists n. split_and!; try done. intros s0. unfold commitConfRun, pbind, bind.
    destruct (validateCommitCommentIfAny ctx 2 s0) as [[[c|x] s1]|]; try done.
    unfold arg. change (Z.to_nat 1) with 1%nat. rewrite Ht. cbn. by rewrite En.
Qed.

(** The comment of a rollback is lost when its keyword is abbreviated,
    which the validation allows. *)
Theorem rollback_comment_lost ctx name rev word text s :
  Args ctx = [name; rev; word; text] -> text <> "" ->
  abbreviates word "comment" = true -> word <> "comment" ->
  rollbackValid (C := C) ctx s = Some (inl None, s) /\
  rollbackRun commit_debug bash ctx s =
    (out <-- call (CRollback rev "" (isCommitDebugOn commit_debug)) ;; output_then_error bash ctx out) s.
Proof.
  intros Ha Ht Hw Hne.
  assert (Hval : validateCommentIfAny [name; rev; word; text] 2 (Prefix ctx) = Some None).
  { unfold validateCommentIfAny, validateArgumentIfAny. cbn -[abbreviates]. by rewrite Hw. }
  assert (Hn : nargs ctx = 4) by (unfold nargs; by rewrite Ha).
  assert (Harg : forall i x, 0 <= i -> Args ctx !! Z.to_nat i = Some x -> forall s0 : cli C,
    arg ctx i s0 = Some (inl x, s0)).
  { intros i x Hi Hx s0. unfold arg. by rewrite (proj2 (Z.ltb_ge i 0)), Hx by lia. }
  unfold rollbackValid, rollbackRun, trimmed. rewrite Hn. split.
  - unfold removeTrailingEmptyArgument. rewrite Ha. cbn [last]. destruct text; [done|].
    unfold pbind, bind. cbn -[validateCommentIfAny]. by rewrite Hval.
  - rewrite Ha in Harg. unfold pbind, bind. cbn -[arg bool_decide].
    rewrite (Harg 2 word) by done. rewrite bool_decide_false by done. cbn -[arg].
    by rewrite (Harg 1 rev) by done.
Qed.

(** The places the commands load from and save to are URLs or absolute
    paths, never the relative paths with which the daemon's sandbox can be
    left; nothing but a complaint happens when they are determined. *)
Theorem file_arguments_absolute args usage uri routingInstance s s' :
  parseCfgMgmtCmdArgs (C := C) args usage s = Some (inl (uri, routingInstance), s') ->
  s' = s /\ (is_url uri = true \/ HasPrefix uri "/" = true).
Proof.
  assert (Hfin : forall u, is_url (if is_url u || HasPrefix u "/" then u else configDir +:+ "/" +:+ u) = true \/
    HasPrefix (if is_url u || HasPrefix u "/" then u else configDir +:+ "/" +:+ u) "/" = true).
  { intros u. destruct (is_url u) eqn:Eu; [by left|]. destruct (HasPrefix u "/") eqn:Ep; by right. }
  unfold parseCfgMgmtCmdArgs. destruct args as [|a [|b [|c [|d args]]]]; try done.
  - intros [= <- _ <-]. by split.
  - case_bool_decide; [|done]. intros [= <- _ <-]. by split.
Qed.
End Properties.

(** ** A concrete daemon *)

Module SampleRun.
(** A session with changes, and management features; everything works. *)
#[export] Instance daemon : CfgManager unit := fun c d =>
  (match c return answer c with
   | CGetCompletions _ _ | CTmplGet _ | CGetCommitLog => (∅, None)
   | CTmplValidatePath _ | CExists _ _ | CSessionChanged | CMergeReportWarnings _ => (true, None)
   | CNodeGetType _ => (CONTAINER, None)
   | CGet _ _ => ([], None)
   | CGetConfigSystemFeatures => ({["config-mgmt"]}, None)
   | CExpand p => (p, None)
   | CExpandWithPrefix p _ _ => (p, None)
   | CSet _ | CCancelCommit _ _ _ _ | CCommit _ _ | CCommitConfirm _ _ _ | CCompareConfigRevisions _ _
   | CCompareSessionChanges | CConfirm | CConfirmSilent | CConfirmPersistId _ | CLoadKeys _ _ _
   | CRollback _ _ _ | CShowConfigWithContextDiffs _ _ | CValidate => ("", None)
   | CDelete _ | CDiscard | CLoadFrom _ _ | CSave _ | CSaveTo _ _ | CSessionMarkSaved => None
   end, d).

Definition bash (snippet : string) (env : list (string * string)) : string * option error := ("", None).
Definition start : cli unit := Cli tt [].
Definition calls (r : option ((unit + Z) * cli unit)) : list ccall :=
  match r with
  | Some (_, s) => omap (fun e => match e with OCall CGetConfigSystemFeatures => None | OCall c => Some c | _ => None end)
                     (reverse (cl_events s))
  | None => []
  end.
Definition handle (edit_level : string) (args : list string) : option ((unit + Z) * cli unit) :=
  run_handler (L := Sample.lib) (E := SampleFormat.errors) (@SampleCli.sorted) edit_level "" bash
    SampleCli.commands args false start.

(** Nothing reverts this commit. *)
Example empty_timeout_commits :
  calls (handle "/" ["commit-confirm"; ""]) =
    [CSessionChanged; CCommit "" false; CSessionChanged; CSave configBootPath; CSessionMarkSaved].
Proof. vm_compute. reflexivity. Qed.

Example timeout_confirmed :
  calls (handle "/" ["commit-c"; "10"; "com"; "why"]) =
    [CSessionChanged; CCommitConfirm "why" false 10; CSessionChanged; CSave configBootPath; CSessionMarkSaved].
Proof. vm_compute. reflexivity. Qed.

(** Without an edit level there is nothing to take an element from. *)
Example up_panics : handle "" ["up"] = None.
Proof. vm_compute. reflexivity. Qed.

Definition answers (r : option ((unit + Z) * cli unit)) : Prop := exists x s', r = Some (x, s').

Lemma run_returns_witness : answers (handle "/" ["rollback"; ""; "comment"; "x"; "y"]).
Proof.
  apply (run_returns (L := Sample.lib) (E := SampleFormat.errors) (@SampleCli.sorted) "/" "" bash
    SampleCli.commands ["rollback"; ""; "comment"; "x"; "y"] false start).
  - vm_compute. reflexivity.
  - left. reflexivity.
Defined.

Definition confirm_ctx (t : string) : Ctx :=
  MkCtx ["commit-confirm"; t] [] 0 "" "__noncomp__" false false false false true false.

Lemma commit_confirm_timeout_witness :
  commitConfValid (C := unit) (confirm_ctx "") start = Some (inl None, start) /\
  ((exists t n, Some "" = Some t /\ Atoi t = Some n /\ 0 < n) \/
   commitConfRun (L := Sample.lib) (E := SampleFormat.errors) "" bash (confirm_ctx "") start =
     commitRunInternal (L := Sample.lib) (E := SampleFormat.errors) "" bash (confirm_ctx "") "" 0 start).
Proof.
  assert (Hv : commitConfValid (C := unit) (confirm_ctx "") start = Some (inl None, start)) by reflexivity.
  split; [exact Hv|].
  destruct (commit_confirm_timeout (L := Sample.lib) (E := SampleFormat.errors) "" bash (confirm_ctx "")
    start start) as [(t & n & H1 & H2 & H3 & _)|(name & _ & H)].
  - split; [reflexivity|]. exists "commit-confirm", [""]. split; [reflexivity|discriminate].
  - exact Hv.
  - left. exists t, n. split; [exact H1|]. split; [exact H2|exact H3].
  - right. exact (H start).
Defined.

Definition rollback_ctx : Ctx :=
  MkCtx ["rollback"; "1"; "comm"; "oops"] [] 0 "" "__noncomp__" false false false false true false.

Lemma rollback_comment_lost_witness :
  rollbackRun (E := SampleFormat.errors) "" bash rollback_ctx start =
  (out <-- call (CRollback "1" "" false) ;;
   output_then_error (E := SampleFormat.errors) bash rollback_ctx out) start.
Proof.
  apply (rollback_comment_lost (E := SampleFormat.errors) "" bash rollback_ctx
    "rollback" "1" "comm" "oops" start); [reflexivity|discriminate|reflexivity|discriminate].
Defined.

Lemma file_arguments_absolute_witness :
  parseCfgMgmtCmdArgs (E := SampleFormat.errors) ["../etc/passwd"] "" start
    = Some (inl ("/config/../etc/passwd", ""), start) /\
  (is_url "/config/../etc/passwd" = true \/ HasPrefix "/config/../etc/passwd" "/" = true).
Proof.
  assert (Hr : parseCfgMgmtCmdArgs (E := SampleFormat.errors) ["../etc/passwd"] "" start
    = Some (inl ("/config/../etc/passwd", ""), start)) by (vm_compute; reflexivity).
  split; [exact Hr|].
  exact (proj2 (file_arguments_absolute (E := SampleFormat.errors) ["../etc/passwd"] "" _ _ start start Hr)).
Defined.
End SampleRun.
