(* ===== verification/CliSafe.v ===== *)
(** No completion ends in a run-time panic, when the cursor is in one of the
    words that are completed: the lemmas by which [CliMain] covers the action
    [complete]. *)

From S2P Require Import Prelude GoLib Errors Rpc GoFmt External Configd Sample CliFormat Cli CliComplete CliRun.

Open Scope Z_scope.

Section Completion.
Context {L : ConfigLib} {E : ErrorLib} {C : Type} `{CM : !CfgManager C}.
Context (range : forall {A : Type}, gmap string A -> list (string * A)).
Arguments range {A}.
Context (natsort : list string -> list string).
Context (edit_level : string).

(** ** The reply and the help *)

Lemma safe_doComplete ctx appendSpace m prntFn : 0 <= CompCurIdx ctx -> (forall h, safe (prntFn h)) ->
  safe (C := C) (doComplete (@range) ctx appendSpace m prntFn).
Proof.
  intros Hi Hp. unfold doComplete. apply safe_pbind.
  - destruct (_ && _) eqn:Eb; [|apply safe_pret]. apply andb_prop in Eb as [_ Eb%Z.ltb_lt].
    apply safe_arg. lia.
  - intros cur. cbv zeta. destruct (single_candidate _ _ _); [apply safe_pret|].
    destruct (_ || _); [|apply safe_pret]. apply safe_pbind; [apply Hp|]. intros t. apply safe_pret.
Qed.

Lemma safe_printHelpFn m : safe (C := C) (printHelpFn (@range) natsort m).
Proof. apply safe_pret. Qed.
Hint Resolve safe_printHelpFn : cli.

Lemma safe_reply ctx m : 0 <= CompCurIdx ctx ->
  safe (C := C) (doComplete (@range) ctx true m (printHelpFn (@range) natsort)).
Proof. intros Hi. apply safe_doComplete; auto with cli. Qed.

Lemma safe_gettypeprefix args : safe (C := C) (gettypeprefix args).
Proof. unfold gettypeprefix. safe_tac. Qed.
Hint Resolve safe_gettypeprefix : cli.

Lemma safe_path_lines path comps names : safe (C := C) (path_lines path comps names).
Proof. induction names as [|n names IH]; cbn [path_lines]; safe_tac. Qed.
Hint Resolve safe_path_lines : cli.

Lemma safe_printPathHelp ctx comps : Args ctx <> [] -> safe (C := C) (printPathHelp (@range) natsort ctx comps).
Proof.
  unfold printPathHelp. destruct (Args ctx) as [|a ws]; [done|]. intros _.
  apply safe_pbind; [apply safe_ExpandPath|]. safe_tac.
Qed.

(** ** The completion of each command *)

Lemma safe_riComp ctx opname prep : 1 <= CompCurIdx ctx < nargs ctx -> safe (C := C) (riComp ctx opname prep).
Proof.
  intros Hi. unfold riComp. destruct (bool_decide _); [|apply safe_pret].
  apply safe_pbind; [apply safe_arg; lia|]. safe_tac.
Qed.

Lemma safe_location_comp ctx p opname prep m : 1 <= CompCurIdx ctx < nargs ctx ->
  safe (C := C) (location_comp ctx p opname prep m).
Proof.
  intros Hi. unfold location_comp. repeat case_match; try apply safe_pret. by apply safe_riComp.
Qed.

Lemma safe_compareComp ctx : 1 <= CompCurIdx ctx < nargs ctx ->
  safe (C := C) (compareComp (@range) natsort ctx).
Proof.
  intros Hi. unfold compareComp. apply safe_pbind; [|intros m; apply safe_reply; lia].
  destruct (negb _); [apply safe_pret|]. apply safe_pbind; [apply safe_call|]. intros r. cbv zeta.
  destruct (_ =? 1); [apply safe_pret|]. destruct (Z.eqb_spec (CompCurIdx ctx) 2); [|apply safe_pret].
  apply safe_pbind; [apply safe_arg; lia|]. intros a. case_match; apply safe_pret.
Qed.

Lemma safe_pathComp ctx : Args ctx <> [] ->
  1 <= CompCurIdx ctx <= Z.of_nat (length (Args ctx ++ Spare ctx)) ->
  safe (C := C) (pathComp (@range) natsort edit_level ctx).
Proof.
  intros Ha Hi. unfold pathComp. rewrite (proj2 (Z.ltb_ge _ 1)) by lia.
  apply safe_pbind.
  { unfold args_to. rewrite (proj2 (Z.ltb_ge _ 0)), (proj2 (Z.ltb_ge _ (CompCurIdx ctx))) by lia.
    apply safe_pret. }
  intros words. unfold editPathLength. apply safe_pbind; [apply safe_ExpandPath|]. intros path. cbv zeta.
  destruct (Args ctx) as [|a ws]; [done|]. apply safe_pbind.
  - cbn. safe_tac.
  - intros m. apply safe_doComplete; [cbn; lia|]. intros h. by apply safe_printPathHelp.
Qed.

Lemma safe_cancelcommitComp ctx : named ctx -> 0 <= CompCurIdx ctx ->
  safe (C := C) (cancelcommitComp (@range) natsort ctx).
Proof.
  intros Hn Hi. unfold cancelcommitComp.
  apply safe_pbind; [by apply safe_of_option, processCancelCommitCmd_some|]. intros [cmds m].
  cbv zeta. by apply safe_reply.
Qed.

Lemma safe_CompFn name ctx : named ctx -> 1 <= CompCurIdx ctx ->
  CompCurIdx ctx <= Z.of_nat (length (Args ctx ++ Spare ctx)) ->
  (elem_b name path_commands = false -> cursor_ok ctx) ->
  safe (C := C) (CompFn (@range) natsort edit_level name ctx).
Proof.
  intros Hn Hi Hl Hc. unfold CompFn. fold path_commands.
  destruct (elem_b name ["discard"; "top"; "up"; "validate"]); [apply safe_reply; lia|].
  destruct (elem_b name path_commands).
  { apply safe_pathComp; [destruct Hn as (x & ws & -> & _); done|lia]. }
  destruct (Hc eq_refl) as [_ Hc']. clear Hc. assert (1 <= CompCurIdx ctx < nargs ctx) as Hc by lia.
  repeat case_bool_decide;
    unfold loadComp, saveComp, loadkeyComp, commitComp, exitComp, mergeComp, confirmComp, rollbackComp,
      commitConfComp, runComp;
    eauto using safe_compareComp; try (apply safe_reply; lia); try (apply safe_cancelcommitComp; [done|lia]).
  - apply safe_pbind; [by apply safe_location_comp|]. intros m. apply safe_reply; lia.
  - apply safe_pbind; [by apply safe_location_comp|]. intros m. apply safe_reply; lia.
  - apply safe_pbind; [safe_tac|]. intros m. apply safe_reply; lia.
  - apply safe_pbind; [safe_tac|]. intros users.
    apply safe_pbind; [by apply safe_location_comp|]. intros m. apply safe_reply; lia.
  - apply safe_pret.
Qed.

(** ** The whole *)

(** The index of the cursor is that of a word, or 0, the name's. *)
Definition cursor_in (args : list string) (cidx : Z) : Prop :=
  0 <= cidx /\ (cidx = 0 \/ cidx < Z.of_nat (length args)).

Lemma safe_complete Commands args cidx cword pfx dohelp printcmd :
  Commands !! "" = None -> cursor_in args cidx ->
  safe (C := C) (complete (@range) natsort edit_level Commands args cidx cword pfx dohelp printcmd).
Proof.
  intros Hempty [Hi Hlt]. unfold complete.
  eapply safe_pbind_yields; [apply yields_make_ctx|]. intros ctx (Hc & Ha & Hs). unfold firstWordComp.
  destruct args as [|a ws]; [apply safe_pbind; [apply safe_reply; lia|safe_tac]|].
  destruct (Z.eqb_spec cidx 0) as [H0|H0]; [apply safe_pbind; [apply safe_reply; lia|safe_tac]|].
  destruct Hlt as [|Hlt]; [lia|].
  destruct (GetCommand (@range) Commands a) as [name|e] eqn:Eg; [|apply safe_pret].
  assert (Hname : name <> "").
  { intros ->. apply GetCommand_known in Eg. rewrite Hempty in Eg. by destruct Eg. }
  cbv zeta. apply (safe_pbind_yields (fun ctx' => named ctx' /\ 1 <= CompCurIdx ctx' /\
    CompCurIdx ctx' <= Z.of_nat (length (Args ctx' ++ Spare ctx')) /\
    (elem_b name path_commands = false -> cursor_ok ctx'))).
  - assert (Hn : named (set_name name ctx)) by (exists name, ws; cbn; by rewrite Ha).
    intros s. case_bool_decide as Hsh.
    + unfold pbind, bind. pose proof (yields_parseShowAll _ Hn s) as Hy.
      destruct (parseShowAll _ s) as [[[c|x] s1]|]; [|done..].
      destruct Hy as (Hn' & Hi' & Hl). cbn in Hi', Hl. rewrite Ha, Hs, app_nil_r in Hl. cbn [tail] in Hl. rewrite Hc in Hi'.
      cbn [length] in Hl, Hlt. rewrite Hsh. cbn.
      destruct (All c && (1 <? CompCurIdx c)) eqn:Ea; [apply andb_prop in Ea as [_ Ea%Z.ltb_lt]|];
        (split; [exact Hn'|]); cbn [CompCurIdx Args Spare with_CompCurIdx]; rewrite Hl; (split; [lia|]); (split; [lia|done]).
    + cbn. rewrite Ha, Hs, app_nil_r, Hc. cbn in Hlt. cbn [length]. split; [by exists name, ws; cbn; rewrite Ha|].
      unfold cursor_ok, nargs. cbn. rewrite Ha, Hc. cbn [tail length]. repeat split; lia.
  - intros ctx' (Hn & H1 & H2 & H3). apply safe_pbind; [by apply safe_valid|]. intros [e|]; [apply safe_pret|].
    apply safe_pbind; [by apply safe_CompFn|]. intros t. apply safe_pret.
Qed.

Lemma safe_complete_handler Commands args cidx cword pfx dohelp printcmd :
  Commands !! "" = None -> cursor_in args cidx ->
  safe (C := C) (complete_handler (@range) natsort edit_level Commands args cidx cword pfx dohelp printcmd).
Proof.
  intros Hempty Hc. apply safe_pbind; [by apply safe_complete|]. intros [t|e]; safe_tac.
Qed.
End Completion.
