(* ===== verification/CliMain.v ===== *)
(** [cmd/cfgcli/main.go], the program around the commands of the configuration
    mode: its options, where its arguments come from, and what each action does. *)

From S2P Require Import Prelude GoLib Errors Rpc GoFmt External Configd Sample CliFormat Cli CliComplete CliRun CliSafe.

Open Scope Z_scope.

Record cmdLineParams := {
  action : string;
  pfx : string;
  cword : string;
  cidx : Z;
  lastcomp : string;
  dohelp : bool;
  socketpath : string;
  printcmd : bool;
  argsInEnv : bool
}.
Definition default_params : cmdLineParams := {|
  action := "run"; pfx := ""; cword := ""; cidx := 0; lastcomp := ""; dohelp := true;
  socketpath := "/run/vyatta/configd/main.sock"; printcmd := false; argsInEnv := false |}.

Section Main.
Context {L : ConfigLib} {E : ErrorLib} {C : Type} `{CM : !CfgManager C}.
Context (range : forall A : Type, gmap string A -> list (string * A)).
Context (natsort : list string -> list string).
(** The environment: edit level, commit debugging, session, arguments. *)
Context (edit_level commit_debug VYATTA_CONFIG_SID CFGCLI_ARGS : string).
Context (bash : string -> list (string * string) -> string * option error).
(** [client.Dial] by socket and session; the JSON decoder for the object with
    the field [args]; what is typed at the prompts for a secret. *)
Context (Dial : string -> string -> option error) (Decode : string -> list string + error).
Context (typed : list ((string + error) * (string + error))).

Abbreviation P := (Cli.P C).
Open Scope go_scope.

(** [NewCommand] and [updateDynamicCommands]: the daemon is asked for both features. *)
Definition dynamicCommands : P (gmap string string) :=
  hasConfigMgmt <-- has_feature "config-mgmt" ;;
  hasLoadKey <-- has_feature "loadkeys" ;;
  pret (updateDynamicCommands hasConfigMgmt hasLoadKey populateCommands).

Definition argsFromEnv (data : string) : list string :=
  match Decode data with inl args => args | inr _ => [] end.

(** The words: those of the command line, or those of the environment. *)
Definition arguments (cliParams : cmdLineParams) (args : list string) : list string :=
  if argsInEnv cliParams then argsFromEnv CFGCLI_ARGS else args.

Definition main (cliParams : cmdLineParams) (args : list string) : P unit :=
  handleError (Dial (socketpath cliParams) VYATTA_CONFIG_SID) ;--
  Commands <-- dynamicCommands ;;
  let args := arguments cliParams args in
  if bool_decide (action cliParams = "complete") then
    complete_handler range natsort edit_level Commands args (cidx cliParams) (cword cliParams) (pfx cliParams)
      (dohelp cliParams) (printcmd cliParams)
  else if bool_decide (action cliParams = "expand") then expand args
  else if bool_decide (action cliParams = "run") then
    run_handler range edit_level commit_debug bash Commands args (printcmd cliParams)
  else if bool_decide (action cliParams = "setSecret") then setSecret args typed
  else if bool_decide (action cliParams = "init") then initShell range Commands
  else pret tt.

Lemma dynamic_named b1 b2 : updateDynamicCommands b1 b2 populateCommands !! "" = None.
Proof. destruct b1, b2; vm_compute; reflexivity. Qed.

Lemma yields_dynamicCommands : yields (fun Commands => Commands !! "" = None) dynamicCommands.
Proof.
  intros s. unfold dynamicCommands, has_feature, pbind, bind, call.
  destruct (cm_call CGetConfigSystemFeatures (cl_daemon s)) as [r1 d1]. cbn [cl_daemon cl_events pret ret].
  destruct (cm_call CGetConfigSystemFeatures d1) as [r2 d2]. cbn. apply dynamic_named.
Qed.

Lemma safe_ask_secret l : safe (ask_secret (C := C) l).
Proof.
  induction l as [|[[p|e] [p2|e2]] l IH]; cbn [ask_secret]; safe_tac.
Qed.

(** C19: the program ends without a run-time panic whatever its options and
    arguments are, whatever is typed at its prompts and whatever the daemon
    answers, in every action.  Two things are relied on: when a command is run,
    that the edit level is the root, or has a word in it, and two if the daemon
    says it is a list key (without VYATTA_EDIT_LEVEL it has none, and [up]
    panics), and for completion, that the index of the current word is that of
    a word, as bash has it. *)
Theorem main_returns params args s :
  (action params = "run" -> edit_level_ok (C := C) edit_level) ->
  (action params = "complete" -> cursor_in (arguments params args) (cidx params)) ->
  exists r s', main params args s = Some (r, s').
Proof.
  intros Hok Hc. enough (Hs : safe (main params args)).
  { specialize (Hs s). destruct (main params args s) as [[r s']|]; [eauto|done]. }
  unfold main. apply safe_pbind; [apply safe_handleError|intros _].
  eapply safe_pbind_yields; [apply yields_dynamicCommands|]. intros Commands Hn. cbv zeta.
  repeat case_bool_decide.
  - by apply safe_complete_handler, Hc.
  - unfold expand. safe_tac.
  - by apply safe_run_handler, Hok.
  - unfold setSecret, isSecret. repeat first [apply safe_ask_secret | safe_step].
  - unfold initShell. safe_tac.
  - apply safe_pret.
Qed.
End Main.

Module SampleMain.
Import SampleRun.
Definition params (act : string) (i : Z) (env : bool) : cmdLineParams := {|
  action := act; pfx := ""; cword := ""; cidx := i; lastcomp := ""; dohelp := true;
  socketpath := "/run/vyatta/configd/main.sock"; printcmd := false; argsInEnv := env |}.
Abbreviation cfgcli := (main (L := Sample.lib) (E := SampleFormat.errors) (@SampleCli.sorted) (fun l => l)
  "/" "" "sid" "args" bash (fun _ _ => None) (fun _ => inl ["commit-confirm"; "10"]) []).

(** An index past the words, which bash does not give. *)
Example cursor_outside_panics : cfgcli (params "complete" 3 false) ["show"; "x"] start = None.
Proof. vm_compute. reflexivity. Qed.

(** Only one flag is reckoned with: after two of them it is not the word at the
    cursor that is completed, but one below it. *)
Definition completed_path (r : option ((unit + Z) * cli unit)) : option string :=
  head (omap (fun c => match c with CGetCompletions _ p => Some p | _ => None end) (calls r)).
Example second_flag_not_counted :
  (completed_path (cfgcli (params "complete" 2 false) ["show"; "-all"; "x"] start),
   completed_path (cfgcli (params "complete" 3 false) ["show"; "-all"; "-all"; "x"] start)) = (Some "", Some "/x").
Proof. vm_compute. reflexivity. Qed.

(** The arguments come from the environment; the command is there because the
    daemon has the feature.  And a completion. *)
Lemma main_returns_witness : answers (cfgcli (params "run" 0 true) [] start) /\
  answers (cfgcli (params "complete" 1 false) ["rollback"; ""] start) /\
  calls (cfgcli (params "run" 0 true) [] start) =
    [CSessionChanged; CCommitConfirm "" false 10; CSessionChanged; CSave configBootPath; CSessionMarkSaved].
Proof.
  pose proof (main_returns (L := Sample.lib) (E := SampleFormat.errors) (@SampleCli.sorted) (fun l => l)
    "/" "" "sid" "args" bash (fun _ _ => None) (fun _ => inl ["commit-confirm"; "10"]) []) as H.
  split; [|split; [|vm_compute; reflexivity]]; apply H; cbn.
  - intros _. left. reflexivity.
  - discriminate.
  - discriminate.
  - intros _. split; [lia|]. right. cbn. lia.
Defined.
End SampleMain.
