(* ===== verification/NetAddr.v ===== *)
(** Go's package [net], as far as the normaliser uses it: hardware and IP
    addresses, their texts and masks, as in the Go releases up to 1.16 (which
    still read a decimal octet with leading zeros).  A byte is a [Z]; an address
    is the slice of its bytes, [None] the nil address or an error. *)

From S2P Require Import Prelude GoLib.

Open Scope Z_scope.

Definition IP : Type := list Z.
Definition IPMask : Type := list Z.
Definition HardwareAddr : Type := list Z.

Definition IPv4len : Z := 4.
Definition IPv6len : Z := 16.

Definition byte_ok (b : Z) : Prop := 0 <= b < 256.

(** Bytes [i] of an address; the code below only uses indices in range. *)
Definition byte_at (p : list Z) (i : Z) : Z := nth (Z.to_nat i) p 0.

(** ** Digits *)

Definition hex_digit (d : Z) : ascii :=
  ascii_of_nat (Z.to_nat (if d <? 10 then 48 + d else 87 + d)).

(** [%x]: the digits without leading zeros, the last one appended last. *)
Fixpoint hex_digits (fuel : nat) (n : Z) : string :=
  match fuel with
  | O => ""
  | S fuel' =>
      (if n / 16 =? 0 then "" else hex_digits fuel' (n / 16)) +:+ String (hex_digit (n mod 16)) ""
  end.
(** Of a uint32. *)
Definition hex (n : Z) : string := hex_digits 8 n.

Definition big : Z := 16777215.

Definition dec_val (c : ascii) : option Z :=
  let n := Z.of_nat (nat_of_ascii c) in
  if (48 <=? n) && (n <=? 57) then Some (n - 48) else None.
Definition hex_val (c : ascii) : option Z :=
  let n := Z.of_nat (nat_of_ascii c) in
  if (48 <=? n) && (n <=? 57) then Some (n - 48)
  else if (97 <=? n) && (n <=? 102) then Some (n - 87)
  else if (65 <=? n) && (n <=? 70) then Some (n - 55)
  else None.

(** [dtoi] and [xtoi]: the leading digits of a text.  The value, how many bytes
    were read, and whether that was a number below [big]. *)
Fixpoint toi_loop (base : Z) (val : ascii -> option Z) (s : string) (n : Z) (i : nat)
    : Z * nat * bool :=
  match s with
  | String c s' =>
      match val c with
      | Some d =>
          let n' := n * base + d in
          if big <=? n' then (n', i, false) else toi_loop base val s' n' (S i)
      | None => (n, i, negb (Nat.eqb i 0))
      end
  | EmptyString => (n, i, negb (Nat.eqb i 0))
  end.
Definition dtoi (s : string) : Z * nat * bool := toi_loop 10 dec_val s 0 0.
Definition xtoi (s : string) : Z * nat * bool := toi_loop 16 hex_val s 0 0.

(** ** Reading addresses *)

Definition v4InV6Prefix : list Z := [0; 0; 0; 0; 0; 0; 0; 0; 0; 0; 255; 255].

Definition IPv4 (p : list Z) : IP := v4InV6Prefix ++ p.

Fixpoint parseIPv4_loop (left : nat) (first : bool) (s : string) (p : list Z) : option IP :=
  match left with
  | O => match s with EmptyString => Some (IPv4 p) | _ => None end
  | S left' =>
      match s with
      | EmptyString => None
      | String c s1 =>
          let octet (s : string) :=
            let '(n, i, ok) := dtoi s in
            if negb ok || (255 <? n) then None
            else parseIPv4_loop left' false (str_drop i s) (p ++ [n]) in
          if first then octet s else if Ascii.eqb c "."%char then octet s1 else None
      end
  end.
Definition parseIPv4 (s : string) : option IP := parseIPv4_loop 4 true s [].

(** [parseIPv6]: the bytes read so far (as many as the loop variable says), and
    where an ellipsis was met. *)
Fixpoint parseIPv6_loop (fuel : nat) (s : string) (ellipsis : option nat) (ip : list Z)
    : option (string * option nat * list Z) :=
  match fuel with
  | O => Some (s, ellipsis, ip)
  | S fuel' =>
      if negb (Z.of_nat (length ip) <? IPv6len) then Some (s, ellipsis, ip) else
      let '(n, c, ok) := xtoi s in
      if negb ok || (65535 <? n) then None else
      match str_drop c s with
      | EmptyString => Some ("", ellipsis, ip ++ [Z.shiftr n 8; n mod 256])
      | String c1 s2 =>
          if Ascii.eqb c1 "."%char then
            if (match ellipsis with None => true | _ => false end)
               && negb (Z.of_nat (length ip) =? IPv6len - IPv4len) then None
            else if IPv6len <? Z.of_nat (length ip) + IPv4len then None
            else match parseIPv4 s with
                 | None => None
                 | Some ip4 => Some ("", ellipsis, ip ++ drop 12 ip4)
                 end
          else
            let ip := ip ++ [Z.shiftr n 8; n mod 256] in
            match Ascii.eqb c1 ":"%char, s2 with
            | false, _ => None
            | true, EmptyString => None
            | true, String c2 s3 =>
                if negb (Ascii.eqb c2 ":"%char) then parseIPv6_loop fuel' s2 ellipsis ip
                else match ellipsis, s3 with
                     | Some _, _ => None
                     | None, EmptyString => Some ("", Some (length ip), ip)
                     | None, _ => parseIPv6_loop fuel' s3 (Some (length ip)) ip
                     end
            end
      end
  end.

Definition parseIPv6_finish (r : option (string * option nat * list Z)) : option IP :=
  match r with
  | Some (EmptyString, ellipsis, ip) =>
      if Z.of_nat (length ip) <? IPv6len then
        match ellipsis with
        | None => None
        | Some e => Some (take e ip ++ replicate (16 - length ip) 0 ++ drop e ip)
        end
      else match ellipsis with None => Some ip | Some _ => None end
  | _ => None
  end.

Definition parseIPv6 (s : string) : option IP :=
  if HasPrefix s "::" then
    match str_drop 2 s with
    | EmptyString => Some (replicate 16 0)
    | s' => parseIPv6_finish (parseIPv6_loop 8 s' (Some 0%nat) [])
    end
  else parseIPv6_finish (parseIPv6_loop 8 s None []).

(** [net.ParseIP]: the first dot or colon tells which. *)
Fixpoint ParseIP_at (rest s : string) : option IP :=
  match rest with
  | EmptyString => None
  | String c rest' =>
      if Ascii.eqb c "."%char then parseIPv4 s
      else if Ascii.eqb c ":"%char then parseIPv6 s
      else ParseIP_at rest' s
  end.
Definition ParseIP (s : string) : option IP := ParseIP_at s s.

(** [IP.To4]. *)
Definition To4 (ip : IP) : option IP :=
  if Nat.eqb (length ip) 4 then Some ip
  else if Nat.eqb (length ip) 16 && bool_decide (take 12 ip = v4InV6Prefix) then Some (drop 12 ip)
  else None.

(** [IP.String] of an IPv4 address, in either form: all the normaliser asks
    for, since it has its own text of the others. *)
Definition dotted (p4 : list Z) : string := Join (map Itoa p4) ".".

(** ** Masks *)

Fixpoint CIDRMask_bytes (l : nat) (n : Z) : IPMask :=
  match l with
  | O => []
  | S l' =>
      if 8 <=? n then 255 :: CIDRMask_bytes l' (n - 8)
      else Z.lxor 255 (Z.shiftr 255 n) :: CIDRMask_bytes l' 0
  end.
Definition CIDRMask (ones bits : Z) : option IPMask :=
  if negb (bits =? 32) && negb (bits =? 128) then None
  else if (ones <? 0) || (bits <? ones) then None
  else Some (CIDRMask_bytes (Z.to_nat (bits / 8)) ones).

Definition Mask (ip : IP) (mask : IPMask) : option IP :=
  let mask := if Nat.eqb (length mask) 16 && Nat.eqb (length ip) 4
                 && bool_decide (take 12 mask = replicate 12 255) then drop 12 mask else mask in
  let ip := if Nat.eqb (length mask) 4 && Nat.eqb (length ip) 16
               && bool_decide (take 12 ip = v4InV6Prefix) then drop 12 ip else ip in
  if Nat.eqb (length ip) (length mask) then Some (zip_with Z.land ip mask) else None.

(** ** Hardware addresses *)

(** [xtoi2]: two digits, followed by the separator or by nothing. *)
Definition xtoi2 (s : string) (e : option ascii) : option Z :=
  if (2 <? String.length s)%nat && negb (bool_decide (String.get 2 s = e)) then None
  else let '(n, ei, ok) := xtoi (str_take 2 s) in
       if ok && Nat.eqb ei 2 then Some n else None.

Definition mac_len_ok (n : nat) : bool := bool_decide (n = 6%nat \/ n = 8%nat \/ n = 20%nat).

Fixpoint mac_bytes (n : nat) (sep : option ascii) (s : string) : option HardwareAddr :=
  match n with
  | O => Some []
  | S n' =>
      match xtoi2 s sep, mac_bytes n' sep (str_drop 3 s) with
      | Some b, Some bs => Some (b :: bs)
      | _, _ => None
      end
  end.

Fixpoint mac_words (n : nat) (sep : option ascii) (s : string) : option HardwareAddr :=
  match n with
  | O => Some []
  | S n' =>
      match xtoi2 (str_take 2 s) (Some "000"%char), xtoi2 (str_drop 2 s) sep,
            mac_words n' sep (str_drop 5 s) with
      | Some b1, Some b2, Some bs => Some (b1 :: b2 :: bs)
      | _, _, _ => None
      end
  end.

Definition ParseMAC (s : string) : option HardwareAddr :=
  let len := String.length s in
  if (len <? 14)%nat then None
  else if bool_decide (String.get 2 s = Some ":"%char \/ String.get 2 s = Some "-"%char) then
    if negb (Nat.eqb ((len + 1) mod 3) 0) then None
    else let n := ((len + 1) / 3)%nat in
         if mac_len_ok n then mac_bytes n (String.get 2 s) s else None
  else if bool_decide (String.get 4 s = Some "."%char) then
    if negb (Nat.eqb ((len + 1) mod 5) 0) then None
    else let n := (2 * (len + 1) / 5)%nat in
         if mac_len_ok n then mac_words (n / 2) (String.get 4 s) s else None
  else None.

(** [HardwareAddr.String]. *)
Definition hex2 (b : Z) : string :=
  String (hex_digit (Z.shiftr b 4)) (String (hex_digit (Z.land b 15)) "").
Definition HardwareAddr_String (a : HardwareAddr) : string := Join (map hex2 a) ":".

(** ** Lemmas: digits *)

Lemma hex_val_digit d : 0 <= d < 16 -> hex_val (hex_digit d) = Some d.
Proof.
  intros Hd. assert (In d (seqZ 0 16)) as Hin by (apply list_elem_of_In, elem_of_seqZ; lia).
  clear Hd. revert d Hin. apply List.Forall_forall. repeat constructor.
Qed.

(** Reading stops at the end of the text or at a byte that is no digit. *)
Definition stops (val : ascii -> option Z) (rest : string) : bool :=
  match rest with
  | EmptyString => true
  | String c _ => bool_decide (val c = None)
  end.

Lemma toi_digit base val c d s n i : val c = Some d -> n * base + d < big ->
  toi_loop base val (String c s) n i = toi_loop base val s (n * base + d) (S i).
Proof. intros Hc Hd. simpl. rewrite Hc. by rewrite (proj2 (Z.leb_gt _ _)). Qed.

Lemma toi_stop base val rest n i : stops val rest = true -> i <> 0%nat ->
  toi_loop base val rest n i = (n, i, true).
Proof.
  intros Hs Hi. assert (negb (Nat.eqb i 0) = true) as Hb by (destruct i; done).
  destruct rest as [|c rest]; simpl in *; [by rewrite Hb|].
  apply bool_decide_eq_true in Hs. by rewrite Hs, Hb.
Qed.

Lemma hex_digits_S fuel n : hex_digits (S fuel) n =
  (if n / 16 =? 0 then "" else hex_digits fuel (n / 16)) +:+ String (hex_digit (n mod 16)) "".
Proof. done. Qed.

Lemma toi_hex fuel : forall n rest i, 0 <= n < big -> n < 16 ^ Z.of_nat (S fuel) ->
  toi_loop 16 hex_val (hex_digits (S fuel) n +:+ rest) 0 i =
  toi_loop 16 hex_val rest n (i + String.length (hex_digits (S fuel) n)).
Proof.
  assert (Hlast : forall n rest i, 0 <= n < big ->
    toi_loop 16 hex_val (String (hex_digit (n mod 16)) rest) (n / 16) i =
    toi_loop 16 hex_val rest n (S i)).
  { intros n rest i Hn. pose proof (Z.mod_pos_bound n 16 eq_refl). pose proof (Z.div_mod n 16).
    rewrite (toi_digit _ _ _ (n mod 16)); [f_equal; lia|by apply hex_val_digit|lia]. }
  assert (Hone : forall n rest i, 0 <= n < big -> n / 16 = 0 ->
    toi_loop 16 hex_val (("" +:+ String (hex_digit (n mod 16)) "") +:+ rest) 0 i =
    toi_loop 16 hex_val rest n (i + 1)).
  { intros n rest i Hn E. pose proof (Hlast n rest i Hn) as Hl. rewrite E in Hl.
    rewrite Nat.add_1_r. exact Hl. }
  induction fuel as [|fuel IH]; intros n rest i Hn Hlt; rewrite (hex_digits_S _ n).
  - assert (n / 16 = 0) as E by (apply Z.div_small; lia). rewrite E. by apply Hone.
  - assert (0 <= n / 16 <= n) by (split; [apply Z.div_pos; lia|apply Z.div_le_upper_bound; lia]).
    destruct (Z.eqb_spec (n / 16) 0) as [E|E]; [by apply Hone|].
    rewrite append_assoc, IH.
    + change (String (hex_digit (n mod 16)) "" +:+ rest) with (String (hex_digit (n mod 16)) rest).
      rewrite Hlast by done. rewrite length_append, <- Nat.add_1_r, Nat.add_assoc. done.
    + lia.
    + apply Z.div_lt_upper_bound; [lia|]. rewrite <- Z.pow_succ_r by lia. by rewrite <- Nat2Z.inj_succ.
Qed.

Lemma hex_nonempty n : hex n <> "".
Proof.
  unfold hex. simpl. destruct (n / 16 =? 0); [done|].
  match goal with |- ?x +:+ _ <> _ => by destruct x end.
Qed.

(** What [%x] wrote is read back, up to the next byte that is no digit. *)
Lemma xtoi_hex n rest : 0 <= n <= 65535 -> stops hex_val rest = true ->
  xtoi (hex n +:+ rest) = (n, String.length (hex n), true).
Proof.
  intros Hn Hs. unfold xtoi, hex. rewrite (toi_hex 7) by (unfold big; lia).
  apply toi_stop; [done|]. fold (hex n). pose proof (hex_nonempty n). by destruct (hex n).
Qed.

(** Decimal digits: every reader of them agrees with the one writer. *)
Lemma pretty_N_char_val x : (x < 10)%N ->
  dec_val (pretty_N_char x) = Some (Z.of_N x) /\ digit_val (pretty_N_char x) = Some (Z.of_N x).
Proof.
  intros Hx. assert (x = 0 \/ x = 1 \/ x = 2 \/ x = 3 \/ x = 4 \/ x = 5 \/ x = 6 \/ x = 7 \/ x = 8 \/ x = 9)%N
    as Hc by lia.
  by destruct Hc as [->|[->|[->|[->|[->|[->|[->|[->|[->| ->]]]]]]]]].
Qed.

Lemma N_div10 x : Z.of_N (x / 10) * 10 + Z.of_N (x mod 10) = Z.of_N x.
Proof. pose proof (N.div_mod x 10). lia. Qed.

Lemma digits_val_pretty x : forall s, digits_val 10 (pretty_N_go x s) 0 = digits_val 10 s (Z.of_N x).
Proof.
  induction (N.lt_wf_0 x) as [x _ IH]; intros s.
  destruct (decide (x = 0)%N) as [->|Hx]; [by rewrite pretty_N_go_0|].
  rewrite pretty_N_go_step, IH by (try apply N.div_lt; lia).
  pose proof (N.mod_lt x 10 ltac:(done)) as Hm. destruct (pretty_N_char_val _ Hm) as [_ E].
  simpl. rewrite E, (proj2 (Z.ltb_lt _ _)) by lia. by rewrite N_div10.
Qed.

Lemma toi_pretty x : forall s i, Z.of_N x < big ->
  exists k, toi_loop 10 dec_val (pretty_N_go x s) 0 i = toi_loop 10 dec_val s (Z.of_N x) (k + i)
    /\ String.length (pretty_N_go x s) = (k + String.length s)%nat /\ (x <> 0%N -> k <> 0%nat).
Proof.
  induction (N.lt_wf_0 x) as [x _ IH]; intros s i Hb.
  destruct (decide (x = 0)%N) as [->|Hx]; [exists 0%nat; by rewrite pretty_N_go_0|].
  rewrite pretty_N_go_step by lia.
  pose proof (N.mod_lt x 10 ltac:(done)) as Hm. destruct (pretty_N_char_val _ Hm) as [E _].
  assert (x / 10 < x)%N by (apply N.div_lt; lia).
  destruct (IH (x / 10)%N ltac:(lia) (String (pretty_N_char (x mod 10)) s) i ltac:(lia)) as (k & E1 & E2 & _).
  exists (S k). rewrite E1, E2. split_and!; [|simpl; lia|lia].
  by rewrite (toi_digit _ _ _ _ _ _ _ E), N_div10 by (rewrite N_div10; lia).
Qed.

Lemma pretty_N_go_app x : forall s rest, pretty_N_go x s +:+ rest = pretty_N_go x (s +:+ rest).
Proof.
  induction (N.lt_wf_0 x) as [x _ IH]; intros s rest.
  destruct (decide (x = 0)%N) as [->|Hx]; [done|].
  rewrite 2!(pretty_N_go_step x) by lia. by rewrite IH by (apply N.div_lt; lia).
Qed.

Lemma Itoa_pos n : 0 < n -> Itoa n = pretty_N_go (Z.to_N n) "".
Proof. intros Hn. destruct n as [|p|p]; done. Qed.

Lemma Itoa_0 : Itoa 0 = "0".
Proof. done. Qed.

Lemma dtoi_Itoa n rest : 0 <= n < big -> stops dec_val rest = true ->
  dtoi (Itoa n +:+ rest) = (n, String.length (Itoa n), true).
Proof.
  intros Hn Hs. unfold dtoi. destruct (decide (n = 0)) as [->|Hz].
  { rewrite Itoa_0. change ("0" +:+ rest) with (String "0"%char rest).
    rewrite (toi_digit _ _ _ 0) by done. by apply toi_stop. }
  rewrite Itoa_pos, pretty_N_go_app by lia. change ("" +:+ rest) with rest.
  destruct (toi_pretty (Z.to_N n) rest 0 ltac:(lia)) as (k & E & Hl & Hk).
  rewrite E, toi_stop by (done || lia). rewrite Z2N.id by lia. do 2 f_equal.
  assert (String.length (pretty_N_go (Z.to_N n) "" +:+ rest) = (k + String.length rest)%nat) as Hl'
    by (rewrite pretty_N_go_app; exact Hl).
  rewrite length_append in Hl'. lia.
Qed.

Lemma pretty_N_go_length x : forall s, (String.length s <= String.length (pretty_N_go x s))%nat.
Proof.
  induction (N.lt_wf_0 x) as [x _ IH]; intros s.
  destruct (decide (x = 0)%N) as [->|Hx]; [by rewrite pretty_N_go_0|].
  rewrite pretty_N_go_step by lia. etransitivity; [|apply IH, N.div_lt; lia]. simpl. lia.
Qed.

Lemma Itoa_nonempty n : 0 <= n -> Itoa n <> "".
Proof.
  intros Hn E. destruct (decide (n = 0)) as [->|Hz]; [done|].
  rewrite Itoa_pos, pretty_N_go_step in E by lia.
  pose proof (pretty_N_go_length (Z.to_N n / 10) (String (pretty_N_char (Z.to_N n mod 10)) "")) as Hl.
  rewrite E in Hl. simpl in Hl. lia.
Qed.

(** [%d] and [strconv.ParseUint]. *)
Lemma ParseUint_Itoa n bits : 0 <= n < 2 ^ bits -> ParseUint (Itoa n) 10 bits = Some n.
Proof.
  intros Hn. assert (digits_val 10 (Itoa n) 0 = Some n) as E.
  { destruct (decide (n = 0)) as [->|Hz]; [done|]. rewrite Itoa_pos by lia.
    rewrite digits_val_pretty. simpl. by rewrite Z2N.id by lia. }
  pose proof (Itoa_nonempty n ltac:(lia)). unfold ParseUint. rewrite E.
  destruct (Itoa n); [done|]. by rewrite (proj2 (Z.ltb_lt _ _)) by lia.
Qed.

(** ** Lemmas: the bytes of a text *)

Fixpoint all_chars (f : ascii -> bool) (s : string) : bool :=
  match s with
  | EmptyString => true
  | String c s' => f c && all_chars f s'
  end.

Lemma all_chars_app f a b : all_chars f (a +:+ b) = all_chars f a && all_chars f b.
Proof. induction a as [|c a IH]; [done|]. cbn. by rewrite <- andb_assoc, <- IH. Qed.

Lemma all_chars_impl (f g : ascii -> bool) s : (forall c, f c = true -> g c = true) ->
  all_chars f s = true -> all_chars g s = true.
Proof.
  intros Hfg. induction s as [|c s IH]; [done|]. cbn. intros [Hc Hs]%andb_true_iff.
  apply andb_true_iff. auto.
Qed.

Definition is_dec (c : ascii) : bool := bool_decide (is_Some (dec_val c)).
Definition is_hex (c : ascii) : bool := bool_decide (is_Some (hex_val c)).
Definition not_char (d c : ascii) : bool := negb (Ascii.eqb c d).

Lemma is_hex_not d c : hex_val d = None -> is_hex c = true -> not_char d c = true.
Proof.
  intros Hd Hc%bool_decide_eq_true. unfold not_char. destruct (Ascii.eqb_spec c d) as [->|]; [|done].
  rewrite Hd in Hc. by destruct Hc.
Qed.

Lemma is_dec_not d c : dec_val d = None -> is_dec c = true -> not_char d c = true.
Proof.
  intros Hd Hc%bool_decide_eq_true. unfold not_char. destruct (Ascii.eqb_spec c d) as [->|]; [|done].
  rewrite Hd in Hc. by destruct Hc.
Qed.

Lemma is_hex_digit d : 0 <= d < 16 -> is_hex (hex_digit d) = true.
Proof. intros Hd. unfold is_hex. rewrite hex_val_digit by done. by apply bool_decide_eq_true. Qed.

Lemma hex_digits_chars fuel : forall n, 0 <= n -> all_chars is_hex (hex_digits fuel n) = true.
Proof.
  induction fuel as [|fuel IH]; intros n Hn; [done|]. rewrite hex_digits_S, all_chars_app.
  pose proof (Z.mod_pos_bound n 16 eq_refl). apply andb_true_iff. split.
  - destruct (n / 16 =? 0); [done|]. apply IH, Z.div_pos; lia.
  - cbn -[hex_digit is_hex]. by rewrite is_hex_digit.
Qed.

Lemma hex_chars n : 0 <= n -> all_chars is_hex (hex n) = true.
Proof. apply hex_digits_chars. Qed.

Lemma pretty_N_go_chars x : forall s, all_chars is_dec s = true -> all_chars is_dec (pretty_N_go x s) = true.
Proof.
  induction (N.lt_wf_0 x) as [x _ IH]; intros s Hs.
  destruct (decide (x = 0)%N) as [->|Hx]; [done|]. rewrite pretty_N_go_step by lia.
  apply IH; [apply N.div_lt; lia|]. cbn -[is_dec]. rewrite Hs, andb_true_r.
  unfold is_dec. pose proof (N.mod_lt x 10 ltac:(done)) as Hm.
  destruct (pretty_N_char_val _ Hm) as [E _]. rewrite E. by apply bool_decide_eq_true.
Qed.

Lemma Itoa_chars n : 0 <= n -> all_chars is_dec (Itoa n) = true.
Proof.
  intros Hn. destruct (decide (n = 0)) as [->|Hz]; [done|].
  rewrite Itoa_pos by lia. by apply pretty_N_go_chars.
Qed.

(** ** Lemmas: IPv4 *)

(** A text without dots and colons in front does not decide. *)
Definition undecided (c : ascii) : bool := not_char "."%char c && not_char ":"%char c.

Lemma ParseIP_at_undecided d : forall rest s, all_chars undecided d = true ->
  ParseIP_at (d +:+ rest) s = ParseIP_at rest s.
Proof.
  induction d as [|c d IH]; intros rest s; [done|]. cbn [all_chars].
  intros [[Hc1 Hc2]%andb_true_iff Hd]%andb_true_iff.
  apply negb_true_iff in Hc1, Hc2. change (String c d +:+ rest) with (String c (d +:+ rest)).
  cbn [ParseIP_at]. rewrite Hc1, Hc2. by apply IH.
Qed.

Lemma is_dec_undecided c : is_dec c = true -> undecided c = true.
Proof. intros Hc. unfold undecided. by rewrite !is_dec_not. Qed.
Lemma is_hex_undecided c : is_hex c = true -> undecided c = true.
Proof. intros Hc. unfold undecided. by rewrite !is_hex_not. Qed.

(** The octets that follow the first. *)
Fixpoint dot_octets (p : list Z) : string :=
  match p with
  | [] => ""
  | b :: p' => String "."%char (Itoa b +:+ dot_octets p')
  end.

Lemma dotted_cons b p : dotted (b :: p) = Itoa b +:+ dot_octets p.
Proof.
  revert b. induction p as [|c p IH]; intros b; [by rewrite append_empty_r|].
  change (dotted (b :: c :: p)) with (Itoa b +:+ "." +:+ dotted (c :: p)). by rewrite IH.
Qed.

Lemma octet_read b rest : byte_ok b -> stops dec_val rest = true ->
  dtoi (Itoa b +:+ rest) = (b, String.length (Itoa b), true) /\
  str_drop (String.length (Itoa b)) (Itoa b +:+ rest) = rest.
Proof.
  intros [Hb1 Hb2] Hs. split; [apply dtoi_Itoa; [unfold big; lia|done]|apply str_drop_app].
Qed.

Lemma dot_octets_stops p : stops dec_val (dot_octets p) = true.
Proof. by destruct p. Qed.

Lemma parseIPv4_octets p : forall acc, Forall byte_ok p ->
  parseIPv4_loop (length p) false (dot_octets p) acc = Some (IPv4 (acc ++ p)).
Proof.
  induction p as [|b p IH]; intros acc Hp; [by rewrite app_nil_r|].
  inversion Hp as [|? ? Hb Hp']; subst. cbn [length dot_octets parseIPv4_loop].
  destruct (octet_read b _ Hb (dot_octets_stops p)) as [-> ->].
  destruct Hb. cbn [negb orb]. change (Ascii.eqb "." ".") with true. cbv iota.
  rewrite (proj2 (Z.ltb_ge _ _)) by lia. rewrite IH by done. by rewrite <- app_assoc.
Qed.

Lemma parseIPv4_dotted p : length p = 4%nat -> Forall byte_ok p ->
  parseIPv4 (dotted p) = Some (IPv4 p).
Proof.
  intros Hl Hp. destruct p as [|b p]; [done|]. inversion Hp as [|? ? Hb Hp']; subst.
  rewrite dotted_cons. injection Hl as Hl. unfold parseIPv4. rewrite <- Hl. cbn [parseIPv4_loop].
  destruct (octet_read b _ Hb (dot_octets_stops p)) as [E1 E2]. rewrite E1, E2.
  pose proof (Itoa_nonempty b ltac:(destruct Hb; lia)).
  destruct (Itoa b +:+ dot_octets p) as [|c t] eqn:E; [by destruct (Itoa b)|].
  destruct Hb. cbn [negb orb]. rewrite (proj2 (Z.ltb_ge _ _)) by lia. by apply parseIPv4_octets.
Qed.

(** An IPv4 address reads back from its text. *)
Lemma ParseIP_dotted p : length p = 4%nat -> Forall byte_ok p -> ParseIP (dotted p) = Some (IPv4 p).
Proof.
  intros Hl Hp. rewrite <- (parseIPv4_dotted p) by done. unfold ParseIP.
  destruct p as [|b [|c p]]; [done|done|]. rewrite dotted_cons.
  assert (byte_ok b) as [Hb _] by (by inversion Hp).
  rewrite ParseIP_at_undecided; [done|].
  eapply all_chars_impl; [exact is_dec_undecided|by apply Itoa_chars].
Qed.

(** ** Lemmas: hardware addresses *)

Lemma hex2_read b : byte_ok b -> xtoi (hex2 b) = (b, 2%nat, true).
Proof.
  intros [Hb1 Hb2]. unfold hex2, xtoi.
  rewrite Z.shiftr_div_pow2 by lia. change 15 with (Z.ones 4). rewrite Z.land_ones by lia.
  change (2 ^ 4) with 16. pose proof (Z.mod_pos_bound b 16 eq_refl). pose proof (Z.div_mod b 16).
  assert (0 <= b / 16 < 16) by (split; [apply Z.div_pos; lia|apply Z.div_lt_upper_bound; lia]).
  rewrite (toi_digit _ _ _ (b / 16)) by (try apply hex_val_digit; unfold big; lia).
  rewrite (toi_digit _ _ _ (b mod 16)) by (try apply hex_val_digit; unfold big; lia).
  cbn. do 2 f_equal. lia.
Qed.

Lemma xtoi2_hex2 b rest : byte_ok b ->
  (rest = "" \/ String.get 0 rest = Some ":"%char) ->
  xtoi2 (hex2 b +:+ rest) (Some ":"%char) = Some b.
Proof.
  intros Hb Hr. unfold xtoi2.
  assert (str_take 2 (hex2 b +:+ rest) = hex2 b) as -> by (by destruct rest).
  rewrite hex2_read by done. cbn [andb].
  replace (negb (bool_decide (String.get 2 (hex2 b +:+ rest) = Some ":"%char)) &&
           (2 <? String.length (hex2 b +:+ rest))%nat) with false
    by (destruct Hr as [->|Hr]; [by rewrite andb_false_r|];
        change (String.get 2 (hex2 b +:+ rest)) with (String.get 0 rest); rewrite Hr; done).
  destruct Hr as [->|Hr]; [done|].
  change (String.get 2 (hex2 b +:+ rest)) with (String.get 0 rest).
  rewrite Hr. by rewrite andb_false_r.
Qed.

(** The bytes that follow the first. *)
Fixpoint colon_bytes (a : HardwareAddr) : string :=
  match a with
  | [] => ""
  | b :: a' => String ":"%char (hex2 b +:+ colon_bytes a')
  end.

Lemma HardwareAddr_String_cons b a : HardwareAddr_String (b :: a) = hex2 b +:+ colon_bytes a.
Proof.
  revert b. induction a as [|c a IH]; intros b; [done|].
  change (HardwareAddr_String (b :: c :: a)) with (hex2 b +:+ ":" +:+ HardwareAddr_String (c :: a)).
  by rewrite IH.
Qed.

Lemma colon_bytes_start a : colon_bytes a = "" \/ String.get 0 (colon_bytes a) = Some ":"%char.
Proof. destruct a; [by left|by right]. Qed.

Lemma colon_bytes_length a : String.length (colon_bytes a) = (3 * length a)%nat.
Proof. induction a as [|b a IH]; [done|].
  change (String.length (colon_bytes (b :: a))) with (3 + String.length (colon_bytes a))%nat.
  rewrite IH. cbn [length]. lia.
Qed.

Lemma mac_bytes_S n sep s : mac_bytes (S n) sep s =
  match xtoi2 s sep, mac_bytes n sep (str_drop 3 s) with
  | Some b, Some bs => Some (b :: bs)
  | _, _ => None
  end.
Proof. done. Qed.

Lemma mac_bytes_read a : Forall byte_ok a ->
  forall b, byte_ok b ->
  mac_bytes (S (length a)) (Some ":"%char) (hex2 b +:+ colon_bytes a) = Some (b :: a).
Proof.
  induction 1 as [|c a Hc Ha IH]; intros b Hb; rewrite mac_bytes_S, xtoi2_hex2
    by (done || apply colon_bytes_start); [done|].
  change (str_drop 3 (hex2 b +:+ colon_bytes (c :: a))) with (hex2 c +:+ colon_bytes a).
  cbn [length]. by rewrite (IH c Hc).
Qed.

(** A hardware address reads back from its text. *)
Lemma ParseMAC_String a : mac_len_ok (length a) = true -> Forall byte_ok a ->
  ParseMAC (HardwareAddr_String a) = Some a.
Proof.
  intros Hl Ha. destruct a as [|b a]; [done|].
  inversion Ha as [|? ? Hb Ha']; subst. rewrite HardwareAddr_String_cons.
  unfold ParseMAC.
  assert (String.length (hex2 b +:+ colon_bytes a) + 1 = length (b :: a) * 3)%nat as E.
  { rewrite length_append, colon_bytes_length. change (String.length (hex2 b)) with 2%nat. cbn [length]. lia. }
  pose proof Hl as Hn. apply bool_decide_eq_true in Hn.
  assert (String.get 2 (hex2 b +:+ colon_bytes a) = Some ":"%char) as Hg.
  { destruct (colon_bytes_start a) as [E0|E0]; [|exact E0]. destruct a; [cbn in Hn; lia|done]. }
  rewrite E, Nat.Div0.mod_mul, Nat.div_mul, Hl, Hg by lia.
  rewrite (proj2 (Nat.ltb_ge _ _)) by lia.
  rewrite bool_decide_true by (by left). by apply mac_bytes_read.
Qed.

(** ** Lemmas: masks *)

(** The number a list of bytes is, the first byte first. *)
Fixpoint be_val (p : list Z) : Z :=
  match p with
  | [] => 0
  | b :: p' => b * 256 ^ Z.of_nat (length p') + be_val p'
  end.

Lemma be_val_bounds p : Forall byte_ok p -> 0 <= be_val p < 256 ^ Z.of_nat (length p).
Proof.
  induction 1 as [|b p [Hb1 Hb2] Hp IH]; [done|]. cbn [be_val length].
  rewrite Nat2Z.inj_succ, Z.pow_succ_r by lia.
  assert (0 < 256 ^ Z.of_nat (length p)) by (apply Z.pow_pos_nonneg; lia). nia.
Qed.

Lemma be_val_zeros l : be_val (replicate l 0) = 0.
Proof. induction l as [|l IH]; [done|]. cbn [replicate be_val]. rewrite IH. lia. Qed.

(** Clearing the low [k] bits. *)
Definition clear_low (k v : Z) : Z := v / 2 ^ k * 2 ^ k.

Definition mask_byte (n : Z) : Z := Z.lxor 255 (Z.shiftr 255 n).

Lemma mask_byte_land b n : byte_ok b -> 0 <= n < 8 -> Z.land b (mask_byte n) = clear_low (8 - n) b.
Proof.
  intros Hb Hn.
  assert (forallb (fun n => forallb (fun b => Z.land b (mask_byte n) =? clear_low (8 - n) b)
    (seqZ 0 256)) (seqZ 0 8) = true) as Hall by (vm_compute; reflexivity).
  rewrite forallb_forall in Hall. specialize (Hall n).
  rewrite forallb_forall in Hall. apply Z.eqb_eq, Hall; apply list_elem_of_In, elem_of_seqZ; unfold byte_ok in Hb; lia.
Qed.

Lemma CIDRMask_bytes_length l : forall n, length (CIDRMask_bytes l n) = l.
Proof. induction l as [|l IH]; intros n; [done|]. cbn. by destruct (8 <=? n); cbn; rewrite IH. Qed.

Lemma CIDRMask_bytes_0 p : forall l, Forall byte_ok p -> length p = l ->
  zip_with Z.land p (CIDRMask_bytes l 0) = replicate l 0.
Proof.
  induction p as [|b p IH]; intros l Hp <-; [done|]. inversion Hp; subst.
  cbn [length CIDRMask_bytes zip_with replicate]. change (8 <=? 0) with false. cbv iota.
  cbn [zip_with]. rewrite IH by done. change (Z.lxor 255 (Z.shiftr 255 0)) with 0. by rewrite Z.land_0_r.
Qed.

(** Masking clears the bits after the first [n]. *)
Lemma masked_value p : forall n, Forall byte_ok p -> 0 <= n <= 8 * Z.of_nat (length p) ->
  be_val (zip_with Z.land p (CIDRMask_bytes (length p) n)) =
  clear_low (8 * Z.of_nat (length p) - n) (be_val p).
Proof.
  induction p as [|b p IH]; intros n Hp Hn.
  { cbn in *. replace n with 0 by lia. done. }
  inversion Hp as [|? ? Hb Hp']; subst. cbn [length CIDRMask_bytes].
  pose proof (be_val_bounds p Hp') as Hv. set (L := Z.of_nat (length p)) in *.
  assert (Z.of_nat (S (length p)) = L + 1) as EL by lia. rewrite EL. cbn [length] in Hn.
  assert (256 ^ L = 2 ^ (8 * L)) as EP by (rewrite Z.pow_mul_r by lia; done).
  destruct (Z.leb_spec 8 n) as [H8|H8]; cbn [zip_with be_val];
    rewrite length_zip_with, CIDRMask_bytes_length, Nat.min_id; fold L.
  - rewrite (IH (n - 8) Hp' ltac:(lia)). change 255 with (Z.ones 8). rewrite Z.land_ones, Z.mod_small
      by (unfold byte_ok in Hb; lia).
    unfold clear_low. replace (8 * (L + 1) - n) with (8 * L - (n - 8)) by lia.
    set (k := 8 * L - (n - 8)). assert (0 <= k <= 8 * L) by lia.
    rewrite EP. replace (2 ^ (8 * L)) with (2 ^ (8 * L - k) * 2 ^ k) by (rewrite <- Z.pow_add_r by lia; f_equal; lia).
    rewrite Z.mul_assoc, Z.div_add_l by (apply Z.pow_nonzero; lia). lia.
  - fold (mask_byte n). rewrite mask_byte_land by (done || lia).
    rewrite CIDRMask_bytes_0 by done. rewrite be_val_zeros, Z.add_0_r. unfold clear_low.
    replace (8 * (L + 1) - n) with (8 * L + (8 - n)) by lia.
    rewrite EP in *. rewrite !Z.pow_add_r by lia.
    rewrite <- Z.div_div by (try apply Z.pow_nonzero; try apply Z.pow_pos_nonneg; lia).
    rewrite Z.div_add_l by (apply Z.pow_nonzero; lia). rewrite (Z.div_small (be_val p)) by lia. 
    rewrite Z.add_0_r. lia.
Qed.

(** ** Lemmas: IPv6 *)

(** The 16-bit groups of an address and the bytes of groups. *)
Fixpoint groups (p : list Z) : list Z :=
  match p with
  | a :: b :: p' => Z.lor (Z.shiftl a 8) b :: groups p'
  | _ => []
  end.
Definition group_bytes (w : Z) : list Z := [Z.shiftr w 8; w mod 256].
Definition ungroup (ws : list Z) : list Z := flat_map group_bytes ws.
Definition group_ok (w : Z) : Prop := 0 <= w <= 65535.

Lemma lor_bytes a b : byte_ok a -> byte_ok b -> Z.lor (Z.shiftl a 8) b = a * 256 + b.
Proof.
  intros [Ha1 Ha2] [Hb1 Hb2]. pose proof (Z.add_lor_land (Z.shiftl a 8) b) as Hsum.
  rewrite Z.shiftl_mul_pow2 in * by lia.
  enough (Z.land (a * 2 ^ 8) b = 0) as E by (rewrite E in Hsum; lia).
  apply Z.bits_inj'. intros n Hn. rewrite Z.land_spec, Z.bits_0.
  destruct (Z_lt_dec n 8).
  - by rewrite Z.mul_pow2_bits_low by lia.
  - rewrite <- (Z.mod_small b (2 ^ 8)), Z.mod_pow2_bits_high by lia. apply andb_false_r.
Qed.

Lemma group_bytes_lor a b : byte_ok a -> byte_ok b -> group_bytes (Z.lor (Z.shiftl a 8) b) = [a; b].
Proof.
  intros Ha Hb. rewrite lor_bytes by done. destruct Ha, Hb. unfold group_bytes.
  rewrite Z.shiftr_div_pow2 by lia. change (2 ^ 8) with 256.
  rewrite Z.div_add_l, Z.div_small, Z.add_0_r by lia.
  by rewrite (Z.add_comm (a * 256)), Z.mod_add, Z.mod_small by lia.
Qed.

Lemma ungroup_groups n : forall p, length p = (2 * n)%nat -> Forall byte_ok p ->
  ungroup (groups p) = p /\ length (groups p) = n /\ Forall group_ok (groups p).
Proof.
  induction n as [|n IH]; intros p Hl Hp; [by destruct p|].
  destruct p as [|a [|b p]]; [simpl in Hl; lia..|]. simpl in Hl.
  inversion Hp as [|? ? Ha Hp1]; subst. inversion Hp1 as [|? ? Hb Hp2]; subst.
  destruct (IH p ltac:(lia) Hp2) as (E1 & E2 & E3).
  cbn [groups ungroup flat_map]. unfold ungroup in E1. rewrite E1, group_bytes_lor by done.
  split_and!; [done|cbn [length]; by rewrite E2|]. constructor; [|done].
  rewrite lor_bytes by done. destruct Ha, Hb. unfold group_ok. lia.
Qed.

Lemma ungroup_app a b : ungroup (a ++ b) = ungroup a ++ ungroup b.
Proof. apply flat_map_app. Qed.

Lemma ungroup_length ws : length (ungroup ws) = (2 * length ws)%nat.
Proof. induction ws as [|w ws IH]; [done|]. cbn -[Nat.mul]. unfold ungroup in IH. rewrite IH. lia. Qed.

Lemma ungroup_zeros n : ungroup (replicate n 0) = replicate (2 * n) 0.
Proof.
  induction n as [|n IH]; [done|]. replace (2 * S n)%nat with (S (S (2 * n))) by lia.
  cbn [replicate]. rewrite <- IH. done.
Qed.

(** Groups as text. *)
Fixpoint colon_groups (ws : list Z) : string :=
  match ws with
  | [] => ""
  | w :: ws' => String ":"%char (hex w +:+ colon_groups ws')
  end.
Definition group_text (ws : list Z) : string :=
  match ws with
  | [] => ""
  | w :: ws' => hex w +:+ colon_groups ws'
  end.

(** What the loop does once a group is read. *)
Definition parse_next (fuel : nat) (rest : string) (ellipsis : option nat) (ip : list Z)
    : option (string * option nat * list Z) :=
  match rest with
  | EmptyString => Some ("", ellipsis, ip)
  | String _ s2 =>
      match s2 with
      | EmptyString => None
      | String c2 s3 =>
          if negb (Ascii.eqb c2 ":"%char) then parseIPv6_loop fuel s2 ellipsis ip
          else match ellipsis, s3 with
               | Some _, _ => None
               | None, EmptyString => Some ("", Some (length ip), ip)
               | None, _ => parseIPv6_loop fuel s3 (Some (length ip)) ip
               end
      end
  end.

(** The end of the text, or a colon. *)
Definition colon_next (rest : string) : bool :=
  match rest with
  | EmptyString => true
  | String c _ => Ascii.eqb c ":"%char
  end.

Lemma colon_next_stops rest : colon_next rest = true -> stops hex_val rest = true.
Proof. destruct rest as [|c rest]; [done|]. cbn. by intros ->%Ascii.eqb_eq. Qed.

Lemma parse_group fuel w rest ellipsis ip : group_ok w -> colon_next rest = true ->
  (length ip < 16)%nat ->
  parseIPv6_loop (S fuel) (hex w +:+ rest) ellipsis ip =
  parse_next fuel rest ellipsis (ip ++ group_bytes w).
Proof.
  intros Hw Hr Hl. cbn [parseIPv6_loop].
  rewrite (proj2 (Z.ltb_lt _ _)) by (unfold IPv6len; lia).
  rewrite xtoi_hex by (done || by apply colon_next_stops).
  rewrite (proj2 (Z.ltb_ge _ _)) by (unfold group_ok in Hw; lia). cbn [negb orb].
  rewrite str_drop_app. destruct rest as [|c rest]; [done|].
  cbn in Hr. apply Ascii.eqb_eq in Hr as ->. done.
Qed.

(** The first byte of a group is neither a colon nor missing. *)
Lemma hex_starts w : 0 <= w -> exists c s, hex w = String c s /\ Ascii.eqb c ":"%char = false.
Proof.
  intros Hw. pose proof (hex_chars w Hw) as Hc. pose proof (hex_nonempty w).
  destruct (hex w) as [|c s] eqn:E; [done|]. exists c, s. split; [done|].
  apply andb_true_iff in Hc as [Hc _]. apply negb_true_iff. exact (is_hex_not ":" c eq_refl Hc).
Qed.

Lemma parse_next_group fuel w rest ellipsis ip : group_ok w ->
  parse_next fuel (String ":"%char (hex w +:+ rest)) ellipsis ip =
  parseIPv6_loop fuel (hex w +:+ rest) ellipsis ip.
Proof.
  intros [Hw _]. destruct (hex_starts w Hw) as (c & s & E & Hc). rewrite E.
  change (String c s +:+ rest) with (String c (s +:+ rest)). cbn [parse_next]. by rewrite Hc.
Qed.

Lemma colon_next_groups ws tail : colon_next tail = true -> colon_next (colon_groups ws +:+ tail) = true.
Proof. by destruct ws. Qed.

Lemma parse_groups ws : forall w fuel tail ellipsis ip,
  Forall group_ok (w :: ws) -> colon_next tail = true -> (length ip + 2 * length ws < 16)%nat ->
  parseIPv6_loop (S (length ws) + fuel) (hex w +:+ colon_groups ws +:+ tail) ellipsis ip =
  parse_next fuel tail ellipsis (ip ++ ungroup (w :: ws)).
Proof.
  induction ws as [|w' ws IH]; intros w fuel tail ellipsis ip Hws Ht Hl;
    inversion Hws as [|? ? Hw Hws']; subst.
  - rewrite parse_group by (done || (cbn in Hl; lia)). done.
  - cbn [length] in Hl. change (S (length (w' :: ws)) + fuel)%nat with (S (S (length ws) + fuel)).
    rewrite parse_group by (by apply colon_next_groups || done || lia).
    cbn [colon_groups]. change (String ":" (hex w' +:+ colon_groups ws) +:+ tail) with
      (String ":" ((hex w' +:+ colon_groups ws) +:+ tail)).
    rewrite append_assoc, parse_next_group by (by inversion Hws').
    rewrite IH by (done || (rewrite length_app; cbn [group_bytes length]; lia)).
    by rewrite <- app_assoc.
Qed.

(** ** Lemmas: what a parsed address is *)

(** Digits read are no [d], for a byte [d] that is no digit. *)
Lemma toi_rest base val d s : val d = None -> forall n i,
  let '(_, j, _) := toi_loop base val s n i in
  (i <= j)%nat /\ (all_chars (not_char d) (str_drop (j - i) s) = true -> all_chars (not_char d) s = true).
Proof.
  intros Hd. induction s as [|c s IH]; intros n i; cbn [toi_loop].
  { by rewrite Nat.sub_diag. }
  destruct (val c) as [v|] eqn:Hc; [|by rewrite Nat.sub_diag].
  destruct (big <=? n * base + v); [by rewrite Nat.sub_diag|].
  specialize (IH (n * base + v) (S i)). destruct (toi_loop base val s _ (S i)) as [[n' j] ok].
  destruct IH as [Hj IH]. split; [lia|].
  replace (j - i)%nat with (S (j - S i)) by lia. cbn [str_drop all_chars]. intros Hr.
  apply andb_true_iff. split; [|by apply IH]. apply negb_true_iff.
  destruct (Ascii.eqb_spec c d) as [->|]; [|done]. by rewrite Hd in Hc.
Qed.

Lemma dtoi_rest d s n i ok : dec_val d = None -> dtoi s = (n, i, ok) ->
  all_chars (not_char d) (str_drop i s) = true -> all_chars (not_char d) s = true.
Proof.
  intros Hd E. pose proof (toi_rest 10 dec_val d s Hd 0 0) as H. unfold dtoi in E. rewrite E in H.
  rewrite Nat.sub_0_r in H. apply H.
Qed.

Lemma xtoi_rest d s n i ok : hex_val d = None -> xtoi s = (n, i, ok) ->
  all_chars (not_char d) (str_drop i s) = true -> all_chars (not_char d) s = true.
Proof.
  intros Hd E. pose proof (toi_rest 16 hex_val d s Hd 0 0) as H. unfold xtoi in E. rewrite E in H.
  rewrite Nat.sub_0_r in H. apply H.
Qed.

Lemma toi_nonneg base val s : 0 <= base -> (forall c v, val c = Some v -> 0 <= v) ->
  forall n i, 0 <= n -> 0 <= (toi_loop base val s n i).1.1.
Proof.
  intros Hb Hv. induction s as [|c s IH]; intros n i Hn; [done|]. cbn [toi_loop].
  destruct (val c) as [v|] eqn:E; [|done]. apply Hv in E. destruct (big <=? n * base + v); [cbn; nia|].
  apply IH. nia.
Qed.

Lemma dec_val_nonneg c v : dec_val c = Some v -> 0 <= v.
Proof. unfold dec_val. case_match eqn:E; [|done]. intros [= <-]. apply andb_true_iff in E as [E _]. lia. Qed.
Lemma hex_val_nonneg c v : hex_val c = Some v -> 0 <= v.
Proof. unfold hex_val. repeat case_match; intros [= <-]; repeat match goal with H : _ && _ = true |- _ => apply andb_true_iff in H as [? ?] end; lia. Qed.

Lemma dtoi_nonneg s n i ok : dtoi s = (n, i, ok) -> 0 <= n.
Proof.
  intros E. pose proof (toi_nonneg 10 dec_val s ltac:(lia) dec_val_nonneg 0 0 ltac:(lia)) as H.
  unfold dtoi in E. by rewrite E in H.
Qed.
Lemma xtoi_nonneg s n i ok : xtoi s = (n, i, ok) -> 0 <= n.
Proof.
  intros E. pose proof (toi_nonneg 16 hex_val s ltac:(lia) hex_val_nonneg 0 0 ltac:(lia)) as H.
  unfold xtoi in E. by rewrite E in H.
Qed.

(** What a successful read of [s] says of a byte [d] that is neither a digit
    nor a separator. *)
Definition foreign_byte (d : ascii) : Prop := hex_val d = None /\ d <> "."%char /\ d <> ":"%char.

Lemma hex_dec_none d : hex_val d = None -> dec_val d = None.
Proof. unfold hex_val, dec_val. by case_match. Qed.

Lemma parseIPv4_loop_inv d left : dec_val d = None -> d <> "."%char -> forall first s p ip,
  parseIPv4_loop left first s p = Some ip -> Forall byte_ok p ->
  (exists q, ip = IPv4 q /\ length q = (length p + left)%nat /\ Forall byte_ok q) /\
  all_chars (not_char d) s = true.
Proof.
  intros Hd Hdot. induction left as [|left IH]; intros first s p ip; cbn [parseIPv4_loop].
  { destruct s; [|done]. intros [= <-] Hp. split; [|done]. exists p. by rewrite Nat.add_0_r. }
  destruct s as [|c s]; [done|]. intros E Hp.
  assert (Hoct : forall t, (let '(n, i, ok) := dtoi t in
     if negb ok || (255 <? n) then None else parseIPv4_loop left false (str_drop i t) (p ++ [n])) = Some ip ->
     (exists q, ip = IPv4 q /\ length q = (length p + S left)%nat /\ Forall byte_ok q) /\
     all_chars (not_char d) t = true).
  { intros t. destruct (dtoi t) as [[n i] ok] eqn:Et. destruct (negb ok || (255 <? n)) eqn:Eb; [done|].
    apply orb_false_iff in Eb as [_ Hn%Z.ltb_ge]. pose proof (dtoi_nonneg _ _ _ _ Et). intros Er.
    destruct (IH _ _ _ _ Er) as [(q & -> & Hq & Hok) Ha].
    { apply Forall_app. split; [done|]. constructor; [split; lia|done]. }
    rewrite length_app in Hq. cbn in Hq. split; [exists q; split_and!; [done|lia|done]|].
    by eapply dtoi_rest. }
  destruct first; [by apply Hoct|]. destruct (Ascii.eqb_spec c ".") as [->|]; [|done].
  destruct (Hoct s E) as [Hq Ha]. split; [done|]. cbn [all_chars]. rewrite Ha, andb_true_r.
  apply negb_true_iff. by apply Ascii.eqb_neq.
Qed.

Lemma parseIPv4_inv d s ip : dec_val d = None -> d <> "."%char -> parseIPv4 s = Some ip ->
  (exists q, ip = IPv4 q /\ length q = 4%nat /\ Forall byte_ok q) /\ all_chars (not_char d) s = true.
Proof. intros Hd Hdot E. by apply (parseIPv4_loop_inv d 4 Hd Hdot true s [] ip E). Qed.

Lemma not_char_cons d c s : c <> d -> all_chars (not_char d) s = true -> all_chars (not_char d) (String c s) = true.
Proof.
  intros Hc Hs. cbn [all_chars]. rewrite Hs, andb_true_r. apply negb_true_iff. by apply Ascii.eqb_neq.
Qed.

Definition half (ip : list Z) : Prop := exists k, length ip = (2 * k)%nat /\ (k <= 8)%nat.

Lemma parseIPv6_loop_inv d fuel : foreign_byte d -> forall s e ip s' e' ip',
  parseIPv6_loop fuel s e ip = Some (s', e', ip') -> Forall byte_ok ip -> half ip ->
  Forall byte_ok ip' /\ half ip' /\ (s' = "" -> all_chars (not_char d) s = true).
Proof.
  intros (Hd & Hdot & Hcol). induction fuel as [|fuel IH]; intros s e ip s' e' ip'; cbn [parseIPv6_loop].
  { intros [= <- <- <-] Hok Hl. split_and!; [done..|by intros ->]. }
  destruct (Z.ltb_spec (Z.of_nat (length ip)) IPv6len) as [Hlt|Hge]; cbn [negb].
  2:{ intros [= <- <- <-] Hok Hl. split_and!; [done..|by intros ->]. }
  destruct (xtoi s) as [[n c] ok] eqn:Ex. destruct (negb ok || (65535 <? n)) eqn:Eb; [done|].
  apply orb_false_iff in Eb as [_ Hn%Z.ltb_ge]. pose proof (xtoi_nonneg _ _ _ _ Ex) as Hn0.
  pose proof (xtoi_rest d s n c ok Hd Ex) as Hrest. intros E Hok (k & Hk & Hk8).
  assert (Forall byte_ok (ip ++ group_bytes n) /\ half (ip ++ group_bytes n)) as [Hok' Hhalf'].
  { split.
    - apply Forall_app. split; [done|]. unfold group_bytes. rewrite Z.shiftr_div_pow2 by lia.
      pose proof (Z.mod_pos_bound n 256 eq_refl). repeat constructor; try lia.
      + apply Z.div_pos; lia.
      + apply Z.div_lt_upper_bound; lia.
    - exists (S k). rewrite length_app. cbn [group_bytes length]. unfold IPv6len in Hlt. lia. }
  fold (group_bytes n) in E. destruct (str_drop c s) as [|c1 s2] eqn:Es.
  { injection E as <- <- <-. split_and!; [done..|]. intros _. by apply Hrest. }
  destruct (Ascii.eqb_spec c1 ".") as [->|Hc1].
  - destruct (match e with None => true | _ => false end && _); [done|].
    destruct (Z.ltb_spec IPv6len (Z.of_nat (length ip) + IPv4len)) as [|Hroom]; [done|].
    destruct (parseIPv4 s) as [ip4|] eqn:E4; [|done]. injection E as <- <- <-.
    destruct (parseIPv4_inv d s ip4 (hex_dec_none d Hd) Hdot E4) as [(q & -> & Hq & Hqok) Ha].
    change (drop 12 (IPv4 q)) with q. split_and!; [by apply Forall_app| |done].
    exists (k + 2)%nat. rewrite length_app. unfold IPv6len, IPv4len in *. lia.
  - destruct (Ascii.eqb_spec c1 ":") as [->|]; [|done]. destruct s2 as [|c2 s3]; [done|].
    destruct (Ascii.eqb_spec c2 ":") as [->|Hc2]; cbn [negb] in E.
    + destruct e as [e|]; [done|]. destruct s3 as [|c3 s3].
      * injection E as <- <- <-. split_and!; [done..|]. intros _. apply Hrest.
        by repeat (apply not_char_cons; [by intros <-|]).
      * destruct (IH _ _ _ _ _ _ E Hok' Hhalf') as (H1 & H2 & H3). split_and!; [done..|].
        intros Hs'. apply Hrest. repeat (apply not_char_cons; [by intros <-|]). by apply H3.
    + destruct (IH _ _ _ _ _ _ E Hok' Hhalf') as (H1 & H2 & H3). split_and!; [done..|].
      intros Hs'. apply Hrest. apply not_char_cons; [by intros <-|by apply H3].
Qed.

Definition addr_ok (p : IP) : Prop := length p = 16%nat /\ Forall byte_ok p.

Lemma zeros_ok n : Forall byte_ok (replicate n 0).
Proof. apply Forall_replicate. split; lia. Qed.

Lemma parseIPv6_finish_inv d fuel s e ip : foreign_byte d ->
  parseIPv6_finish (parseIPv6_loop fuel s e []) = Some ip ->
  addr_ok ip /\ all_chars (not_char d) s = true.
Proof.
  intros Hd. destruct (parseIPv6_loop fuel s e []) as [[[s' e'] q]|] eqn:E; [|done].
  cbn [parseIPv6_finish]. destruct s' as [|]; [|done].
  destruct (parseIPv6_loop_inv d fuel Hd _ _ _ _ _ _ E) as (Hok & (k & Hk & Hk8) & Ha);
    [done|exists 0%nat; split; [done|lia]|].
  specialize (Ha eq_refl). unfold IPv6len.
  destruct (Z.ltb_spec (Z.of_nat (length q)) 16); destruct e' as [e'|]; [|done..|].
  - intros [= <-]. split; [|done]. split.
    + rewrite !length_app, length_replicate, length_take, length_drop. lia.
    + rewrite !Forall_app. split_and!; [by apply Forall_take|apply zeros_ok|by apply Forall_drop].
  - intros [= <-]. split; [split; [lia|done]|done].
Qed.

Lemma parseIPv6_inv d s ip : foreign_byte d -> parseIPv6 s = Some ip ->
  addr_ok ip /\ all_chars (not_char d) s = true.
Proof.
  intros Hd. unfold parseIPv6. destruct (HasPrefix s "::") eqn:Ep; [|by apply parseIPv6_finish_inv].
  apply HasPrefix_spec in Ep as [t ->]. change (str_drop 2 ("::" +:+ t)) with t.
  assert (Hc : all_chars (not_char d) t = true -> all_chars (not_char d) ("::" +:+ t) = true).
  { intros Ht. destruct Hd as (_ & _ & Hc). by repeat (apply not_char_cons; [by intros <-|]). }
  destruct t as [|c t].
  - intros [= <-]. split; [split; [done|apply (zeros_ok 16)]|by apply Hc].
  - intros E. destruct (parseIPv6_finish_inv _ _ _ _ _ Hd E) as [H1 H2]. split; [done|by apply Hc].
Qed.

Lemma IPv4_ok q : length q = 4%nat -> Forall byte_ok q -> addr_ok (IPv4 q).
Proof.
  intros Hl Hq. split; [unfold IPv4; by rewrite length_app, Hl|]. apply Forall_app. split; [|done].
  repeat constructor; unfold byte_ok; lia.
Qed.

(** An address that was parsed has 16 bytes, and its text only digits, dots and
    colons. *)
Lemma ParseIP_inv d s ip : foreign_byte d -> ParseIP s = Some ip ->
  addr_ok ip /\ all_chars (not_char d) s = true.
Proof.
  intros Hd. unfold ParseIP. generalize s at 1. intros rest.
  induction rest as [|c rest IH]; [done|]. cbn [ParseIP_at].
  destruct (Ascii.eqb c "."); [|destruct (Ascii.eqb c ":"); [by apply parseIPv6_inv|done]].
  intros E. destruct Hd as (Hd & Hdot & _).
  destruct (parseIPv4_inv d s ip (hex_dec_none d Hd) Hdot E) as [(q & -> & Hq & Hok) Ha].
  split; [by apply IPv4_ok|done].
Qed.

(** Without a colon it is an IPv4 address. *)
Lemma ParseIP_no_colon s ip : all_chars (not_char ":"%char) s = true -> ParseIP s = Some ip ->
  exists q, ip = IPv4 q /\ length q = 4%nat /\ Forall byte_ok q.
Proof.
  unfold ParseIP. intros Hs. assert (forall rest, all_chars (not_char ":"%char) rest = true ->
    ParseIP_at rest s = Some ip -> exists q, ip = IPv4 q /\ length q = 4%nat /\ Forall byte_ok q) as H; [|by apply H].
  induction rest as [|c rest IH]; [done|]. cbn [ParseIP_at all_chars].
  intros [Hc Hr]%andb_true_iff. apply negb_true_iff in Hc. rewrite Hc.
  destruct (Ascii.eqb c "."); [|by apply IH].
  intros E. by destruct (parseIPv4_inv "/" s ip eq_refl ltac:(done) E).
Qed.
