(* ===== verification/Normalize.v ===== *)
(** [cmd/normalize]: the canonical texts of MAC and IP addresses and prefixes,
    which configuration scripts compare as strings.  A text that is not an
    address is left as it is.  The one run-time panic, an empty token where a
    negated one may stand, is [None]. *)

From S2P Require Import Prelude GoLib NetAddr.

Open Scope Z_scope.

Definition MAC_LEN : nat := 6.

(** ** normalize.go *)

Fixpoint parse_elems (melem : list string) : option HardwareAddr :=
  match melem with
  | [] => Some []
  | v :: melem' =>
      match ParseUint v 16 8, parse_elems melem' with
      | Some a, Some hwaddr => Some (a :: hwaddr)
      | _, _ => None
      end
  end.
Definition parseMac48 (mac : string) : option HardwareAddr :=
  let melem := Split mac ":"%char in
  if negb (Nat.eqb (length melem) MAC_LEN) then None else parse_elems melem.

(** The loop from [j] over zero groups: where it stops. *)
Fixpoint zero_run (fuel : nat) (p : IP) (j : Z) : Z :=
  match fuel with
  | O => j
  | S fuel' =>
      if (j <? IPv6len) && (byte_at p j =? 0) && (byte_at p (j + 1) =? 0)
      then zero_run fuel' p (j + 2) else j
  end.

(** The longest run of zeros, the first of those; an address has eight groups,
    so each loop turns at most eight times. *)
Fixpoint longest_run (fuel : nat) (p : IP) (i e0 e1 : Z) : Z * Z :=
  match fuel with
  | O => (e0, e1)
  | S fuel' =>
      if negb (i <? IPv6len) then (e0, e1) else
      let j := zero_run 8 p i in
      if (i <? j) && (e1 - e0 <? j - i) then longest_run fuel' p (j + 2) i j
      else longest_run fuel' p (i + 2) e0 e1
  end.

Definition shortened_run (p : IP) : Z * Z :=
  let '(e0, e1) := longest_run 8 p 0 (-1) (-1) in
  if e1 - e0 <=? 2 then (-1, -1) else (e0, e1).

Definition group_at (p : IP) (i : Z) : Z := Z.lor (Z.shiftl (byte_at p i) 8) (byte_at p (i + 1)).

Fixpoint print_groups (fuel : nat) (p : IP) (e0 e1 i : Z) (b : string) : string :=
  match fuel with
  | O => b
  | S fuel' =>
      if negb (i <? IPv6len) then b else
      if i =? e0 then
        let b := b +:+ "::" in
        let i := e1 in
        if IPv6len <=? i then b
        else print_groups fuel' p e0 e1 (i + 2) (b +:+ hex (group_at p i))
      else
        let b := if 0 <? i then b +:+ ":" else b in
        print_groups fuel' p e0 e1 (i + 2) (b +:+ hex (group_at p i))
  end.

Definition Ipv6String (p : IP) : string :=
  if negb (Z.of_nat (length p) =? IPv6len) then "?"
  else let '(e0, e1) := shortened_run p in print_groups 8 p e0 e1 0 "".

(** [net.IP.String], of which [Ipv6String] is a copy without the first case. *)
Definition IP_String (ip : IP) : string :=
  match ip with
  | [] => "<nil>"
  | _ =>
      match To4 ip with
      | Some p4 => dotted p4
      | None =>
          if Nat.eqb (length ip) 16 then Ipv6String ip
          else "?" +:+ String.concat "" (map hex2 ip)
      end
  end.

Definition NormalizeMac (token : string) : string :=
  match ParseMAC token with
  | Some hw => HardwareAddr_String hw
  | None =>
      match parseMac48 token with
      | Some hw => HardwareAddr_String hw
      | None => token
      end
  end.

Definition NormalizeNumber (token : string) : string :=
  match ParseUint token 10 64 with
  | None => token
  | Some number => Itoa number
  end.

(** A token around its first slash. *)
Definition cut_slash (token : string) : option (string * string) :=
  match String.index 0 "/" token with
  | Some i => Some (str_take i token, str_drop (S i) token)
  | None => None
  end.

(** The recursion is on what precedes a slash, a shorter text. *)
Fixpoint NormalizeIPv4_fuel (fuel : nat) (token : string) : string :=
  match fuel with
  | O => token
  | S fuel' =>
      if Contains token ":" then token
      else match ParseIP token with
           | Some ip => IP_String ip
           | None =>
               match cut_slash token with
               | Some (addr, mask) => NormalizeIPv4_fuel fuel' addr +:+ "/" +:+ NormalizeNumber mask
               | None => token
               end
           end
  end.
Definition NormalizeIPv4 (token : string) : string :=
  NormalizeIPv4_fuel (S (String.length token)) token.

Definition normNeg (token : string) (norm : string -> string) : option string :=
  match token with
  | EmptyString => None
  | String c rest => Some (if Ascii.eqb c "!"%char then "!" +:+ norm rest else token)
  end.

Definition NormalizeNegIPv4 (token : string) : option string := normNeg token NormalizeIPv4.

(** [addr.Mask(mask).String()]; the mask is nil for a number of bits the code
    has excluded, the address for a mask of another length. *)
Definition mask_ip (addr : IP) (mask : option IPMask) : IP :=
  match mask with
  | Some m => match Mask addr m with Some ip => ip | None => [] end
  | None => match Mask addr [] with Some ip => ip | None => [] end
  end.

Definition NormalizeIPv4prefix (token : string) : string :=
  if Contains token ":" then token
  else match cut_slash token with
       | None => token
       | Some (addr_string, mask_string) =>
           match ParseIP addr_string with
           | None => token
           | Some addr =>
               match ParseUint mask_string 10 64 with
               | None => token
               | Some maskbits =>
                   if 32 <? maskbits then IP_String addr +:+ "/" +:+ Itoa maskbits
                   else IP_String (mask_ip addr (CIDRMask maskbits (IPv4len * 8)))
                        +:+ "/" +:+ Itoa maskbits
               end
           end
       end.

Definition NormalizeNegIPv4prefix (token : string) : option string :=
  normNeg token NormalizeIPv4prefix.

Definition NormalizeIPv6prefix (token : string) : string :=
  if negb (Contains token ":") then token
  else match cut_slash token with
       | None => token
       | Some (addr_string, mask_string) =>
           match ParseIP addr_string with
           | None => token
           | Some addr =>
               match ParseUint mask_string 10 64 with
               | None => token
               | Some maskbits =>
                   if 128 <? maskbits then Ipv6String addr +:+ "/" +:+ Itoa maskbits
                   else Ipv6String (mask_ip addr (CIDRMask maskbits (IPv6len * 8)))
                        +:+ "/" +:+ Itoa maskbits
               end
           end
       end.

Definition NormalizeNegIPv6prefix (token : string) : option string :=
  normNeg token NormalizeIPv6prefix.

Fixpoint NormalizeIPv6_fuel (fuel : nat) (token : string) : string :=
  match fuel with
  | O => token
  | S fuel' =>
      if negb (Contains token ":") then token
      else match ParseIP token with
           | Some ip => Ipv6String ip
           | None =>
               match cut_slash token with
               | Some (addr, mask) => NormalizeIPv6_fuel fuel' addr +:+ "/" +:+ NormalizeNumber mask
               | None => token
               end
           end
  end.
Definition NormalizeIPv6 (token : string) : string :=
  NormalizeIPv6_fuel (S (String.length token)) token.

Definition NormalizeNegIPv6 (token : string) : option string := normNeg token NormalizeIPv6.

Definition NormalizeIP (token : string) : string :=
  if Contains token ":" then NormalizeIPv6 token
  else if Contains token "." then NormalizeIPv4 token
  else token.

Definition NormalizeNegIP (token : string) : option string :=
  if Contains token ":" then NormalizeNegIPv6 token
  else if Contains token "." then NormalizeNegIPv4 token
  else Some token.

Definition NormalizeIPprefix (token : string) : string :=
  if Contains token ":" then NormalizeIPv6prefix token
  else if Contains token "." then NormalizeIPv4prefix token
  else token.

Definition NormalizeNegIPprefix (token : string) : option string :=
  if Contains token ":" then NormalizeNegIPv6prefix token
  else if Contains token "." then NormalizeNegIPv4prefix token
  else Some token.

Definition NormalizeString (token : string) : option string :=
  let token := NormalizeIP token in
  match NormalizeNegIP token with
  | Some token => Some (NormalizeMac token)
  | None => None
  end.

(** ** main.go *)

Definition normalizationFn : Type := string -> option string.
Record normalizationType := {
  nt_name : string;
  nt_help : string;
  nt_function : normalizationFn
}.

Definition total (f : string -> string) : normalizationFn := fun token => Some (f token).

Definition typeTable : list normalizationType := [
  {| nt_name := "legacy"; nt_help := "Best effort matching of type"; nt_function := NormalizeString |};
  {| nt_name := "mac"; nt_help := "MAC address"; nt_function := total NormalizeMac |};
  {| nt_name := "ip"; nt_help := "IPv4 or IPv6 address or CIDR"; nt_function := total NormalizeIP |};
  {| nt_name := "ipv4"; nt_help := "IPv4 address or CIDR"; nt_function := total NormalizeIPv4 |};
  {| nt_name := "ipv6"; nt_help := "IPv6 address or CIDR"; nt_function := total NormalizeIPv6 |};
  {| nt_name := "ipv4-prefix"; nt_help := "IPv4 prefix"; nt_function := total NormalizeIPv4prefix |};
  {| nt_name := "ipv6-prefix"; nt_help := "IPv6 prefix"; nt_function := total NormalizeIPv6prefix |};
  {| nt_name := "ip-prefix"; nt_help := "IP prefix"; nt_function := total NormalizeIPprefix |};
  {| nt_name := "neg-ipv4"; nt_help := "IPv4 address or CIDR"; nt_function := NormalizeNegIPv4 |};
  {| nt_name := "neg-ipv6"; nt_help := "IPv6 address or CIDR"; nt_function := NormalizeNegIPv6 |};
  {| nt_name := "neg-ipv4-prefix"; nt_help := "IPv4 prefix"; nt_function := NormalizeNegIPv4prefix |};
  {| nt_name := "neg-ipv6-prefix"; nt_help := "IPv6 prefix"; nt_function := NormalizeNegIPv6prefix |};
  {| nt_name := "neg-ip-prefix"; nt_help := "IP prefix"; nt_function := NormalizeNegIPprefix |}].

(** [None]: the usage is shown and the program exits with 1. *)
Definition getNormalizeFn (args : list string) : option normalizationFn :=
  match args with
  | [_; request] =>
      option_map nt_function (List.find (fun v => String.eqb (nt_name v) request) typeTable)
  | _ => None
  end.

(** The lines written for the lines the scanner yields, up to a panic. *)
Fixpoint normalize_lines (normalize_fn : normalizationFn) (lines : list string) : list string * bool :=
  match lines with
  | [] => ([], true)
  | input :: lines' =>
      match normalize_fn input with
      | Some output =>
          let '(rest, ok) := normalize_lines normalize_fn lines' in (output :: rest, ok)
      | None => ([], false)
      end
  end.

(** ** Lemmas: the text of an IPv6 address *)

Lemma nth_groups : forall m p, length p = 16%nat -> (m < 8)%nat ->
  nth m (groups p) 0 = group_at p (2 * Z.of_nat m).
Proof.
  intros m p Hl Hm. do 16 (destruct p as [|? p]; [done|]). destruct p; [|done].
  do 8 (destruct m as [|m]; [done|]). lia.
Qed.

(** A run of zero groups, from [a] up to [c]. *)
Definition zero_groups (ws : list Z) (a c : nat) : Prop :=
  forall m, (a <= m < c)%nat -> nth m ws 0 = 0.

Lemma byte_at_ok p i : Forall byte_ok p -> byte_ok (byte_at p i).
Proof.
  intros Hp. unfold byte_at. destruct (nth_in_or_default (Z.to_nat i) p 0) as [Hin| ->]; [|unfold byte_ok; lia].
  rewrite List.Forall_forall in Hp. by apply Hp.
Qed.

Lemma group_zero p i : Forall byte_ok p ->
  (byte_at p i =? 0) && (byte_at p (i + 1) =? 0) = (group_at p i =? 0).
Proof.
  intros Hp. pose proof (byte_at_ok p i Hp) as H1. pose proof (byte_at_ok p (i + 1) Hp) as H2.
  unfold group_at. rewrite lor_bytes by done. unfold byte_ok in *.
  destruct (Z.eqb_spec (byte_at p i) 0), (Z.eqb_spec (byte_at p (i + 1)) 0),
    (Z.eqb_spec (byte_at p i * 256 + byte_at p (i + 1)) 0); lia || done.
Qed.

(** The inner loop finds the end of the run: a group that is not zero, or the end. *)
Lemma zero_run_spec p fuel : addr_ok p -> forall m, (m <= 8)%nat -> (8 - m <= fuel)%nat ->
  exists c, zero_run fuel p (2 * Z.of_nat m) = 2 * Z.of_nat c /\ (m <= c <= 8)%nat /\
    zero_groups (groups p) m c /\ (c = 8%nat \/ nth c (groups p) 0 <> 0).
Proof.
  intros [Hl Hp]. induction fuel as [|fuel IH]; intros m Hm Hf.
  { exists m. split_and!; [done|lia..|intros k Hk; lia|left; lia]. }
  cbn [zero_run]. unfold IPv6len.
  destruct (Z.ltb_spec (2 * Z.of_nat m) 16) as [Hlt|Hge].
  2:{ exists m. split_and!; [done|lia..|intros k Hk; lia|left; lia]. }
  cbn [andb]. rewrite group_zero by done.
  destruct (Z.eqb_spec (group_at p (2 * Z.of_nat m)) 0) as [E|E].
  - replace (2 * Z.of_nat m + 2) with (2 * Z.of_nat (S m)) by lia.
    destruct (IH (S m)) as (c & E1 & Hc & Hz & He); [lia..|].
    exists c. split_and!; [done|lia..| |done]. intros k Hk.
    destruct (decide (k = m)) as [->|]; [by rewrite nth_groups by lia|apply Hz; lia].
  - exists m. split_and!; [done|lia..|intros k Hk; lia|]. right. by rewrite nth_groups by lia.
Qed.

(** A run as the code has it: two even byte positions, or -1 for none. *)
Definition is_run (ws : list Z) (e0 e1 : Z) : Prop :=
  (e0 = -1 /\ e1 = -1) \/
  exists a c, e0 = 2 * Z.of_nat a /\ e1 = 2 * Z.of_nat c /\ (a < c <= 8)%nat /\ zero_groups ws a c.

Lemma longest_run_run p fuel : addr_ok p -> forall m e0 e1,
  is_run (groups p) e0 e1 ->
  let '(r0, r1) := longest_run fuel p (2 * Z.of_nat m) e0 e1 in is_run (groups p) r0 r1.
Proof.
  intros Hp. induction fuel as [|fuel IH]; intros m e0 e1 Hr; [done|]. cbn [longest_run]. unfold IPv6len.
  destruct (Z.ltb_spec (2 * Z.of_nat m) 16) as [Hlt|Hge]; [|done]. cbn [negb].
  destruct (zero_run_spec p 8 Hp m) as (c & E & Hc & Hz & _); [lia..|]. rewrite E.
  replace (2 * Z.of_nat c + 2) with (2 * Z.of_nat (S c)) by lia.
  replace (2 * Z.of_nat m + 2) with (2 * Z.of_nat (S m)) by lia.
  destruct (Z.ltb_spec (2 * Z.of_nat m) (2 * Z.of_nat c)) as [Hmc|_]; cbn [andb]; [|by apply IH].
  destruct (e1 - e0 <? 2 * Z.of_nat c - 2 * Z.of_nat m); [|by apply IH].
  apply IH. right. exists m, c. split_and!; [done|done|lia..|done].
Qed.

Lemma shortened_run_spec p : addr_ok p ->
  shortened_run p = (-1, -1) \/
  exists a c, shortened_run p = (2 * Z.of_nat a, 2 * Z.of_nat c) /\ (a + 2 <= c <= 8)%nat /\
    zero_groups (groups p) a c.
Proof.
  intros Hp. unfold shortened_run.
  pose proof (longest_run_run p 8 Hp 0 (-1) (-1) ltac:(by left)) as Hr.
  change (2 * Z.of_nat 0) with 0 in Hr. destruct (longest_run 8 p 0 (-1) (-1)) as [e0 e1].
  destruct (Z.leb_spec (e1 - e0) 2) as [Hle|Hgt]; [by left|].
  destruct Hr as [[-> ->]|(a & c & -> & -> & Hac & Hz)]; [lia|].
  right. exists a, c. split_and!; [done|lia..|done].
Qed.

Lemma lookup_nth (ws : list Z) m : (m < length ws)%nat -> ws !! m = Some (nth m ws 0).
Proof. intros Hm. rewrite nth_lookup. by destruct (lookup_lt_is_Some_2 ws m Hm) as [x ->]. Qed.

(** The loop that prints, once the run is behind it. *)
Lemma print_behind p e0 e1 : addr_ok p -> forall n m fuel b, (m + n = 8)%nat -> (0 < m)%nat ->
  (n <= fuel)%nat -> e0 < 2 * Z.of_nat m ->
  print_groups fuel p e0 e1 (2 * Z.of_nat m) b = b +:+ colon_groups (drop m (groups p)).
Proof.
  intros [Hl Hp]. destruct (ungroup_groups 8 p Hl Hp) as (_ & Hlen & _).
  induction n as [|n IH]; intros m fuel b Hmn Hm Hf He.
  { rewrite drop_ge by lia. cbn [colon_groups]. rewrite append_empty_r.
    destruct fuel as [|fuel]; [done|]. cbn [print_groups]. unfold IPv6len.
    by rewrite (proj2 (Z.ltb_ge _ _)) by lia. }
  destruct fuel as [|fuel]; [lia|]. cbn [print_groups]. unfold IPv6len.
  rewrite (proj2 (Z.ltb_lt _ _)) by lia. cbn [negb].
  rewrite (proj2 (Z.eqb_neq _ _)) by lia. rewrite (proj2 (Z.ltb_lt _ _)) by lia.
  replace (2 * Z.of_nat m + 2) with (2 * Z.of_nat (S m)) by lia.
  rewrite IH by lia. rewrite <- nth_groups by (done || lia).
  rewrite (drop_S (groups p) (nth m (groups p) 0) m)
    by (apply lookup_nth; lia).
  cbn [colon_groups]. by rewrite !append_assoc.
Qed.

(** ... before the run. *)
Lemma print_before p a e1 : addr_ok p -> (a < 8)%nat -> forall n m fuel b, (m + n = a)%nat -> (0 < m)%nat ->
  print_groups (n + fuel) p (2 * Z.of_nat a) e1 (2 * Z.of_nat m) b =
  print_groups fuel p (2 * Z.of_nat a) e1 (2 * Z.of_nat a) (b +:+ colon_groups (take n (drop m (groups p)))).
Proof.
  intros [Hl Hp] Ha. destruct (ungroup_groups 8 p Hl Hp) as (_ & Hlen & _).
  induction n as [|n IH]; intros m fuel b Hmn Hm.
  { replace m with a by lia. rewrite take_0. by rewrite append_empty_r. }
  cbn [Nat.add print_groups]. unfold IPv6len.
  rewrite (proj2 (Z.ltb_lt _ _)) by lia. cbn [negb].
  rewrite (proj2 (Z.eqb_neq _ _)) by lia. rewrite (proj2 (Z.ltb_lt _ _)) by lia.
  replace (2 * Z.of_nat m + 2) with (2 * Z.of_nat (S m)) by lia.
  rewrite IH by lia. rewrite <- nth_groups by (done || lia).
  rewrite (drop_S (groups p) (nth m (groups p) 0) m) by (apply lookup_nth; lia).
  cbn [take colon_groups]. by rewrite !append_assoc.
Qed.

(** The run itself, and what follows it. *)
Lemma print_run p a c fuel b : addr_ok p -> (a < c <= 8)%nat -> (7 - c <= fuel)%nat ->
  print_groups (S fuel) p (2 * Z.of_nat a) (2 * Z.of_nat c) (2 * Z.of_nat a) b =
  b +:+ "::" +:+ group_text (drop c (groups p)).
Proof.
  intros [Hl Hp] Hac Hf. destruct (ungroup_groups 8 p Hl Hp) as (_ & Hlen & _).
  cbn [print_groups]. unfold IPv6len. rewrite (proj2 (Z.ltb_lt _ _)) by lia. cbn [negb].
  rewrite Z.eqb_refl. destruct (Z.leb_spec 16 (2 * Z.of_nat c)) as [Hge|Hlt].
  { rewrite drop_ge by lia. cbn [group_text]. by rewrite append_empty_r. }
  replace (2 * Z.of_nat c + 2) with (2 * Z.of_nat (S c)) by lia.
  rewrite (print_behind p _ _ (conj Hl Hp) (7 - c)) by lia. rewrite <- nth_groups by (done || lia).
  rewrite (drop_S (groups p) (nth c (groups p) 0) c) by (apply lookup_nth; lia).
  cbn [group_text]. by rewrite !append_assoc.
Qed.

Lemma print_first p fuel e0 e1 : addr_ok p -> e0 <> 0 ->
  print_groups (S fuel) p e0 e1 0 "" =
  print_groups fuel p e0 e1 (2 * Z.of_nat 1) (hex (nth 0 (groups p) 0)).
Proof.
  intros [Hl _] He. cbn [print_groups]. change (0 <? IPv6len) with true. cbn [negb].
  rewrite (proj2 (Z.eqb_neq _ _)) by done. change (0 <? 0) with false.
  by rewrite nth_groups by (done || lia).
Qed.

(** The text of an address: its groups, or those around a run of zeros. *)
Lemma Ipv6String_text p : addr_ok p ->
  Ipv6String p = group_text (groups p) \/
  exists a c, Ipv6String p = group_text (take a (groups p)) +:+ "::" +:+ group_text (drop c (groups p)) /\
    (a + 2 <= c <= 8)%nat /\ zero_groups (groups p) a c.
Proof.
  intros Hp. destruct Hp as [Hl Hb] eqn:E0. destruct (ungroup_groups 8 p Hl Hb) as (_ & Hlen & _). clear E0.
  unfold Ipv6String. rewrite Hl. change (Z.of_nat 16 =? IPv6len) with true. cbv [negb].
  destruct (shortened_run_spec p (conj Hl Hb)) as [->|(a & c & -> & Hac & Hz)].
  - left. change 8%nat with (S 7). rewrite print_first by done.
    rewrite (print_behind p _ _ (conj Hl Hb) 7) by lia. by destruct (groups p).
  - right. exists a, c. split; [|done].
    destruct a as [|a].
    + exact (print_run p 0 c 7 "" (conj Hl Hb) ltac:(lia) ltac:(lia)).
    + change 8%nat with (S 7). rewrite print_first by (done || lia).
      replace 7%nat with (a + S (6 - a))%nat by lia.
      rewrite (print_before p (S a) _ (conj Hl Hb)) by lia. rewrite print_run by (done || lia).
      destruct (groups p) as [|w ws]; [done|]. cbn [take drop nth group_text].
      rewrite skipn_O. by rewrite !append_assoc.
Qed.

(** ** Lemmas: reading it back *)

Lemma ParseIP_colon d t : all_chars undecided d = true ->
  ParseIP (d +:+ String ":"%char t) = parseIPv6 (d +:+ String ":"%char t).
Proof. intros Hd. unfold ParseIP. by rewrite ParseIP_at_undecided. Qed.

Lemma hex_undecided w : group_ok w -> all_chars undecided (hex w) = true.
Proof. intros [Hw _]. eapply all_chars_impl; [exact is_hex_undecided|by apply hex_chars]. Qed.

Lemma parseIPv6_plain w t : group_ok w ->
  parseIPv6 (hex w +:+ t) = parseIPv6_finish (parseIPv6_loop 8 (hex w +:+ t) None []).
Proof.
  intros [Hw _]. unfold parseIPv6. destruct (hex_starts w Hw) as (c & s & E & Hc). rewrite E.
  replace (HasPrefix (String c s +:+ t) "::") with false; [done|].
  unfold HasPrefix. change (String c s +:+ t) with (String c (s +:+ t)). cbn [String.prefix].
  destruct (ascii_dec ":" c) as [<-|]; done.
Qed.

Lemma group_text_parse ws fuel tail ellipsis ip : ws <> [] ->
  Forall group_ok ws -> colon_next tail = true -> (length ip + 2 * length ws <= 16)%nat ->
  parseIPv6_loop (length ws + fuel) (group_text ws +:+ tail) ellipsis ip =
  parse_next fuel tail ellipsis (ip ++ ungroup ws).
Proof.
  intros Hne Hws Ht Hl. destruct ws as [|w ws]; [done|]. cbn [group_text].
  rewrite append_assoc. apply parse_groups; [done..|]. cbn [length] in Hl. lia.
Qed.

(** The text after an ellipsis is read to its end. *)
Lemma after_ellipsis ws fuel e ip : ws <> [] -> Forall group_ok ws ->
  (length ip + 2 * length ws <= 16)%nat -> (length ws <= fuel)%nat ->
  parseIPv6_loop fuel (group_text ws) (Some e) ip = Some ("", Some e, ip ++ ungroup ws).
Proof.
  intros Hne Hws Hl Hf. rewrite <- (append_empty_r (group_text ws)).
  replace fuel with (length ws + (fuel - length ws))%nat by lia.
  by rewrite group_text_parse.
Qed.

Lemma group_text_nonempty ws : ws <> [] -> exists c s, group_text ws = String c s.
Proof.
  destruct ws as [|w ws]; [done|]. intros _. cbn [group_text].
  pose proof (hex_nonempty w). destruct (hex w) as [|c s]; [done|]. by exists c, (s +:+ colon_groups ws).
Qed.

(** An address around a run of zeros. *)
Lemma zero_groups_split ws a c : length ws = 8%nat -> (a <= c <= 8)%nat -> zero_groups ws a c ->
  ws = take a ws ++ replicate (c - a) 0 ++ drop c ws.
Proof.
  intros Hl Hac Hz. apply (nth_ext _ _ 0 0).
  { rewrite !length_app, length_replicate, length_take, length_drop. lia. }
  intros m Hm. destruct (decide (m < a)%nat).
  { rewrite app_nth1 by (rewrite length_take; lia). rewrite <- (take_drop a ws) at 1.
    by rewrite app_nth1 by (rewrite length_take; lia). }
  rewrite app_nth2, length_take by (rewrite length_take; lia).
  replace (m - a `min` length ws)%nat with (m - a)%nat by lia.
  destruct (decide (m < c)%nat).
  { rewrite app_nth1 by (rewrite length_replicate; lia). rewrite Hz by lia.
    symmetry. destruct (nth_in_or_default (m - a) (replicate (c - a) 0) 0) as [Hin|Hd]; [|done].
    apply list_elem_of_In, elem_of_replicate in Hin. by destruct Hin. }
  rewrite app_nth2, length_replicate by (rewrite length_replicate; lia).
  rewrite <- (take_drop c ws) at 1. rewrite app_nth2, length_take by (rewrite length_take; lia).
  f_equal. lia.
Qed.

Lemma finish_ellipsis e ip : (length ip < 16)%nat ->
  parseIPv6_finish (Some ("", Some e, ip)) = Some (take e ip ++ replicate (16 - length ip) 0 ++ drop e ip).
Proof. intros Hl. cbn [parseIPv6_finish]. by rewrite (proj2 (Z.ltb_lt _ _)) by (unfold IPv6len; lia). Qed.

(** Reading [hd::tl], for groups [hd] and [tl] around the run. *)
Lemma parse_shortened hd tl : Forall group_ok hd -> Forall group_ok tl ->
  (length hd + length tl <= 6)%nat ->
  ParseIP (group_text hd +:+ "::" +:+ group_text tl) =
  Some (ungroup hd ++ replicate (16 - 2 * (length hd + length tl)) 0 ++ ungroup tl).
Proof.
  intros Hhd Htl Hl.
  assert (Hfin : forall ip, ip = ungroup hd ++ ungroup tl ->
    parseIPv6_finish (Some ("", Some (2 * length hd)%nat, ip)) =
    Some (ungroup hd ++ replicate (16 - 2 * (length hd + length tl)) 0 ++ ungroup tl)).
  { intros ip ->. rewrite finish_ellipsis by (rewrite length_app, !ungroup_length; lia).
    rewrite take_app_length', drop_app_length', length_app, !ungroup_length by (by rewrite ungroup_length).
    do 4 f_equal. lia. }
  destruct hd as [|w hd].
  - change (group_text [] +:+ "::" +:+ group_text tl) with (String ":" (String ":" (group_text tl))).
    change (ParseIP (String ":" (String ":" (group_text tl)))) with
      (parseIPv6 (String ":" (String ":" (group_text tl)))).
    unfold parseIPv6.
    replace (HasPrefix (String ":" (String ":" (group_text tl))) "::") with true
      by (symmetry; apply HasPrefix_spec; by exists (group_text tl)).
    change (str_drop 2 (String ":" (String ":" (group_text tl)))) with (group_text tl).
    destruct tl as [|v tl]; [done|]. set (ws := v :: tl) in *.
    destruct (group_text_nonempty ws ltac:(done)) as (c & s & E). rewrite E, <- E.
    rewrite after_ellipsis by (done || (cbn [length] in *; lia)). by apply Hfin.
  - set (ws := w :: hd) in *. assert (group_ok w) as Hw by (by inversion Hhd).
    cbn [group_text ws]. rewrite append_assoc.
    transitivity (parseIPv6 (hex w +:+ colon_groups hd +:+ "::" +:+ group_text tl)).
    { destruct hd as [|v hd]; apply ParseIP_colon; by apply hex_undecided. }
    rewrite parseIPv6_plain by done. rewrite <- append_assoc.
    change (hex w +:+ colon_groups hd) with (group_text ws).
    assert (8 = length ws + (8 - length ws))%nat as E8 by lia. rewrite E8 at 1.
    rewrite group_text_parse by (done || (cbn [length app]; lia)).
    change ("::" +:+ group_text tl) with (String ":" (String ":" (group_text tl))).
    cbn [parse_next app]. change (negb (Ascii.eqb ":" ":")) with false. cbv iota.
    rewrite ungroup_length. destruct tl as [|v tl].
    + cbn [group_text]. apply Hfin. by rewrite app_nil_r.
    + destruct (group_text_nonempty (v :: tl) ltac:(done)) as (c & s & E). rewrite E, <- E.
      rewrite after_ellipsis by (done || (rewrite ?ungroup_length; cbn [length] in *; lia)). by apply Hfin.
Qed.

Lemma Ipv6String_parsed p : addr_ok p -> ParseIP (Ipv6String p) = Some p.
Proof.
  intros Hp. pose proof Hp as [Hl Hb]. destruct (ungroup_groups 8 p Hl Hb) as (Hu & Hlen & Hok).
  destruct (Ipv6String_text p Hp) as [->|(a & c & -> & Hac & Hz)].
  - rewrite <- Hu at 2. destruct (groups p) as [|w [|v ws]] eqn:E; [done..|].
    cbn [group_text colon_groups]. assert (group_ok w) as Hw by (by inversion Hok).
    rewrite ParseIP_colon by (by apply hex_undecided). rewrite parseIPv6_plain by done.
    change (hex w +:+ String ":" (hex v +:+ colon_groups ws)) with (group_text (w :: v :: ws)).
    rewrite <- (append_empty_r (group_text _)), <- Hlen, <- (Nat.add_0_r (length (w :: v :: ws))).
    rewrite group_text_parse by (done || (rewrite Hlen; simpl; lia)). cbn [parse_next app parseIPv6_finish].
    rewrite (proj2 (Z.ltb_ge _ _)); [done|]. rewrite ungroup_length, Hlen. unfold IPv6len. lia.
  - rewrite parse_shortened.
    + assert (ungroup (take a (groups p)) ++ replicate (2 * (c - a)) 0 ++ ungroup (drop c (groups p)) = p)
        as Ep.
      { rewrite <- ungroup_zeros, <- !ungroup_app, <- zero_groups_split by (done || lia). exact Hu. }
      rewrite <- Ep at 5. rewrite length_take, length_drop, Hlen. do 4 f_equal. lia.
    + by apply Forall_take.
    + by apply Forall_drop.
    + rewrite length_take, length_drop. lia.
Qed.

(** ** Lemmas: tokens *)

Lemma no_colon t : Contains t ":" = negb (all_chars (not_char ":"%char) t).
Proof.
  unfold Contains. induction t as [|c t IH]; [done|].
  cbn [String.index all_chars]. unfold not_char at 1. cbn [String.prefix].
  destruct (ascii_dec ":" c) as [<-|Hc]; [by destruct t|].
  destruct (Ascii.eqb_spec c ":") as [->|]; [done|]. cbn [negb andb]. rewrite <- IH.
  by destruct (String.index 0 ":" t).
Qed.

Definition slash_free : string -> bool := all_chars (not_char "/"%char).

Lemma cut_slash_String c t : cut_slash (String c t) =
  if Ascii.eqb c "/"%char then Some ("", t)
  else match cut_slash t with Some (a, b) => Some (String c a, b) | None => None end.
Proof.
  unfold cut_slash. cbn [String.index String.prefix].
  destruct (ascii_dec "/" c) as [<-|Hc]; [by destruct t|].
  destruct (Ascii.eqb_spec c "/") as [->|]; [done|]. by destruct (String.index 0 "/" t).
Qed.

Lemma cut_slash_spec t a b : cut_slash t = Some (a, b) -> t = a +:+ "/" +:+ b /\ slash_free a = true.
Proof.
  revert a. induction t as [|c t IH]; intros a; [done|]. rewrite cut_slash_String.
  destruct (Ascii.eqb_spec c "/") as [->|Hc]; [by intros [= <- <-]|].
  destruct (cut_slash t) as [[a' b']|]; [|done]. intros [= <- ->].
  destruct (IH a' eq_refl) as [-> Ha]. split; [done|]. by apply not_char_cons.
Qed.

Lemma cut_slash_app a b : slash_free a = true -> cut_slash (a +:+ "/" +:+ b) = Some (a, b).
Proof.
  induction a as [|c a IH]; intros Ha; [exact (cut_slash_String "/"%char b)|].
  cbn in Ha. apply andb_true_iff in Ha as [Hc%negb_true_iff Ha].
  change (String c a +:+ "/" +:+ b) with (String c (a +:+ "/" +:+ b)).
  by rewrite cut_slash_String, Hc, IH.
Qed.

Lemma cut_slash_free t : slash_free t = true -> cut_slash t = None.
Proof.
  induction t as [|c t IH]; [done|]. cbn. intros [Hc%negb_true_iff Ht]%andb_true_iff.
  by rewrite cut_slash_String, Hc, IH.
Qed.

Lemma slash_not_free a b : slash_free (a +:+ "/" +:+ b) = false.
Proof. unfold slash_free. rewrite all_chars_app. apply andb_false_r. Qed.

Lemma slash_foreign : foreign_byte "/"%char.
Proof. done. Qed.

(** A token with a slash is no address. *)
Lemma ParseIP_slash a b : ParseIP (a +:+ "/" +:+ b) = None.
Proof.
  destruct (ParseIP _) as [ip|] eqn:E; [|done].
  apply (ParseIP_inv _ _ _ slash_foreign) in E as [_ E]. fold slash_free in E.
  by rewrite slash_not_free in E.
Qed.

(** ** Lemmas: numbers *)

Lemma NormalizeNumber_idem t : NormalizeNumber (NormalizeNumber t) = NormalizeNumber t.
Proof.
  unfold NormalizeNumber at 2 3. destruct (ParseUint t 10 64) as [n|] eqn:E.
  - unfold NormalizeNumber. by rewrite ParseUint_Itoa by (eapply ParseUint_bounds; [|exact E]; lia).
  - unfold NormalizeNumber. by rewrite E.
Qed.

Lemma NormalizeNumber_keeps d t : d = ":"%char \/ d = "."%char ->
  all_chars (not_char d) t = false -> NormalizeNumber t = t.
Proof.
  intros Hd Ht. unfold NormalizeNumber, ParseUint. destruct t as [|c t]; [done|].
  assert (Hd' : digit_val d = None) by (destruct Hd; by subst).
  assert (forall u acc, all_chars (not_char d) u = false -> digits_val 10 u acc = None) as H.
  { induction u as [|x u IH]; intros acc; [done|]. cbn [all_chars digits_val].
    unfold not_char at 1. destruct (Ascii.eqb_spec x d) as [->|Hx]; [by rewrite Hd'|].
    cbn [negb andb]. intros Hu. destruct (digit_val x) as [v|]; [|done].
    destruct (v <? 10); [by apply IH|done]. }
  by rewrite H.
Qed.

Lemma NormalizeNumber_chars d t : dec_val d = None ->
  all_chars (not_char d) t = true -> all_chars (not_char d) (NormalizeNumber t) = true.
Proof.
  intros Hd Ht. unfold NormalizeNumber. destruct (ParseUint t 10 64) as [n|] eqn:E; [|done].
  eapply all_chars_impl; [intros c; by apply is_dec_not|]. apply Itoa_chars.
  eapply ParseUint_bounds; [|exact E]. lia.
Qed.

(** ** Lemmas: the recursion *)

(** The two recursive normalisers have one shape: [f] of an address, the token
    itself when the guard [g] does not let it pass. *)
Section Recursion.
Context (g : string -> bool) (text : IP -> string).

Fixpoint norm_fuel (fuel : nat) (token : string) : string :=
  match fuel with
  | O => token
  | S fuel' =>
      if g token then token
      else match ParseIP token with
           | Some ip => text ip
           | None =>
               match cut_slash token with
               | Some (addr, mask) => norm_fuel fuel' addr +:+ "/" +:+ NormalizeNumber mask
               | None => token
               end
           end
  end.
Definition norm (token : string) : string := norm_fuel (S (String.length token)) token.

Lemma norm_fuel_enough f1 : forall f2 token, (String.length token < f1)%nat ->
  (String.length token < f2)%nat -> norm_fuel f1 token = norm_fuel f2 token.
Proof.
  induction f1 as [|f1 IH]; intros [|f2] token H1 H2; [lia..|]. cbn [norm_fuel].
  destruct (g token), (ParseIP token); [done..|].
  destruct (cut_slash token) as [[a b]|] eqn:E; [|done].
  apply cut_slash_spec in E as [-> _]. rewrite !length_append in *. cbn [String.length] in *.
  f_equal. apply IH; lia.
Qed.

(** The recursive equation of the source: the fuel is enough. *)
Lemma norm_eq token : norm token =
  if g token then token
  else match ParseIP token with
       | Some ip => text ip
       | None =>
           match cut_slash token with
           | Some (addr, mask) => norm addr +:+ "/" +:+ NormalizeNumber mask
           | None => token
           end
       end.
Proof.
  unfold norm at 1. cbn [norm_fuel]. destruct (g token), (ParseIP token); [done..|].
  destruct (cut_slash token) as [[a b]|] eqn:E; [|done].
  apply cut_slash_spec in E as [-> _]. rewrite !length_append. cbn [String.length].
  f_equal. unfold norm. apply norm_fuel_enough; lia.
Qed.

(** What makes it idempotent: the texts of addresses are addresses that pass the
    guard and have the same text, and cutting at a slash respects the guard. *)
Hypothesis text_again : forall t ip, g t = false -> ParseIP t = Some ip ->
  g (text ip) = false /\ ParseIP (text ip) = Some ip.
Hypothesis guard_cut : forall a m, slash_free a = true -> g (a +:+ "/" +:+ m) = false ->
  g (norm a +:+ "/" +:+ NormalizeNumber m) = false.

Lemma norm_slash_free a : slash_free a = true -> slash_free (norm a) = true.
Proof.
  intros Ha. rewrite norm_eq. destruct (g a) eqn:Eg; [done|].
  destruct (ParseIP a) as [ip|] eqn:Ep; [|by rewrite cut_slash_free].
  destruct (text_again _ _ Eg Ep) as [_ Et]. exact (proj2 (ParseIP_inv _ _ _ slash_foreign Et)).
Qed.

Lemma norm_idem_free a : slash_free a = true -> norm (norm a) = norm a.
Proof.
  intros Ha. rewrite (norm_eq a). destruct (g a) eqn:Eg; [by rewrite norm_eq, Eg|].
  destruct (ParseIP a) as [ip|] eqn:Ep.
  - destruct (text_again _ _ Eg Ep) as [H1 H2]. by rewrite norm_eq, H1, H2.
  - rewrite cut_slash_free by done. by rewrite norm_eq, Eg, Ep, cut_slash_free.
Qed.

Lemma norm_idem t : norm (norm t) = norm t.
Proof.
  destruct (g t) eqn:Eg; [by rewrite !(norm_eq t), Eg, norm_eq, Eg|].
  destruct (cut_slash t) as [[a m]|] eqn:Ec.
  - apply cut_slash_spec in Ec as [-> Ha].
    assert (Et : norm (a +:+ "/" +:+ m) = norm a +:+ "/" +:+ NormalizeNumber m)
      by (by rewrite norm_eq, Eg, ParseIP_slash, cut_slash_app).
    rewrite Et, norm_eq, (guard_cut _ _ Ha Eg), ParseIP_slash, cut_slash_app by (by apply norm_slash_free).
    by rewrite norm_idem_free, NormalizeNumber_idem.
  - apply norm_idem_free. destruct (slash_free t) eqn:Es; [done|]. exfalso.
    revert Ec Es. clear. induction t as [|c t IH]; [done|]. rewrite cut_slash_String.
    cbn. unfold not_char at 1. destruct (Ascii.eqb c "/"); [done|]. cbn [negb andb].
    intros Ec. apply IH. by destruct (cut_slash t) as [[? ?]|].
Qed.

Lemma norm_guard a : slash_free a = true -> g a = false -> g (norm a) = false.
Proof.
  intros Ha Hg. rewrite norm_eq, Hg. destruct (ParseIP a) as [ip|] eqn:E; [by apply (text_again a)|].
  by rewrite cut_slash_free.
Qed.

Lemma norm_guard_all t : g t = false -> g (norm t) = false.
Proof.
  intros Hg. destruct (cut_slash t) as [[a m]|] eqn:Ec.
  - apply cut_slash_spec in Ec as [-> Ha]. rewrite norm_eq, Hg, ParseIP_slash, cut_slash_app by done.
    by apply guard_cut.
  - rewrite norm_eq, Hg, Ec. destruct (ParseIP t) as [ip|] eqn:E; [by apply (text_again t)|done].
Qed.
End Recursion.

Lemma NormalizeIPv4_norm t : NormalizeIPv4 t = norm (fun t => Contains t ":") IP_String t.
Proof. done. Qed.
Lemma NormalizeIPv6_norm t : NormalizeIPv6 t = norm (fun t => negb (Contains t ":")) Ipv6String t.
Proof. done. Qed.

(** ** Lemmas: the two instances *)

Lemma Contains_app a b : Contains (a +:+ b) ":" = Contains a ":" || Contains b ":".
Proof. rewrite !no_colon, all_chars_app. by rewrite negb_andb. Qed.

Lemma Itoa_no_colon n : 0 <= n -> Contains (Itoa n) ":" = false.
Proof.
  intros Hn. rewrite no_colon, (all_chars_impl is_dec); [done|intros c; by apply is_dec_not|by apply Itoa_chars].
Qed.

Lemma Contains_middle a t : Contains (a +:+ String "."%char t) "." = true.
Proof.
  unfold Contains. enough (exists i, String.index 0 "." (a +:+ String "."%char t) = Some i) as [i ->] by done.
  induction a as [|c a [i IH]]; [exists 0%nat; by destruct t|].
  change (String c a +:+ String "." t) with (String c (a +:+ String "." t)).
  cbn [String.index String.prefix]. destruct (ascii_dec "." c).
  - exists 0%nat. by destruct (a +:+ String "." t).
  - rewrite IH. by eexists.
Qed.

Lemma IP_String_4 q : length q = 4%nat -> IP_String q = dotted q.
Proof. intros Hq. do 4 (destruct q as [|? q]; [done|]). by destruct q. Qed.

Lemma IP_String_IPv4 q : length q = 4%nat -> IP_String (IPv4 q) = dotted q.
Proof. intros Hq. do 4 (destruct q as [|? q]; [done|]). by destruct q. Qed.

Lemma dotted_no_colon q : Forall byte_ok q -> Contains (dotted q) ":" = false.
Proof.
  intros Hq. rewrite no_colon. apply negb_false_iff. destruct q as [|b q]; [done|].
  rewrite dotted_cons. revert b Hq.
  induction q as [|c q IH]; intros b Hq; inversion Hq as [|? ? [Hb _] Hq']; subst; rewrite all_chars_app;
    (rewrite (all_chars_impl is_dec); [|intros x; by apply is_dec_not|by apply Itoa_chars]); [done|].
  cbn [dot_octets andb]. apply not_char_cons; [done|]. by apply IH.
Qed.

Lemma v4_text_again t ip : Contains t ":" = false -> ParseIP t = Some ip ->
  Contains (IP_String ip) ":" = false /\ ParseIP (IP_String ip) = Some ip.
Proof.
  rewrite no_colon, negb_false_iff. intros Ht E.
  destruct (ParseIP_no_colon t ip Ht E) as (q & -> & Hl & Hq).
  rewrite IP_String_IPv4 by done. split; [by apply dotted_no_colon|by apply ParseIP_dotted].
Qed.

Lemma Ipv6String_colon p : addr_ok p -> Contains (Ipv6String p) ":" = true.
Proof.
  intros Hp. pose proof Hp as [Hl Hb]. destruct (ungroup_groups 8 p Hl Hb) as (_ & Hlen & _).
  destruct (Ipv6String_text p Hp) as [->|(a & c & -> & _)].
  - destruct (groups p) as [|w [|v ws]]; [done..|]. cbn [group_text colon_groups].
    rewrite Contains_app. apply orb_true_iff. right. by rewrite no_colon.
  - rewrite !Contains_app. apply orb_true_iff. by right.
Qed.

Lemma v6_text_again t ip : negb (Contains t ":") = false -> ParseIP t = Some ip ->
  negb (Contains (Ipv6String ip) ":") = false /\ ParseIP (Ipv6String ip) = Some ip.
Proof.
  intros _ E. destruct (ParseIP_inv _ _ _ slash_foreign E) as [Hp _].
  rewrite Ipv6String_colon by done. split; [done|by apply Ipv6String_parsed].
Qed.

Lemma Number_no_colon m : Contains m ":" = false -> Contains (NormalizeNumber m) ":" = false.
Proof. rewrite !no_colon, !negb_false_iff. by apply NormalizeNumber_chars. Qed.
Lemma Number_colon m : Contains m ":" = true -> Contains (NormalizeNumber m) ":" = true.
Proof.
  intros Hm. rewrite NormalizeNumber_keeps with (d := ":"%char); [done|by left|].
  rewrite no_colon, negb_true_iff in Hm. done.
Qed.

(** An address without a colon has a dot. *)
Lemma ParseIP_dot t p : ParseIP t = Some p -> Contains t ":" = false -> Contains t "." = true.
Proof.
  intros E Hc. rewrite no_colon, negb_false_iff in Hc. unfold ParseIP in E. unfold Contains.
  enough (exists i, String.index 0 "." t = Some i) as [i ->] by done.
  revert E Hc. generalize t at 2. induction t as [|c t IH]; intros u; [done|].
  cbn [ParseIP_at all_chars]. unfold not_char at 1.
  destruct (Ascii.eqb_spec c ".") as [->|Hd]; [exists 0%nat; by destruct t|].
  destruct (Ascii.eqb_spec c ":"); [done|]. intros E Hc. destruct (IH u E Hc) as [i Hi].
  cbn [String.index String.prefix]. destruct (ascii_dec "." c); [by exists 0%nat|].
  rewrite Hi. by eexists.
Qed.

(** ** Lemmas: prefixes *)

(** Both kinds cut at the slash, mask and print. *)
Lemma mask_again l p n : Forall byte_ok p -> length p = l ->
  zip_with Z.land (zip_with Z.land p (CIDRMask_bytes l n)) (CIDRMask_bytes l n) =
  zip_with Z.land p (CIDRMask_bytes l n).
Proof.
  intros _ <-. generalize (CIDRMask_bytes (length p) n). induction p as [|b p IH]; intros [|m ms]; [done..|].
  cbn [zip_with]. rewrite IH. by rewrite <- Z.land_assoc, Z.land_diag.
Qed.

Lemma land_byte_ok b m : byte_ok b -> byte_ok (Z.land b m).
Proof.
  intros [Hb1 Hb2]. destruct (Z_le_dec 0 (Z.land b m)) as [H|H].
  2:{ exfalso. apply H, Z.land_nonneg. by left. }
  split; [done|].
  rewrite <- (Z.mod_small b (2 ^ 8)), <- Z.land_ones, <- Z.land_assoc, (Z.land_comm (Z.ones 8)), Z.land_assoc, Z.land_ones by lia.
  by apply Z.mod_pos_bound.
Qed.

Lemma masked_ok p ms : Forall byte_ok p -> Forall byte_ok (zip_with Z.land p ms).
Proof.
  intros Hp. revert ms. induction Hp as [|b p Hb Hp IH]; intros [|m ms]; [constructor..|].
  cbn [zip_with]. constructor; [by apply land_byte_ok|apply IH].
Qed.

Definition v4_masked (q : list Z) (n : Z) : list Z := zip_with Z.land q (CIDRMask_bytes 4 n).
Definition v6_masked (p : list Z) (n : Z) : list Z := zip_with Z.land p (CIDRMask_bytes 16 n).

Lemma CIDRMask_some n bits : bits = 32 \/ bits = 128 -> 0 <= n <= bits ->
  CIDRMask n bits = Some (CIDRMask_bytes (Z.to_nat (bits / 8)) n).
Proof.
  intros Hb Hn. unfold CIDRMask. rewrite (proj2 (Z.ltb_ge n 0)), (proj2 (Z.ltb_ge bits n)) by lia.
  by destruct Hb as [->| ->].
Qed.

Lemma mask_ip_v4 q n : length q = 4%nat -> 0 <= n <= 32 ->
  mask_ip (IPv4 q) (CIDRMask n (IPv4len * 8)) = v4_masked q n.
Proof.
  intros Hq Hn. unfold mask_ip. rewrite CIDRMask_some by (by left || done).
  change (Z.to_nat (IPv4len * 8 / 8)) with 4%nat. unfold Mask. rewrite !CIDRMask_bytes_length.
  unfold IPv4. rewrite length_app, Hq.
  change (take 12 (v4InV6Prefix ++ q)) with v4InV6Prefix.
  change (drop 12 (v4InV6Prefix ++ q)) with q. cbn [Nat.eqb andb length v4InV6Prefix Nat.add].
  rewrite CIDRMask_bytes_length. rewrite bool_decide_true by done. cbn [Nat.eqb andb]. by rewrite Hq.
Qed.

Lemma mask_ip_v6 p n : length p = 16%nat -> 0 <= n <= 128 ->
  mask_ip p (CIDRMask n (IPv6len * 8)) = v6_masked p n.
Proof.
  intros Hp Hn. unfold mask_ip. rewrite CIDRMask_some by (by right || done).
  change (Z.to_nat (IPv6len * 8 / 8)) with 16%nat. unfold Mask.
  rewrite !CIDRMask_bytes_length, Hp. cbn [Nat.eqb andb]. rewrite !CIDRMask_bytes_length. cbn [Nat.eqb andb]. by rewrite Hp.
Qed.

(** ** Lemmas: MAC addresses *)

Definition mac_ok (a : HardwareAddr) : Prop := mac_len_ok (length a) = true /\ Forall byte_ok a.

Lemma xtoi2_ok s e b : xtoi2 s e = Some b -> byte_ok b.
Proof.
  unfold xtoi2. case_match; [done|]. destruct (xtoi (str_take 2 s)) as [[n ei] ok] eqn:E.
  case_match eqn:Eo; [|done]. intros [= <-]. apply andb_true_iff in Eo as [-> Hei%Nat.eqb_eq]. subst ei.
  assert (forall c v, hex_val c = Some v -> 0 <= v < 16) as Hv.
  { intros c v. unfold hex_val. repeat case_match; intros [= <-];
      repeat match goal with H : _ && _ = true |- _ => apply andb_true_iff in H as [? ?] end; lia. }
  revert E. destruct s as [|c1 [|c2 s]]; cbn [str_take]; unfold xtoi; cbn [toi_loop]; [done|..];
    (destruct (hex_val c1) as [v1|] eqn:E1; [|done]; apply Hv in E1);
    rewrite (proj2 (Z.leb_gt _ _)) by (unfold big; lia); [done|].
  destruct (hex_val c2) as [v2|] eqn:E2; [|done]. apply Hv in E2.
  rewrite (proj2 (Z.leb_gt _ _)) by (unfold big; lia). cbn. intros [= <-]. split; lia.
Qed.

Lemma mac_bytes_ok sep n : forall s a, mac_bytes n sep s = Some a -> length a = n /\ Forall byte_ok a.
Proof.
  induction n as [|n IH]; intros s a; [by intros [= <-]|]. cbn [mac_bytes].
  destruct (xtoi2 s sep) as [b|] eqn:Eb; [|done].
  destruct (mac_bytes n sep (str_drop 3 s)) as [bs|] eqn:E; [|done]. intros [= <-].
  destruct (IH _ _ E) as [<- H]. split; [done|]. constructor; [by eapply xtoi2_ok|done].
Qed.

Lemma mac_words_ok sep n : forall s a, mac_words n sep s = Some a ->
  length a = (2 * n)%nat /\ Forall byte_ok a.
Proof.
  induction n as [|n IH]; intros s a; [by intros [= <-]|]. cbn [mac_words].
  destruct (xtoi2 (str_take 2 s) _) as [b1|] eqn:E1; [|done].
  destruct (xtoi2 (str_drop 2 s) sep) as [b2|] eqn:E2; [|done].
  destruct (mac_words n sep (str_drop 5 s)) as [bs|] eqn:E; [|done]. intros [= <-].
  destruct (IH _ _ E) as [Hl H]. split; [cbn [length]; lia|].
  constructor; [by eapply xtoi2_ok|]. constructor; [by eapply xtoi2_ok|done].
Qed.

Lemma ParseMAC_ok s a : ParseMAC s = Some a -> mac_ok a.
Proof.
  unfold ParseMAC, mac_ok. repeat (case_match; [done|]).
  repeat case_match; try done.
  - intros E. by destruct (mac_bytes_ok _ _ _ _ E) as [-> Hok].
  - intros E. destruct (mac_words_ok _ _ _ _ E) as [-> Hok].
    split; [|done].
    match goal with H : mac_len_ok _ = true |- _ =>
      revert H; generalize (2 * (String.length s + 1) / 5)%nat; intros n Hn end.
    pose proof Hn as Hc. apply bool_decide_eq_true in Hc as [->|[->| ->]]; done.
Qed.

Lemma parseMac48_ok s a : parseMac48 s = Some a -> mac_ok a.
Proof.
  unfold parseMac48. destruct (Nat.eqb_spec (length (Split s ":")) MAC_LEN) as [Hl|]; [|done]. cbn [negb].
  assert (forall l a, parse_elems l = Some a -> length a = length l /\ Forall byte_ok a) as H.
  { induction l as [|v l IH]; intros b; [by intros [= <-]|]. cbn [parse_elems].
    destruct (ParseUint v 16 8) as [x|] eqn:Ex; [|done]. destruct (parse_elems l) as [h|]; [|done].
    intros [= <-]. destruct (IH h eq_refl) as [Hlh Hh]. split; [cbn [length]; by rewrite Hlh|]. constructor; [|done].
    apply ParseUint_bounds in Ex; [exact Ex|lia]. }
  intros E. destruct (H _ _ E) as [E' Hok]. split; [|done]. rewrite E'. by rewrite Hl.
Qed.

(** A token is a hardware address in one of the spellings, or left alone. *)
Lemma NormalizeMac_cases t :
  (exists a, mac_ok a /\ NormalizeMac t = HardwareAddr_String a) \/
  (NormalizeMac t = t /\ ParseMAC t = None /\ parseMac48 t = None).
Proof.
  unfold NormalizeMac. destruct (ParseMAC t) as [a|] eqn:E1.
  - left. exists a. split; [by eapply ParseMAC_ok|done].
  - destruct (parseMac48 t) as [a|] eqn:E2; [|by right].
    left. exists a. split; [by eapply parseMac48_ok|done].
Qed.

Lemma NormalizeMac_idem t : NormalizeMac (NormalizeMac t) = NormalizeMac t.
Proof.
  destruct (NormalizeMac_cases t) as [(a & [Hl Ha] & ->)|(E & E1 & E2)].
  - unfold NormalizeMac. by rewrite ParseMAC_String.
  - rewrite E. unfold NormalizeMac. by rewrite E1, E2.
Qed.

(** ** Lemmas: the other normalisers *)

Lemma v4_masked_ok q n : length q = 4%nat -> Forall byte_ok q ->
  length (v4_masked q n) = 4%nat /\ Forall byte_ok (v4_masked q n).
Proof.
  intros Hl Hq. split; [|by apply masked_ok]. unfold v4_masked.
  by rewrite length_zip_with, CIDRMask_bytes_length, Hl.
Qed.

Lemma v6_masked_ok p n : addr_ok p -> addr_ok (v6_masked p n).
Proof.
  intros [Hl Hp]. split; [|by apply masked_ok]. unfold v6_masked.
  by rewrite length_zip_with, CIDRMask_bytes_length, Hl.
Qed.

(** A prefix that reads as an address of some bits, in either family. *)
Lemma prefix4_read q n : length q = 4%nat -> Forall byte_ok q -> 0 <= n < 2 ^ 64 ->
  NormalizeIPv4prefix (dotted q +:+ "/" +:+ Itoa n) =
  dotted (if 32 <? n then q else v4_masked q n) +:+ "/" +:+ Itoa n.
Proof.
  intros Hl Hq Hn. unfold NormalizeIPv4prefix.
  rewrite !Contains_app, dotted_no_colon by done.
  rewrite Itoa_no_colon by lia.
  cbn [orb]. change (Contains "/" ":") with false. cbn [orb].
  pose proof (ParseIP_dotted q Hl Hq) as Ep.
  rewrite cut_slash_app by exact (proj2 (ParseIP_inv _ _ _ slash_foreign Ep)).
  rewrite Ep, ParseUint_Itoa by done. destruct (Z.ltb_spec 32 n); [by rewrite IP_String_IPv4|].
  rewrite mask_ip_v4 by (done || lia). by rewrite IP_String_4 by by apply v4_masked_ok.
Qed.

Lemma prefix6_read p n : addr_ok p -> 0 <= n < 2 ^ 64 ->
  NormalizeIPv6prefix (Ipv6String p +:+ "/" +:+ Itoa n) =
  Ipv6String (if 128 <? n then p else v6_masked p n) +:+ "/" +:+ Itoa n.
Proof.
  intros Hp Hn. unfold NormalizeIPv6prefix. rewrite Contains_app, Ipv6String_colon by done.
  cbn [orb negb]. pose proof (Ipv6String_parsed p Hp) as Ep.
  rewrite cut_slash_app by exact (proj2 (ParseIP_inv _ _ _ slash_foreign Ep)).
  rewrite Ep, ParseUint_Itoa by done. destruct (Z.ltb_spec 128 n); [done|].
  by rewrite mask_ip_v6 by (apply Hp || lia).
Qed.

(** A normalised prefix is one of the readable ones, or the token is left alone. *)
Lemma NormalizeIPv4prefix_cases t : NormalizeIPv4prefix t = t \/
  exists q n, length q = 4%nat /\ Forall byte_ok q /\ 0 <= n < 2 ^ 64 /\
    NormalizeIPv4prefix t = dotted (if 32 <? n then q else v4_masked q n) +:+ "/" +:+ Itoa n.
Proof.
  unfold NormalizeIPv4prefix. destruct (Contains t ":") eqn:Ec; [by left|].
  destruct (cut_slash t) as [[a m]|] eqn:Et; [|by left]. apply cut_slash_spec in Et as [-> Ha].
  destruct (ParseIP a) as [ip|] eqn:Ep; [|by left].
  destruct (ParseUint m 10 64) as [n|] eqn:En; [|by left]. right.
  rewrite Contains_app, orb_false_iff, no_colon, negb_false_iff in Ec.
  destruct (ParseIP_no_colon a ip (proj1 Ec) Ep) as (q & -> & Hl & Hq).
  assert (0 <= n < 2 ^ 64) as Hn by (eapply ParseUint_bounds; [|exact En]; lia).
  exists q, n. split; [done|]. split; [done|]. split; [done|]. destruct (Z.ltb_spec 32 n); [by rewrite IP_String_IPv4|].
  rewrite mask_ip_v4 by (done || lia). by rewrite IP_String_4 by by apply v4_masked_ok.
Qed.

Lemma NormalizeIPv6prefix_cases t : NormalizeIPv6prefix t = t \/
  exists p n, addr_ok p /\ 0 <= n < 2 ^ 64 /\
    NormalizeIPv6prefix t = Ipv6String (if 128 <? n then p else v6_masked p n) +:+ "/" +:+ Itoa n.
Proof.
  unfold NormalizeIPv6prefix. destruct (Contains t ":") eqn:Ec; [|by left]. cbn [negb].
  destruct (cut_slash t) as [[a m]|] eqn:Et; [|by left].
  destruct (ParseIP a) as [ip|] eqn:Ep; [|by left].
  destruct (ParseUint m 10 64) as [n|] eqn:En; [|by left]. right.
  destruct (ParseIP_inv _ _ _ slash_foreign Ep) as [Hp _].
  assert (0 <= n < 2 ^ 64) as Hn by (eapply ParseUint_bounds; [|exact En]; lia).
  exists ip, n. split; [done|]. split; [done|]. destruct (Z.ltb_spec 128 n); [done|].
  by rewrite mask_ip_v6 by (apply Hp || lia).
Qed.
Lemma NormalizeIPv4prefix_idem t : NormalizeIPv4prefix (NormalizeIPv4prefix t) = NormalizeIPv4prefix t.
Proof.
  destruct (NormalizeIPv4prefix_cases t) as [E|(q & n & Hl & Hq & Hn & ->)]; [by rewrite E|].
  destruct (Z.ltb_spec 32 n) as [Hlt|Hle].
  - by rewrite prefix4_read, (proj2 (Z.ltb_lt _ _)) by done.
  - destruct (v4_masked_ok q n Hl Hq) as [Hl' Hq'].
    rewrite prefix4_read, (proj2 (Z.ltb_ge _ _)) by done.
    unfold v4_masked at 1. unfold v4_masked at 1. by rewrite mask_again.
Qed.

Lemma NormalizeIPv6prefix_idem t : NormalizeIPv6prefix (NormalizeIPv6prefix t) = NormalizeIPv6prefix t.
Proof.
  destruct (NormalizeIPv6prefix_cases t) as [E|(p & n & Hp & Hn & ->)]; [by rewrite E|].
  destruct (Z.ltb_spec 128 n) as [Hlt|Hle].
  - by rewrite prefix6_read, (proj2 (Z.ltb_lt _ _)) by done.
  - pose proof (v6_masked_ok p n Hp) as Hp'. rewrite prefix6_read, (proj2 (Z.ltb_ge _ _)) by done.
    destruct Hp as [Hl Hp]. unfold v6_masked at 1. unfold v6_masked at 1. by rewrite mask_again.
Qed.

Lemma normNeg_idem (f : string -> string) t out : (forall t, f (f t) = f t) ->
  normNeg t f = Some out -> normNeg out f = Some out.
Proof.
  intros Hf. destruct t as [|c t]; [done|]. cbn [normNeg].
  destruct (Ascii.eqb c "!") eqn:Hc; intros [= <-].
  - change ("!" +:+ f t) with (String "!" (f t)). cbn [normNeg]. by rewrite Hf.
  - cbn [normNeg]. by rewrite Hc.
Qed.

(** A normaliser that, applied to its own results, changes nothing. *)
Definition stable (f : normalizationFn) : Prop := forall t out, f t = Some out -> f out = Some out.

Definition dispatch (f6 f4 : normalizationFn) : normalizationFn := fun token =>
  if Contains token ":" then f6 token
  else if Contains token "." then f4 token
  else Some token.

Definition keeps_colon (b : bool) (f : normalizationFn) : Prop :=
  forall t out, Contains t ":" = b -> f t = Some out -> Contains out ":" = b.

Lemma dispatch_stable f6 f4 : stable f6 -> stable f4 -> keeps_colon true f6 -> keeps_colon false f4 ->
  stable (dispatch f6 f4).
Proof.
  intros H6 H4 K6 K4 t out. unfold dispatch. destruct (Contains t ":") eqn:Ec.
  - intros E. rewrite (K6 _ _ Ec E). by apply (H6 t).
  - destruct (Contains t ".") eqn:Ed.
    + intros E. rewrite (K4 _ _ Ec E). destruct (Contains out "."); [by apply (H4 t)|done].
    + intros [= <-]. by rewrite Ec, Ed.
Qed.

Lemma total_stable f : (forall t, f (f t) = f t) -> stable (total f).
Proof. intros Hf t out [= <-]. unfold total. by rewrite Hf. Qed.

Lemma total_keeps b f : (forall t, Contains t ":" = b -> Contains (f t) ":" = b) -> keeps_colon b (total f).
Proof. intros Hf t out Ht [= <-]. by apply Hf. Qed.

Lemma neg_keeps b f : (forall t, Contains t ":" = b -> Contains (f t) ":" = b) ->
  keeps_colon b (fun t => normNeg t f).
Proof.
  intros Hf t out Ht. destruct t as [|c t]; [done|]. cbn [normNeg].
  destruct (Ascii.eqb_spec c "!") as [->|]; intros [= <-]; [|done].
  change (String "!" t) with ("!" +:+ t) in Ht. rewrite Contains_app in *.
  change (Contains "!" ":") with false in *. cbn [orb] in *. by apply Hf.
Qed.

Lemma neg_stable f : (forall t, f (f t) = f t) -> stable (fun t => normNeg t f).
Proof. intros Hf t out. by apply normNeg_idem. Qed.

Lemma v4_guard_cut a m : slash_free a = true -> Contains (a +:+ "/" +:+ m) ":" = false ->
  Contains (norm (fun t => Contains t ":") IP_String a +:+ "/" +:+ NormalizeNumber m) ":" = false.
Proof.
  intros Ha. rewrite !Contains_app, !orb_false_iff. intros (H1 & H2 & H3).
  split_and!; [|done|by apply Number_no_colon].
  apply (norm_guard (fun t => Contains t ":")); [exact v4_text_again|done..].
Qed.

Lemma v6_guard_cut a m : slash_free a = true -> negb (Contains (a +:+ "/" +:+ m) ":") = false ->
  negb (Contains (norm (fun t => negb (Contains t ":")) Ipv6String a +:+ "/" +:+ NormalizeNumber m) ":") = false.
Proof.
  intros Ha. rewrite !Contains_app, !negb_false_iff, !orb_true_iff.
  intros [H|[H|H]]; [left|done|right; right; by apply Number_colon].
  apply negb_false_iff, (norm_guard (fun t => negb (Contains t ":"))); [exact v6_text_again|done|].
  by rewrite H.
Qed.

Lemma NormalizeIPv4_idem t : NormalizeIPv4 (NormalizeIPv4 t) = NormalizeIPv4 t.
Proof. rewrite !NormalizeIPv4_norm. apply norm_idem; [exact v4_text_again|exact v4_guard_cut]. Qed.

Lemma NormalizeIPv6_idem t : NormalizeIPv6 (NormalizeIPv6 t) = NormalizeIPv6 t.
Proof. rewrite !NormalizeIPv6_norm. apply norm_idem; [exact v6_text_again|exact v6_guard_cut]. Qed.

Lemma NormalizeIPv4_keeps t : Contains t ":" = false -> Contains (NormalizeIPv4 t) ":" = false.
Proof.
  rewrite NormalizeIPv4_norm.
  apply (norm_guard_all (fun t => Contains t ":")); [exact v4_text_again|exact v4_guard_cut].
Qed.

Lemma NormalizeIPv6_keeps t : Contains t ":" = true -> Contains (NormalizeIPv6 t) ":" = true.
Proof.
  intros Ht. apply negb_false_iff. rewrite NormalizeIPv6_norm.
  apply (norm_guard_all (fun t => negb (Contains t ":"))); [exact v6_text_again|exact v6_guard_cut|].
  by rewrite Ht.
Qed.

Lemma NormalizeIPv4prefix_keeps t : Contains t ":" = false -> Contains (NormalizeIPv4prefix t) ":" = false.
Proof.
  intros Ht. destruct (NormalizeIPv4prefix_cases t) as [->|(q & n & Hl & Hq & Hn & ->)]; [done|].
  rewrite !Contains_app, Itoa_no_colon by lia.
  destruct (32 <? n); [by rewrite dotted_no_colon|].
  by rewrite dotted_no_colon by by apply v4_masked_ok.
Qed.

Lemma NormalizeIPv6prefix_keeps t : Contains t ":" = true -> Contains (NormalizeIPv6prefix t) ":" = true.
Proof.
  intros Ht. destruct (NormalizeIPv6prefix_cases t) as [->|(p & n & Hp & Hn & ->)]; [done|].
  rewrite Contains_app. destruct (128 <? n); [by rewrite Ipv6String_colon|].
  by rewrite Ipv6String_colon by by apply v6_masked_ok.
Qed.


Lemma dispatch_total f6 f4 t :
  dispatch (total f6) (total f4) t =
  Some (if Contains t ":" then f6 t else if Contains t "." then f4 t else t).
Proof. unfold dispatch, total. by destruct (Contains t ":"), (Contains t "."). Qed.

Lemma stable_ext f g : (forall t, f t = g t) -> stable f -> stable g.
Proof. intros Hfg Hf t out. rewrite <- !Hfg. apply Hf. Qed.

Lemma NormalizeIP_stable : stable (total NormalizeIP).
Proof.
  apply (stable_ext (dispatch (total NormalizeIPv6) (total NormalizeIPv4))); [by intros t; apply dispatch_total|].
  apply dispatch_stable; auto using total_stable, total_keeps, NormalizeIPv6_idem, NormalizeIPv4_idem,
    NormalizeIPv6_keeps, NormalizeIPv4_keeps.
Qed.

Lemma NormalizeIPprefix_stable : stable (total NormalizeIPprefix).
Proof.
  apply (stable_ext (dispatch (total NormalizeIPv6prefix) (total NormalizeIPv4prefix)));
    [by intros t; apply dispatch_total|].
  apply dispatch_stable; auto using total_stable, total_keeps, NormalizeIPv6prefix_idem,
    NormalizeIPv4prefix_idem, NormalizeIPv6prefix_keeps, NormalizeIPv4prefix_keeps.
Qed.

Lemma NormalizeNegIPprefix_stable : stable NormalizeNegIPprefix.
Proof.
  apply (dispatch_stable NormalizeNegIPv6prefix NormalizeNegIPv4prefix).
  - apply neg_stable, NormalizeIPv6prefix_idem.
  - apply neg_stable, NormalizeIPv4prefix_idem.
  - apply neg_keeps, NormalizeIPv6prefix_keeps.
  - apply neg_keeps, NormalizeIPv4prefix_keeps.
Qed.

(** ** Properties *)

(** C37: the text of an address is canonical: it reads back as the address, so
    within a family two spellings normalise to the same text exactly when they
    mean the same address. *)
Theorem NormalizeIP_canonical t1 t2 p1 p2 :
  ParseIP t1 = Some p1 -> ParseIP t2 = Some p2 -> Contains t1 ":" = Contains t2 ":" ->
  ParseIP (NormalizeIP t1) = Some p1 /\ (NormalizeIP t1 = NormalizeIP t2 <-> p1 = p2).
Proof.
  assert (Hread : forall t p, ParseIP t = Some p ->
    NormalizeIP t = (if Contains t ":" then Ipv6String p else IP_String p) /\
    ParseIP (NormalizeIP t) = Some p).
  { intros t p E. unfold NormalizeIP. destruct (Contains t ":") eqn:Ec.
    - rewrite NormalizeIPv6_norm, norm_eq, Ec, E. cbn [negb]. split; [done|].
      apply Ipv6String_parsed. exact (proj1 (ParseIP_inv _ _ _ slash_foreign E)).
    - rewrite (ParseIP_dot t p) by done.
      rewrite NormalizeIPv4_norm, norm_eq, Ec, E. split; [done|]. by apply (v4_text_again t). }
  intros E1 E2 Hc. destruct (Hread _ _ E1) as [T1 P1], (Hread _ _ E2) as [T2 P2].
  split; [done|]. split; intros E.
  - rewrite E, P2 in P1. by injection P1.
  - by rewrite T1, T2, Hc, E.
Qed.

(** C38: every type of the table but the best effort one leaves its own results
    alone: what is stored normalised stays as it is. *)
Theorem normalize_stable v : In v typeTable -> nt_name v <> "legacy" ->
  forall token out, nt_function v token = Some out -> nt_function v out = Some out.
Proof.
  intros Hin Hname token out. revert token out. change (stable (nt_function v)).
  cbn [typeTable In] in Hin. destruct_or? Hin; subst v; cbn [nt_name nt_function] in *; try done;
    eauto using NormalizeMac_idem, NormalizeIPv4_idem, NormalizeIPv6_idem, NormalizeIPv4prefix_idem,
      NormalizeIPv6prefix_idem, total_stable, neg_stable, NormalizeIP_stable, NormalizeIPprefix_stable,
      NormalizeNegIPprefix_stable.
Qed.

(** A prefix keeps the first bits of its address and clears the others. *)
Theorem prefix_network q n : length q = 4%nat -> Forall byte_ok q -> 0 <= n <= 32 ->
  exists q', NormalizeIPprefix (dotted q +:+ "/" +:+ Itoa n) = dotted q' +:+ "/" +:+ Itoa n /\
    length q' = 4%nat /\ Forall byte_ok q' /\ be_val q' = clear_low (32 - n) (be_val q).
Proof.
  intros Hl Hq Hn. exists (v4_masked q n). destruct (v4_masked_ok q n Hl Hq) as [Hl' Hq'].
  split_and!; [|done..|].
  - unfold NormalizeIPprefix. rewrite !Contains_app, dotted_no_colon, Itoa_no_colon by (done || lia).
    change (Contains "/" ":") with false. cbn [orb].
    replace (Contains (dotted q +:+ "/" +:+ Itoa n) ".") with true.
    + by rewrite prefix4_read, (proj2 (Z.ltb_ge _ _)) by (done || lia).
    + symmetry. destruct q as [|a [|b q]]; [done..|]. rewrite dotted_cons, append_assoc. cbn [dot_octets].
      apply Contains_middle.
  - unfold v4_masked. rewrite <- Hl. rewrite masked_value by (done || lia). f_equal. lia.
Qed.

(** The best effort type does not always: it writes an EUI-64 with colons, and
    then reads those as an IPv6 address. *)
Theorem legacy_not_stable :
  NormalizeString "00-11-0a-0b-0C-0d-0e-0f" = Some "00:11:0a:0b:0c:0d:0e:0f" /\
  NormalizeString "00:11:0a:0b:0c:0d:0e:0f" = Some "0:11:a:b:c:d:e:f".
Proof. split; vm_compute; reflexivity. Qed.

(** An empty line ends the program for the types of negated values, but the
    best effort one has an answer to every token. *)
Theorem empty_line_panics : normalize_lines NormalizeNegIPv4 [""; "!1.2.3.4"] = ([], false).
Proof. done. Qed.

Theorem NormalizeString_total token : is_Some (NormalizeString token).
Proof.
  unfold NormalizeString, NormalizeNegIP, NormalizeNegIPv6, NormalizeNegIPv4, normNeg.
  destruct (NormalizeIP token) as [|c t]; [by eexists|].
  destruct (Contains (String c t) ":"); [by eexists|]. by destruct (Contains (String c t) "."); eexists.
Qed.

(** ** Witnesses *)

Lemma NormalizeIP_canonical_witness :
  NormalizeIP "FE80:0:0:0:0::2" = NormalizeIP "fe80::0002" /\
  ParseIP (NormalizeIP "FE80:0:0:0:0::2") = Some [254; 128; 0; 0; 0; 0; 0; 0; 0; 0; 0; 0; 0; 0; 0; 2].
Proof.
  destruct (NormalizeIP_canonical "FE80:0:0:0:0::2" "fe80::0002"
    [254; 128; 0; 0; 0; 0; 0; 0; 0; 0; 0; 0; 0; 0; 0; 2] [254; 128; 0; 0; 0; 0; 0; 0; 0; 0; 0; 0; 0; 0; 0; 2]
    eq_refl eq_refl eq_refl) as [H1 H2].
  split; [by apply H2|exact H1].
Defined.

Lemma normalize_stable_witness :
  NormalizeNegIPv6 "!FE80:0:0:0:0::2/064" = Some "!fe80::2/64" /\
  NormalizeNegIPv6 "!fe80::2/64" = Some "!fe80::2/64".
Proof.
  assert (NormalizeNegIPv6 "!FE80:0:0:0:0::2/064" = Some "!fe80::2/64") as E by (vm_compute; reflexivity).
  split; [exact E|].
  exact (normalize_stable {| nt_name := "neg-ipv6"; nt_help := "IPv6 address or CIDR"; nt_function := NormalizeNegIPv6 |}
    ltac:(do 9 right; left; reflexivity) ltac:(discriminate) _ _ E).
Defined.

Lemma prefix_network_witness : exists q',
  NormalizeIPprefix "192.168.77.1/20" = dotted q' +:+ "/20" /\ be_val q' = 3232251904.
Proof.
  destruct (prefix_network [192; 168; 77; 1] 20 eq_refl ltac:(repeat constructor; done) ltac:(lia))
    as (q' & H1 & _ & _ & H2).
  exists q'. split; [exact H1|exact H2].
Defined.
