(* ===== verification/Components.v ===== *)
(** [cmd/configd/component_validation.go]: what is checked of the files that
    describe the components before any YANG is parsed. *)

From S2P Require Import Prelude GoLib Errors GoFmt CliFormat.

(** What of package vci/conf is read: a component, and the models it provides,
    by name and by the model set they are for. *)
Record Model := { mo_Name : string; mo_Modules : list string }.
Record ServiceConfig := {
  sc_Name : string;
  sc_ConfigFiles : list string;
  sc_ModelByName : gmap string Model;
  sc_ModelByModelSet : gmap string Model
}.

Section Checks.
(** The order in which Go ranges over a map. *)
Context (range : forall {A : Type}, gmap string A -> list (string * A)).
Arguments range {A}.

Definition check_name (st : gmap string bool * string) (comp : ServiceConfig) : gmap string bool * string :=
  let '(nameMap, errs) := st in
  (<[sc_Name comp := true]> nameMap,
   match nameMap !! sc_Name comp with
   | Some _ => errs +:+ tab +:+ sc_Name comp +:+ nl
   | None => errs
   end).
Definition checkForDuplicateComponentNames (compConfig : list ServiceConfig) : option error :=
  let '(_, errs) := fold_left check_name compConfig (∅, "") in
  if bool_decide (errs <> "")
  then Some (EGo ("These components are duplicated:" +:+ nl +:+ errs +:+ nl)) else None.

Definition check_file (comp : ServiceConfig) (st : gmap string string * string) (cfgFile : string)
    : gmap string string * string :=
  let '(cfgFileMap, errs) := st in
  (<[cfgFile := sc_Name comp]> cfgFileMap,
   match cfgFileMap !! cfgFile with
   | Some entry => errs +:+ tab +:+ cfgFile +:+ ": " +:+ entry +:+ " and " +:+ sc_Name comp +:+ nl
   | None => errs
   end).
Definition checkForDuplicateConfigFileNames (compConfig : list ServiceConfig) : option error :=
  let '(_, errs) :=
    fold_left (fun st comp => fold_left (check_file comp) (sc_ConfigFiles comp) st) compConfig (∅, "") in
  if bool_decide (errs <> "")
  then Some (EGo ("These components have duplicate config files:" +:+ nl +:+ errs +:+ nl)) else None.

Definition check_model (comp : ServiceConfig) (st : gmap string string * string) (model : Model)
    : gmap string string * string :=
  let '(modelMap, errs) := st in
  (<[mo_Name model := sc_Name comp]> modelMap,
   match modelMap !! mo_Name model with
   | Some entry =>
       errs +:+ "Model '" +:+ mo_Name model +:+ "' duplicated in:" +:+ nl +:+ tab +:+ "'" +:+ entry
       +:+ "'" +:+ nl +:+ tab +:+ "'" +:+ sc_Name comp +:+ "'" +:+ nl
   | None => errs
   end).
(** The texts are the format of the error. *)
Definition checkForDuplicateModelNames (compConfig : list ServiceConfig) : option error :=
  let '(_, errs) :=
    fold_left (fun st comp => fold_left (check_model comp) (map snd (range (sc_ModelByName comp))) st)
      compConfig (∅, "") in
  if bool_decide (errs <> "") then Some (Errorf0 errs) else None.

(** [moduleMap[modelSetName]], made when it is not there yet. *)
Definition module_set (moduleMap : gmap string (gmap string string)) (modelSetName : string)
    : gmap string string := default ∅ (moduleMap !! modelSetName).

Definition check_module (modelSetName : string) (model : Model)
    (st : gmap string (gmap string string) * string) (module : string)
    : gmap string (gmap string string) * string :=
  let '(moduleMap, errs) := st in
  match module_set moduleMap modelSetName !! module with
  | Some entry =>
      (moduleMap,
       errs +:+ "YANG module " +:+ module +:+ " is in multiple models (m/set " +:+ modelSetName +:+ ")"
       +:+ nl +:+ tab +:+ entry +:+ nl +:+ tab +:+ mo_Name model +:+ nl)
  | None =>
      (<[modelSetName := <[module := mo_Name model]> (module_set moduleMap modelSetName)]> moduleMap, errs)
  end.
Definition check_modules (st : gmap string (gmap string string) * string) (entry : string * Model) :=
  let '(modelSetName, model) := entry in
  let '(moduleMap, errs) := st in
  let moduleMap := <[modelSetName := module_set moduleMap modelSetName]> moduleMap in
  fold_left (check_module modelSetName model) (mo_Modules model) (moduleMap, errs).
Definition checkForDuplicateModuleReferences (compConfig : list ServiceConfig) : option error :=
  let '(_, errs) :=
    fold_left (fun st comp => fold_left check_modules (range (sc_ModelByModelSet comp)) st)
      compConfig (∅, "") in
  if bool_decide (errs <> "") then Some (Errorf0 errs) else None.

Definition validateComponents (compConfig : list ServiceConfig) : option error :=
  match checkForDuplicateComponentNames compConfig with
  | Some err => Some err
  | None =>
      match checkForDuplicateConfigFileNames compConfig with
      | Some err => Some err
      | None =>
          match checkForDuplicateModelNames compConfig with
          | Some err => Some err
          | None =>
              match checkForDuplicateModuleReferences compConfig with
              | Some err => Some err
              | None => None
              end
          end
      end
  end.
End Checks.

(** ** Lemmas *)

(** Each check is a fold that remembers the keys it has met and says something
    when one comes again. *)
Section Duplicates.
Context {St X K : Type} `{EqDecision K}.
Context (step : St * string -> X -> St * string) (key : X -> K) (seen : St -> K -> bool).
Hypothesis step_seen : forall st errs x k,
  seen (fst (step (st, errs) x)) k = bool_decide (k = key x) || seen st k.
Hypothesis step_errs : forall st errs x,
  snd (step (st, errs) x) = "" <-> errs = "" /\ seen st (key x) = false.

Lemma fold_duplicates l : forall st errs,
  snd (fold_left step l (st, errs)) = "" <->
  errs = "" /\ NoDup (key <$> l) /\ Forall (fun x => seen st (key x) = false) l.
Proof.
  induction l as [|x l IH]; intros st errs.
  { cbn. split; [intros ->; by repeat constructor|by intros (-> & _)]. }
  cbn [fold_left fmap list_fmap]. destruct (step (st, errs) x) as [st' errs'] eqn:E.
  pose proof (step_errs st errs x) as He. rewrite E in He. cbn [snd] in He.
  assert (Hs : forall k, seen st' k = bool_decide (k = key x) || seen st k)
    by (intros k; rewrite <- (step_seen st errs x k), E; done).
  rewrite IH, He, NoDup_cons, Forall_cons, !Forall_forall, list_elem_of_fmap. clear IH He E.
  split.
  - intros ((-> & Hx) & Hnd & Hl). split_and!; [done| |done|done|].
    + intros (y & Hy & Hin). specialize (Hl y Hin). rewrite Hs, <- Hy in Hl.
      by rewrite bool_decide_true in Hl.
    + intros y Hin. specialize (Hl y Hin). rewrite Hs in Hl. by apply orb_false_iff in Hl as [_ Hl].
  - intros (-> & (Hx & Hnd) & Hk & Hl). split_and!; [done|done|done|].
    intros y Hin. rewrite Hs. apply orb_false_iff. split; [|by apply Hl].
    apply bool_decide_eq_false. intros Ey. apply Hx. by exists y.
Qed.
End Duplicates.

Lemma append_nonempty (a b : string) : a <> "" -> b +:+ a <> "".
Proof. intros Ha. destruct b; [done|]. discriminate. Qed.

(** Nested folds are one fold over the pairs. *)
Lemma fold_nested {S A B} (f : A -> S -> B -> S) (g : A -> list B) l : forall st,
  fold_left (fun st a => fold_left (f a) (g a) st) l st =
  fold_left (fun st ab => f (fst ab) st (snd ab)) (flat_map (fun a => map (pair a) (g a)) l) st.
Proof.
  induction l as [|a l IH]; intros st; [done|]. cbn [flat_map fold_left]. rewrite fold_left_app, IH.
  f_equal. generalize (g a) as bs. clear. intros bs. revert st.
  induction bs as [|b bs IH]; intros st; [done|]. apply IH.
Qed.

Section Check_lemmas.
Context (range : forall {A : Type}, gmap string A -> list (string * A)).
Arguments range {A}.
Hypothesis range_perm : forall A (m : gmap string A), range m ≡ₚ map_to_list m.

(** What must not come twice. *)
Definition component_names (l : list ServiceConfig) : list string := sc_Name <$> l.
Definition config_files (l : list ServiceConfig) : list string := flat_map sc_ConfigFiles l.
Definition model_names (l : list ServiceConfig) : list string :=
  flat_map (fun c => mo_Name <$> (snd <$> map_to_list (sc_ModelByName c))) l.
Definition module_references (l : list ServiceConfig) : list (string * string) :=
  flat_map (fun c => flat_map (fun e => pair (fst e) <$> mo_Modules (snd e))
                              (map_to_list (sc_ModelByModelSet c))) l.

Definition has {A} (m : gmap string A) (k : string) : bool := bool_decide (is_Some (m !! k)).

Lemma has_insert {A} (m : gmap string A) k' (x : A) k :
  has (<[k' := x]> m) k = bool_decide (k = k') || has m k.
Proof.
  unfold has. destruct (decide (k = k')) as [->|Hk].
  - rewrite lookup_insert_eq, !bool_decide_true by done. done.
  - by rewrite lookup_insert_ne, (bool_decide_false (k = k')) by done.
Qed.

Lemma has_false {A} (m : gmap string A) k : has m k = false <-> m !! k = None.
Proof. unfold has. by rewrite bool_decide_eq_false, <- eq_None_not_Some. Qed.

Lemma has_empty {A} k : has (∅ : gmap string A) k = false.
Proof. by apply has_false, lookup_empty. Qed.

Lemma errs_spec {A} (m : gmap string A) k (errs : string) (said : A -> string) :
  (forall x, said x <> "") ->
  (match m !! k with Some x => errs +:+ said x | None => errs end = "" <-> errs = "" /\ has m k = false).
Proof.
  intros Hs. rewrite has_false. destruct (m !! k) as [x|]; [|tauto]. split.
  - intros E. by destruct (append_nonempty (said x) errs (Hs x)).
  - by intros [_ ?].
Qed.

(** A fold from nothing says nothing exactly when no key comes twice. *)
Lemma fold_duplicates_0 {St X K} `{EqDecision K} (step : St * string -> X -> St * string)
    (key : X -> K) (seen : St -> K -> bool) (st0 : St) l :
  (forall st errs x k, seen (fst (step (st, errs) x)) k = bool_decide (k = key x) || seen st k) ->
  (forall st errs x, snd (step (st, errs) x) = "" <-> errs = "" /\ seen st (key x) = false) ->
  (forall k, seen st0 k = false) ->
  snd (fold_left step l (st0, "")) = "" <-> NoDup (key <$> l).
Proof.
  intros H1 H2 H3. rewrite (fold_duplicates step key seen H1 H2). split; [by intros (_ & ? & _)|].
  intros Hn. split_and!; [done..|]. apply Forall_forall. intros x _. apply H3.
Qed.

Lemma when_errs (errs : string) (err : error) :
  (if bool_decide (errs <> "") then Some err else None) = None <-> errs = "".
Proof. case_bool_decide as H; split; intros E; done. Qed.

Lemma names_ok l : checkForDuplicateComponentNames l = None <-> NoDup (component_names l).
Proof.
  unfold checkForDuplicateComponentNames.
  pose proof (fold_duplicates_0 check_name sc_Name has ∅ l) as H.
  destruct (fold_left check_name l (∅, "")) as [m errs] eqn:E. rewrite when_errs. cbn [snd] in H.
  apply H.
  - intros st es x k. cbn [check_name fst]. apply has_insert.
  - intros st es x. cbn [check_name snd].
    apply (errs_spec st (sc_Name x) es (fun _ => tab +:+ sc_Name x +:+ nl)). done.
  - apply has_empty.
Qed.

Lemma flat_map_keys {A B K} (key : B -> K) (g : A -> list B) l :
  (fun ab : A * B => key (snd ab)) <$> flat_map (fun a => map (pair a) (g a)) l =
  flat_map (fun a => key <$> g a) l.
Proof.
  induction l as [|a l IH]; [done|]. cbn [flat_map]. rewrite fmap_app, IH. f_equal.
  change (map (pair a) (g a)) with (pair a <$> g a). by rewrite <- list_fmap_compose.
Qed.

Lemma files_ok l : checkForDuplicateConfigFileNames l = None <-> NoDup (config_files l).
Proof.
  unfold checkForDuplicateConfigFileNames. rewrite fold_nested.
  pose proof (fold_duplicates_0 (fun st ab => check_file (fst ab) st (snd ab)) snd has ∅
    (flat_map (fun a => map (pair a) (sc_ConfigFiles a)) l)) as H.
  destruct (fold_left _ _ (∅, "")) as [m errs] eqn:E. rewrite when_errs. cbn [snd] in H.
  assert (Hk : config_files l = snd <$> flat_map (fun a => map (pair a) (sc_ConfigFiles a)) l).
  { etransitivity; [|symmetry; exact (flat_map_keys id sc_ConfigFiles l)].
    unfold config_files. apply flat_map_ext. intros a. by rewrite list_fmap_id. }
  rewrite Hk. apply H.
  - intros st es [c f] k. cbn [check_file fst snd]. apply has_insert.
  - intros st es [c f]. cbn [check_file fst snd].
    apply (errs_spec st f es (fun e => tab +:+ f +:+ ": " +:+ e +:+ " and " +:+ sc_Name c +:+ nl)). done.
  - apply has_empty.
Qed.

Lemma Perm_flat_map {A B} (f g : A -> list B) l : (forall a, f a ≡ₚ g a) -> flat_map f l ≡ₚ flat_map g l.
Proof. intros H. induction l as [|a l IH]; [done|]. cbn [flat_map]. by rewrite H, IH. Qed.

(** Whatever the order of the map. *)
Lemma models_ok l : checkForDuplicateModelNames (@range) l = None <-> NoDup (model_names l).
Proof.
  unfold checkForDuplicateModelNames. rewrite fold_nested.
  set (models := fun a => map snd (range (sc_ModelByName a))).
  pose proof (fold_duplicates_0 (fun st ab => check_model (fst ab) st (snd ab))
    (fun ab => mo_Name (snd ab)) has ∅ (flat_map (fun a => map (pair a) (models a)) l)) as H.
  destruct (fold_left _ _ (∅, "")) as [m errs] eqn:E. rewrite when_errs. cbn [snd] in H.
  assert (Hk : model_names l ≡ₚ (fun ab => mo_Name (snd ab)) <$> flat_map (fun a => map (pair a) (models a)) l).
  { rewrite (flat_map_keys mo_Name models l). apply Perm_flat_map. intros a. unfold models.
    change (map snd (range (sc_ModelByName a))) with (snd <$> range (sc_ModelByName a)).
    by rewrite range_perm. }
  rewrite Hk. apply H.
  - intros st es [c f] k. cbn [check_model fst snd]. apply has_insert.
  - intros st es [c f]. cbn [check_model fst snd].
    apply (errs_spec st (mo_Name f) es (fun e => "Model '" +:+ mo_Name f +:+ "' duplicated in:" +:+ nl +:+ tab
      +:+ "'" +:+ e +:+ "'" +:+ nl +:+ tab +:+ "'" +:+ sc_Name c +:+ "'" +:+ nl)). done.
  - apply has_empty.
Qed.

(** Making an empty set of modules changes nothing that is looked up. *)
Definition same_sets (st st' : gmap string (gmap string string) * string) : Prop :=
  snd st = snd st' /\ forall ms, module_set (fst st) ms = module_set (fst st') ms.

Lemma module_set_insert mm ms0 x ms :
  module_set (<[ms0 := x]> mm) ms = if decide (ms = ms0) then x else module_set mm ms.
Proof.
  unfold module_set. destruct (decide (ms = ms0)) as [->|]; [by rewrite lookup_insert_eq|].
  by rewrite lookup_insert_ne.
Qed.

Lemma check_module_same ms model st st' m : same_sets st st' ->
  same_sets (check_module ms model st m) (check_module ms model st' m).
Proof.
  destruct st as [mm es], st' as [mm' es']. intros [He Hm]. cbn [fst snd] in *. subst es'.
  unfold check_module. rewrite Hm. destruct (module_set mm' ms !! m); [done|].
  split; [done|]. intros ms'. cbn [fst]. rewrite !module_set_insert. by case_decide.
Qed.

Lemma check_modules_same st st' e : same_sets st st' ->
  same_sets (check_modules st e)
    (fold_left (check_module (fst e) (snd e)) (mo_Modules (snd e)) st').
Proof.
  destruct e as [ms model], st as [mm es]. cbn [check_modules fst snd]. intros Hst.
  assert (Hst' : same_sets (<[ms := module_set mm ms]> mm, es) st').
  { destruct Hst as [He Hm]. split; [done|]. intros ms'. cbn [fst]. rewrite module_set_insert.
    case_decide; subst; apply Hm. }
  revert Hst'. clear. generalize (mo_Modules model) as l. intros l.
  generalize (<[ms := module_set mm ms]> mm, es) as st. intros st. revert st st'.
  induction l as [|m l IH]; intros st st' H; [done|]. cbn [fold_left]. by apply IH, check_module_same.
Qed.

Lemma fold_modules_same l : forall st st', same_sets st st' ->
  same_sets (fold_left (fun st comp => fold_left check_modules (range (sc_ModelByModelSet comp)) st) l st)
    (fold_left (fun st x => check_module (fst (fst x)) (snd (fst x)) st (snd x))
      (flat_map (fun c => flat_map (fun e => map (pair e) (mo_Modules (snd e)))
                                   (range (sc_ModelByModelSet c))) l) st').
Proof.
  induction l as [|c l IH]; intros st st' H; [done|]. cbn [flat_map fold_left]. rewrite fold_left_app.
  apply IH. clear IH. generalize (range (sc_ModelByModelSet c)) as es. intros es. revert st st' H.
  induction es as [|e es IH]; intros st st' H; [done|]. cbn [flat_map fold_left]. rewrite fold_left_app.
  apply IH. pose proof (check_modules_same st st' e H) as Hs.
  assert (forall ms st', fold_left (fun st x => check_module (fst (fst x)) (snd (fst x)) st (snd x))
    (map (pair e) ms) st' = fold_left (check_module (fst e) (snd e)) ms st') as ->.
  { clear. induction ms as [|m ms IH]; intros st'; [done|]. apply IH. }
  exact Hs.
Qed.

Lemma references_ok l :
  checkForDuplicateModuleReferences (@range) l = None <-> NoDup (module_references l).
Proof.
  unfold checkForDuplicateModuleReferences.
  pose proof (fold_modules_same l (∅, "") (∅, "") (conj eq_refl (fun _ => eq_refl))) as [Hs _].
  destruct (fold_left _ l (∅, "")) as [m errs] eqn:E. rewrite when_errs. cbn [snd] in Hs. rewrite Hs.
  set (xs := flat_map _ l).
  assert (Hk : module_references l ≡ₚ (fun x : string * Model * string => (fst (fst x), snd x)) <$> xs).
  { unfold xs, module_references. clear -range_perm. induction l as [|c l IH]; [done|]. cbn [flat_map].
    rewrite fmap_app, IH. f_equiv.
    transitivity (flat_map (fun e => pair (fst e) <$> mo_Modules (snd e)) (range (sc_ModelByModelSet c))).
    { by rewrite range_perm. }
    generalize (range (sc_ModelByModelSet c)) as es. clear.
    induction es as [|e es IH]; [done|]. cbn [flat_map]. rewrite fmap_app, IH. f_equiv.
    change (map (pair e) (mo_Modules (snd e))) with (pair e <$> mo_Modules (snd e)).
    by rewrite <- list_fmap_compose. }
  rewrite Hk.
  apply (fold_duplicates_0 (fun st x => check_module (fst (fst x)) (snd (fst x)) st (snd x))
    (fun x : string * Model * string => (fst (fst x), snd x))
    (fun (mm : gmap string (gmap string string)) k => has (module_set mm (fst k)) (snd k))).
  - intros st es [[ms model] mo] [ms' mo']. cbn [check_module fst snd].
    destruct (module_set st ms !! mo) as [e|] eqn:El; cbn [fst].
    + case_bool_decide as Hk'; [|done]. injection Hk' as -> ->.
      unfold has. by rewrite El.
    + rewrite module_set_insert. destruct (decide (ms' = ms)) as [->|Hms].
      * rewrite has_insert. f_equal. apply bool_decide_ext. naive_solver.
      * rewrite bool_decide_false by congruence. done.
  - intros st es [[ms model] mo]. cbn [check_module fst snd]. rewrite has_false.
    destruct (module_set st ms !! mo) as [e|]; cbn [snd]; [|tauto]. split; [|by intros [_ ?]].
    intros Ee. by apply append_nonempty in Ee.
  - intros [ms mo]. unfold module_set. rewrite lookup_empty. apply has_empty.
Qed.
End Check_lemmas.

(** ** Properties *)

(** C39: the components pass exactly when no component name, no configuration file
    and no model name comes twice, and no module is in two models of the same
    model set; in whatever order Go ranges over the maps. *)
Theorem validateComponents_spec (range : forall A : Type, gmap string A -> list (string * A)) l :
  (forall A (m : gmap string A), range A m ≡ₚ map_to_list m) ->
  validateComponents range l = None <->
  NoDup (component_names l) /\ NoDup (config_files l) /\
  NoDup (model_names l) /\ NoDup (module_references l).
Proof.
  intros Hr. rewrite <- names_ok, <- files_ok, <- (models_ok range Hr), <- (references_ok range Hr).
  unfold validateComponents.
  destruct (checkForDuplicateComponentNames l), (checkForDuplicateConfigFileNames l),
    (checkForDuplicateModelNames range l), (checkForDuplicateModuleReferences range l); naive_solver.
Qed.

Module SampleComponents.
Definition comp (name file model module : string) : ServiceConfig := {|
  sc_Name := name; sc_ConfigFiles := [file];
  sc_ModelByName := {[ model := {| mo_Name := model; mo_Modules := [module] |} ]};
  sc_ModelByModelSet := {[ "vyatta-v1" := {| mo_Name := model; mo_Modules := [module] |} ]}
|}.

Definition sorted (A : Type) (m : gmap string A) : list (string * A) := map_to_list m.

Lemma validateComponents_spec_witness :
  NoDup (module_references [comp "a" "a.conf" "ma" "m1"; comp "b" "b.conf" "mb" "m2"]).
Proof.
  apply (validateComponents_spec sorted); [by intros|]. vm_compute. reflexivity.
Defined.

(** A module in two models: the one error, in the order of the files. *)
Lemma duplicate_module :
  validateComponents sorted [comp "a" "a.conf" "ma" "m1"; comp "b" "b.conf" "mb" "m1"] =
  Some (EGo ("YANG module m1 is in multiple models (m/set vyatta-v1)" +:+ nl +:+ tab +:+ "ma"
    +:+ nl +:+ tab +:+ "mb" +:+ nl)).
Proof. vm_compute. reflexivity. Qed.
End SampleComponents.
