(* ===== verification/Yangd.v ===== *)
(** [cmd/configd/yangd.go] and the start of [cmd/configd/main.go]: the service
    other processes ask about the YANG model (is the input of an RPC valid, is a
    notification, which module has a namespace), and how the daemon gets the
    model. *)

From S2P Require Import Prelude GoLib Errors Rpc GoFmt External Configd Sample CliFormat Server RpcCall.
From S2P Require Import Components.

(** What of danos/config/schema and of the message coding is used besides
    RpcCall.v's [RpcLib]. *)
Class YangdLib `{RpcLib} := {
  Notification : Type;
  Notification_Schema : Notification -> Tree;
  (** a map from namespaces to the notifications by their name, which may be nil *)
  Notifications : ModelSet -> gmap string (gmap string (option Notification));
  ComponentMappings : Type;
  ModelNameForNamespace : ComponentMappings -> string -> option string;
  (** [rfc7951.Unmarshal] into a struct of strings: the value of each tag, the
      empty string for one that is missing *)
  Unmarshal : string -> (string -> string) + error;
  (** [rfc7951.Marshal] of a struct: of a string, and of a boolean *)
  MarshalString : string -> string -> string + error;
  MarshalBool : string -> bool -> string + error
}.

Section Yangd.
Context {L : ConfigLib} {RL : RpcLib} {YL : YangdLib} {E : ErrorLib}.

Record yangd := {
  y_st : ModelSet;
  y_stFull : ModelSet;
  y_mappings : ComponentMappings
}.
Definition NewYangd (st stFull : ModelSet) (mappings : ComponentMappings) : yangd :=
  {| y_st := st; y_stFull := stFull; y_mappings := mappings |}.

(** The bytes and the error a method returns; no bytes for nil. *)
Definition reply : Type := option string * option error.

Definition getModuleName (y : yangd) (namespace : string) : string :=
  match find (fun m => bool_decide (namespace = Namespace (snd m))) (range (Modules (y_st y))) with
  | Some (name, _) => name
  | None => ""
  end.

(** ** Finding an RPC: the RPC, or the text of the error *)

Definition findRpcByNamespace (y : yangd) (namespace name : string) : Rpc + string :=
  match Rpcs (y_st y) !! namespace with
  | None => inr ("Unable to find namespace '" +:+ namespace +:+ "' for RPC '" +:+ name +:+ "'")
  | Some mod_rpcs =>
      let unknown := "Unable to find RPC '" +:+ name +:+ "' in namespace '" +:+ namespace +:+ "'" in
      match mod_rpcs !! name with
      | None => inr unknown
      | Some rpc => match Input rpc with None => inr unknown | Some _ => inl rpc end
      end
  end.

Definition findRpcByModuleName (y : yangd) (moduleName name : string) : Rpc + string :=
  match Modules (y_st y) !! moduleName with
  | None => inr ("Unable to find RPC '" +:+ name +:+ "' for module '" +:+ moduleName +:+ "'")
  | Some mod_ => findRpcByNamespace y (Namespace mod_) name
  end.

Definition findRpc (y : yangd) (namespace moduleName name : string) : Rpc + string :=
  if bool_decide (moduleName <> "") then findRpcByModuleName y moduleName name
  else findRpcByNamespace y namespace name.

(** ** Encodings *)

Definition unmarshal (sch : Tree) (data format mod_ ns name : string) : DataNode + error :=
  let modns := if bool_decide (format = "xml") then ns else mod_ in
  let validated (r : DataNode + error) : DataNode + error :=
    match r with
    | inl d => inl d
    | inr jsonErr =>
        inr (error_msg InvalidValueApplication
               ("Unable to validate RPC " +:+ modns +:+ ":" +:+ name +:+ " - " +:+ Error jsonErr))
    end in
  if bool_decide (format = "json") then validated (UnmarshalJSON sch data)
  else if bool_decide (format = "rfc7951") then validated (UnmarshalRFC7951 sch data)
  else if bool_decide (format = "xml") then validated (UnmarshalXML sch data)
  else inr (error_msg OperationFailedApplication
              ("Unknown RPC encoding '" +:+ format +:+ "' for RPC " +:+ modns +:+ ":" +:+ name)).

Definition marshal (sch : Tree) (data : DataNode) (format : string) : string + error :=
  if bool_decide (format = "json") then inl (ToJSON sch data)
  else if bool_decide (format = "rfc7951") then inl (ToRFC7951 sch data)
  else if bool_decide (format = "xml") then inl (ToXML sch data)
  else inr (error_msg OperationFailedApplication ("Unknown RPC encoding '" +:+ format +:+ "'")).

(** ** The methods *)

Definition malformed (jsonErr : error) : error :=
  error_msg MalformedMessage
    ("Unable to parse request (internal format error): " +:+ Error jsonErr).

Definition tag (name : string) : string := "yangd-v1:" +:+ name.

(** [genOut] of the conversions. *)
Definition genData (dta : string) (err : option error) : reply :=
  match MarshalString (tag "data") dta with
  | inr _ => (None, Some (new_error OperationFailedApplication))
  | inl out => (Some out, err)
  end.

(** The two conversions differ in the schema: [of_rpc] is the RPC's input or
    output.  The module and the namespace are passed the other way round. *)
Definition convert (of_rpc : Rpc -> Tree) (y : yangd) (input : string) : reply :=
  match Unmarshal input with
  | inr jsonErr => (None, Some (malformed jsonErr))
  | inl in_ =>
      let Namespace := in_ (tag "rpc-namespace") in
      let ModuleName := in_ (tag "module-name") in
      let Name := in_ (tag "rpc-name") in
      match findRpc y Namespace ModuleName Name with
      | inr rpcErr => (None, Some (error_msg InvalidValueApplication rpcErr))
      | inl sch =>
          match unmarshal (of_rpc sch) (in_ (tag "data")) (in_ (tag "input-format"))
                  Namespace ModuleName Name with
          | inr err => (None, Some err)
          | inl data =>
              match marshal (of_rpc sch) data (in_ (tag "output-format")) with
              | inr err => (None, Some err)
              | inl d => genData d None
              end
          end
      end
  end.

Definition ConvertRpcOutput (y : yangd) (input : string) : reply := convert Output y input.

(** [findRpc] has seen that there is an input. *)
Definition rpc_input (default_ : Tree) (rpc : Rpc) : Tree := default default_ (Input rpc).

Definition ConvertRpcInput (y : yangd) (input : string) : reply :=
  convert (fun rpc => rpc_input (Output rpc) rpc) y input.

Definition LookupModuleNameByNamespace (y : yangd) (input : string) : reply :=
  match Unmarshal input with
  | inr jsonErr => (None, Some (malformed jsonErr))
  | inl in_ =>
      match MarshalString (tag "module-name") (getModuleName y (in_ (tag "namespace"))) with
      | inr err => (None, Some err)
      | inl out => (Some out, None)
      end
  end.

Definition genValid (valid : bool) (err : option error) : reply :=
  match MarshalBool (tag "valid") valid with
  | inr _ => (Some ("{" +:+ (dquote +:+ tag "valid" +:+ dquote) +:+ ": false}"), Some (new_error OperationFailedApplication))
  | inl out => (Some out, err)
  end.

Definition moduleOrNs (ModuleName Namespace : string) : string :=
  if bool_decide (ModuleName = "") then Namespace else ModuleName.

Definition ValidateRpcInput (y : yangd) (input : string) : reply :=
  match Unmarshal input with
  | inr jsonErr => genValid false (Some (malformed jsonErr))
  | inl in_ =>
      let Namespace := in_ (tag "rpc-namespace") in
      let ModuleName := in_ (tag "rpc-module-name") in
      let Name := in_ (tag "rpc-name") in
      match findRpc y Namespace ModuleName Name with
      | inr rpcErr => genValid false (Some (error_msg InvalidValueApplication rpcErr))
      | inl sch =>
          match UnmarshalRFC7951 (rpc_input (Output sch) sch) (in_ (tag "rpc-input")) with
          | inr jsonErr =>
              genValid false (Some (error_msg InvalidValueApplication
                ("Unable to validate RPC " +:+ moduleOrNs ModuleName Namespace +:+ ":" +:+ Name
                 +:+ " - " +:+ Error jsonErr)))
          | inl _ => genValid true None
          end
      end
  end.

Definition findNotificationByNamespace (y : yangd) (namespace name : string) : Notification + string :=
  match Notifications (y_st y) !! namespace with
  | None =>
      inr ("Unable to find namespace '" +:+ namespace +:+ "' for Notification '" +:+ name +:+ "'")
  | Some mod_nots =>
      match mod_nots !! name with
      | Some (Some notification) => inl notification
      | _ => inr ("Unable to find Notification '" +:+ name +:+ "' in namespace '" +:+ namespace +:+ "'")
      end
  end.

Definition findNotificationByModuleName (y : yangd) (moduleName name : string) : Notification + string :=
  match Modules (y_st y) !! moduleName with
  | None => inr ("Unable to find Notification '" +:+ name +:+ "' for module '" +:+ moduleName +:+ "'")
  | Some mod_ => findNotificationByNamespace y (Namespace mod_) name
  end.

Definition findNotification (y : yangd) (namespace moduleName name : string) : Notification + string :=
  if bool_decide (moduleName <> "") then findNotificationByModuleName y moduleName name
  else findNotificationByNamespace y namespace name.

Definition genOutput (output : string) (err : option error) : reply :=
  match MarshalString (tag "output") output with
  | inr _ => (Some "", Some (new_error OperationFailedApplication))
  | inl out => (Some out, err)
  end.

Definition ValidateNotification (y : yangd) (input : string) : reply :=
  match Unmarshal input with
  | inr jsonErr => genOutput "" (Some (malformed jsonErr))
  | inl in_ =>
      let Namespace := in_ (tag "namespace") in
      let ModuleName := in_ (tag "module-name") in
      let Name := in_ (tag "name") in
      match findNotification y Namespace ModuleName Name with
      | inr notErr => genOutput "" (Some (error_msg InvalidValueApplication notErr))
      | inl sch =>
          match UnmarshalRFC7951 (Notification_Schema sch) (in_ (tag "input")) with
          | inr jsonErr =>
              genOutput "" (Some (error_msg InvalidValueApplication
                ("Unable to validate Notification " +:+ moduleOrNs ModuleName Namespace +:+ ":" +:+ Name
                 +:+ " - " +:+ Error jsonErr)))
          | inl dta => genOutput (ToRFC7951 (Notification_Schema sch) dta) None
          end
      end
  end.

(** The destination, the field of the reply, or an error. *)
Definition LookupRpcDestinationByModuleName (y : yangd) (input : string) : string + error :=
  match Unmarshal input with
  | inr jsonErr => inr (malformed jsonErr)
  | inl in_ =>
      let ModuleName := in_ (tag "module-name") in
      let unknown := EGo ("Unable to find model name for module '" +:+ ModuleName +:+ "'") in
      match Modules (y_st y) !! ModuleName with
      | None => inr unknown
      | Some mod_ =>
          match ModelNameForNamespace (y_mappings y) (Namespace mod_) with
          | None => inr unknown
          | Some modelName => inl modelName
          end
      end
  end.

(** ** Starting *)

(** [fatal] ends the daemon with the error; what was logged comes with the rest. *)
Definition startYangd (CompileDir : bool -> ModelSet + error)
    (CreateComponentNSMappings : ModelSet -> string -> list ServiceConfig -> ComponentMappings + error)
    (ranges : forall A : Type, gmap string A -> list (string * A))
    (modelSetName : string) (compConfig : list ServiceConfig)
    : (yangd * list error) + error :=
  match CompileDir false with
  | inr err => inr err
  | inl st =>
      match CompileDir true with
      | inr err => inr err
      | inl stFull =>
          let logged := match validateComponents ranges compConfig with Some err => [err] | None => [] end in
          match CreateComponentNSMappings stFull modelSetName compConfig with
          | inr err => inr err
          | inl mappings => inl (NewYangd st stFull mappings, logged)
          end
      end
  end.
End Yangd.

(** ** Lemmas *)

Section Lemmas.
Context {L : ConfigLib} {RL : RpcLib} {YL : YangdLib} {E : ErrorLib}.

Lemma findRpcByNamespace_ok y ns name rpc : findRpcByNamespace y ns name = inl rpc <->
  exists rpcs sch, Rpcs (y_st y) !! ns = Some rpcs /\ rpcs !! name = Some rpc /\ Input rpc = Some sch.
Proof.
  unfold findRpcByNamespace. destruct (Rpcs (y_st y) !! ns) as [rpcs|] eqn:Er; [|naive_solver].
  destruct (rpcs !! name) as [rpc'|] eqn:En; [|naive_solver].
  destruct (Input rpc') as [sch|] eqn:Ei; [|naive_solver]. split; [intros [= <-]; eauto|].
  intros (? & ? & [= <-] & E2 & _). rewrite En in E2. by injection E2 as ->.
Qed.

Lemma findRpcByNamespace_input y ns name rpc : findRpcByNamespace y ns name = inl rpc ->
  exists sch, Input rpc = Some sch.
Proof. rewrite findRpcByNamespace_ok. naive_solver. Qed.

Lemma findRpc_input y ns m name rpc : findRpc y ns m name = inl rpc -> exists sch, Input rpc = Some sch.
Proof.
  unfold findRpc, findRpcByModuleName. case_bool_decide; [|apply findRpcByNamespace_input].
  destruct (Modules (y_st y) !! m); [apply findRpcByNamespace_input|done].
Qed.

(** A format the service knows. *)
Definition known_format (format : string) : Prop :=
  format = "json" \/ format = "rfc7951" \/ format = "xml".

Lemma unmarshal_ok sch data format m ns name tree :
  unmarshal sch data format m ns name = inl tree <->
  known_format format /\ decodeTree format sch data = inl tree.
Proof.
  unfold unmarshal, decodeTree, known_format.
  repeat case_bool_decide; cbn [orb]; try (destruct (UnmarshalJSON sch data));
    try (destruct (UnmarshalRFC7951 sch data)); try (destruct (UnmarshalXML sch data)); naive_solver.
Qed.

Lemma marshal_ok sch data format text :
  marshal sch data format = inl text <-> known_format format /\ encodeTree format sch data = inl text.
Proof. unfold marshal, encodeTree, known_format. repeat case_bool_decide; cbn [orb]; naive_solver. Qed.

(** The dispatcher finds an RPC of a module exactly when the service does. *)
Lemma findRpc_agrees y (d : Disp) m name rpc : y_st y = d_ms d -> m <> "" -> forall ns,
  findRpc y ns m name = inl rpc <-> exists ns', RpcCall.findRpc d m name "rfc7951" = Some (rpc, ns').
Proof.
  intros Hd Hm ns. unfold findRpc. rewrite bool_decide_true by done.
  unfold findRpcByModuleName, RpcCall.findRpc, getModuleId. rewrite Hd.
  change (bool_decide ("rfc7951" = "xml") || bool_decide ("rfc7951" = "netconf")) with false.
  change (bool_decide ("rfc7951" = "rfc7951") || bool_decide ("rfc7951" = "json")) with true. cbv iota.
  destruct (Modules (d_ms d) !! m) as [mo|] eqn:Em; cbn [mbind option_bind].
  - rewrite Em. cbn [mbind option_bind]. rewrite findRpcByNamespace_ok, Hd.
    destruct (Rpcs (d_ms d) !! Namespace mo) as [rpcs|]; cbn [mbind option_bind]; [|naive_solver].
    destruct (rpcs !! name) as [r|] eqn:Er; cbn [mbind option_bind]; [|naive_solver].
    destruct (Input r) as [sch|] eqn:Ei; naive_solver.
  - naive_solver.
Qed.
End Lemmas.

(** ** Properties *)

Section Properties.
Context {L : ConfigLib} {RL : RpcLib} {YL : YangdLib} {E : ErrorLib}.

(** A conversion that succeeds has read the data against the schema of the RPC
    and written it again from the tree it read: nothing gets through unread, also
    when the two formats are the same. *)
Theorem ConvertRpcInput_spec y input out :
  ConvertRpcInput y input = (Some out, None) <->
  exists in_ rpc sch tree text,
    Unmarshal input = inl in_ /\
    findRpc y (in_ (tag "rpc-namespace")) (in_ (tag "module-name")) (in_ (tag "rpc-name")) = inl rpc /\
    Input rpc = Some sch /\
    known_format (in_ (tag "input-format")) /\ decodeTree (in_ (tag "input-format")) sch (in_ (tag "data")) = inl tree /\
    known_format (in_ (tag "output-format")) /\ encodeTree (in_ (tag "output-format")) sch tree = inl text /\
    MarshalString (tag "data") text = inl out.
Proof.
  unfold ConvertRpcInput, convert. destruct (Unmarshal input) as [in_|e].
  2: { split; [done|]. by intros (? & ? & ? & ? & ? & ? & _). }
  destruct (findRpc y _ _ _) as [rpc|e] eqn:Ef.
  2: { split; [done|]. intros (i & r & s & tr & te & [= <-] & Hr & _). by rewrite Ef in Hr. }
  destruct (findRpc_input _ _ _ _ _ Ef) as [sch Hs]. unfold rpc_input. rewrite Hs. cbn [default from_option id].
  destruct (unmarshal sch _ _ _ _ _) as [tree|e] eqn:Eu.
  2: { split; [done|]. intros (i & r & s & tree & text & [= <-] & Hr & Hi & Hk & Hd & _).
       rewrite Ef in Hr. injection Hr as <-. rewrite Hs in Hi. injection Hi as <-.
       rewrite (proj2 (unmarshal_ok _ _ _ _ _ _ _) (conj Hk Hd)) in Eu. done. }
  apply unmarshal_ok in Eu as [Hk Hd].
  destruct (marshal sch tree _) as [text|e] eqn:Em.
  - apply marshal_ok in Em as [Hk' He]. unfold genData.
    destruct (MarshalString (tag "data") text) as [o|e] eqn:Eo; split.
    + intros [= <-]. by exists in_, rpc, sch, tree, text.
    + intros (i & r & s & tr & te & [= <-] & Hr & Hi & _ & Hd' & _ & He' & Ho). congruence.
    + done.
    + intros (i & r & s & tr & te & [= <-] & Hr & Hi & _ & Hd' & _ & He' & Ho). congruence.
  - split; [done|]. intros (i & r & s & tr & text & [= <-] & Hr & Hi & _ & Hd' & Hk' & He & _).
    assert (tr = tree /\ s = sch) as [-> ->] by (split; congruence).
    rewrite (proj2 (marshal_ok _ _ _ _) (conj Hk' He)) in Em. done.
Qed.

(** The service calls an input valid exactly when the RPC exists, has an input,
    and the data decodes by its schema. *)
Theorem ValidateRpcInput_spec y input :
  snd (ValidateRpcInput y input) = None <->
  exists in_ rpc sch tree out,
    Unmarshal input = inl in_ /\
    findRpc y (in_ (tag "rpc-namespace")) (in_ (tag "rpc-module-name")) (in_ (tag "rpc-name")) = inl rpc /\
    Input rpc = Some sch /\ UnmarshalRFC7951 sch (in_ (tag "rpc-input")) = inl tree /\
    MarshalBool (tag "valid") true = inl out /\ fst (ValidateRpcInput y input) = Some out.
Proof.
  unfold ValidateRpcInput, genValid.
  destruct (Unmarshal input) as [in_|e].
  2: { split; [by destruct (MarshalBool _ false)|]. by intros (? & ? & ? & ? & ? & ? & _). }
  destruct (findRpc y _ _ _) as [rpc|e] eqn:Ef.
  2: { split; [by destruct (MarshalBool _ false)|].
       intros (i & r & s & tr & out & [= <-] & Hr & _). by rewrite Ef in Hr. }
  destruct (findRpc_input _ _ _ _ _ Ef) as [sch Hs]. unfold rpc_input. rewrite Hs. cbn [default from_option id].
  destruct (UnmarshalRFC7951 sch _) as [tree|e] eqn:Eu.
  - destruct (MarshalBool (tag "valid") true) as [out|e] eqn:Em.
    + split; [|done]. intros _. by exists in_, rpc, sch, tree, out.
    + split; [done|]. by intros (? & ? & ? & ? & ? & _ & _ & _ & _ & ? & _).
  - split; [by destruct (MarshalBool _ false)|].
    intros (i & r & s & tr & out & [= <-] & Hr & Hi & Ht & _).
    assert (s = sch) as -> by congruence. by rewrite Ht in Eu.
Qed.

(** ... and what it calls valid for a module, the daemon's own call of the RPC
    finds, with arguments that decode. *)
Theorem validated_call y (d : Disp) input in_ :
  y_st y = d_ms d -> snd (ValidateRpcInput y input) = None ->
  Unmarshal input = inl in_ -> in_ (tag "rpc-module-name") <> "" ->
  exists rpc ns sch tree,
    RpcCall.findRpc d (in_ (tag "rpc-module-name")) (in_ (tag "rpc-name")) "rfc7951" = Some (rpc, ns) /\
    Input rpc = Some sch /\ decodeTree "rfc7951" sch (in_ (tag "rpc-input")) = inl tree.
Proof.
  intros Hd Hv Hu Hm. unfold ValidateRpcInput in Hv. rewrite Hu in Hv.
  destruct (findRpc y _ _ _) as [rpc|e] eqn:Ef.
  2: { unfold genValid in Hv. by destruct (MarshalBool _ false). }
  destruct (findRpc_input _ _ _ _ _ Ef) as [sch Hs]. unfold rpc_input in Hv. rewrite Hs in Hv.
  cbn [default from_option id] in Hv.
  destruct (UnmarshalRFC7951 sch _) as [tree|e] eqn:Et.
  2: { unfold genValid in Hv. by destruct (MarshalBool _ false). }
  apply (proj1 (findRpc_agrees y d _ _ rpc Hd Hm _)) in Ef as [ns Ef].
  by exists rpc, ns, sch, tree.
Qed.

(** A start that logs nothing found no duplicates; duplicates are logged, and
    the daemon starts all the same. *)
Theorem startYangd_logged CompileDir Create ranges ms l y logged :
  (forall A (m : gmap string A), ranges A m ≡ₚ map_to_list m) ->
  startYangd CompileDir Create ranges ms l = inl (y, logged) ->
  CompileDir false = inl (y_st y) /\ CompileDir true = inl (y_stFull y) /\
  Create (y_stFull y) ms l = inl (y_mappings y) /\
  (logged = [] <->
    NoDup (component_names l) /\ NoDup (config_files l) /\
    NoDup (model_names l) /\ NoDup (module_references l)).
Proof.
  intros Hr. unfold startYangd. destruct (CompileDir false) as [st|e]; [|done].
  destruct (CompileDir true) as [stFull|e]; [|done].
  destruct (Create stFull ms l) as [maps|e] eqn:Ec; [|done]. intros [= <- <-].
  split_and!; [done..|].
  rewrite <- (names_ok l), <- files_ok, <- (models_ok ranges Hr), <- (references_ok ranges Hr).
  unfold validateComponents.
  destruct (checkForDuplicateComponentNames l), (checkForDuplicateConfigFileNames l),
    (checkForDuplicateModelNames ranges l), (checkForDuplicateModuleReferences ranges l); naive_solver.
Qed.
End Properties.

Module SampleYangd.
Import SampleRpcs.

(** Requests are texts of lines name=value. *)
Fixpoint fields (lines : list string) (name : string) : string :=
  match lines with
  | [] => ""
  | line :: lines' =>
      if HasPrefix line (name +:+ "=") then str_drop (String.length name + 1) line else fields lines' name
  end.

#[export] Instance yangd_lib : YangdLib (H := Sample.lib) (H0 := rpcs) :=
  @Build_YangdLib Sample.lib rpcs unit (fun _ => tt) (fun _ => ∅) unit
    (fun _ ns => if bool_decide (ns = "urn:clock") then Some "clockd" else None)
    (fun s => inl (fields (Split s "010"%char)))
    (fun name v => inl (name +:+ "=" +:+ v))
    (fun name v => inl (name +:+ "=" +:+ (if v : bool then "true" else "false"))).

Definition request (lines : list string) : string := Join (map (fun l => "yangd-v1:" +:+ l) lines) nl.

Definition disp : Disp := SampleDisp.disp Sample.allow.
Definition service : yangd (YL := yangd_lib) := NewYangd (YL := yangd_lib) (d_ms disp) (d_ms disp) tt.

Definition reset : string := request ["rpc-module-name=clock"; "rpc-name=reset"; "rpc-input={}"].

Lemma validated_call_witness :
  ValidateRpcInput (E := SampleFormat.errors) service reset = (Some "yangd-v1:valid=true", None) /\
  exists ns, RpcCall.findRpc (RL := rpcs) disp "clock" "reset" "rfc7951" = Some (tt, ns).
Proof.
  split; [vm_compute; reflexivity|].
  destruct (validated_call (YL := yangd_lib) (E := SampleFormat.errors) service disp reset
    (fields (Split reset "010"%char)) eq_refl) as ([] & ns & _ & _ & H & _).
  - vm_compute. reflexivity.
  - reflexivity.
  - vm_compute. discriminate.
  - exists ns. exact H.
Defined.

Lemma startYangd_logged_witness : exists y logged,
  startYangd (YL := yangd_lib) (fun _ => inl (d_ms disp)) (fun _ _ _ => inl tt) SampleComponents.sorted
    "vyatta-v1" [SampleComponents.comp "a" "a.conf" "ma" "m1"; SampleComponents.comp "b" "b.conf" "mb" "m1"]
  = inl (y, logged) /\ logged <> [].
Proof.
  eexists _, _. split; [reflexivity|].
  intros Hl.
  edestruct (startYangd_logged (YL := yangd_lib) (fun _ => inl (d_ms disp)) (fun _ _ _ => inl tt)
    SampleComponents.sorted "vyatta-v1"
    [SampleComponents.comp "a" "a.conf" "ma" "m1"; SampleComponents.comp "b" "b.conf" "mb" "m1"])
    as (_ & _ & _ & H); [by intros|reflexivity|].
  destruct (proj1 H Hl) as (_ & _ & _ & Hn). revert Hn. vm_compute. intros Hn.
  inversion Hn as [|? ? Hin]. apply Hin. by left.
Defined.

(** The text of an error names the namespace where the module should be. *)
Lemma names_swapped :
  ConvertRpcInput (E := SampleFormat.errors) service
    (request ["module-name=clock"; "rpc-name=reset"; "data={}"; "input-format=yaml"; "output-format=json"]) =
  (None, Some (error_msg OperationFailedApplication "Unknown RPC encoding 'yaml' for RPC :reset")).
Proof. vm_compute. reflexivity. Qed.
End SampleYangd.
