(* ===== verification/Tools.v ===== *)
(** The command-line tools of [cmd] that compute something of their own:
    configdcaps (the capabilities announced to NETCONF clients), cfgcmds (a
    configuration as commands), yang2path (the paths of a schema), yangc (the
    checker of YANG files), and the encodings gettree and callrpc take. *)

From S2P Require Import Prelude GoLib Errors Rpc GoFmt External Expand RpcCall.

(** ** configdcaps *)

Module Capabilities.

Record Schema := {
  Id : string;
  Ver : string;
  Ns : string;
  Features : list string;
  Deviations : list string
}.

(** [Schema.String]: each part is escaped on its own. *)
Definition Schema_String (s : Schema) : string :=
  EscapeText (Ns s +:+ "?module=" +:+ Id s)
  +:+ (if bool_decide (Ver s <> "") then EscapeText ("&revision=" +:+ Ver s) else "")
  +:+ (if bool_decide (Features s <> []) then EscapeText ("&features=" +:+ Join (Features s) ",") else "")
  +:+ (if bool_decide (Deviations s <> []) then EscapeText ("&deviations=" +:+ Join (Deviations s) ",")
       else "").

(** The first schema of that identifier is changed; schemas are pointers, so
    the change is seen in the slice. *)
Fixpoint set_first (id : string) (change : Schema -> Schema) (l : list Schema) : list Schema :=
  match l with
  | [] => []
  | schema :: l' =>
      if bool_decide (Id schema = id) then change schema :: l'
      else schema :: set_first id change l'
  end.

Definition with_features (fs : list string) (s : Schema) : Schema :=
  {| Id := Id s; Ver := Ver s; Ns := Ns s; Features := fs; Deviations := Deviations s |}.
Definition with_deviations (ds : list string) (s : Schema) : Schema :=
  {| Id := Id s; Ver := Ver s; Ns := Ns s; Features := Features s; Deviations := ds |}.

Section Set_.
(** The order in which Go ranges over a map. *)
Context (range : forall {A : Type}, gmap string A -> list (string * A)).
Arguments range {A}.

Definition set_one (with_ : list string -> Schema -> Schema) (schemas : list Schema)
    (entry : string * string) : list Schema :=
  let '(id, list_) := entry in
  if bool_decide (list_ = "") then schemas
  else set_first id (with_ (Split list_ ","%char)) schemas.

Definition setFeatures (schemas : list Schema) (features : gmap string string) : list Schema :=
  fold_left (set_one with_features) (range features) schemas.
Definition setDeviations (schemas : list Schema) (deviations : gmap string string) : list Schema :=
  fold_left (set_one with_deviations) (range deviations) schemas.

(** What is printed, given what the daemon answers: a line per module. *)
Definition print_schemas (schemas : list Schema) (features deviations : gmap string string) : list string :=
  map Schema_String (setDeviations (setFeatures schemas features) deviations).
End Set_.

(** *** What the loops do, whatever the order *)

(** The reference: a schema that is the first of its identifier gets the entry
    for it. *)
Fixpoint set_all (with_ : list string -> Schema -> Schema) (m : gmap string string) (seen : list string)
    (l : list Schema) : list Schema :=
  match l with
  | [] => []
  | s :: l' =>
      (if bool_decide (Id s ∈ seen) then s
       else match m !! Id s with
            | Some list_ => if bool_decide (list_ = "") then s else with_ (Split list_ ","%char) s
            | None => s
            end) :: set_all with_ m (Id s :: seen) l'
  end.

Section Set_lemmas.
Context (with_ : list string -> Schema -> Schema).
Hypothesis with_Id : forall x s, Id (with_ x s) = Id s.

Definition entry_step (s : Schema) (id : string) (list_ : string) : Schema :=
  if bool_decide (list_ = "") then s
  else if bool_decide (Id s = id) then with_ (Split list_ ","%char) s else s.

(** The head of the list meets every entry. *)
Lemma set_one_cons s l entries : NoDup (map fst entries) ->
  fold_left (set_one with_) entries (s :: l) =
  fold_left (fun s e => entry_step s (fst e) (snd e)) entries s ::
  fold_left (set_one with_) (filter (fun e => fst e <> Id s) entries) l.
Proof.
  revert s l. induction entries as [|[id x] es IH]; intros s l Hn; [done|].
  cbn [map fst] in Hn. apply NoDup_cons in Hn as [Hid Hn]. cbn [fold_left fst snd].
  unfold entry_step at 2. cbn [set_one]. case_bool_decide as Hx.
  - rewrite IH by done. rewrite filter_cons. case_decide; [|done]. cbn [fold_left].
    assert (set_one with_ l (id, x) = l) as ->; [|done]. cbn. by rewrite bool_decide_true.
  - cbn [set_first]. case_bool_decide as Hs.
    + rewrite IH, with_Id by done. rewrite filter_cons. by rewrite decide_False by (cbn; congruence).
    + rewrite IH by done. rewrite filter_cons, decide_True by (cbn; congruence). cbn [fold_left].
      assert (set_one with_ l (id, x) = set_first id (with_ (Split x ","%char)) l) as ->; [|done].
      cbn. by rewrite bool_decide_false.
Qed.

Lemma entry_fold s entries : NoDup (map fst entries) ->
  fold_left (fun s e => entry_step s (fst e) (snd e)) entries s =
  match (list_to_map entries : gmap string string) !! Id s with
  | Some list_ => if bool_decide (list_ = "") then s else with_ (Split list_ ","%char) s
  | None => s
  end.
Proof.
  revert s. induction entries as [|[id x] es IH]; intros s Hn; [done|].
  cbn [map fst] in Hn. apply NoDup_cons in Hn as [Hid Hn]. cbn [fold_left list_to_map foldr fst snd].
  rewrite IH by done.
  assert (Id (entry_step s id x) = Id s) as ->.
  { unfold entry_step. repeat case_bool_decide; [done|apply with_Id|done]. }
  destruct (decide (Id s = id)) as [E|E].
  - rewrite <- E, lookup_insert_eq.
    assert ((list_to_map es : gmap string string) !! Id s = None) as ->
      by (apply not_elem_of_list_to_map_1; by rewrite E).
    unfold entry_step. by rewrite (bool_decide_true (Id s = Id s)).
  - rewrite lookup_insert_ne by done.
    assert (entry_step s id x = s) as ->; [|done].
    unfold entry_step. case_bool_decide; [done|]. by rewrite bool_decide_false.
Qed.
Lemma fold_set_all m entries l : forall seen,
  NoDup (map fst entries) -> (list_to_map entries : gmap string string) = m ->
  fold_left (set_one with_) (filter (fun e => fst e ∉ seen) entries) l = set_all with_ m seen l.
Proof.
  induction l as [|s l IH]; intros seen Hn Hm.
  { cbn [set_all]. generalize (filter (fun e => fst e ∉ seen) entries). clear.
    induction l as [|[id x] l IH]; [done|]. cbn. by case_bool_decide. }
  assert (Hn' : NoDup (map fst (filter (fun e => fst e ∉ seen) entries))).
  { change (NoDup (fst <$> filter (fun e => fst e ∉ seen) entries)).
    eapply sublist_NoDup; [exact Hn|]. apply fmap_sublist, sublist_filter. }
  rewrite set_one_cons by done. cbn [set_all]. f_equal.
  - rewrite entry_fold by done.
    assert ((list_to_map (filter (fun e => fst e ∉ seen) entries) : gmap string string) !! Id s =
      (if bool_decide (Id s ∈ seen) then None else m !! Id s)) as ->; [|by case_bool_decide].
    subst m. case_bool_decide as Hs.
    + apply not_elem_of_list_to_map_1. intros (e & E & He)%list_elem_of_fmap.
      apply list_elem_of_filter in He as [He _]. apply He. by rewrite <- E.
    + apply option_eq. intros x. rewrite <- !elem_of_list_to_map by done.
      rewrite list_elem_of_filter. cbn [fst]. tauto.
  - rewrite <- IH by done. f_equal. rewrite list_filter_filter. apply list_filter_iff.
    intros e. rewrite not_elem_of_cons. tauto.
Qed.
End Set_lemmas.

(** The entries of a map reach the modules they are for, in whatever order Go
    ranges over the map. *)
Theorem setFeatures_spec (range : forall A : Type, gmap string A -> list (string * A)) schemas features deviations :
  (forall A (m : gmap string A), range A m ≡ₚ map_to_list m) ->
  setFeatures range schemas features = set_all with_features features [] schemas /\
  setDeviations range schemas deviations = set_all with_deviations deviations [] schemas.
Proof.
  intros Hr.
  assert (H : forall with_ m l, (forall x s, Id (with_ x s) = Id s) ->
    fold_left (set_one with_) (range string m) l = set_all with_ m [] l).
  { intros with_ m l Hw.
    assert (Hn : NoDup (map fst (range string m))).
    { change (NoDup (fst <$> range string m)). rewrite Hr. apply NoDup_fst_map_to_list. }
    rewrite <- (fold_set_all with_ Hw m (range string m) l []).
    - f_equal. generalize (range string m). intros es.
      induction es as [|e es IH]; [done|]. rewrite filter_cons, decide_True by apply not_elem_of_nil.
      by rewrite <- IH.
    - exact Hn.
    - rewrite <- (list_to_map_to_list m) at 2. apply list_to_map_proper; [exact Hn|apply Hr]. }
  split; by apply H.
Qed.

(** The URI of a capability, unescaped. *)
Definition uri (s : Schema) : string :=
  (Ns s +:+ "?module=" +:+ Id s)
  +:+ (if bool_decide (Ver s <> "") then "&revision=" +:+ Ver s else "")
  +:+ (if bool_decide (Features s <> []) then "&features=" +:+ Join (Features s) "," else "")
  +:+ (if bool_decide (Deviations s <> []) then "&deviations=" +:+ Join (Deviations s) "," else "").

Lemma EscapeText_app a b : EscapeText (a +:+ b) = EscapeText a +:+ EscapeText b.
Proof.
  induction a as [|c a IH]; [done|]. change (String c a +:+ b) with (String c (a +:+ b)).
  cbn [EscapeText]. by rewrite IH, append_assoc.
Qed.

(** A capability is XML text that reads back as its URI. *)
Theorem Schema_String_reads_back s : xml_text (uri s) = true ->
  unescape (String.length (uri s)) (Schema_String s) = Some (uri s).
Proof.
  intros Ht. assert (Schema_String s = EscapeText (uri s)) as ->; [|by apply unescape_EscapeText].
  unfold Schema_String, uri. rewrite !EscapeText_app. by repeat case_bool_decide.
Qed.

(** The example of the tests. *)
Example Schema_String_example :
  Schema_String {| Id := "configd-v1"; Ver := "2015-07-28"; Ns := "urn:vyatta.com:mgmt:configd:1";
    Features := ["feat1"; "feat2"]; Deviations := [] |} =
  "urn:vyatta.com:mgmt:configd:1?module=configd-v1&amp;revision=2015-07-28&amp;features=feat1,feat2".
Proof. vm_compute. reflexivity. Qed.

Definition sample : list Schema :=
  [{| Id := "m"; Ver := ""; Ns := "urn:m"; Features := []; Deviations := [] |}].

Lemma Schema_String_reads_back_witness :
  exists text, Schema_String {| Id := "m"; Ver := "1"; Ns := "urn:m"; Features := []; Deviations := [] |} = text /\
    unescape 25 text = Some "urn:m?module=m&revision=1".
Proof.
  eexists. split; [reflexivity|].
  exact (Schema_String_reads_back {| Id := "m"; Ver := "1"; Ns := "urn:m"; Features := []; Deviations := [] |}
    eq_refl).
Defined.

Lemma setFeatures_spec_witness :
  setFeatures (fun _ m => map_to_list m) sample {["m" := "ntp,ptp"]} =
  [{| Id := "m"; Ver := ""; Ns := "urn:m"; Features := ["ntp"; "ptp"]; Deviations := [] |}].
Proof.
  destruct (setFeatures_spec (fun _ m => map_to_list m) sample {["m" := "ntp,ptp"]} ∅) as [E _]; [by intros|].
  rewrite E. vm_compute. reflexivity.
Defined.
End Capabilities.

(** ** cfgcmds *)

Module Commands.

(** A node of package parse, as the fields that are read. *)
Inductive pnode := PNode {
  pn_Id : string;
  pn_Arg : string;
  pn_HasArg : bool;
  pn_Children : list pnode
}.

Section Paths.
(** [shell.Quote]. *)
Context (Quote : string -> string).

Definition buildpath (n : pnode) (path : list string) : list string :=
  if pn_HasArg n then path ++ [pn_Id n; Quote (pn_Arg n)] else path ++ [pn_Id n].

(** The paths of siblings may share their array; each is copied before the next
    one is built. *)
Fixpoint buildpaths (n : pnode) (path : list string) : list (list string) :=
  let path := buildpath n path in
  (if bool_decide (length (pn_Children n) = 0%nat) then [path] else [])
  ++ flat_map (fun ch => buildpaths ch path) (pn_Children n).

(** The lines of a file with these nodes at its root. *)
Definition cfgcmds (children : list pnode) : list string :=
  map (fun path => "set " +:+ Join path " ") (flat_map (fun ch => buildpaths ch []) children).

(** *** The reference: the branches of the tree *)

Definition words (n : pnode) : list string :=
  pn_Id n :: if pn_HasArg n then [Quote (pn_Arg n)] else [].

(** A branch: the nodes from the root to a leaf. *)
Inductive branch : pnode -> list pnode -> Prop :=
  | branch_leaf n : pn_Children n = [] -> branch n [n]
  | branch_child n c ns : In c (pn_Children n) -> branch c ns -> branch n (n :: ns).

Fixpoint leaves (n : pnode) : nat :=
  match pn_Children n with
  | [] => 1
  | l => fold_right (fun c acc => (leaves c + acc)%nat) 0%nat l
  end.

Section pnode_ind.
Variable P : pnode -> Prop.
Hypothesis step : forall n, Forall P (pn_Children n) -> P n.
Fixpoint pnode_nested_ind (n : pnode) : P n :=
  step n ((fix go (l : list pnode) : Forall P l :=
            match l with
            | [] => Forall_nil_2 P
            | c :: l' => Forall_cons_2 P c l' (pnode_nested_ind c) (go l')
            end) (pn_Children n)).
End pnode_ind.

Lemma buildpath_words n path : buildpath n path = path ++ words n.
Proof. unfold buildpath, words. by destruct (pn_HasArg n). Qed.

Lemma buildpaths_eq n path : buildpaths n path =
  (if bool_decide (length (pn_Children n) = 0%nat) then [buildpath n path] else [])
  ++ flat_map (fun ch => buildpaths ch (buildpath n path)) (pn_Children n).
Proof. by destruct n. Qed.

(** A path is set for each branch of the tree, and for nothing else. *)
Theorem buildpaths_branches n : forall path p,
  In p (buildpaths n path) <-> exists ns, branch n ns /\ p = path ++ flat_map words ns.
Proof.
  induction n as [n IH] using pnode_nested_ind. intros path p.
  rewrite buildpaths_eq, in_app_iff, in_flat_map, buildpath_words. rewrite List.Forall_forall in IH. split.
  - intros [H|(c & Hc & H)].
    + case_bool_decide as El; [|done]. destruct H as [<-|[]]. exists [n]. split.
      * apply branch_leaf. by apply nil_length_inv.
      * cbn [flat_map]. by rewrite app_nil_r.
    + apply (IH c Hc) in H as (ns & Hb & ->). exists (n :: ns). split; [by eapply branch_child|].
      cbn [flat_map]. by rewrite app_assoc.
  - intros (ns & Hb & ->). destruct Hb as [n Hl|n c ns Hc Hb].
    + left. rewrite Hl. cbn [flat_map]. rewrite bool_decide_true by done. rewrite app_nil_r. by left.
    + right. exists c. split; [done|]. apply (IH c Hc). exists ns. split; [done|].
      cbn [flat_map]. by rewrite app_assoc.
Qed.

Lemma length_flat_map {A B} (f : A -> list B) l :
  length (flat_map f l) = fold_right (fun a acc => (length (f a) + acc)%nat) 0%nat l.
Proof. induction l as [|a l IH]; [done|]. cbn. by rewrite length_app, IH. Qed.

(** ... one command for each leaf. *)
Theorem buildpaths_count n : forall path, length (buildpaths n path) = leaves n.
Proof.
  induction n as [n IH] using pnode_nested_ind. intros path.
  rewrite buildpaths_eq, length_app, length_flat_map. destruct n as [i a h [|c l]]; [done|].
  cbn [pn_Children] in *. rewrite bool_decide_false by done.
  change (leaves (PNode i a h (c :: l))) with (fold_right (fun c acc => (leaves c + acc)%nat) 0%nat (c :: l)).
  generalize (buildpath (PNode i a h (c :: l)) path) as q. intros q. cbn [length Nat.add]. revert IH. generalize (c :: l) as cs. induction cs as [|x cs IHcs]; [done|].
  intros Hf. inversion Hf as [|? ? Hx Hf']; subst. cbn [fold_right]. by rewrite Hx, IHcs.
Qed.
End Paths.

Example interfaces : cfgcmds (fun s => "'" +:+ s +:+ "'")
  [PNode "system" "" false [PNode "host-name" "vyatta" true []; PNode "login" "" false []]] =
  ["set system host-name 'vyatta'"; "set system login"].
Proof. vm_compute. reflexivity. Qed.
End Commands.

(** ** yang2path *)

Module Yang2path.

Section Walk.
(** [natsort.Less] as the sorting of what carries a name, [HelpMap()], and
    [sort.Strings] of the keys of a map. *)
Context (natsorted : forall {A : Type}, list (string * A) -> list (string * A)).
Arguments natsorted {A}.
Context (HelpMap : snode -> list string).

Definition appendPathStr (path elem : string) : string :=
  if bool_decide (path = "") then elem else path +:+ " " +:+ elem.

Definition handleHelp (n : snode) (path : string) : string :=
  let vs := HelpMap n in
  if bool_decide (length vs = 0%nat) then appendPathStr path "<value>"
  else
    let out := Join vs "|" in
    let out := if (1 <? length vs)%nat then "(" +:+ out +:+ ")" else out in
    appendPathStr path out.

(** The path of the node itself, which its children continue. *)
Definition own_path (n : snode) (path : string) : string :=
  match sn_kind n with
  | KList => handleHelp n (appendPathStr path (sn_name n))
  | KLeaf =>
      let path := appendPathStr path (sn_name n) in
      match sn_type n with TEmpty => path | _ => handleHelp n path end
  | KLeafList => handleHelp n (appendPathStr path (sn_name n))
  | KContainer => appendPathStr path (sn_name n)
  | _ => path
  end.

Definition printed (n : snode) : bool :=
  match sn_kind n with
  | KList | KLeaf | KLeafList => true
  | KContainer => sn_presence n
  | _ => false
  end.

(** The children that are walked: those of a list but its keys, none of a leaf. *)
Definition skiplist (n : snode) : list string :=
  match sn_kind n with KList => sn_keys n | _ => [] end.
Definition has_children (n : snode) : bool :=
  match sn_kind n with KLeaf | KLeafList => false | _ => true end.

Fixpoint walk (n : snode) (path : string) : list string :=
  let children := natsorted (map (fun c => (sn_name c, walk c)) (sn_children n)) in
  let walkChildrenSkip (path : string) (skip : list string) : list string :=
    flat_map (fun v => if isElemOf skip (fst v) then [] else snd v path) children in
  (if printed n then [own_path n path] else [])
  ++ (if has_children n then walkChildrenSkip (own_path n path) (skiplist n) else []).

(** *** The reference: which lines there are *)

Inductive shown : snode -> string -> string -> Prop :=
  | shown_here n path : printed n = true -> shown n path (own_path n path)
  | shown_below n c path line :
      has_children n = true -> In c (sn_children n) -> isElemOf (skiplist n) (sn_name c) = false ->
      shown c (own_path n path) line -> shown n path line.

Section snode_ind.
Variable P : snode -> Prop.
Hypothesis step : forall n, Forall P (sn_children n) -> P n.
Fixpoint snode_children_ind (n : snode) : P n :=
  step n ((fix go (l : list snode) : Forall P l :=
            match l with
            | [] => Forall_nil_2 P
            | c :: l' => Forall_cons_2 P c l' (snode_children_ind c) (go l')
            end) (sn_children n)).
End snode_ind.

Lemma walk_eq n path : walk n path =
  (if printed n then [own_path n path] else [])
  ++ (if has_children n then
        flat_map (fun v => if isElemOf (skiplist n) (fst v) then [] else snd v (own_path n path))
          (natsorted (map (fun c => (sn_name c, walk c)) (sn_children n)))
      else []).
Proof. by destruct n. Qed.

(** Every path of the schema is printed, in whatever order the names sort, and
    no other. *)
Theorem walk_shown n :
  (forall A (l : list (string * A)), natsorted l ≡ₚ l) ->
  forall path line, In line (walk n path) <-> shown n path line.
Proof.
  intros Hsort. induction n as [n IH] using snode_children_ind. intros path line.
  rewrite List.Forall_forall in IH. rewrite walk_eq, in_app_iff. split.
  - intros [H|H].
    + destruct (printed n) eqn:Ep; [|done]. destruct H as [<-|[]]. by apply shown_here.
    + destruct (has_children n) eqn:Eh; [|done].
      apply in_flat_map in H as ((name, f) & Hin & H). cbn [fst snd] in H.
      apply (Permutation_in _ (Hsort _ _)) in Hin. apply in_map_iff in Hin as (c & [= <- <-] & Hc).
      destruct (isElemOf (skiplist n) (sn_name c)) eqn:Es; [done|].
      eapply shown_below; [done|exact Hc|done|]. by apply IH.
  - intros H. destruct H as [n path Hp|n c path line Hh Hc Hs H].
    + left. rewrite Hp. by left.
    + right. rewrite Hh. apply in_flat_map. exists (sn_name c, walk c). split.
      * apply (Permutation_in _ (Permutation_sym (Hsort _ _))). apply in_map_iff. by exists c.
      * cbn [fst snd]. rewrite Hs. by apply IH.
Qed.
End Walk.

Definition leaf (name : string) : snode := SNode KLeaf name "" false TOther [] "" [] [] [].
Definition flag_ (name : string) : snode := SNode KLeaf name "" false TEmpty [] "" [] [] [].
Definition list_ (name : string) (keys : list string) (cs : list snode) : snode :=
  SNode KList name "" false TOther keys "" [] cs [].
Definition tree (cs : list snode) : snode := SNode KTree "" "" false TOther [] "" [] cs [].

Lemma walk_shown_witness :
  walk (fun _ l => l) (fun _ => []) (tree [list_ "if" ["name"] [leaf "name"; flag_ "disable"]]) "" =
    ["if <value>"; "if <value> disable"] /\
  shown (fun _ => []) (tree [list_ "if" ["name"] [leaf "name"; flag_ "disable"]]) "" "if <value> disable".
Proof.
  split; [vm_compute; reflexivity|].
  apply (walk_shown (fun _ l => l) (fun _ => [])); [done|]. vm_compute. right. by left.
Defined.
End Yang2path.

(** ** yangc *)

Module Yangc.

(** What the command line sets. *)
Record flags := {
  capabilities : string;
  resourcesDir : string;
  testPlatform : string
}.

Definition validateArgs (f : flags) (args : list string) : bool :=
  if Bool.eqb (Nat.eqb (length args) 0) (bool_decide (resourcesDir f = "")) then false
  else if bool_decide (capabilities f <> "") && bool_decide (resourcesDir f <> "") then false
  else if bool_decide (testPlatform f <> "") && bool_decide (resourcesDir f = "") then false
  else true.

(** [filepath.Join]. *)
Definition filepath_Join (elems : list string) : string :=
  let elems := filter (fun e => e <> "") elems in
  if bool_decide (elems = []) then "" else Clean (Join elems "/").

Definition featuresSubdir : string := "features".
Definition vyattaPlatformSubdir : string := "vyatta-platform".
Definition vyattaPlatformYangSubdir : string := vyattaPlatformSubdir +:+ "/yang".

(** A platform's definition, and what package compile is given. *)
Record Definition_ := {
  Yang : list string;
  pl_Features : list string;
  DisabledFeatures : list string
}.
Inductive YangLocator :=
  | YangDirs (dir : string)
  | YangFiles (files : list string)
  | YangLocations (l : list YangLocator).
Inductive FeaturesChecker :=
  | FeaturesFromLocations (enabled : bool) (location : string)
  | FeaturesFromNames (enabled : bool) (names : list string)
  | MultiFeatureCheckers (l : list FeaturesChecker).

Definition getPlatform (Platforms : string -> gmap string Definition_) (dir platName : string)
    : Definition_ + error :=
  if bool_decide (platName = "") then inl {| Yang := []; pl_Features := []; DisabledFeatures := [] |}
  else
    let platDir := filepath_Join [dir; vyattaPlatformSubdir] in
    match Platforms platDir !! platName with
    | None => inr (EGo ("Unable to find definition for platform '" +:+ platName +:+ "'"))
    | Some plat => inl plat
    end.

Definition createYangLocator (args : list string) (resources : string) (plat : Definition_) : YangLocator :=
  match args with
  | a :: _ => YangDirs a
  | [] =>
      YangLocations
        [YangDirs (filepath_Join [resources; "yang"]);
         YangFiles (map (fun file => filepath_Join [resources; vyattaPlatformYangSubdir; file]) (Yang plat))]
  end.

(** The directory of the features comes from the flag, not from the parameter. *)
Definition createFeatureChecker (f : flags) (caps resources : string) (plat : Definition_) : FeaturesChecker :=
  if bool_decide (caps <> "") then FeaturesFromLocations true caps
  else
    MultiFeatureCheckers
      [FeaturesFromLocations true (filepath_Join [resourcesDir f; featuresSubdir]);
       FeaturesFromNames true (pl_Features plat);
       FeaturesFromNames false (DisabledFeatures plat)].

(** The sections of the plugin files come first. *)
Definition getValidCustomFunctionList (fromIniFiles : list string) (customXpathFunctions : string) : list string :=
  fromIniFiles ++ filter (fun function => function <> "") (Split customXpathFunctions ","%char).

Definition createUserFnChecker (fromIniFiles : list string) (customFns name : string) : bool :=
  existsb (String.eqb name) (getValidCustomFunctionList fromIniFiles customFns).

(** The two usages the help describes, and no mixture. *)
Theorem validateArgs_spec f args :
  validateArgs f args = true <->
  (args <> [] /\ resourcesDir f = "" /\ testPlatform f = "") \/
  (args = [] /\ resourcesDir f <> "" /\ capabilities f = "").
Proof.
  unfold validateArgs. destruct args as [|a args]; cbn [length Nat.eqb];
    repeat case_bool_decide; cbn [Bool.eqb andb]; split; try done; try tauto; naive_solver.
Qed.

(** The empty name is nobody's function. *)
Theorem createUserFnChecker_empty ini customFns : ~ In "" ini -> createUserFnChecker ini customFns "" = false.
Proof.
  intros Hini. apply not_true_is_false. unfold createUserFnChecker, getValidCustomFunctionList.
  rewrite existsb_exists. intros (x & Hx & <-%String.eqb_eq). apply in_app_iff in Hx as [Hx|Hx]; [done|].
  apply list_elem_of_In, list_elem_of_filter in Hx as [Hx _]. done.
Qed.

Lemma createUserFnChecker_empty_witness : createUserFnChecker ["count-nodes"] "a,,b" "" = false.
Proof. apply createUserFnChecker_empty. intros [H|[]]. discriminate. Defined.
End Yangc.

(** ** gettree and callrpc *)

Definition gettree_getEncoding (encoding : string) : string + error :=
  if bool_decide (encoding = "xml" \/ encoding = "json" \/ encoding = "rfc7951" \/ encoding = "internal")
  then inl encoding
  else inr (EGo "Invalid encoding: json, xml, rfc7951 or internal expected").

Definition callrpc_getEncoding (encoding : string) : string + error :=
  if bool_decide (encoding = "xml" \/ encoding = "json" \/ encoding = "rfc7951") then inl encoding
  else inr (EGo "Invalid encoding. json, rfc7951 or xml allowed").
