(* ===== verification/ServerIO.v ===== *)
(** [server/user_process.go] and [Srv.Serve] of [server/server.go]: reading what
    a process of the caller writes, and accepting connections. *)

From S2P Require Import Prelude GoLib Errors ConfigMgmt.

(** ** The reader of a process *)

(** What running the command does: whether it starts at all, what it writes to
    its standard output (a text for each write), to its standard error, and how
    it exits. *)
Record process := {
  pr_start : option error;
  pr_writes : list string;
  pr_stderr : string;
  pr_exit : option error
}.

(** [userProcessReader]: [cmd.Process] is there once it runs; the pipe holds the
    writes that are not read yet. *)
Record userProcessReader := {
  r_cmd : process;
  r_started : bool;
  r_starts : nat;                 (** how often the command was started *)
  r_pipe : list string;
  r_closed : bool;
  r_killed : bool
}.

Definition newUserProcessReader (cmd : process) : userProcessReader :=
  {| r_cmd := cmd; r_started := false; r_starts := 0; r_pipe := []; r_closed := false; r_killed := false |}.

(** The process writes into the pipe, and closes it with its error when it ends. *)
Definition reader_run (r : userProcessReader) : option error * userProcessReader :=
  if r_started r then (None, r)
  else match pr_start (r_cmd r) with
       | Some err => (Some err, r)
       | None =>
           (None, {| r_cmd := r_cmd r; r_started := true; r_starts := S (r_starts r);
                     r_pipe := pr_writes (r_cmd r); r_closed := r_closed r; r_killed := r_killed r |})
       end.

Definition set_pipe (pipe : list string) (r : userProcessReader) : userProcessReader :=
  {| r_cmd := r_cmd r; r_started := r_started r; r_starts := r_starts r; r_pipe := pipe;
     r_closed := r_closed r; r_killed := r_killed r |}.

Definition ErrClosedPipe : error := EGo "io: read/write on closed pipe".

(** How the pipe ends: [io.EOF], or the error the process left. *)
Inductive read_end := EOF | Failed (err : error).

Definition pipe_end (cmd : process) : read_end :=
  match handleCallerCommandError (pr_stderr cmd, pr_exit cmd) with
  | None => EOF
  | Some err => Failed err
  end.

(** [Read] into a buffer of [n] bytes: some bytes, or the end.  A read takes
    from one write of the process only. *)
Definition reader_Read (n : nat) (r : userProcessReader) : (string * option read_end) * userProcessReader :=
  match reader_run r with
  | (Some err, r) => (("", Some (Failed err)), r)
  | (None, r) =>
      if r_closed r then (("", Some (Failed ErrClosedPipe)), r)
      else match r_pipe r with
           | [] => (("", Some (pipe_end (r_cmd r))), r)
           | w :: ws =>
               let rest := str_drop n w in
               ((str_take n w, None), set_pipe (if bool_decide (rest = "") then ws else rest :: ws) r)
           end
  end.

Definition reader_Close (r : userProcessReader) : userProcessReader :=
  {| r_cmd := r_cmd r; r_started := r_started r; r_starts := r_starts r; r_pipe := r_pipe r;
     r_closed := true; r_killed := r_killed r || r_started r |}.

(** [ioutil.ReadAll]: reads, with buffers of any sizes, until the end; [None] when
    the reads given do not reach it. *)
Fixpoint ReadAll (sizes : list nat) (r : userProcessReader) (acc : string)
    : option ((string * option error) * userProcessReader) :=
  match sizes with
  | [] => None
  | n :: sizes' =>
      match reader_Read n r with
      | ((bytes, None), r) => ReadAll sizes' r (acc +:+ bytes)
      | ((bytes, Some EOF), r) => Some ((acc +:+ bytes, None), r)
      | ((bytes, Some (Failed err)), r) => Some ((acc +:+ bytes, Some err), r)
      end
  end.

(** ** Accepting connections *)

(** What [AcceptUnix] returns, time after time. *)
Inductive accepted (C : Type) :=
  | AConn (conn : C)
  | ATemporary (err : error)       (** a [net.Error] that is temporary *)
  | AError (err : error).
Arguments AConn {C} conn.
Arguments ATemporary {C} err.
Arguments AError {C} err.

Record served (C : Type) := Served {
  sv_handled : list C;              (** connections that got their goroutine *)
  sv_logged : list error;
  sv_result : option (option error) (** [None] while the loop goes on *)
}.
Arguments Served {C} _ _ _.
Arguments sv_handled {C} _.
Arguments sv_logged {C} _.
Arguments sv_result {C} _.

(** The [err] of the loop is another variable than the one returned, which stays
    nil. *)
Fixpoint Serve {C} (accepts : list (accepted C)) : served C :=
  match accepts with
  | [] => Served [] [] None
  | AConn conn :: accepts' =>
      let s := Serve accepts' in Served (conn :: sv_handled s) (sv_logged s) (sv_result s)
  | ATemporary _ :: accepts' => Serve accepts'
  | AError err :: _ => Served [] [err] (Some None)
  end.

(** ** Lemmas *)

Definition pipe_bytes (r : userProcessReader) : string := String.concat "" (r_pipe r).

Fixpoint reads_needed (ws : list string) : nat :=
  match ws with [] => 1 | w :: ws' => S (String.length w) + reads_needed ws' end.

Lemma take_drop_str n s : str_take n s +:+ str_drop n s = s.
Proof.
  revert s. induction n as [|n IH]; intros s; [by destruct s|]. destruct s as [|c s]; [done|].
  exact (f_equal (String c) (IH s)).
Qed.

Lemma str_drop_length n s : String.length (str_drop n s) = (String.length s - n)%nat.
Proof. revert s. induction n as [|n IH]; intros s; destruct s as [|c s]; cbn; [done..|apply IH]. Qed.

Lemma concat_cons w ws : String.concat "" (w :: ws) = w +:+ String.concat "" ws.
Proof. destruct ws; [by rewrite append_empty_r|done]. Qed.

Lemma pipe_rest n w ws :
  str_take n w +:+ String.concat "" (if bool_decide (str_drop n w = "") then ws else str_drop n w :: ws) =
  w +:+ String.concat "" ws.
Proof.
  transitivity ((str_take n w +:+ str_drop n w) +:+ String.concat "" ws); [|by rewrite take_drop_str].
  rewrite append_assoc. f_equal. case_bool_decide as E; [by rewrite E|apply concat_cons].
Qed.

(** Once it runs, the rest of the pipe is read to its end. *)
Lemma ReadAll_started sizes : forall r acc, r_started r = true -> r_closed r = false ->
  Forall (fun n => 0 < n)%nat sizes -> (reads_needed (r_pipe r) <= length sizes)%nat ->
  exists r', ReadAll sizes r acc =
    Some ((acc +:+ pipe_bytes r, handleCallerCommandError (pr_stderr (r_cmd r), pr_exit (r_cmd r))), r') /\
    r_starts r' = r_starts r /\ r_started r' = true.
Proof.
  induction sizes as [|n sizes IH]; intros r acc Hs Hc Hn Hl.
  { destruct (r_pipe r); cbn in Hl; lia. }
  cbn [ReadAll]. unfold reader_Read, reader_run. rewrite Hs, Hc. unfold pipe_bytes.
  inversion Hn as [|? ? Hn0 Hn']; subst.
  destruct (r_pipe r) as [|w ws] eqn:Ep.
  - exists r. split; [|done]. unfold pipe_end. cbn [String.concat].
    by destruct (handleCallerCommandError _).
  - destruct (IH (set_pipe (if bool_decide (str_drop n w = "") then ws else str_drop n w :: ws) r)
      (acc +:+ str_take n w) Hs Hc Hn') as (r' & E & H1 & H2).
    + cbn [set_pipe r_pipe]. cbn [reads_needed length] in Hl. case_bool_decide; [lia|].
      cbn [reads_needed]. rewrite str_drop_length. assert (w <> "") by (intros ->; by destruct n).
      destruct w as [|c w]; [done|]. cbn [String.length] in *. lia.
    + exists r'. split_and!; [|done|done]. rewrite E. unfold pipe_bytes. cbn [set_pipe r_pipe r_cmd].
      by rewrite append_assoc, pipe_rest, concat_cons.
Qed.

(** ** Properties *)

(** Reading a process to its end starts it once and returns all it wrote, with
    the error it left; how large the buffers are and how it wrote does not
    matter. *)
Theorem ReadAll_process cmd sizes : pr_start cmd = None ->
  Forall (fun n => 0 < n)%nat sizes -> (reads_needed (pr_writes cmd) <= length sizes)%nat ->
  exists r', ReadAll sizes (newUserProcessReader cmd) "" =
    Some ((String.concat "" (pr_writes cmd), handleCallerCommandError (pr_stderr cmd, pr_exit cmd)), r') /\
    r_starts r' = 1%nat /\ r_killed (reader_Close r') = true.
Proof.
  intros Hs Hn Hl.
  set (r1 := {| r_cmd := cmd; r_started := true; r_starts := 1; r_pipe := pr_writes cmd;
                r_closed := false; r_killed := false |}).
  assert (E : ReadAll sizes (newUserProcessReader cmd) "" = ReadAll sizes r1 "").
  { destruct sizes as [|n sizes]; [done|]. cbn [ReadAll]. unfold reader_Read, reader_run.
    cbn [newUserProcessReader r_started r_cmd]. by rewrite Hs. }
  destruct (ReadAll_started sizes r1 "" eq_refl eq_refl Hn Hl) as (r' & E1 & H1 & H2).
  exists r'. rewrite E, E1. split_and!; [done|done|]. cbn. by rewrite H2, orb_true_r.
Qed.

(** The accept loop serves every connection before the first error that is not
    temporary, and then ends; what it returns is nil, whatever the error. *)
Theorem Serve_spec {C} (accepts : list (accepted C)) (conns : list C) (err : error) rest before :
  accepts = before ++ AError err :: rest ->
  (forall a, In a before -> match a with AError _ => False | _ => True end) ->
  conns = omap (fun a => match a with AConn c => Some c | _ => None end) before ->
  Serve accepts = Served conns [err] (Some None).
Proof.
  intros -> Hb ->. induction before as [|a before IH]; [done|].
  assert (Hb' : forall a, In a before -> match a with AError _ => False | _ => True end)
    by (intros; apply Hb; by right).
  pose proof (Hb a (or_introl eq_refl)) as Ha. cbn [app Serve].
  destruct a as [c|e|e]; [|by apply IH|done]. by rewrite IH.
Qed.

(** ** Witnesses *)

Definition cat : process :=
  {| pr_start := None; pr_writes := ["ssh-rsa "; "AAAA"]; pr_stderr := "cat: no"; pr_exit := None |}.

Lemma ReadAll_process_witness : exists r',
  ReadAll (replicate 15 3%nat) (newUserProcessReader cat) "" = Some (("ssh-rsa AAAA", None), r').
Proof.
  destruct (ReadAll_process cat (replicate 15 3%nat) eq_refl) as (r' & E & _).
  - apply Forall_replicate. lia.
  - vm_compute. lia.
  - exists r'. exact E.
Defined.

Lemma Serve_spec_witness :
  Serve [AConn 1%nat; ATemporary (EGo "again"); AConn 2%nat; AError (EGo "gone"); AConn 3%nat] =
  Served [1%nat; 2%nat] [EGo "gone"] (Some None).
Proof.
  apply (Serve_spec _ _ _ [AConn 3%nat] [AConn 1%nat; ATemporary (EGo "again"); AConn 2%nat]).
  - reflexivity.
  - intros a [<-|[<-|[<-|[]]]]; exact I.
  - reflexivity.
Defined.
