(* ===== verification/ConfigdMain.v ===== *)
(** [cmd/configd/main.go]: the daemon's connection to the components, where its
    errors are logged, and whose its socket is. *)

From S2P Require Import Prelude GoLib Errors.

Section Main.
(** The calls of a component client of package vci: the model, what is sent or
    what is to be filled in, and the outcome. *)
Context {Client Object : Type}.

(** What a client can be asked. *)
Inductive ops_call :=
  | SetConfigForModel (modelName : string) (object : Object)
  | CheckConfigForModel (modelName : string) (object : Object)
  | StoreConfigByModelInto (modelName : string) (object : Object)
  | StoreStateByModelInto (modelName : string) (object : Object).

Context (ask : Client -> ops_call -> option error) (comp_Client : Client).

Record configdOpsMgr := { com_client : option Client }.

Definition newConfigdOpsMgr : configdOpsMgr := {| com_client := None |}.

Definition Dial (com : configdOpsMgr) : option error * configdOpsMgr :=
  (None, {| com_client := Some comp_Client |}).

Definition call_name (c : ops_call) : string :=
  match c with
  | SetConfigForModel _ _ => "SetConfigForModel"
  | CheckConfigForModel _ _ => "CheckConfigForModel"
  | StoreConfigByModelInto _ _ => "StoreConfigByModelInto"
  | StoreStateByModelInto _ _ => "StoreStateByModelInto"
  end.
Definition call_model (c : ops_call) : string :=
  match c with
  | SetConfigForModel m _ | CheckConfigForModel m _ | StoreConfigByModelInto m _
  | StoreStateByModelInto m _ => m
  end.

(** The four methods: each refuses before [Dial]. *)
Definition ops (c : ops_call) (com : configdOpsMgr) : option error :=
  match com_client com with
  | None =>
      Some (EGo ("Must dial client for " +:+ call_model c +:+ " before calling " +:+ call_name c +:+ "."))
  | Some client => ask client c
  end.

(** What is done with the manager: connect, or call. *)
Inductive ops_step := ODial | OCall (c : ops_call).

Fixpoint ops_steps (l : list ops_step) (com : configdOpsMgr) : list (option error) :=
  match l with
  | [] => []
  | ODial :: l' => fst (Dial com) :: ops_steps l' (snd (Dial com))
  | OCall c :: l' => ops c com :: ops_steps l' com
  end.

(** Where errors go: the system log, tried five times, or standard error. *)
Inductive elog_to := ToStderr | ToSyslog.

Fixpoint try_logger (tries : nat) (attempt : nat -> option error) (i : nat) : elog_to :=
  match tries with
  | O => ToStderr
  | S tries' =>
      match attempt i with
      | None => ToSyslog
      | Some _ => try_logger tries' attempt (S i)
      end
  end.
Definition initialiseLogging (logfile : string) (NewLogger : nat -> option error) : elog_to :=
  if bool_decide (logfile = "") then ToStderr else try_logger 5 NewLogger 0.

(** Unknown names, and a user id that is no number, are root. *)
Definition getIds (user_Lookup : string -> option string) (group_Lookup : string -> option Z)
    (username groupname : string) : Z * Z :=
  (match user_Lookup username with
   | None => 0%Z
   | Some Uid => default 0%Z (Atoi Uid)
   end,
   default 0%Z (group_Lookup groupname)).

(** A component is asked only through a client that was dialled: the calls before
    the first [Dial] are refused by name, those after it all go through. *)
Theorem ops_steps_spec before after :
  ops_steps (map OCall before ++ ODial :: map OCall after) newConfigdOpsMgr =
  map (fun c => Some (EGo ("Must dial client for " +:+ call_model c +:+ " before calling "
                           +:+ call_name c +:+ "."))) before
  ++ None :: map (ask comp_Client) after.
Proof.
  induction before as [|c before IH]; cbn; [|by rewrite IH]. f_equal.
  induction after as [|c after IH]; [done|]. cbn. by rewrite IH.
Qed.

(** The system log is used exactly when there is a log file and one of the first
    five attempts to open it succeeds. *)
Theorem initialiseLogging_spec logfile NewLogger :
  initialiseLogging logfile NewLogger = ToSyslog <->
  logfile <> "" /\ exists i, (i < 5)%nat /\ NewLogger i = None.
Proof.
  unfold initialiseLogging.
  assert (H : forall n i, try_logger n NewLogger i = ToSyslog <->
    exists j, (i <= j < i + n)%nat /\ NewLogger j = None).
  { induction n as [|n IH]; intros i; cbn [try_logger].
    - split; [done|]. intros (j & Hj & _). lia.
    - destruct (NewLogger i) as [e|] eqn:E.
      + rewrite IH. split; intros (j & Hj & Ej); exists j; (split; [|done]); [lia|].
        assert (j <> i) by (intros ->; by rewrite E in Ej). lia.
      + split; [|done]. intros _. exists i. split; [lia|done]. }
  case_bool_decide as El; [naive_solver|]. rewrite H. split.
  - intros (j & Hj & Ej). split; [done|]. exists j. split; [lia|done].
  - intros (_ & j & Hj & Ej). exists j. split; [lia|done].
Qed.
End Main.
