(* ===== verification/Process.v ===== *)
(** A command or a daemon as a process: what it does in order, how it ends.  The
    tools of SmallTools.v, the password prompt of GetPass.v and the start of
    the daemon in ConfigdMain.v are computations of this type. *)

From S2P Require Import Prelude.

Section Process.
(** [E]: what can be observed from outside; [S]: what the process changes. *)
Context {E S : Type}.

Record proc := Proc { p_state : S; p_trace : list E }.

(** A computation gives a value or ends the process with a status; a run-time
    panic is [None]. *)
Definition P (A : Type) : Type := M proc (A + Z).
Definition pret {A} (a : A) : P A := ret (inl a).
Definition pexit {A} (status : Z) : P A := ret (inr status).
Definition ppanic {A} : P A := go_panic.
Definition pbind {A B} (m : P A) (k : A -> P B) : P B :=
  r <- m ;; match r with inl a => k a | inr status => pexit status end.

Definition put (e : E) : P unit := fun s => Some (inl tt, Proc (p_state s) (p_trace s ++ [e])).
Definition look {A} (f : S -> A) : P A := fun s => Some (inl (f (p_state s)), s).
Definition change (f : S -> S) : P unit := fun s => Some (inl tt, Proc (f (p_state s)) (p_trace s)).

(** ** How it runs *)

Definition start (s : S) : proc := Proc s [].
(** The outcome: the value or the status, the state left and what was done. *)
Definition run {A} (m : P A) (s : S) : option ((A + Z) * S * list E) :=
  match m (start s) with Some (r, p) => Some (r, p_state p, p_trace p) | None => None end.

Fixpoint each {A} (l : list A) (f : A -> P unit) : P unit :=
  match l with [] => pret tt | x :: l' => pbind (f x) (fun _ => each l' f) end.

(** ** Reasoning *)

(** [m] runs from [p] to [q] and gives [r]. *)
Definition goes {A} (m : P A) (p : proc) (r : A + Z) (q : proc) : Prop := m p = Some (r, q).

Lemma goes_bind {A B} (m : P A) (k : A -> P B) p a q r q' :
  goes m p (inl a) q -> goes (k a) q r q' -> goes (pbind m k) p r q'.
Proof. unfold goes, pbind. intros H H'. by rewrite (bind_eq _ _ _ _ _ H). Qed.
Lemma goes_exit {A B} (m : P A) (k : A -> P B) p status q :
  goes m p (inr status) q -> goes (pbind m k) p (inr status) q.
Proof. unfold goes, pbind. intros H. by rewrite (bind_eq _ _ _ _ _ H). Qed.

(** Running the first step of a sequence. *)
Lemma put_then {B} e (k : P B) p : pbind (put e) (fun _ => k) p = k (Proc (p_state p) (p_trace p ++ [e])).
Proof. reflexivity. Qed.
Lemma ret_then {A B} (a : A) (k : A -> P B) p : pbind (pret a) k p = k a p.
Proof. reflexivity. Qed.
Lemma then_then {A B C} (m : P A) (f : A -> P B) (k : B -> P C) p :
  pbind (pbind m f) k p = pbind m (fun a => pbind (f a) k) p.
Proof.
  unfold pbind, bind. destruct (m p) as [[[a|st] q]|]; [|done..]. by destruct (f a q) as [[[b|st] q']|].
Qed.
Lemma each_put {A} (f : A -> E) l p :
  each l (fun x => put (f x)) p = Some (inl tt, Proc (p_state p) (p_trace p ++ map f l)).
Proof.
  revert p. induction l as [|x l IH]; intros [s t]; cbn [each map p_state p_trace].
  - by rewrite app_nil_r.
  - rewrite put_then, IH. cbn. by rewrite <- app_assoc.
Qed.
Lemma each_put_then {A B} (f : A -> E) l (k : P B) p :
  pbind (each l (fun x => put (f x))) (fun _ => k) p = k (Proc (p_state p) (p_trace p ++ map f l)).
Proof. unfold pbind. by rewrite (bind_eq _ _ _ _ _ (each_put f l p)). Qed.

(** Neither panics nor gets stuck. *)
Definition ends {A} (m : P A) : Prop := forall p, exists r q, m p = Some (r, q).
Lemma ends_bind {A B} (m : P A) (k : A -> P B) : ends m -> (forall a, ends (k a)) -> ends (pbind m k).
Proof.
  intros Hm Hk p. destruct (Hm p) as (r & q & E'). unfold pbind. rewrite (bind_eq _ _ _ _ _ E').
  destruct r as [a|status]; [apply Hk|by eexists _, _].
Qed.
Lemma ends_ret {A} (a : A) : ends (pret a). Proof. intros p. by eexists _, _. Qed.
Lemma ends_exit {A} status : ends (@pexit A status). Proof. intros p. by eexists _, _. Qed.
Lemma ends_put e : ends (put e). Proof. intros p. by eexists _, _. Qed.
Lemma ends_look {A} (f : S -> A) : ends (look f). Proof. intros p. by eexists _, _. Qed.
Lemma ends_change f : ends (change f). Proof. intros p. by eexists _, _. Qed.
Lemma ends_each {A} (l : list A) f : (forall x, ends (f x)) -> ends (each l f).
Proof. intros Hf. induction l; [apply ends_ret|apply ends_bind; [apply Hf|by intros _]]. Qed.

(** The same, with what is known of the value. *)
Definition leads {A} (m : P A) (Q : A -> Prop) : Prop :=
  forall p, exists r q, m p = Some (r, q) /\ forall a, r = inl a -> Q a.
Lemma leads_ends {A} (m : P A) : ends m -> leads m (fun _ => True).
Proof. intros Hm p. destruct (Hm p) as (r & q & H). by exists r, q. Qed.
Lemma ends_leads {A} (m : P A) Q : leads m Q -> ends m.
Proof. intros Hm p. destruct (Hm p) as (r & q & H & _). by exists r, q. Qed.
Lemma leads_bind {A B} (m : P A) (k : A -> P B) Q R :
  leads m Q -> (forall a, Q a -> leads (k a) R) -> leads (pbind m k) R.
Proof.
  intros Hm Hk p. destruct (Hm p) as (r & q & E' & HQ). unfold pbind. rewrite (bind_eq _ _ _ _ _ E').
  destruct r as [a|st]; [by apply Hk, HQ|]. by exists (inr st), q.
Qed.
Lemma leads_ret {A} (a : A) (Q : A -> Prop) : Q a -> leads (pret a) Q.
Proof. intros Ha p. exists (inl a), p. split; [done|]. by intros b [= <-]. Qed.

(** The trace is only added to. *)
Definition grows {A} (m : P A) : Prop :=
  forall p r q, m p = Some (r, q) -> exists l, p_trace q = p_trace p ++ l.
Lemma grows_bind {A B} (m : P A) (k : A -> P B) : grows m -> (forall a, grows (k a)) -> grows (pbind m k).
Proof.
  intros Hm Hk p r q. unfold pbind, bind. destruct (m p) as [[[a|st] p1]|] eqn:E'; [| |done].
  - intros Hq. destruct (Hm _ _ _ E') as [l1 H1], (Hk _ _ _ _ Hq) as [l2 H2].
    exists (l1 ++ l2). by rewrite H2, H1, app_assoc.
  - intros [= <- <-]. by eapply Hm.
Qed.
Lemma grows_ret {A} (a : A) : grows (pret a).
Proof. intros p r q [= <- <-]. exists []. by rewrite app_nil_r. Qed.
Lemma grows_exit {A} status : grows (@pexit A status).
Proof. intros p r q [= <- <-]. exists []. by rewrite app_nil_r. Qed.
Lemma grows_put e : grows (put e).
Proof. intros p r q [= <- <-]. by exists [e]. Qed.
Lemma grows_each {A} (l : list A) f : (forall x, grows (f x)) -> grows (each l f).
Proof. intros Hf. induction l; [apply grows_ret|apply grows_bind; [apply Hf|by intros _]]. Qed.
End Process.
Arguments proc E S : clear implicits.
Arguments P E S A : clear implicits.

Notation "x <-- m ;; k" := (pbind m (fun x => k))
  (at level 100, m at next level, right associativity) : go_scope.
Notation "m ;-- k" := (pbind m (fun _ => k)) (at level 100, right associativity) : go_scope.

#[export] Hint Resolve ends_ret ends_exit ends_put ends_look ends_change : go.
#[export] Hint Resolve grows_ret grows_exit grows_put : go.

(** One step into a process, for [ends] goals. *)
Ltac ends_step :=
  match goal with
  | |- ends (pbind _ _) => apply ends_bind; [|intros ?]
  | |- ends (if ?b then _ else _) => destruct b eqn:?
  | |- ends (match ?x with _ => _ end) => destruct x eqn:?
  | |- ends (let _ := _ in _) => cbv zeta
  | |- ends (each _ _) => apply ends_each; intros ?
  | |- ends _ => solve [eauto with go]
  end.

Ltac grows_step :=
  match goal with
  | |- grows (pbind _ _) => apply grows_bind; [|intros ?]
  | |- grows (if ?b then _ else _) => destruct b
  | |- grows (match ?x with _ => _ end) => destruct x
  | |- grows (let _ := _ in _) => cbv zeta
  | |- grows (each _ _) => apply grows_each; intros ?
  | |- grows _ => solve [eauto with go]
  end.
