(* ===== verification/StartUp.v ===== *)
(** [cmd/configd/main.go], the start of the daemon: the profiling switch, the
    pid and log files, the socket, and [main] from the options to the accept
    loop, with the set-up of [NewSrv] (server/server.go) that can fail. *)

From S2P Require Import Prelude GoLib Errors External Configd Sample CliFormat RpcCall Components Yangd.
From S2P Require Import ServerIO ConfigdMain Process.

Open Scope Z_scope.

(** ** The options *)

Definition basepath : string := "/run/configd".
Record options := {
  o_cpuprofile : string; o_memprofile : string; o_logfile : string; o_pidfile : string;
  o_socket : string; o_yangdir : string; o_compdir : string; o_username : string;
  o_groupname : string; o_runfile : string; o_secretsgroup : string; o_supergroup : string;
  o_capabilities : string
}.
Definition default_options (DefaultCapsLocation : string) : options := {|
  o_cpuprofile := basepath +:+ "/configd.pprof"; o_memprofile := basepath +:+ "/configd_mem.pprof";
  o_logfile := ""; o_pidfile := basepath +:+ "/configd.pid"; o_socket := basepath +:+ "/main.sock";
  o_yangdir := "/usr/share/configd/yang"; o_compdir := "/lib/vci/components"; o_username := "configd";
  o_groupname := "configd"; o_runfile := basepath +:+ "/running.config"; o_secretsgroup := "secrets";
  o_supergroup := ""; o_capabilities := DefaultCapsLocation |}.

(** ** Profiling *)

Module Profile.
Inductive signal := SIGUSR1 | SIGUSR2.

(** [runningprof], and the profile files that are open.  The file of
    [os.Create] is a variable of the case; the one that is closed is the
    package's, which was never opened. *)
Record prof := Prof { runningprof : bool; open_files : list string }.
Definition idle : prof := Prof false [].

Inductive prof_event := StartCPUProfile (file : string) | StopCPUProfile | WriteHeapProfile (file : string).

Section Profile.
Context (o : options) (Create : string -> option error).

(** One turn of the loop; [None] ends the daemon ([log.Fatal]). *)
Definition sigstartprof (sig : signal) (p : prof) : option (prof * prof_event) :=
  match sig with
  | SIGUSR1 =>
      if negb (runningprof p) then
        match Create (o_cpuprofile o) with
        | Some _ => None
        | None => Some (Prof true (o_cpuprofile o :: open_files p), StartCPUProfile (o_cpuprofile o))
        end
      else Some (Prof false (open_files p), StopCPUProfile)
  | SIGUSR2 =>
      match Create (o_memprofile o) with
      | Some _ => None
      | None => Some (p, WriteHeapProfile (o_memprofile o))
      end
  end.

Fixpoint signals (l : list signal) (p : prof) : option (prof * list prof_event) :=
  match l with
  | [] => Some (p, [])
  | sig :: l' =>
      match sigstartprof sig p with
      | None => None
      | Some (p', e) => match signals l' p' with Some (q, es) => Some (q, e :: es) | None => None end
      end
  end.

Definition is_usr1 (s : signal) : bool := match s with SIGUSR1 => true | SIGUSR2 => false end.
Definition usr1s (l : list signal) : nat := length (List.filter is_usr1 l).

Lemma signals_run l : Create (o_cpuprofile o) = None -> Create (o_memprofile o) = None -> forall p,
  exists es, signals l p =
    Some (Prof (xorb (runningprof p) (Nat.odd (usr1s l)))
            (List.repeat (o_cpuprofile o) (Nat.div2 (usr1s l + if runningprof p then 0 else 1)) ++ open_files p), es).
Proof.
  intros H1 H2. induction l as [|[|] l IH]; intros [b f]; cbn [signals sigstartprof].
  - exists []. by destruct b.
  - destruct b; cbn [runningprof open_files negb]; [|rewrite H1].
    + destruct (IH (Prof false f)) as [es Hes]. rewrite Hes. eexists. cbn [runningprof open_files].
      replace (usr1s (SIGUSR1 :: l)) with (S (usr1s l)) by done.
      rewrite Nat.odd_succ, <- Nat.negb_odd, Nat.add_0_r, Nat.add_1_r. by destruct (Nat.odd _).
    + destruct (IH (Prof true (o_cpuprofile o :: f))) as [es Hes]. rewrite Hes. eexists.
      cbn [runningprof open_files]. replace (usr1s (SIGUSR1 :: l)) with (S (usr1s l)) by done.
      rewrite Nat.odd_succ, <- Nat.negb_odd, Nat.add_0_r, Nat.add_1_r. cbn [Nat.div2].
      change (List.repeat ?x (S ?n)) with (x :: List.repeat x n). rewrite repeat_cons, <- app_assoc.
      by destruct (Nat.odd _).
  - rewrite H2. destruct (IH (Prof b f)) as [es Hes]. rewrite Hes. by eexists.
Qed.

(** The switch toggles, but every profile that was started leaves its file
    open: the daemon loses a descriptor with every second signal. *)
Theorem profile_files_leak l : Create (o_cpuprofile o) = None -> Create (o_memprofile o) = None ->
  exists p es, signals l idle = Some (p, es) /\ runningprof p = Nat.odd (usr1s l) /\
    length (open_files p) = Nat.div2 (S (usr1s l)).
Proof.
  intros H1 H2. destruct (signals_run l H1 H2 idle) as [es E]. eexists _, es. split; [exact E|].
  cbn [runningprof open_files idle xorb]. split; [by destruct (Nat.odd _)|].
  by rewrite app_nil_r, repeat_length, Nat.add_1_r.
Qed.
End Profile.
End Profile.

(** ** The start *)

Inductive up_event :=
  | UErr (text : string)                    (** standard error *)
  | UOut (text : string)
  | ULog (text : string)                    (** [log.Println] *)
  | UElog (to : elog_to) (text : string)    (** the error log *)
  | URedirect (file : string)               (** standard output and error *)
  | UWrite (file text : string)
  | UMkdirAll (dir : string)
  | UProfiling                              (** [go sigstartprof()] *)
  | UComponent (name : string)
  | UListen (socket : string)
  | UChmod (socket : string) (mode : Z)
  | UChown (socket : string) (uid gid : Z)
  | UNewSrv (config : Config) (uid : Z) (dlog wlog : elog_to)
  | UServe.

(** What the machine answers. *)
Class Host := {
  OpenFile : string -> option error;
  MkdirAll : string -> option error;
  LoadComponentConfigDir : string -> list ServiceConfig + error;
  (** [activation.Listeners]: the sockets systemd hands over; is each a
      [*net.UnixListener]? *)
  activation_Listeners : list bool + error;
  ResolveUnixAddr : string -> option error;
  ListenUnix : string -> option error;
  Chmod : string -> Z -> option error;
  Chown : string -> Z -> Z -> option error;
  user_Lookup : string -> option string;
  group_Lookup : string -> option Z;
  Getpid : Z;
  (** [os.Args[0]] *)
  Args0 : string;
  (** [log/syslog.New], by priority, tag and attempt *)
  syslog_New : string -> string -> nat -> option error
}.

(** [filepath.Base]: what follows the last slash that is not at the end. *)
Definition filepath_Base (path : string) : string :=
  if bool_decide (path = "") then "."
  else match last (List.filter (fun w => negb (bool_decide (w = ""))) (Split path "/"%char)) with
       | Some w => w
       | None => "/"
       end.

(** [configd.NewLogger]: the tag is the name of the program. *)
Definition NewLogger {H : Host} (p : string) (attempt : nat) : option error :=
  let tag := filepath_Base Args0 in
  syslog_New p tag attempt.

Section StartUp.
Context {L : ConfigLib} {RL : RpcLib} {YL : YangdLib} {E : ErrorLib} {H : Host}.
Context (CompileDir : bool -> ModelSet + error)
  (CreateComponentNSMappings : ModelSet -> string -> list ServiceConfig -> ComponentMappings + error)
  (ranges : forall A : Type, gmap string A -> list (string * A)).
Context (o : options).

Abbreviation P := (Process.P up_event unit).
Open Scope go_scope.

Definition LOG_ERR : string := "err".
Definition LOG_DEBUG : string := "debug".
Definition LOG_WARNING : string := "warning".

(** The error log that [initialiseLogging] has chosen. *)
Definition elog : elog_to := initialiseLogging (o_logfile o) (NewLogger LOG_ERR).

(** [elog.Fatal] exits with status 1. *)
Definition fatal (err : option error) : P unit :=
  match err with
  | None => pret tt
  | Some e => put (ULog (Error e)) ;-- put (UElog elog (Error e)) ;-- pexit 1
  end.

(** The option is never nil: without a log file the empty name is opened. *)
Definition openLogfile : P unit :=
  match OpenFile (o_logfile o) with
  | Some e => put (UErr (Error e +:+ nl))
  | None => put (URedirect (o_logfile o))
  end.

Definition writePid : P unit :=
  match OpenFile (o_pidfile o) with
  | Some e => put (UErr (Error e +:+ nl))
  | None => put (UWrite (o_pidfile o) (Itoa Getpid +:+ nl))
  end.

(** Without a socket of systemd's the daemon makes its own.  What removing the
    old one reports is not looked at: [err] is the one of before.  The result
    says whether the listener is a Unix one. *)
Definition getListeners : P bool :=
  match activation_Listeners with
  | inr e => fatal (Some e) ;-- ppanic      (* the exit has ended it *)
  | inl (is_unix :: _) => pret is_unix
  | inl [] =>
      put (UOut ("No systemd listeners" +:+ nl)) ;--
      fatal None ;--
      fatal (ResolveUnixAddr (o_socket o)) ;--
      fatal (ListenUnix (o_socket o)) ;-- put (UListen (o_socket o)) ;--
      fatal (Chmod (o_socket o) 511) ;-- put (UChmod (o_socket o) 511) ;--
      let '(uid, gid) := getIds user_Lookup group_Lookup (o_username o) (o_groupname o) in
      fatal (Chown (o_socket o) uid gid) ;-- put (UChown (o_socket o) uid gid) ;--
      pret true
  end.

(** [strconv.ParseUint(s, 10, 32)] without its error: 0 for what is no number,
    the largest for what is too large. *)
Definition parse_uid (s : string) : Z :=
  match s with
  | EmptyString => 0
  | _ => match digits_val 10 s 0 with
         | Some n => if n <? 2 ^ 32 then n else 2 ^ 32 - 1
         | None => 0
         end
  end.

(** The part of [NewSrv] that looks at the machine: two loggers, which fall back
    to nowhere ([ToStderr] stands for discarded), and the user; the error of the
    lookup is dropped and the nil it came with is dereferenced. *)
Definition logger_of (priority : string) : P elog_to :=
  match NewLogger priority 0 with
  | Some e => put (UElog elog (Error e)) ;-- pret ToStderr
  | None => pret ToSyslog
  end.
Definition NewSrv (config : Config) : P unit :=
  dlog <-- logger_of LOG_DEBUG ;;
  wlog <-- logger_of LOG_WARNING ;;
  match user_Lookup (o_username o) with
  | None => ppanic
  | Some uid => put (UNewSrv config (parse_uid uid) dlog wlog)
  end.

Definition VyattaV1ModelSet : string := "vyatta-v1".
Definition ConfigdVCIComponentName : string := "net.vyatta.configd".

(** The configuration the server is given: the options. *)
Definition config : Config := {|
  cf_User := o_username o; cf_Runfile := o_runfile o; cf_Logfile := o_logfile o;
  cf_Pidfile := o_pidfile o; cf_Yangdir := o_yangdir o; cf_Socket := o_socket o;
  cf_SecretsGroup := o_secretsgroup o; cf_SuperGroup := o_supergroup o;
  cf_Capabilities := o_capabilities o |}.

(** [l.( *net.UnixListener)], as the argument is evaluated. *)
Definition unix_listener (is_unix : bool) : P unit := if is_unix then pret tt else ppanic.

(** [main]; [accepts] is what the listener gives, until it fails. *)
Definition main {C} (accepts : list (accepted C)) : P unit :=
  openLogfile ;--
  fatal (MkdirAll basepath) ;-- put (UMkdirAll basepath) ;--
  put UProfiling ;--
  put (UComponent ConfigdVCIComponentName) ;--
  match LoadComponentConfigDir (o_compdir o) with
  | inr e => fatal (Some e)
  | inl compConfig =>
      match startYangd CompileDir CreateComponentNSMappings ranges VyattaV1ModelSet compConfig with
      | inr e => fatal (Some e)
      | inl (_, logged) =>
          each logged (fun e => put (ULog (Error e))) ;--
          put (UComponent "net.vyatta.vci.config.yangd") ;--
          l <-- getListeners ;;
          unix_listener l ;--
          NewSrv config ;--
          writePid ;--
          put UServe ;--
          each (sv_logged (Serve accepts)) (fun e => put (UElog elog (Error e))) ;--
          fatal (default None (sv_result (Serve accepts)))
      end
  end.

(** ** Lemmas *)

Lemma ends_fatal err : ends (fatal err).
Proof. unfold fatal. repeat ends_step. Qed.
(** What has to succeed for the daemon to serve. *)
Definition socket_made : Prop :=
  match activation_Listeners with
  | inl [] => ResolveUnixAddr (o_socket o) = None /\ ListenUnix (o_socket o) = None /\
      Chmod (o_socket o) 511 = None /\
      (let ids := getIds user_Lookup group_Lookup (o_username o) (o_groupname o) in
       Chown (o_socket o) (fst ids) (snd ids) = None)
  | inl (_ :: _) => True
  | inr _ => False
  end.
Definition model_made : Prop :=
  exists compConfig y logged, LoadComponentConfigDir (o_compdir o) = inl compConfig /\
    startYangd CompileDir CreateComponentNSMappings ranges VyattaV1ModelSet compConfig = inl (y, logged).
Definition all_made : Prop := MkdirAll basepath = None /\ model_made /\ socket_made.
(** What is taken for granted then: the first socket of systemd's, if there is
    one, is a Unix socket, and the user is there. *)
Definition listener_is_unix : bool :=
  match activation_Listeners with inl (is_unix :: _) => is_unix | _ => true end.
Definition granted : Prop := listener_is_unix = true /\ user_Lookup (o_username o) <> None.

Lemma fatal_then {B} err (k : P B) p : pbind (fatal err) (fun _ => k) p =
  match err with
  | None => k p
  | Some e => Some (inr 1, Proc (p_state p) (p_trace p ++ [ULog (Error e); UElog elog (Error e)]))
  end.
Proof. destruct err; [|done]. cbn. by rewrite <- app_assoc. Qed.

(** Not serving yet; the outcome of a start that fails, and of one that does not. *)
Definition calm (p : proc up_event unit) : Prop := UServe ∉ p_trace p.
Definition failed (r : option ((unit + Z) * proc up_event unit)) : Prop :=
  exists p, r = Some (inr 1, p) /\ calm p.
Definition served (r : option ((unit + Z) * proc up_event unit)) : Prop :=
  exists p, r = Some (inl tt, p) /\ ~ calm p.

Lemma calm_more p l : calm p -> Forall (fun e => e <> UServe) l -> calm (Proc (p_state p) (p_trace p ++ l)).
Proof.
  intros H0 Hl. unfold calm. cbn. rewrite elem_of_app. intros [|H1]; [done|].
  rewrite Forall_forall in Hl. by specialize (Hl _ H1).
Qed.
Ltac calm_step := apply calm_more; [|by repeat constructor].

Lemma failed_now {A} e p : calm p -> exists q : proc up_event unit,
  Some (inr 1 : A + Z, Proc (p_state p) (p_trace p ++ [ULog (Error e); UElog elog (Error e)])) =
  Some (inr 1, q) /\ calm q.
Proof. intros Hn. eexists. split; [reflexivity|]. by calm_step. Qed.

(** The socket: made, without a call of [Serve], or the end. *)
Lemma getListeners_run p : calm p ->
  (socket_made /\ exists q, getListeners p = Some (inl listener_is_unix, q) /\ calm q) \/
  (~ socket_made /\ exists q, getListeners p = Some (inr 1, q) /\ calm q).
Proof.
  intros Hn. unfold getListeners, socket_made, listener_is_unix.
  destruct activation_Listeners as [[|b n]|e]; [|left; by eauto|].
  2: { right. split; [tauto|]. rewrite fatal_then. by apply failed_now. }
  rewrite put_then, fatal_then. destruct (getIds _ _ _ _) as [uid gid]. cbn [fst snd].
  rewrite fatal_then. destruct (ResolveUnixAddr _) as [e|].
  { right. split; [by intros [? _]|]. apply failed_now. by calm_step. }
  rewrite fatal_then. destruct (ListenUnix _) as [e|].
  { right. split; [by intros (_ & ? & _)|]. apply failed_now. by calm_step. }
  rewrite put_then, fatal_then. destruct (Chmod _ _) as [e|].
  { right. split; [by intros (_ & _ & ? & _)|]. apply failed_now. by do 2 calm_step. }
  rewrite put_then, fatal_then. destruct (Chown _ _ _) as [e|].
  { right. split; [by intros (_ & _ & _ & ?)|]. apply failed_now. by do 3 calm_step. }
  left. split; [done|]. eexists. split; [reflexivity|]. by do 4 calm_step.
Qed.

Lemma openLogfile_then : exists p, calm p /\
  forall k : P unit, pbind openLogfile (fun _ => k) (start tt) = k p.
Proof.
  unfold openLogfile. destruct (OpenFile _); eexists; (split; [|intros k; by rewrite put_then]);
    (calm_step; apply not_elem_of_nil).
Qed.

(** What [Serve] returns is nil. *)
Lemma Serve_nil {C} (accepts : list (accepted C)) : default None (sv_result (Serve accepts)) = None.
Proof. induction accepts as [|[| |] l IH]; cbn; done. Qed.

Lemma NewSrv_run cfg uid p : user_Lookup (o_username o) = Some uid -> calm p ->
  exists q, NewSrv cfg p = Some (inl tt, q) /\ calm q.
Proof.
  intros Hu Hn. unfold NewSrv, logger_of. rewrite Hu.
  destruct (NewLogger LOG_DEBUG 0), (NewLogger LOG_WARNING 0);
    (eexists; split; [reflexivity|]); by repeat calm_step.
Qed.

(** The way to the socket. *)
Lemma main_run {C} (accepts : list (accepted C)) :
  (~ all_made /\ failed (main accepts (start tt))) \/
  (all_made /\ exists q, calm q /\ main accepts (start tt) =
     (unix_listener listener_is_unix ;-- NewSrv config ;-- writePid ;-- put UServe ;--
      each (sv_logged (Serve accepts)) (fun e => put (UElog elog (Error e))) ;--
      fatal (default None (sv_result (Serve accepts)))) q).
Proof.
  destruct openLogfile_then as (p0 & Hp0 & Hrun). unfold main, all_made. rewrite Hrun, fatal_then.
  destruct (MkdirAll basepath) as [e|]; [left; split; [by intros []|by apply failed_now]|].
  rewrite !put_then. set (p1 := Proc _ _) in |- *.
  assert (Hp1 : calm p1) by (by do 3 calm_step). clearbody p1.
  destruct (LoadComponentConfigDir _) as [cfg|e] eqn:El.
  2: { left. split; [intros (_ & (c & y & l & Hc & _) & _); congruence|].
       unfold fatal. rewrite !put_then. cbn -[app]. rewrite <- app_assoc. by apply failed_now. }
  destruct (startYangd _ _ _ _ cfg) as [[y logged]|e] eqn:Ey.
  2: { left. split; [intros (_ & (c & y & l & Hc & Hy) & _); congruence|].
       unfold fatal. rewrite !put_then. cbn -[app]. rewrite <- app_assoc. by apply failed_now. }
  rewrite each_put_then, put_then. set (p2 := Proc _ _) in |- *.
  assert (Hp2 : calm p2).
  { calm_step. apply calm_more; [done|]. apply Forall_map, Forall_true. by intros. }
  clearbody p2. destruct (getListeners_run p2 Hp2) as [[Hs (q & Hq & Hcq)]|[Hs (q & Hq & Hcq)]];
    [right|left].
  - split; [split; [done|]; split; [by exists cfg, y, logged|done]|]. exists q. split; [done|].
    unfold pbind at 1. by rewrite (bind_eq _ _ _ _ _ Hq).
  - split; [by intros (_ & _ & ?)|]. exists q. split; [|done].
    unfold pbind at 1. by rewrite (bind_eq _ _ _ _ _ Hq).
Qed.

(** The three outcomes exclude each other. *)
Lemma three_ways r P Q : (P -> Q -> served r) -> (P -> ~ Q -> r = None) -> (~ P -> failed r) ->
  (P \/ ~ P) -> (Q \/ ~ Q) ->
  (served r <-> P /\ Q) /\ (r = None <-> P /\ ~ Q) /\ (failed r <-> ~ P).
Proof.
  intros H1 H2 H3 HP HQ.
  assert (Hsn : served r -> r <> None) by (by intros (p & -> & _)).
  assert (Hfn : failed r -> r <> None) by (by intros (p & -> & _)).
  assert (Hsf : served r -> ~ failed r) by (intros (p & -> & _) (q & Hq & _); discriminate).
  tauto.
Qed.

(** ** Properties *)

(** C22: starting up has three outcomes.  The daemon serves exactly when the run
    directory, the YANG model and the socket could be made, the socket systemd
    handed over, if it did, is a Unix socket, and the user of the options
    exists; it writes its pid file whether or not that works, and when the
    listener fails later it returns with status 0.  It panics exactly when all
    three were made and one of the other two does not hold; and when one of the
    three could not be made it ends with status 1, never having served. *)
Theorem main_serves {C} (accepts : list (accepted C)) :
  (served (main accepts (start tt)) <-> all_made /\ granted) /\
  (main accepts (start tt) = None <-> all_made /\ ~ granted) /\
  (failed (main accepts (start tt)) <-> ~ all_made).
Proof.
  assert (Hg : granted \/ ~ granted).
  { unfold granted. destruct (decide (listener_is_unix = true /\ user_Lookup (o_username o) <> None)); tauto. }
  destruct (main_run accepts) as [[Hn Hf]|[Hm (q & Hq & ->)]]; [apply three_ways; tauto|].
  apply three_ways; [..|tauto|tauto]; [intros _|intros _|tauto].
  - intros [-> Hu]. destruct (user_Lookup (o_username o)) as [uid|] eqn:Eu; [|done].
    destruct (NewSrv_run config uid q Eu Hq) as (q2 & Hq2 & Hcq2). unfold unix_listener. rewrite ret_then.
    unfold pbind at 1. rewrite (bind_eq _ _ _ _ _ Hq2).
    assert (Hpid : exists q3, forall k : P unit, pbind writePid (fun _ => k) q2 = k q3).
    { unfold writePid. destruct (OpenFile _); eexists; intros k; by rewrite put_then. }
    destruct Hpid as (q3 & Hq3). rewrite Hq3, put_then, each_put_then.
    rewrite Serve_nil. eexists. split; [reflexivity|]. unfold calm. cbn. set_solver.
  - unfold granted, unix_listener. destruct listener_is_unix; [|done].
    unfold NewSrv, logger_of. destruct (user_Lookup (o_username o)) as [uid|].
    { intros []. by split. }
    by destruct (NewLogger LOG_DEBUG 0), (NewLogger LOG_WARNING 0).
Qed.

(** For a user that does not exist the socket is made for root. *)
Lemma unknown_user_root : user_Lookup (o_username o) = None ->
  fst (getIds user_Lookup group_Lookup (o_username o) (o_groupname o)) = 0.
Proof. intros Hu. unfold getIds. by rewrite Hu. Qed.
End StartUp.

(** ** A machine the daemon starts on *)

Module SampleStart.
(** No socket of systemd's; everything else works but for the log, and a user
    that is there. *)
#[export] Instance host : Host := {|
  OpenFile f := if bool_decide (f = "") then Some (EGo "no such file or directory") else None;
  MkdirAll _ := None;
  LoadComponentConfigDir _ := inl [SampleComponents.comp "a" "a.conf" "ma" "m1"];
  activation_Listeners := inl [];
  ResolveUnixAddr _ := None; ListenUnix _ := None; Chmod _ _ := None; Chown _ _ _ := None;
  user_Lookup u := if bool_decide (u = "configd") then Some "108" else None;
  group_Lookup _ := Some 110;
  Getpid := 4711;
  Args0 := "/sbin/configd";
  syslog_New _ tag _ := Some (EGo ("no log for " +:+ tag))
|}.
Example log_tag : NewLogger (H := host) LOG_ERR 0 = Some (EGo "no log for configd").
Proof. reflexivity. Qed.
Definition opts : options := default_options "/config/features".
Abbreviation start_up := (main (RL := SampleRpcs.rpcs) (YL := SampleYangd.yangd_lib) (E := SampleFormat.errors)
  (fun _ => inl Sample.root) (fun _ _ _ => inl tt) SampleComponents.sorted opts).

Lemma main_serves_witness :
  served (start_up [AConn 1%nat; ATemporary (EGo "again"); AConn 2%nat; AError (EGo "closed")] (start tt)) /\
  (exists tr, run (start_up [AError (EGo "closed") : accepted nat]) tt = Some (inl tt, tt, tr) /\
    UNewSrv (config opts) 108 ToStderr ToStderr ∈ tr).
Proof.
  split.
  - apply (main_serves (RL := SampleRpcs.rpcs) (YL := SampleYangd.yangd_lib) (E := SampleFormat.errors)
      (fun _ => inl Sample.root) (fun _ _ _ => inl tt) SampleComponents.sorted opts).
    split; [|by split]. split; [done|]. split; [|done]. by eexists _, _, _.
  - eexists. split; [vm_compute; reflexivity|]. repeat (first [by left | right]).
Defined.

(** With the second of systemd's listeners a Unix socket, and the first a TCP
    one, the daemon panics. *)
Definition tcp_host : Host := {|
  OpenFile := OpenFile (Host := host); MkdirAll := MkdirAll (Host := host);
  LoadComponentConfigDir := LoadComponentConfigDir (Host := host);
  activation_Listeners := inl [false; true];
  ResolveUnixAddr _ := None; ListenUnix _ := None; Chmod _ _ := None; Chown _ _ _ := None;
  user_Lookup := user_Lookup (Host := host); group_Lookup _ := Some 110; Getpid := 4711;
  Args0 := "/sbin/configd"; syslog_New := syslog_New (Host := host) |}.
Example tcp_socket_panics : main (RL := SampleRpcs.rpcs) (YL := SampleYangd.yangd_lib)
  (E := SampleFormat.errors) (H := tcp_host) (fun _ => inl Sample.root) (fun _ _ _ => inl tt)
  SampleComponents.sorted opts [AConn 1%nat] (start tt) = None.
Proof. vm_compute. reflexivity. Qed.
End SampleStart.
