(* ===== verification/SmallTools.v ===== *)
(** The smaller programs of [cmd]: platform-setup, featcaps (which YANG features
    are enabled, as files), cfgdiff, cfgread and cfgdbg (one call of the daemon
    each), cfgparse, yang2rev, yanggraph, args2cpath, and cfgcli-args-encoder,
    which hides the arguments of the command it is. *)

From S2P Require Import Prelude GoLib Errors GoFmt External CliFormat Process.

Open Scope go_scope.

(** ** platform-setup *)

Module Platform.

Definition PlatformIDFile : string := "/var/lib/vyatta-platform/platform-id.conf".

Inductive opened := NotExist | OpenError (e : error) | Contents (text : string).

Inductive platform_event :=
  | Printed (text : string)
  | Saved (file id : string)
  | Created (platformid : string).

Section Platform.
Context {L : ConfigLib} {E : ErrorLib}.
(** What the JSON decoder leaves in the record of the identifier, whose error
    is not looked at: [None] when the document is [null], which leaves a nil
    pointer. *)
Context (Decode : string -> option string).
(** Making the directory and writing the file; creating the platform. *)
Context (save : string -> option error) (CreatePlatform : string -> option error).

Abbreviation P := (Process.P platform_event unit).

(** The record, nil or not, and the error. *)
Definition loadInitialBootPlatformID (f : opened) : option string * option error :=
  match f with
  | NotExist => (Some "", None)
  | OpenError e => (Some "", Some e)
  | Contents text => (Decode text, None)
  end.

Definition saveInitialBootPlatformID (id : string) : P (option error) :=
  match save id with
  | Some e => pret (Some e)
  | None => put (Saved PlatformIDFile id) ;-- pret None
  end.

Definition main (platformid : string) (f : opened) : P unit :=
  let '(id, err) := loadInitialBootPlatformID f in
  match err with
  | Some e => put (Printed ("Error loading Platform Config: " +:+ Error e +:+ nl))
  | None => pret tt
  end ;--
  match id with
  | None => ppanic                        (* a field of a nil record *)
  | Some id =>
      (if bool_decide (id <> platformid) then
         if bool_decide (id <> "") then
           put (Printed ("Platform has changed since initial boot, was: " +:+ id +:+ " now: "
                         +:+ platformid +:+ nl))
         else
           e <-- saveInitialBootPlatformID platformid ;;
           match e with
           | Some e => put (Printed ("PlatformId save error: " +:+ Error e +:+ nl))
           | None => pret tt
           end
       else pret tt) ;--
      put (Printed ("PlatformID set to " +:+ platformid +:+ nl)) ;--
      match CreatePlatform platformid with
      | Some e => put (Printed ("Error creating platform: " +:+ Error e +:+ nl))
      | None => put (Created platformid)
      end
  end.

(** The identifier of the first boot is kept: the file is written only when it
    holds none, and then with the one given. *)
Theorem first_boot_kept platformid f r s tr :
  run (main platformid f) tt = Some (r, s, tr) ->
  forall file id, Saved file id ∈ tr ->
    file = PlatformIDFile /\ id = platformid /\ fst (loadInitialBootPlatformID f) = Some "" /\ platformid <> "".
Proof.
  unfold run, main. destruct (loadInitialBootPlatformID f) as [[old|] [e|]]; cbn [fst].
  all: unfold saveInitialBootPlatformID; repeat (case_bool_decide; subst).
  all: try (destruct (save platformid)); destruct (CreatePlatform platformid); cbn; try done.
  all: intros [= <- <- <-] file id Hin; repeat (apply elem_of_cons in Hin as [Hin|Hin]; try done);
    by apply not_elem_of_nil in Hin || (injection Hin as -> ->; split_and!; congruence).
Qed.

(** Only the document [null] ends the program; otherwise the platform is always
    set up, whatever else fails. *)
Theorem setup_reached platformid f :
  fst (loadInitialBootPlatformID f) <> None <->
  exists tr, run (main platformid f) tt = Some (inl tt, tt, tr).
Proof.
  unfold run, main. destruct (loadInitialBootPlatformID f) as [[old|] [e|]]; cbn [fst].
  all: split; [intros Hn|intros [tr Htr]]; try done.
  all: unfold saveInitialBootPlatformID; repeat case_bool_decide; try (destruct (save platformid));
    destruct (CreatePlatform platformid); by eexists.
Qed.
End Platform.
End Platform.

(** ** featcaps *)

Module FeatCaps.

(** The file system: what there is at a path, a directory ([true]) or a file;
    without symbolic links. *)
Abbreviation fs := (gmap (list string) bool).

(** The way of a path name through it. *)
Fixpoint walk (acc : list string) (parts : list string) : list string :=
  match parts with
  | [] => acc
  | x :: parts' =>
      if bool_decide (x = "") || bool_decide (x = ".") then walk acc parts'
      else if bool_decide (x = "..") then walk (removelast acc) parts'
      else walk (acc ++ [x]) parts'
  end.
Definition at_path (path : string) : list string := walk [] (Split path "/"%char).

Definition beneath (p q : list string) : bool := bool_decide (take (length p) q = p).
Fixpoint prefixes (acc p : list string) : list (list string) :=
  match p with [] => [] | x :: p' => (acc ++ [x]) :: prefixes (acc ++ [x]) p' end.

Definition no_dir (path : string) : error := EGo ("mkdir " +:+ path +:+ ": not a directory").
(** [os.MkdirAll]: a file in the way is an error. *)
Definition MkdirAll (path : string) (f : fs) : fs + error :=
  let dirs := prefixes [] (at_path path) in
  if existsb (fun d => bool_decide (f !! d = Some false)) dirs then inr (no_dir path)
  else inl (foldr (fun d => <[d := true]>) f dirs).
Definition Exists_ (path : string) (f : fs) : bool := bool_decide (at_path path = []) || bool_decide (is_Some (f !! at_path path)).
(** [os.Create], whose error nobody looks at. *)
Definition Create (path : string) (f : fs) : fs :=
  let p := at_path path in
  if bool_decide (f !! removelast p = Some true) && negb (bool_decide (f !! p = Some true))
  then <[p := false]> f else f.
Definition RemoveAll (path : string) (f : fs) : fs :=
  filter (fun e => beneath (at_path path) (fst e) = false) f.
(** Opening it and reading a first name of it comes to [io.EOF]. *)
Definition empty_dir (path : string) (f : fs) : bool :=
  bool_decide (f !! at_path path = Some true)
  && negb (existsb (fun q => beneath (at_path path) q && negb (bool_decide (q = at_path path)))
             (map fst (map_to_list f))).

Abbreviation P := (Process.P string fs).

Definition enableFeature (moduleDir featurePath : string) : P unit :=
  r <-- look (MkdirAll moduleDir) ;;
  match r with
  | inr (EGo text) => put (text +:+ nl) ;-- pexit 1
  | inr _ => pexit 1
  | inl f' =>
      change (fun _ => f') ;--
      there <-- look (Exists_ featurePath) ;;
      if negb there then change (Create featurePath) else pret tt
  end.

Definition disableFeature (moduleDir featurePath : string) : P unit :=
  change (RemoveAll featurePath) ;--
  empty <-- look (empty_dir moduleDir) ;;
  if empty then change (RemoveAll moduleDir) else pret tt.

(** [main], on the arguments after the options. *)
Definition main (capabilities : string) (disable : bool) (args : list string) : P unit :=
  match args with
  | [arg] =>
      match Split arg ":"%char with
      | [module; feature] =>
          let moduleDir := capabilities +:+ "/" +:+ module in
          let featurePath := moduleDir +:+ "/" +:+ feature in
          (if disable then disableFeature moduleDir featurePath else enableFeature moduleDir featurePath) ;--
          pexit 0
      | _ => pret tt                     (* a badly formatted feature *)
      end
  | _ => pret tt                         (* only one argument is allowed *)
  end.

(** *** What happens to the files *)

(** The two changes, on the places of module and feature. *)
Definition enabled (m p : list string) (f : fs) : fs :=
  let f := foldr (fun d => <[d := true]>) f (prefixes [] m) in
  if bool_decide (is_Some (f !! p)) then f else <[p := false]> f.

Lemma beneath_spec p q : beneath p q = true <-> exists r, q = p ++ r.
Proof.
  unfold beneath. rewrite bool_decide_eq_true. split.
  - intros H. exists (drop (length p) q). rewrite <- H at 1. by rewrite take_drop.
  - intros [r ->]. by rewrite take_app_length.
Qed.

Lemma RemoveAll_lookup path f q :
  RemoveAll path f !! q = if beneath (at_path path) q then None else f !! q.
Proof.
  unfold RemoveAll. destruct (beneath (at_path path) q) eqn:Eb.
  - apply map_lookup_filter_None. right. intros x _. cbn. by rewrite Eb.
  - destruct (f !! q) as [x|] eqn:Ef.
    + by apply map_lookup_filter_Some.
    + apply map_lookup_filter_None. by left.
Qed.

Lemma empty_dir_spec path f : empty_dir path f = true <->
  f !! at_path path = Some true /\ forall q, is_Some (f !! q) -> beneath (at_path path) q = true -> q = at_path path.
Proof.
  unfold empty_dir. rewrite andb_true_iff, bool_decide_eq_true, negb_true_iff. apply and_iff_compat_l.
  rewrite <- not_true_iff_false, existsb_exists. split.
  - intros Hn q [x Hx] Hb. destruct (decide (q = at_path path)); [done|]. exfalso. apply Hn.
    exists q. split; [|by rewrite Hb, bool_decide_false].
    apply list_elem_of_In, list_elem_of_fmap. exists (q, x). split; [done|]. by apply elem_of_map_to_list.
  - intros Hq (q & Hin & Hb). apply andb_prop in Hb as [Hb Hne].
    apply list_elem_of_In, list_elem_of_fmap in Hin as ([q' x] & -> & Hin).
    apply elem_of_map_to_list in Hin. cbn in *. rewrite (Hq q'), bool_decide_true in Hne; [done..|by eexists|done].
Qed.

(** The directory [p] is there, with those above it. *)
Definition has_dirs (p : list string) (f : fs) : Prop := Forall (fun d => f !! d = Some true) (prefixes [] p).

Lemma prefixes_snoc p x : forall acc, prefixes acc (p ++ [x]) = prefixes acc p ++ [acc ++ p ++ [x]].
Proof.
  induction p as [|y p IH]; intros acc; cbn; [done|]. rewrite IH. cbn. by rewrite <- app_assoc.
Qed.
Lemma mkdirs_there (ds : list (list string)) (f : fs) : Forall (fun d => f !! d = Some true) ds -> foldr (fun d => <[d := true]>) f ds = f.
Proof. induction 1 as [|d ds Hd _ IH]; cbn; [done|]. rewrite IH. by apply insert_id. Qed.

Lemma MkdirAll_one path p m f : at_path path = p ++ [m] -> has_dirs p f -> f !! (p ++ [m]) <> Some false ->
  MkdirAll path f = inl (<[p ++ [m] := true]> f).
Proof.
  intros Hp Hd Hf. unfold MkdirAll. rewrite Hp, prefixes_snoc. cbn [app].
  assert (existsb (fun d => bool_decide (f !! d = Some false)) (prefixes [] p ++ [p ++ [m]]) = false) as ->.
  { rewrite existsb_app. cbn. rewrite bool_decide_false, orb_false_r by done.
    unfold has_dirs in Hd. induction Hd as [|d ds Hd' _ IH]; [done|]. cbn. rewrite IH.
    by rewrite bool_decide_false by congruence. }
  rewrite foldr_app. cbn [foldr]. f_equal. apply mkdirs_there. eapply Forall_impl; [exact Hd|].
  intros d Hd'. destruct (decide (d = p ++ [m])) as [->|]; [apply lookup_insert_eq|by rewrite lookup_insert_ne].
Qed.

(** *** Properties *)

(** Enabling a feature makes its file, and the directory of its module; nothing
    else changes. *)
Theorem enable_spec moduleDir featurePath p m x f :
  at_path moduleDir = p ++ [m] -> at_path featurePath = p ++ [m; x] ->
  has_dirs p f -> f !! (p ++ [m]) <> Some false -> f !! (p ++ [m; x]) = None ->
  run (enableFeature moduleDir featurePath) f =
    Some (inl tt, <[p ++ [m; x] := false]> (<[p ++ [m] := true]> f), []).
Proof.
  intros Hm Hx Hd Hf Hn. unfold run, enableFeature, pbind, bind, look, change, start.
  cbn [p_state p_trace]. rewrite (MkdirAll_one moduleDir p m f) by done.
  assert (Hne : p ++ [m] <> p ++ [m; x]) by (intros E%(f_equal length); rewrite !length_app in E; cbn in E; lia).
  unfold Exists_. cbn [p_state]. rewrite Hx, lookup_insert_ne, Hn by done.
  rewrite !bool_decide_false by (first [by intros []|by destruct p]). cbn [orb negb p_state p_trace].
  unfold Create. rewrite Hx. replace (p ++ [m; x]) with ((p ++ [m]) ++ [x]) by by rewrite <- app_assoc.
  rewrite removelast_last, lookup_insert_eq, bool_decide_true by done.
  rewrite lookup_insert_ne, bool_decide_false; [done|rewrite <- app_assoc; cbn; by rewrite Hn|].
  by rewrite <- app_assoc.
Qed.

(** Enabling a feature of a module that had none, and disabling it, leaves the
    files as they were. *)
Theorem enable_disable moduleDir featurePath p m x f :
  at_path moduleDir = p ++ [m] -> at_path featurePath = p ++ [m; x] -> has_dirs p f ->
  (forall q, beneath (p ++ [m]) q = true -> f !! q = None) ->
  run (enableFeature moduleDir featurePath ;-- disableFeature moduleDir featurePath) f = Some (inl tt, f, []).
Proof.
  intros Hm Hx Hd Hn.
  assert (Hnm : f !! (p ++ [m]) = None) by (apply Hn, beneath_spec; exists []; by rewrite app_nil_r).
  assert (Hnx : f !! (p ++ [m; x]) = None) by (apply Hn, beneath_spec; exists [x]; by rewrite <- app_assoc).
  assert (He := enable_spec moduleDir featurePath p m x f Hm Hx Hd ltac:(congruence) Hnx).
  unfold run in *. destruct (enableFeature moduleDir featurePath (start f)) as [[r1 p1]|] eqn:E1; [|done].
  injection He as -> Hs Ht. unfold pbind at 1. rewrite (bind_eq _ _ _ _ _ E1).
  unfold disableFeature, pbind, bind, look, change. cbn [p_state p_trace]. rewrite Hs, Ht.
  set (g := RemoveAll featurePath _).
  assert (Hg : g = <[p ++ [m] := true]> f).
  { apply map_eq. intros q. unfold g. rewrite RemoveAll_lookup, Hx.
    destruct (beneath (p ++ [m; x]) q) eqn:Eb.
    - apply beneath_spec in Eb as [r ->]. rewrite lookup_insert_ne.
      + symmetry. apply Hn, beneath_spec. exists (x :: r). by rewrite <- !app_assoc.
      + intros E%(f_equal length). rewrite !length_app in E. cbn in E. lia.
    - rewrite lookup_insert_ne; [done|]. intros <-.
      by rewrite (proj2 (beneath_spec _ _) (ex_intro _ [] (eq_sym (app_nil_r _)))) in Eb. }
  rewrite Hg. assert (empty_dir moduleDir (<[p ++ [m] := true]> f) = true) as ->.
  { apply empty_dir_spec. rewrite Hm. split; [apply lookup_insert_eq|]. intros q [y Hq] Hb.
    destruct (decide (q = p ++ [m])); [done|]. rewrite lookup_insert_ne, Hn in Hq by done. done. }
  cbn [p_state p_trace]. assert (RemoveAll moduleDir (<[p ++ [m] := true]> f) = f) as ->; [|done].
  apply map_eq. intros q. rewrite RemoveAll_lookup, Hm. destruct (beneath (p ++ [m]) q) eqn:Eb; [by rewrite Hn|].
  rewrite lookup_insert_ne; [done|]. intros <-.
  by rewrite (proj2 (beneath_spec _ _) (ex_intro _ [] (eq_sym (app_nil_r _)))) in Eb.
Qed.

(** The names are not looked at: to disable the feature "net:" is to disable
    every feature of its module, and to disable ":" is to remove them all. *)
Definition sample : fs :=
  <[["config"; "features"; "net"; "a"] := false]> (<[["config"; "features"; "net"; "b"] := false]>
  (<[["config"; "features"; "net"] := true]> (<[["config"; "features"] := true]> {[["config"] := true]}))).
Lemma empty_names_remove_all :
  run (main "/config/features" true ["net:"]) sample =
    Some (inr 0%Z, <[["config"; "features"] := true]> {[["config"] := true]}, []) /\
  run (main "/config/features" true [":"]) sample = Some (inr 0%Z, {[["config"] := true]}, []).
Proof. split; vm_compute; reflexivity. Qed.
End FeatCaps.

(** ** Programs that are one call of the daemon *)

Module OneCall.

Definition main_sock : string := "/run/vyatta/configd/main.sock".

(** What the client library is asked. *)
Inductive tool_call :=
  | Compare (old new spath : string) (ctxdiff : bool)
  | ReadConfigFile (file : string)
  | ReadConfigFileRaw (file : string)
  | SetConfigDebug (logName level : string).

Inductive tool_event :=
  | TOut (text : string)
  | TErr (text : string)
  | TUsage
  | TCall (c : tool_call).

Section Tools.
Context {L : ConfigLib} {E : ErrorLib}.
(** [client.Dial], by socket and session; the answers of the daemon. *)
Context (Dial : string -> string -> option error) (answer : tool_call -> string * option error).
Context (ReadFile : string -> string + error).

Abbreviation P := (Process.P tool_event unit).

(** A method of the client, which is nil when it could not be dialled. *)
Definition call (dialled : option error) (c : tool_call) : P (string * option error) :=
  match dialled with
  | Some _ => ppanic
  | None => put (TCall c) ;-- pret (answer c)
  end.

Definition fatal {A} (e : error) : P A := put (TErr (Error e +:+ nl)) ;-- pexit 1%Z.

(** cfgdiff: two files, or the first two of three. *)
Fixpoint read_files (files : list string) : P (list string) :=
  match files with
  | [] => pret []
  | file :: files' =>
      match ReadFile file with
      | inr e => fatal e
      | inl data => datas <-- read_files files' ;; pret (data :: datas)
      end
  end.
Definition cfgdiff (spath socketpath sid : string) (ctxdiff : bool) (args : list string) : P unit :=
  match args with
  | one :: two :: rest =>
      if bool_decide (1 < length rest)%nat then put TUsage ;-- pexit 1%Z
      else
        data <-- read_files [one; two] ;;
        match data with
        | [d0; d1] =>
            r <-- call (Dial socketpath sid) (Compare d0 d1 spath ctxdiff) ;;
            match r with
            | (_, Some e) => fatal e
            | (out, None) => put (TOut out)
            end
        | _ => ppanic
        end
  | _ => put TUsage ;-- pexit 1%Z
  end.

(** cfgread: the deferred [Close] of a nil client is not reached, [os.Exit]
    comes first. *)
Definition cfgread (raw : bool) (args : list string) : P unit :=
  match args with
  | [] => put (TErr ("Usage of cfgread:" +:+ nl)) ;--
          put (TErr ("    cfgread [-raw] filename" +:+ nl)) ;-- pexit 1%Z
  | file :: _ =>
      match Dial main_sock "" with
      | Some e => fatal e
      | None =>
          r <-- call None (if raw then ReadConfigFileRaw file else ReadConfigFile file) ;;
          match r with
          | (_, Some e) => fatal e
          | (out, None) => put (TOut (out +:+ nl)) ;-- pexit 0%Z
          end
      end
  end.

(** cfgdbg: without options it shows the settings, whatever the daemon says. *)
Definition cfgdbg (logType logLevel sid : string) : P unit :=
  r <-- call (Dial main_sock sid) (SetConfigDebug logType logLevel) ;;
  if bool_decide (logType = "") && bool_decide (logLevel = "") then
    put (TOut (fst r +:+ nl)) ;--
    match snd r with Some e => put (TErr (Error e +:+ nl)) | None => pret tt end ;--
    pexit 0%Z
  else
    match snd r with
    | Some e => fatal e
    | None => put (TOut (fst r +:+ nl)) ;-- pexit 0%Z
    end.

(** What a caller can rely on: the output is the daemon's answer exactly when
    the status is that of a success. *)
Theorem cfgdiff_spec spath socketpath sid ctxdiff one two rest d0 d1 :
  ReadFile one = inl d0 -> ReadFile two = inl d1 -> (length rest <= 1)%nat -> Dial socketpath sid = None ->
  run (cfgdiff spath socketpath sid ctxdiff (one :: two :: rest)) tt =
  match answer (Compare d0 d1 spath ctxdiff) with
  | (out, None) => Some (inl tt, tt, [TCall (Compare d0 d1 spath ctxdiff); TOut out])
  | (_, Some e) => Some (inr 1%Z, tt, [TCall (Compare d0 d1 spath ctxdiff); TErr (Error e +:+ nl)])
  end.
Proof.
  intros H0 H1 Hr Hd. unfold run, cfgdiff. rewrite bool_decide_false by lia.
  cbn [read_files]. rewrite H0, H1. cbn. rewrite Hd. cbn.
  by destruct (answer _) as [out [e|]].
Qed.

(** Without a daemon cfgread reports it; cfgdiff and cfgdbg, which do not look
    at the error, end with a nil dereference. *)
Theorem no_daemon e spath sid ctxdiff one two d0 d1 file raw logType logLevel :
  (forall addr s, Dial addr s = Some e) -> ReadFile one = inl d0 -> ReadFile two = inl d1 ->
  run (cfgdiff spath main_sock sid ctxdiff [one; two]) tt = None /\
  run (cfgdbg logType logLevel sid) tt = None /\
  run (cfgread raw [file]) tt = Some (inr 1%Z, tt, [TErr (Error e +:+ nl)]).
Proof.
  intros Hd H0 H1. unfold run, cfgdiff, cfgdbg, cfgread. rewrite bool_decide_false by (cbn; lia).
  cbn [read_files]. rewrite H0, H1. cbn. by rewrite !Hd.
Qed.
End Tools.
End OneCall.

(** ** cfgparse, args2cpath, yang2rev *)

Module Print.
Section Print.
Context {L : ConfigLib} {E : ErrorLib}.

(** What is printed, or the error, with status 1. *)
Definition cfgparse (Parse : string -> string + error) (stdin : string + error) : string + error :=
  match stdin with
  | inr e => inr e
  | inl text => match Parse text with inl root => inl (root +:+ nl) | inr e => inr e end
  end.

Definition args2cpath (args : list string) : string := Pathstr args +:+ nl.

Definition dq (s : string) : string :=
  String (ascii_of_nat 34) "" +:+ s +:+ String (ascii_of_nat 34) "".

(** A module by its identifier and version, in the order of the map. *)
Definition revision (m : string * string) : string := fst m +:+ "@" +:+ snd m.
Definition version_line (mods : list (string * string)) : string :=
  "/* === vyatta-config-version: " +:+ dq (Join (map revision mods) ":") +:+ " === */" +:+ nl.

(** yang2rev. *)
Inductive rev_event := ROut (text : string) | RErr (text : string) | RMkdir (dir : string) | RCreate (file : string).
Abbreviation P := (Process.P rev_event unit).
Context (CompileDir : string -> list (string * string) + error).
Context (MkdirAll Create : string -> option error).

Definition handleError (e : option error) : P unit :=
  match e with None => pret tt | Some e => put (RErr (Error e +:+ nl)) ;-- pexit 1%Z end.

Definition writeRevs (writeDir : string) (mods : list string) : P unit :=
  (if bool_decide (writeDir <> "") then handleError (MkdirAll writeDir) ;-- put (RMkdir writeDir) else pret tt) ;--
  let prefix := if bool_decide (writeDir <> "") then writeDir +:+ "/" else "" in
  each mods (fun m => handleError (Create (prefix +:+ m)) ;-- put (RCreate (prefix +:+ m))).

Definition yang2rev (writeDir : string) (write : bool) (args : list string) : P unit :=
  match args with
  | [] => ppanic                            (* [args[0]] *)
  | dir :: _ =>
      match CompileDir dir with
      | inr e => handleError (Some e)
      | inl mods =>
          if write then writeRevs writeDir (map revision mods) ;-- pexit 0%Z
          else put (ROut (version_line mods)) ;-- pexit 0%Z
      end
  end.

Lemma writeRevs_run writeDir mods p : (writeDir <> "" -> MkdirAll writeDir = None) ->
  (forall file, Create file = None) ->
  writeRevs writeDir mods p = Some (inl tt, Proc (p_state p) (p_trace p
    ++ (if bool_decide (writeDir <> "") then [RMkdir writeDir] else [])
    ++ map (fun m => RCreate ((if bool_decide (writeDir <> "") then writeDir +:+ "/" else "") +:+ m)) mods)).
Proof.
  intros Hm Hc. unfold writeRevs.
  assert (He : forall prefix q, each mods (fun m => handleError (Create (prefix +:+ m)) ;-- put (RCreate (prefix +:+ m))) q
    = Some (inl tt, Proc (p_state q) (p_trace q ++ map (fun m => RCreate (prefix +:+ m)) mods))).
  { intros prefix. induction mods as [|m mods IH]; intros q; cbn [each map]; [by rewrite app_nil_r; destruct q|].
    rewrite Hc, then_then. cbn [handleError]. rewrite ret_then, put_then, IH. cbn [p_state p_trace].
    by rewrite <- app_assoc. }
  case_bool_decide as Hd; [|by rewrite ret_then, He; cbn].
  rewrite (Hm Hd), !then_then. cbn [handleError]. rewrite ret_then, put_then, He. cbn [p_state p_trace]. by rewrite <- app_assoc.
Qed.

(** With -w there is a file for every module and nothing printed. *)
Theorem yang2rev_writes writeDir dir rest mods : CompileDir dir = inl mods ->
  (writeDir <> "" -> MkdirAll writeDir = None) -> (forall file, Create file = None) ->
  exists tr, run (yang2rev writeDir true (dir :: rest)) tt = Some (inr 0%Z, tt, tr) /\
    forall m, m ∈ mods ->
      RCreate ((if bool_decide (writeDir <> "") then writeDir +:+ "/" else "") +:+ revision m) ∈ tr.
Proof.
  intros Hc Hm Hf. unfold run, yang2rev. rewrite Hc. unfold pbind.
  rewrite (bind_eq _ _ _ _ _ (writeRevs_run writeDir (map revision mods) (start tt) Hm Hf)).
  eexists. split; [reflexivity|]. intros m Hin. cbn [p_trace start app]. apply elem_of_app. right.
  apply list_elem_of_fmap. exists (revision m). split; [done|]. by apply list_elem_of_fmap_2.
Qed.
End Print.
End Print.

(** ** cfgcli-args-encoder *)

Module ArgsEncoder.

(** Strings are bytes in memory; [os.Args] points to the ones the kernel shows
    as the command line. *)
Abbreviation memory := (gmap nat string).
Definition content (mem : memory) (a : nat) : string := default "" (mem !! a).

Fixpoint stars (n : nat) : string := match n with O => "" | S n' => String "*"%char (stars n') end.

(** [clearArgv]: every byte of all but the first, in place. *)
Definition clear (mem : memory) (a : nat) : memory := <[a := stars (String.length (content mem a))]> mem.
Definition clearArgv (Args : list nat) (mem : memory) : memory := fold_left clear (tail Args) mem.

(** [copyArgs]: a fresh buffer for each; [next] is the first address never used. *)
Fixpoint copyArgs (inArgs : list nat) (next : nat) (mem : memory) : list nat * memory :=
  match inArgs with
  | [] => ([], mem)
  | a :: inArgs' =>
      let '(args, mem') := copyArgs inArgs' (S next) (<[next := content mem a]> mem) in
      (next :: args, mem')
  end.

Section Encoder.
(** [json.Encoder.Encode] of the object with the field [args]. *)
Context (Encode : list string -> string).

Definition encodeArgs (args : list nat) (mem : memory) : string := Encode (map (content mem) args).

Definition main (Args : list nat) (next : nat) (mem : memory) : string * memory :=
  let '(args, mem) := copyArgs (tail Args) next mem in
  let mem := clearArgv Args mem in
  (encodeArgs args mem +:+ nl, mem).

Lemma stars_length n : String.length (stars n) = n.
Proof. induction n; cbn; congruence. Qed.

Lemma copyArgs_spec l : forall next mem args mem', copyArgs l next mem = (args, mem') ->
  Forall (fun a => (a < next)%nat) l ->
  (forall a, (a < next)%nat -> mem' !! a = mem !! a) /\
  map (content mem') args = map (content mem) l /\ Forall (fun a => (next <= a)%nat) args.
Proof.
  induction l as [|a l IH]; intros next mem args mem' H Hl; cbn in H; [by injection H as <- <-|].
  destruct (copyArgs l (S next) _) as [args0 mem0] eqn:E. injection H as <- <-.
  apply Forall_cons in Hl as [Ha Hl].
  destruct (IH _ _ _ _ E) as (Hold & Hc & Hn); [eapply Forall_impl; [exact Hl|cbn; lia]|].
  assert (Hn0 : mem0 !! next = Some (content mem a)).
  { rewrite Hold by lia. apply lookup_insert_eq. }
  split_and!.
  - intros b Hb. rewrite Hold by lia. apply lookup_insert_ne. lia.
  - cbn. f_equal; [unfold content at 1; by rewrite Hn0|]. rewrite Hc. apply map_ext_in. intros b Hb.
    unfold content. rewrite lookup_insert_ne; [done|].
    rewrite Forall_forall in Hl. apply list_elem_of_In, Hl in Hb. lia.
  - constructor; [lia|]. eapply Forall_impl; [exact Hn|cbn; lia].
Qed.

Lemma clear_other l : forall mem a, a ∉ l -> fold_left clear l mem !! a = mem !! a.
Proof.
  induction l as [|b l IH]; intros mem a Ha; cbn; [done|]. rewrite IH by set_solver.
  apply lookup_insert_ne. set_solver.
Qed.
Lemma clear_all l : forall mem a, a ∈ l ->
  content (fold_left clear l mem) a = stars (String.length (content mem a)).
Proof.
  induction l as [|b l IH]; intros mem a Ha; cbn; [by apply not_elem_of_nil in Ha|].
  assert (Hb : content (clear mem b) b = stars (String.length (content mem b))).
  { unfold content at 1, clear. by rewrite lookup_insert_eq. }
  destruct (decide (a ∈ l)) as [Hl|Hl].
  - rewrite IH by done. destruct (decide (a = b)) as [->|Hn]; [by rewrite Hb, stars_length|].
    unfold content at 1, clear. by rewrite lookup_insert_ne.
  - assert (a = b) as -> by set_solver. unfold content at 1. rewrite clear_other by done. exact Hb.
Qed.

(** What is printed are the arguments as they were, and nothing of them is left
    on the command line: the same number of stars each.  (The copies are what
    makes this so: the strings of [os.Args] would change with it.) *)
Theorem args_hidden name args next mem out mem' :
  Forall (fun a => (a < next)%nat) (name :: args) -> name ∉ args ->
  main (name :: args) next mem = (out, mem') ->
  out = Encode (map (content mem) args) +:+ nl /\
  content mem' name = content mem name /\
  forall a, a ∈ args -> content mem' a = stars (String.length (content mem a)).
Proof.
  intros Hb Hn H. unfold main in H. cbn [tail] in H.
  destruct (copyArgs args next mem) as [copies mem1] eqn:E. injection H as <- <-.
  apply Forall_cons in Hb as [Hname Hargs].
  destruct (copyArgs_spec _ _ _ _ _ E Hargs) as (Hold & Hc & Hnew). unfold clearArgv. cbn [tail].
  assert (Hsame : forall a, (a < next)%nat -> content mem1 a = content mem a)
    by (intros a Ha; unfold content; by rewrite Hold).
  split_and!.
  - unfold encodeArgs. do 2 f_equal. rewrite <- Hc. apply map_ext_in. intros a Ha.
    unfold content. rewrite clear_other; [done|]. intros Hin.
    rewrite Forall_forall in Hnew, Hargs. apply list_elem_of_In, Hnew in Ha. apply Hargs in Hin. lia.
  - unfold content at 1. rewrite clear_other by done. by apply Hsame.
  - intros a Ha. rewrite clear_all by done. rewrite Hsame; [done|]. rewrite Forall_forall in Hargs. by apply Hargs.
Qed.
End Encoder.
End ArgsEncoder.

(** ** yanggraph *)

Module YangGraph.

(** A parsed module, as far as it is looked at. *)
Inductive root_type := NodeModule | NodeSubmodule | NodeOther.
Record module := {
  m_type : root_type;
  m_belongs_to : list string;          (** the names of its belongs-to statements *)
  m_imports : list string
}.

(** danos/utils/tsort. *)
Class TSort := {
  Graph : Type;
  tsort_New : Graph;
  AddVertex : Graph -> string -> Graph;
  HasEdge : Graph -> string -> string -> bool;
  AddEdge : Graph -> string -> string -> Graph;
  Dot : Graph -> string;
  SortDot : Graph -> string
}.

(** *** The picture *)

Definition start_mark : string := "<g id=" +:+ String (ascii_of_nat 34) "graph".
Definition is_digit (c : ascii) : bool := (48 <=? nat_of_ascii c)%nat && (nat_of_ascii c <=? 57)%nat.
(** The mark, and a digit. *)
Definition starts_here (s : string) : bool :=
  HasPrefix s start_mark
  && match str_drop (String.length start_mark) s with String c _ => is_digit c | EmptyString => false end.
Fixpoint find_start (s : string) : option string :=
  if starts_here s then Some s
  else match s with EmptyString => None | String _ s' => find_start s' end.

Definition end_mark : string := "</g>".
(** Up to the last end mark, and with it. *)
Fixpoint up_to_last (s : string) : option string :=
  match s with
  | EmptyString => None
  | String c s' =>
      match up_to_last s' with
      | Some t => Some (String c t)
      | None => if HasPrefix s end_mark then Some end_mark else None
      end
  end.

(** [svg] on what graphviz printed, which is nothing when there is none: no
    match is an index out of range. *)
Definition svg (header svgpan viewport trailer : string) (dot_output : string) : option string :=
  match find_start dot_output with
  | None => None
  | Some bs =>
      match up_to_last bs with
      | None => None
      | Some bs => Some (header +:+ svgpan +:+ viewport +:+ bs +:+ trailer)
      end
  end.

Section Main.
Context {TS : TSort}.

(** The imports of one module; a submodule counts for its module. *)
Definition add_import (mn : string) (g : Graph) (i : string) : Graph :=
  if HasEdge g mn i then g else AddEdge g mn i.
Definition add_module (g : Graph) (entry : string * module) : option Graph :=
  let '(mn, m) := entry in
  let add mn :=
    let g := match m_imports m with [] => AddVertex g mn | _ => g end in
    Some (fold_left (add_import mn) (m_imports m) g) in
  match m_type m with
  | NodeModule => add mn
  | NodeSubmodule => match m_belongs_to m with [] => None | b :: _ => add b end
  | NodeOther => Some g
  end.
Fixpoint add_modules (mods : list (string * module)) (g : Graph) : option Graph :=
  match mods with
  | [] => Some g
  | e :: mods' => match add_module g e with Some g' => add_modules mods' g' | None => None end
  end.

(** What is printed, or the error of the parser; [None] is a panic. *)
Definition main (ParseModules : list string -> list (string * module) + string) (run_dot : string -> string)
    (header svgpan viewport trailer : string) (output : string) (sort : bool) (args : list string)
  : option (string + string) :=
  match ParseModules args with
  | inr e => Some (inr e)
  | inl mods =>
      match add_modules mods tsort_New with
      | None => None
      | Some g =>
          if bool_decide (output = "dot") then Some (inl (if sort then SortDot g else Dot g +:+ nl))
          else
            match svg header svgpan viewport trailer (run_dot (if sort then SortDot g else Dot g)) with
            | None => None
            | Some picture => Some (inl (if sort then picture else picture +:+ nl))
            end
      end
  end.
End Main.

(** *** What is in the graph *)

(** A graph as its vertices and edges, in the order they were added. *)
#[local] Instance lists : TSort := {|
  Graph := list string * list (string * string);
  tsort_New := ([], []);
  AddVertex g v := (fst g ++ [v], snd g);
  HasEdge g v w := elem_b (v, w) (snd g);
  AddEdge g v w := (fst g, snd g ++ [(v, w)]);
  Dot _ := ""; SortDot _ := ""
|}.

(** The module a file counts for. *)
Definition counts_for (e : string * module) : option string :=
  match m_type (snd e) with
  | NodeModule => Some (fst e)
  | NodeSubmodule => head (m_belongs_to (snd e))
  | NodeOther => None
  end.

Lemma add_imports_edges mn l : forall g : Graph,
  (NoDup (snd g) -> NoDup (snd (fold_left (add_import mn) l g))) /\
  forall e, e ∈ snd (fold_left (add_import mn) l g) <-> e ∈ snd g \/ (fst e = mn /\ snd e ∈ l).
Proof.
  induction l as [|i l IH]; intros g; cbn [fold_left].
  { split; [done|]. intros e. split; [tauto|]. intros [H|[_ H]]; [done|by apply not_elem_of_nil in H]. }
  destruct (IH (add_import mn g i)) as [Hd He].
  assert (Hg : (NoDup (snd g) -> NoDup (snd (add_import mn g i))) /\
    forall e, e ∈ snd (add_import mn g i) <-> e ∈ snd g \/ e = (mn, i)).
  { unfold add_import. cbn [HasEdge lists]. unfold elem_b. case_bool_decide as Hin.
    - split; [done|]. intros e. split; [tauto|]. by intros [?| ->].
    - cbn [AddEdge lists snd]. split.
      + intros Hn. apply NoDup_app. split_and!; [done| |apply NoDup_singleton].
        intros x Hx. rewrite list_elem_of_singleton. by intros ->.
      + intros e. by rewrite elem_of_app, list_elem_of_singleton. }
  destruct Hg as [Hgd Hge]. split; [by auto|]. intros [a b]. rewrite He, Hge, elem_of_cons. cbn.
  split; [intros [[|[= -> ->]]|[]]|intros [?|[-> [->|?]]]]; tauto.
Qed.

(** There is an edge for every import of a module or of one of its submodules,
    once, and no other: that is what the check for an edge is for. *)
Theorem graph_spec mods (g : Graph) : add_modules mods tsort_New = Some g ->
  NoDup (snd g) /\
  forall v w, (v, w) ∈ snd g <->
    exists e, e ∈ mods /\ counts_for e = Some v /\ w ∈ m_imports (snd e).
Proof.
  assert (H : forall mods (g0 g : Graph), NoDup (snd g0) -> add_modules mods g0 = Some g ->
    NoDup (snd g) /\ forall v w, (v, w) ∈ snd g <->
      (v, w) ∈ snd g0 \/ exists e, e ∈ mods /\ counts_for e = Some v /\ w ∈ m_imports (snd e)).
  { clear. induction mods as [|e mods IH]; intros g0 g Hn H; cbn in H.
    { injection H as <-. split; [done|]. intros v w. split; [tauto|].
      intros [H|(? & H & _)]; [done|by apply not_elem_of_nil in H]. }
    destruct (add_module g0 e) as [g1|] eqn:E; [|done].
    assert (H1 : NoDup (snd g1) /\ forall v w, (v, w) ∈ snd g1 <->
      (v, w) ∈ snd g0 \/ (counts_for e = Some v /\ w ∈ m_imports (snd e))).
    { destruct e as [mn m]. unfold add_module, counts_for in *. cbn [fst snd] in *.
      assert (Hadd : forall mn' g1, Some (fold_left (add_import mn') (m_imports m)
          match m_imports m with [] => AddVertex g0 mn' | _ => g0 end) = Some g1 ->
        NoDup (snd g1) /\ forall v w, (v, w) ∈ snd g1 <->
          (v, w) ∈ snd g0 \/ (Some mn' = Some v /\ w ∈ m_imports m)).
      { intros mn' g2 [= <-].
        set (g3 := match m_imports m with [] => AddVertex g0 mn' | _ => g0 end).
        assert (Hs : snd g3 = snd g0) by (unfold g3; by destruct (m_imports m)).
        destruct (add_imports_edges mn' (m_imports m) g3) as [Hd He]. rewrite Hs in Hd, He.
        split; [by auto|]. intros v w. etransitivity; [apply (He (v, w))|]. cbn.
        split; intros [|[]]; try tauto; right; split; congruence. }
      destruct (m_type m).
      - by apply Hadd.
      - destruct (m_belongs_to m) as [|b bs]; [done|]. by apply Hadd.
      - injection E as <-. split; [done|]. intros v w. split; [tauto|]. by intros [|[? _]]. }
    destruct H1 as [Hn1 He1]. destruct (IH g1 g Hn1 H) as [Hn2 He2]. split; [done|].
    intros v w. rewrite He2, He1. setoid_rewrite elem_of_cons. naive_solver. }
  intros Hg. destruct (H mods tsort_New g (NoDup_nil_2) Hg) as [Hn He]. split; [done|].
  intros v w. rewrite He. split; [intros [H0|H0]; [by apply not_elem_of_nil in H0|done]|by right].
Qed.

(** Without graphviz there is no picture but an index out of range. *)
Lemma no_graphviz header svgpan viewport trailer : svg header svgpan viewport trailer "" = None.
Proof. reflexivity. Qed.

(** The part of the picture that is kept is the drawing. *)
Lemma svg_example :
  svg "H" "S" "V" "T" ("<svg><!-- --><g id=" +:+ String (ascii_of_nat 34) ("graph0" +:+ String (ascii_of_nat 34) "><g></g></g></svg>"))
  = Some ("HSV<g id=" +:+ String (ascii_of_nat 34) ("graph0" +:+ String (ascii_of_nat 34) "><g></g></g>T")).
Proof. reflexivity. Qed.
End YangGraph.
