(* ===== verification/ToolMains.v ===== *)
(** The [main] functions around the computations of Tools.v and Normalize.v:
    callrpc, gettree, configdcaps, cfgcmds, yang2path, yangc and normalize, from
    their arguments and input to what they print and the status they end with. *)

From S2P Require Import Prelude GoLib Errors Rpc GoFmt External CliFormat RpcCall Tools NetAddr Normalize Process.

Open Scope go_scope.

(** ** What these programs do *)

Inductive request :=
  | RCallRpc (ns rpc args encoding : string)
  | RTreeGetFull (db : Z) (path encoding : string)
  | RGetModuleSchemas
  | RGetFeatures
  | RGetDeviations.
(** What the daemon answers: a text, or a map. *)
Inductive reply := RText (s : string) | RMap (m : gmap string string).

Inductive event :=
  | Out (text : string)
  | Err (text : string)
  | Usage
  | Ask (r : request).

Definition main_sock : string := "/run/vyatta/configd/main.sock".

Section Mains.
Context {L : ConfigLib} {E : ErrorLib}.
Abbreviation P := (Process.P event unit).

(** [fmt.Fprintln(os.Stderr, err)] and [os.Exit]. *)
Definition fatal {A} (status : Z) (e : error) : P A := put (Err (Error e +:+ nl)) ;-- pexit status.
Definition check {A} (status : Z) (r : A + error) : P A :=
  match r with inl a => pret a | inr e => fatal status e end.
Definition Println (s : string) : P unit := put (Out (s +:+ nl)).

(** ** callrpc and gettree *)

Section Daemon.
(** [client.Dial]; the answers. *)
Context (Dial : string -> string -> option error) (answer : request -> reply + error).

Definition dial (status : Z) : P unit :=
  match Dial main_sock "" with Some e => fatal status e | None => pret tt end.
Definition ask (r : request) : P (reply + error) := put (Ask r) ;-- pret (answer r).
Definition text (r : reply) : string := match r with RText s => s | RMap _ => "" end.
Definition map_of (r : reply) : gmap string string := match r with RMap m => m | RText _ => ∅ end.

Definition usage_callrpc (name : string) : P unit :=
  put (Err ("Usage of " +:+ name +:+ ":" +:+ nl)) ;--
  put (Err ("    " +:+ name
    +:+ " <namespace> <rpc-name> <encoding:json/rfc7951/xml> [<input json/rfc7951/xml>]" +:+ nl)) ;--
  pexit 1%Z.

(** The input is read when the encoding has been looked at. *)
Definition callrpc (name : string) (args : list string) (stdin : string + error) : P unit :=
  let go ns rpc enc (getInput : P string) : P unit :=
    encoding <-- check 2%Z (callrpc_getEncoding enc) ;;
    inputArgs <-- getInput ;;
    dial 2%Z ;--
    r <-- ask (RCallRpc ns rpc inputArgs encoding) ;;
    out <-- check 2%Z r ;;
    Println (text out) ;-- pexit 0%Z in
  match args with
  | [ns; rpc; enc] => go ns rpc enc (check 1%Z stdin)
  | [ns; rpc; enc; input] => go ns rpc enc (pret input)
  | _ => usage_callrpc name
  end.

Definition usage_gettree (name : string) : P unit :=
  put (Err ("Usage of " +:+ name +:+ ":" +:+ nl)) ;--
  put (Err ("    " +:+ name +:+ " <path> <encoding:json//rfc7951/xml/internal>" +:+ nl)) ;--
  pexit 1%Z.
Definition gettree (name : string) (args : list string) : P unit :=
  match args with
  | [path; enc] =>
      encoding <-- check 2%Z (gettree_getEncoding enc) ;;
      dial 2%Z ;--
      r <-- ask (RTreeGetFull RUNNING path encoding) ;;
      out <-- check 2%Z r ;;
      Println (text out) ;-- pexit 0%Z
  | _ => usage_gettree name
  end.

(** ** configdcaps *)

Section Caps.
Context (range : forall A : Type, gmap string A -> list (string * A)).
(** The XML decoder, whose error is not looked at. *)
Context (Decode : string -> list Capabilities.Schema).

Definition configdcaps : P unit :=
  dial 1%Z ;--
  schemastr <-- ask RGetModuleSchemas ;;
  schemastr <-- check 1%Z schemastr ;;
  let schemas := Decode (text schemastr) in
  features <-- ask RGetFeatures ;;
  features <-- check 1%Z features ;;
  let schemas := Capabilities.setFeatures range schemas (map_of features) in
  deviations <-- ask RGetDeviations ;;
  deviations <-- check 1%Z deviations ;;
  let schemas := Capabilities.setDeviations range schemas (map_of deviations) in
  each schemas (fun sch => Println (Capabilities.Schema_String sch)).
End Caps.
End Daemon.

(** ** cfgcmds *)

Section Cfgcmds.
Context (Quote : string -> string).
Context (Open : string -> string + error) (Parse : string -> string -> list Commands.pnode + error).

Definition cfgcmds (args : list string) (stdin : string + error) : P unit :=
  match args with
  | _ :: _ :: _ =>
      each ["usage: cfgcmds [filename]"; "    cfgcmds takes a file in the vyatta config format";
            "    and prints the structure as set commands,"; "    by default it will read from stdin."]
        (fun s => put (Err (s +:+ nl))) ;--
      pexit 1%Z
  | _ =>
      let '(filename, file) := match args with f :: _ => (f, Open f) | [] => ("stdin", stdin) end in
      contents <-- check 1%Z file ;;
      children <-- check 1%Z (Parse filename contents) ;;
      each (Commands.cfgcmds Quote children) Println
  end.
End Cfgcmds.

(** ** yang2path *)

Section Yang2path.
Context (natsorted : forall A : Type, list (string * A) -> list (string * A)) (HelpMap : snode -> list string).
(** What is compiled: the system's modules, those of a directory with the
    features of a file, the files named, or the standard input. *)
Inductive yang_source := System | Directory (dir capabilities : string) | Files (l : list string) | Stdin (data : string).
Context (Compile : yang_source -> snode + error).

Definition source (systemcfg : bool) (directory capabilities : string) (args : list string)
    (stdin : string + error) : yang_source + error :=
  if systemcfg then inl System
  else if bool_decide (directory <> "") then inl (Directory directory capabilities)
  else match args with
       | [] => match stdin with inl data => inl (Stdin data) | inr e => inr e end
       | _ => inl (Files args)
       end.

Definition yang2path (systemcfg : bool) (directory capabilities : string) (args : list string)
    (stdin : string + error) : P unit :=
  src <-- check 1%Z (source systemcfg directory capabilities args stdin) ;;
  stree <-- check 1%Z (Compile src) ;;
  each (Yang2path.walk natsorted HelpMap stree "") Println ;--
  pexit 0%Z.
End Yang2path.

(** ** yangc *)

Section Yangc.
(** The sections of each plugin file, or the error of loading it. *)
Context (Glob : list string) (ini_Load : string -> list string + error).
Context (Platforms : string -> gmap string Yangc.Definition_).
(** The compiler: where the modules are, which features, whether unknown symbols
    are skipped, which functions are allowed; its warnings. *)
Context (Compile : Yangc.YangLocator -> Yangc.FeaturesChecker -> bool -> (string -> bool) -> list string + error).
Context (RemoveNPContainerWarnings : list string -> list string).

(** Files that cannot be loaded are left out. *)
Definition getFunctionsFromIniFiles : list string :=
  flat_map (fun file => match ini_Load file with inl sections => sections | inr _ => [] end) Glob.

Definition usage (name : string) : P unit :=
  put (Err ("Usage of " +:+ name +:+ " [flags] [<yang-dir>]:" +:+ nl +:+ nl)) ;-- put Usage.

Definition yangc (name : string) (f : Yangc.flags) (skip showNPContainerWarnings : bool)
    (customXpathFunctions : string) (args : list string) : P unit :=
  (if negb (Yangc.validateArgs f args) then usage name ;-- pexit 1%Z else pret tt) ;--
  match Yangc.getPlatform Platforms (Yangc.resourcesDir f) (Yangc.testPlatform f) with
  | inr e => put (Err (Error e)) ;-- pexit 1%Z
  | inl plat =>
      warns <-- check 1%Z (Compile (Yangc.createYangLocator args (Yangc.resourcesDir f) plat)
                   (Yangc.createFeatureChecker f (Yangc.capabilities f) (Yangc.resourcesDir f) plat) skip
                   (Yangc.createUserFnChecker getFunctionsFromIniFiles customXpathFunctions)) ;;
      let warns := if negb showNPContainerWarnings then RemoveNPContainerWarnings warns else warns in
      match warns with
      | [] => pexit 0%Z
      | _ =>
          put (Out (nl +:+ "XPATH path validation warnings:" +:+ nl +:+ nl)) ;--
          each warns (fun w => put (Out (w +:+ nl +:+ "----" +:+ nl))) ;--
          pexit 1%Z
      end
  end.
End Yangc.

(** ** What a script can rely on *)

Definition is_out (e : event) : bool := match e with Out _ => true | _ => false end.
Definition is_err (e : event) : bool := match e with Err _ => true | _ => false end.
Definition silent (e : event) : bool := negb (is_out e) && negb (is_err e).

(** A step that prints nothing, or ends the program with a report. *)
Definition refused (st : Z) (l : list event) : Prop := st <> 0%Z /\ Forall (fun e => is_out e = false) l /\ Exists (fun e => is_err e = true) l.
Definition probes {A} (m : P A) : Prop := forall p, exists r q l, m p = Some (r, q) /\
  p_trace q = p_trace p ++ l /\
  match r with inl _ => Forall (fun e => silent e = true) l | inr st => refused st l end.

(** The whole program: it reports nothing and ends well, or prints nothing on its
    output, says why on the other and ends with a status that is not 0. *)
Definition honest (m : P unit) : Prop := forall p, exists r q l, m p = Some (r, q) /\
  p_trace q = p_trace p ++ l /\
  (((r = inl tt \/ r = inr 0%Z) /\ Forall (fun e => is_err e = false) l) \/ exists st, r = inr st /\ refused st l).

Lemma silent_out e : silent e = true -> is_out e = false.
Proof. by destruct e. Qed.
Lemma silent_err e : silent e = true -> is_err e = false.
Proof. by destruct e. Qed.
Lemma silent_refused l st l' : Forall (fun e => silent e = true) l -> refused st l' -> refused st (l ++ l').
Proof.
  intros Hl (Hst & Ho & He). split; [done|]. split; [|apply Exists_app; by right].
  apply Forall_app. split; [|done]. eapply Forall_impl; [exact Hl|]. apply silent_out.
Qed.

Lemma probes_ret {A} (a : A) : probes (pret a).
Proof. intros p. exists (inl a), p, []. rewrite app_nil_r. by repeat constructor. Qed.
Lemma probes_check {A} st (r : A + error) : st <> 0%Z -> probes (check st r).
Proof.
  intros Hst p. destruct r as [a|e]; [apply (probes_ret a)|]. eexists (inr st), _, [_].
  split; [unfold check, fatal; by rewrite put_then|]. split; [done|]. split; [done|]. by repeat constructor.
Qed.
Lemma probes_ask answer r : probes (ask answer r).
Proof. intros p. eexists (inl _), _, [Ask r]. split; [reflexivity|]. split; [done|]. by repeat constructor. Qed.
Lemma probes_dial Dial st : st <> 0%Z -> probes (dial Dial st).
Proof.
  intros Hst. unfold dial. destruct (Dial _ _) as [e|]; [|apply probes_ret].
  exact (probes_check st (inr e : unit + error) Hst).
Qed.

Lemma honest_bind {A} (m : P A) (k : A -> P unit) : probes m -> (forall a, honest (k a)) -> honest (pbind m k).
Proof.
  intros Hm Hk p. destruct (Hm p) as (r & q & l & E0 & Hl & Hr). unfold pbind. rewrite (bind_eq _ _ _ _ _ E0).
  destruct r as [a|st].
  - destruct (Hk a q) as (r' & q' & l' & -> & Hl' & Hr'). exists r', q', (l ++ l').
    split; [done|]. split; [by rewrite Hl', Hl, app_assoc|].
    destruct Hr' as [[Hg He]|(st & -> & Hf)].
    + left. split; [done|]. apply Forall_app. split; [|done]. eapply Forall_impl; [exact Hr|]. apply silent_err.
    + right. exists st. split; [done|]. by apply silent_refused.
  - exists (inr st), q, l. split; [done|]. split; [done|]. right. by exists st.
Qed.

(** The end of a program that has its result. *)
Lemma honest_print lines (fin : P unit) : fin = pret tt \/ fin = pexit 0%Z ->
  honest (each lines Println ;-- fin).
Proof.
  intros Hf p. unfold Println. rewrite each_put_then.
  destruct Hf as [-> | ->]; (eexists _, _, (map (fun x => Out (x +:+ nl)) lines); split; [reflexivity|];
    split; [done|]; left; split; [auto|]; by apply Forall_map, Forall_true).
Qed.
Lemma honest_print_end {A} (f : A -> string) l : honest (each l (fun x => Println (f x))).
Proof.
  intros p. unfold Println. eexists _, _, (map (fun x => Out (f x +:+ nl)) l). split; [apply each_put|].
  split; [done|]. left. split; [by left|]. by apply Forall_map, Forall_true.
Qed.
Lemma honest_print_one s : honest (Println s ;-- pexit 0%Z).
Proof. intros p. eexists _, _, [_]. split; [reflexivity|]. split; [done|]. left. split; [by right|]. by repeat constructor. Qed.
Lemma honest_usage lines : lines <> [] -> honest (each lines (fun s => put (Err (s +:+ nl))) ;-- pexit 1%Z).
Proof.
  intros Hn p. rewrite each_put_then. eexists _, _, (map (fun x => Err (x +:+ nl)) lines). split; [reflexivity|].
  split; [done|]. right. exists 1%Z. split; [done|]. split; [done|]. split; [by apply Forall_map, Forall_true|].
  destruct lines; [done|]. by constructor.
Qed.

Lemma honest_usages a b : honest (put (Err a) ;-- put (Err b) ;-- pexit 1%Z).
Proof.
  intros p. eexists _, _, [_; _]. split; [reflexivity|]. split; [cbn; by rewrite <- app_assoc|].
  right. exists 1%Z. split; [done|]. split; [done|]. split; by repeat constructor.
Qed.

Ltac honest_step :=
  match goal with
  | |- honest (pbind (check _ _) _) => apply honest_bind; [by apply probes_check|intros ?]
  | |- honest (pbind (dial _ _) _) => apply honest_bind; [by apply probes_dial|intros ?]
  | |- honest (pbind (ask _ _) _) => apply honest_bind; [apply probes_ask|intros ?]
  | |- honest (pbind (pret _) _) => apply honest_bind; [apply probes_ret|intros ?]
  | |- honest (pbind (Println _) _) => apply honest_print_one
  | |- honest (pbind (each _ Println) _) => apply honest_print; auto
  | |- honest (pbind (each _ _) _) => by apply honest_usage
  | |- honest (each _ _) => first [apply honest_print_end | apply (honest_print_end id)]
  | |- honest (pbind (put (Err _)) _) => apply honest_usages
  | |- honest (match ?x with _ => _ end) => destruct x
  | |- honest _ => progress cbv zeta
  end.

(** The programs that show something keep to it: no partial output, and an error
    that a script can see. *)
Theorem tools_honest Dial answer range Decode Quote Open Parse natsorted HelpMap Compile name args stdin
    systemcfg directory capabilities :
  honest (callrpc Dial answer name args stdin) /\
  honest (gettree Dial answer name args) /\
  honest (configdcaps Dial answer range Decode) /\
  honest (cfgcmds Quote Open Parse args stdin) /\
  honest (yang2path natsorted HelpMap Compile systemcfg directory capabilities args stdin).
Proof.
  unfold callrpc, gettree, configdcaps, cfgcmds, yang2path, usage_callrpc, usage_gettree.
  split_and!; repeat honest_step.
Qed.

(** The verdict of the checker: status 0, and nothing printed, exactly when the
    arguments are one of the usages, the platform is known, everything compiles
    and no warning is left. *)
Theorem yangc_verdict Glob ini_Load Platforms Compile Remove name f skip show fns args tr :
  run (yangc Glob ini_Load Platforms Compile Remove name f skip show fns args) tt = Some (inr 0%Z, tt, tr) <->
  tr = [] /\ Yangc.validateArgs f args = true /\
  exists plat warns, Yangc.getPlatform Platforms (Yangc.resourcesDir f) (Yangc.testPlatform f) = inl plat /\
    Compile (Yangc.createYangLocator args (Yangc.resourcesDir f) plat)
      (Yangc.createFeatureChecker f (Yangc.capabilities f) (Yangc.resourcesDir f) plat) skip
      (Yangc.createUserFnChecker (getFunctionsFromIniFiles Glob ini_Load) fns) = inl warns /\
    (if show then warns else Remove warns) = [].
Proof.
  unfold run, yangc. destruct (Yangc.validateArgs f args); cbn [negb]; [|split; [done|by intros (_ & ? & _)]].
  rewrite ret_then. destruct (Yangc.getPlatform _ _ _) as [plat|e].
  2: { split; [done|]. by intros (_ & _ & ? & ? & ? & _). }
  destruct (Compile _ _ _ _) as [warns|e] eqn:Ec.
  2: { split; [done|]. intros (_ & _ & p' & w' & [= <-] & H & _). congruence. }
  unfold check. rewrite ret_then. cbv zeta.
  assert (Hw : (if negb show then Remove warns else warns) = (if show then warns else Remove warns))
    by by destruct show.
  rewrite Hw. split.
  - destruct (if show then _ else _) as [|w ws] eqn:Er; [|].
    + intros [= <-]. split_and!; [done..|]. by exists plat, warns.
    + rewrite put_then. unfold pbind at 1. rewrite (bind_eq _ _ _ _ _ (each_put _ _ _)). done.
  - intros (-> & _ & p' & w' & [= <-] & Hc & Hr). rewrite Ec in Hc. injection Hc as <-. by rewrite Hr.
Qed.
End Mains.
