(* ===== verification/GetPass.v ===== *)
(** [cmd/cfgcli/getpass.go]: reading a line from the terminal without echo, for
    the password in a URL. *)

From S2P Require Import Prelude GoLib Errors Process.

Open Scope Z_scope.
Open Scope go_scope.

(** ** The terminal *)

(** [syscall.Termios]: the two words of flags that are changed, and the rest. *)
Record termios := Termios { Iflag : Z; Lflag : Z; other_flags : list Z }.
Definition ECHO : Z := 8.
Definition ICANON : Z := 2.
Definition ISIG : Z := 1.
Definition ICRNL : Z := 256.

(** [&^=] and [|=]. *)
Definition silent (t : termios) : termios :=
  {| Lflag := Z.lor (Z.ldiff (Lflag t) ECHO) (Z.lor ICANON ISIG);
     Iflag := Z.lor (Iflag t) ICRNL; other_flags := other_flags t |}.

(** What the process does: it writes, it reads while the terminal is in some
    state. *)
Inductive gp_event := GWrite (text : string) | GRead (t : termios) (got : string).

Definition EOF : error := EGo "EOF".

(** The system calls: how many bytes a write takes, the two that set the
    terminal and the one that asks for it, what the reads give. *)
Record tty := {
  tty_write : list (nat + error);
  tty_get : option error;
  tty_set : option error;
  tty_restore : option error;
  tty_read : list (string + error)
}.

Abbreviation P := (Process.P gp_event termios).

(** The end: bytes, an error, or still waiting for a system call. *)
Inductive outcome := Bytes (s : string) | Err (e : error) | Waiting.

(** The loop that writes the prompt. *)
Fixpoint write_prompt (writes : list (nat + error)) (rest : string) : P (option outcome) :=
  match rest with
  | EmptyString => pret None
  | _ =>
      match writes with
      | [] => pret (Some Waiting)
      | inr e :: _ => pret (Some (Err e))
      | inl O :: _ => pret (Some (Err EOF))
      | inl n :: writes' => put (GWrite (str_take n rest)) ;-- write_prompt writes' (str_drop n rest)
      end
  end.

Definition buf_size : nat := 16.
Definition newline : ascii := ascii_of_nat 10.
Fixpoint last_byte (s : string) : option ascii :=
  match s with EmptyString => None | String c EmptyString => Some c | String _ s' => last_byte s' end.

(** The bytes of one read without the newline at their end. *)
Definition trim_newline (got : string) : string :=
  if bool_decide (last_byte got = Some newline) then str_take (String.length got - 1) got else got.

Fixpoint read_line (reads : list (string + error)) (acc : string) : P outcome :=
  match reads with
  | [] => pret Waiting
  | inr e :: _ => pret (Err e)
  | inl EmptyString :: _ => if bool_decide (acc = "") then pret (Err EOF) else pret (Bytes acc)
  | inl got :: reads' =>
      t <-- look id ;;
      put (GRead t got) ;--
      let text := trim_newline got in
      if (String.length text <? buf_size)%nat then pret (Bytes (acc +:+ text))
      else read_line reads' (acc +:+ text)
  end.

(** [GetPass], with what it has deferred. *)
Definition GetPass (prompt : string) (io : tty) : P outcome :=
  early <-- write_prompt (tty_write io) prompt ;;
  match early with
  | Some o => pret o
  | None =>
      r <-- match tty_get io with
            | Some e => pret (Err e)
            | None =>
                oldState <-- look id ;;
                match tty_set io with
                | Some e => pret (Err e)
                | None =>
                    change silent ;--
                    r <-- read_line (tty_read io) "" ;;
                    match r with
                    | Waiting => pret Waiting
                    | r =>
                        match tty_restore io with
                        | Some _ => pret r             (* not looked at *)
                        | None => change (fun _ => oldState) ;-- pret r
                        end
                    end
                end
            end ;;
      match r with
      | Waiting => pret Waiting
      | r => put (GWrite nl) ;-- pret r
      end
  end.

(** ** The flags *)

Lemma silent_no_echo t : Z.land (Lflag (silent t)) ECHO = 0.
Proof.
  apply Z.bits_inj'. intros n Hn. cbn [silent Lflag].
  rewrite Z.bits_0, Z.land_spec, !Z.lor_spec, Z.ldiff_spec.
  destruct (decide (n = 3)) as [->|H3]; [cbn; by rewrite andb_false_r|].
  assert (Z.testbit ECHO n = false) as ->; [|by rewrite andb_false_r].
  change ECHO with (2 ^ 3). rewrite Z.pow2_bits_eqb by lia. by apply Z.eqb_neq.
Qed.

(** The other bits of the mode are what they were, but for the three set. *)
Lemma silent_others t n : 0 <= n -> n <> 3 -> n <> 0 -> n <> 1 ->
  Z.testbit (Lflag (silent t)) n = Z.testbit (Lflag t) n /\
  (n <> 8 -> Z.testbit (Iflag (silent t)) n = Z.testbit (Iflag t) n) /\
  other_flags (silent t) = other_flags t.
Proof.
  intros Hn H3 H0 H1. assert (Hbit : forall k, 0 <= k -> n <> k -> Z.testbit (2 ^ k) n = false).
  { intros k Hk Hne. rewrite Z.pow2_bits_eqb by lia. apply Z.eqb_neq. lia. }
  cbn [silent Lflag Iflag other_flags]. rewrite !Z.lor_spec, Z.ldiff_spec.
  change ECHO with (2 ^ 3). change ICANON with (2 ^ 1). change ISIG with (2 ^ 0). change ICRNL with (2 ^ 8).
  rewrite (Hbit 3), (Hbit 1), (Hbit 0) by (done || lia). split_and!; [by rewrite andb_true_r, !orb_false_r| |done].
  intros H8. by rewrite (Hbit 8 ltac:(lia) H8), orb_false_r.
Qed.

(** ** Runs *)

Lemma write_prompt_run writes rest p o q : write_prompt writes rest p = Some (o, q) ->
  p_state q = p_state p /\ (exists r, o = inl r) /\ exists l, p_trace q = p_trace p ++ map GWrite l.
Proof.
  revert rest p. induction writes as [|w writes IH]; intros [|c rest] p; cbn [write_prompt].
  1, 3: intros [= <- <-]; split_and!; [done|by eexists|exists []; by rewrite app_nil_r].
  - intros [= <- <-]; split_and!; [done|by eexists|exists []; by rewrite app_nil_r].
  - destruct w as [[|n]|e]; try (intros [= <- <-]; split_and!; [done|by eexists|exists []; by rewrite app_nil_r]).
    rewrite put_then. intros H. apply IH in H as (Hs & Ho & l & Ht). split_and!; [done|done|].
    eexists (_ :: l). rewrite Ht. cbn. by rewrite <- app_assoc.
Qed.

(** While it reads the terminal is as it was set, and stays so. *)
Lemma read_line_run reads acc p : exists o l, read_line reads acc p =
  Some (inl o, Proc (p_state p) (p_trace p ++ map (GRead (p_state p)) l)).
Proof.
  revert acc p. induction reads as [|[[|c s]|e] reads IH]; intros acc p; cbn [read_line].
  1, 4: eexists _, []; by rewrite app_nil_r; destruct p.
  - case_bool_decide; eexists _, []; by rewrite app_nil_r; destruct p.
  - unfold pbind at 1, bind, look. cbn [id]. rewrite put_then. cbv zeta.
    destruct (_ <? _)%nat; [by eexists _, [_]|].
    destruct (IH (acc +:+ trim_newline (String c s)) (Proc (p_state p) (p_trace p ++ [GRead (p_state p) (String c s)])))
      as (o & l & ->). exists o, (String c s :: l). cbn. by rewrite <- app_assoc.
Qed.

(** The whole line is read, in pieces of the buffer. *)
Fixpoint chunks (n : nat) (s : string) : list (string + error) :=
  match n with
  | O => []
  | S n' => match s with
            | EmptyString => []
            | _ => inl (str_take buf_size s) :: chunks n' (str_drop buf_size s)
            end
  end.

Lemma take_drop n s : str_take n s +:+ str_drop n s = s.
Proof. revert s. induction n as [|n IH]; intros [|c s]; try done. exact (f_equal (String c) (IH s)). Qed.

Lemma take_length n s : (n <= String.length s)%nat -> String.length (str_take n s) = n.
Proof. revert s. induction n as [|n IH]; intros [|c s] H; cbn in *; try lia. rewrite IH; lia. Qed.

Lemma drop_length n s : String.length (str_drop n s) = (String.length s - n)%nat.
Proof. revert s. induction n as [|n IH]; intros [|c s]; cbn; done || apply IH. Qed.

Lemma take_app n s t : (n <= String.length s)%nat -> str_take n (s +:+ t) = str_take n s.
Proof. revert s. induction n as [|n IH]; intros [|c s] H; cbn in *; try done; try lia. apply (f_equal (String c)), IH. lia. Qed.

Lemma drop_app n s t : (n <= String.length s)%nat -> str_drop n (s +:+ t) = str_drop n s +:+ t.
Proof. revert s. induction n as [|n IH]; intros [|c s] H; cbn in *; try done; try lia. apply IH. lia. Qed.

Lemma take_all n s : (String.length s <= n)%nat -> str_take n s = s.
Proof. revert s. induction n as [|n IH]; intros [|c s] H; cbn in *; try done; try lia. apply (f_equal (String c)), IH. lia. Qed.

Lemma last_byte_app s c : last_byte (s +:+ String c EmptyString) = Some c.
Proof. induction s as [|d [|e s] IH]; done. Qed.

(** A line has no newline in it. *)
Fixpoint has_byte (c : ascii) (s : string) : bool :=
  match s with EmptyString => false | String d s' => bool_decide (c = d) || has_byte c s' end.

Lemma has_byte_app c s t : has_byte c (s +:+ t) = has_byte c s || has_byte c t.
Proof.
  induction s as [|d s IH]; [done|].
  change (bool_decide (c = d) || has_byte c (s +:+ t) = (bool_decide (c = d) || has_byte c s) || has_byte c t).
  by rewrite IH, orb_assoc.
Qed.

Lemma last_byte_in c s : last_byte s = Some c -> has_byte c s = true.
Proof.
  induction s as [|d s IH]; [done|]. destruct s as [|e s]; intros H.
  - injection H as <-. cbn. by rewrite bool_decide_eq_true_2.
  - change (bool_decide (c = d) || has_byte c (String e s) = true). by rewrite (IH H), orb_true_r.
Qed.

Lemma trim_whole line : (String.length line < buf_size)%nat ->
  trim_newline (str_take buf_size (line +:+ String newline EmptyString)) = line.
Proof.
  intros H. rewrite take_all by (rewrite length_append; cbn [String.length]; lia).
  unfold trim_newline. rewrite bool_decide_eq_true_2 by apply last_byte_app.
  rewrite length_append. cbn [String.length]. rewrite Nat.add_sub, take_app by done. by apply take_all.
Qed.

(** A piece of the line that fills the buffer is not taken for its end. *)
Lemma trim_piece line : (buf_size <= String.length line)%nat -> has_byte newline line = false ->
  trim_newline (str_take buf_size (line +:+ String newline EmptyString)) = str_take buf_size line.
Proof.
  intros H Hn. rewrite take_app by done. unfold trim_newline. rewrite bool_decide_eq_false_2; [done|].
  intros Hl. apply last_byte_in in Hl. revert Hn. rewrite <- (take_drop buf_size line), has_byte_app, Hl. done.
Qed.

Lemma read_line_next got reads acc p : got <> "" -> read_line (inl got :: reads) acc p =
  (if (String.length (trim_newline got) <? buf_size)%nat then pret (Bytes (acc +:+ trim_newline got))
   else read_line reads (acc +:+ trim_newline got)) (Proc (p_state p) (p_trace p ++ [GRead (p_state p) got])).
Proof. destruct got; [done|reflexivity]. Qed.

Lemma read_line_whole n line acc p : (String.length line < n)%nat -> has_byte newline line = false ->
  exists q, read_line (chunks n (line +:+ String newline EmptyString)) acc p = Some (inl (Bytes (acc +:+ line)), q).
Proof.
  revert line acc p. induction n as [|n IH]; intros line acc p Hn Hb; [lia|]. cbn [chunks].
  destruct (line +:+ String newline EmptyString) as [|c s] eqn:E; [by destruct line|]. rewrite <- E.
  rewrite read_line_next by (by rewrite E).
  destruct (decide (String.length line < buf_size)%nat) as [H|H].
  - rewrite trim_whole by done. destruct (Nat.ltb_spec (String.length line) buf_size); [by eexists|lia].
  - rewrite trim_piece by (done || lia). rewrite take_length by lia. rewrite Nat.ltb_irrefl.
    rewrite drop_app by lia.
    destruct (IH (str_drop buf_size line) (acc +:+ str_take buf_size line)
      (Proc (p_state p) (p_trace p ++ [GRead (p_state p) (str_take buf_size (line +:+ String newline EmptyString))])))
      as [q Hq].
    + rewrite drop_length. unfold buf_size in *. lia.
    + revert Hb. rewrite <- (take_drop buf_size line) at 1. rewrite has_byte_app. by intros [_ ?]%orb_false_iff.
    + exists q. rewrite Hq. by rewrite append_assoc, take_drop.
Qed.

(** ** What is promised *)

(** Whatever the system calls say, once the prompt has an answer the terminal is
    as it was found when it can be set back; everything was read with the
    echo off; and the prompt comes first, the newline last. *)
Theorem GetPass_restores prompt io p r q :
  GetPass prompt io p = Some (inl r, q) -> r <> Waiting -> tty_restore io = None ->
  p_state q = p_state p /\
  exists ws rs fin, p_trace q = p_trace p ++ map GWrite ws ++ map (GRead (silent (p_state p))) rs ++ fin /\
    (rs <> [] -> fin = [GWrite nl]).
Proof.
  intros H Hr Hset. unfold GetPass, pbind at 1 in H.
  destruct (write_prompt (tty_write io) prompt p) as [[o q0]|] eqn:Ew; [|by unfold bind in H; rewrite Ew in H].
  rewrite (bind_eq _ _ _ _ _ Ew) in H.
  apply write_prompt_run in Ew as (Hs & [early ->] & ws & Ht).
  assert (Hnone : forall fin, p_state q = p_state q0 -> p_trace q = p_trace q0 ++ fin ->
    p_state q = p_state p /\ exists ws rs fin, p_trace q = p_trace p ++ map GWrite ws ++
      map (GRead (silent (p_state p))) rs ++ fin /\ (rs <> [] -> fin = [GWrite nl])).
  { intros fin Hq Hf. split; [congruence|]. exists ws, [], fin. rewrite Hf, Ht, <- !app_assoc. done. }
  destruct early as [o|]; [injection H as <- <-; apply (Hnone []); by rewrite ?app_nil_r|].
  destruct (tty_get io); [injection H as <- <-; by apply (Hnone [GWrite nl])|].
  unfold pbind, bind, look in H. cbn [id] in H.
  destruct (tty_set io); [injection H as <- <-; by apply (Hnone [GWrite nl])|].
  unfold change in H. cbn [p_state p_trace] in H.
  destruct (read_line_run (tty_read io) "" (Proc (silent (p_state q0)) (p_trace q0))) as (o & rs & Eo).
  rewrite Eo in H. rewrite Hset in H. destruct o; injection H as <- <-; cbn [p_state p_trace];
    try done; (split; [done|]; exists ws, rs, [GWrite nl]; rewrite Ht, Hs, <- !app_assoc; done).
Qed.

(** A line typed whole, of any length, is what comes back. *)
Theorem GetPass_reads prompt io p line n :
  tty_write io = [inl (String.length prompt)] -> tty_get io = None -> tty_set io = None ->
  has_byte newline line = false -> (String.length line < n)%nat -> prompt <> "" ->
  tty_read io = chunks n (line +:+ String newline EmptyString) ->
  exists q, GetPass prompt io p = Some (inl (Bytes line), q).
Proof.
  intros Hw Hg Hs Hb Hn Hp Hr. unfold GetPass. rewrite Hw, Hg, Hs, Hr.
  assert (write_prompt [inl (String.length prompt)] prompt p
    = Some (inl None, Proc (p_state p) (p_trace p ++ [GWrite prompt]))) as Ew.
  { destruct prompt as [|c s]; [done|]. cbn [write_prompt String.length]. rewrite put_then.
    rewrite take_all by (cbn; lia).
    assert (str_drop (S (String.length s)) (String c s) = "") as ->; [|done].
    clear. cbn. induction s; [done|]. apply IHs. }
  unfold pbind at 1. rewrite (bind_eq _ _ _ _ _ Ew).
  unfold pbind, bind, look, change. cbn [id p_state p_trace].
  match goal with |- context [read_line _ "" ?p0] =>
    destruct (read_line_whole n line "" p0 Hn Hb) as [q Hq]; rewrite Hq end.
  destruct (tty_restore io); by eexists.
Qed.
