(* ===== verification/Checks.v ===== *)
(** [session/sessiontest/validate.go]: the checks the test suites are written
    with.  A check makes calls of the session and reports to [testing.T] what
    is not as expected; it is a computation whose state is the session's and
    whose trace is what the test prints.  The theorems say what a check that
    reports nothing has established. *)

From S2P Require Import Prelude GoLib Errors Rpc GoFmt External Configd LogLevel Sample Session.
From S2P Require Import StateTree Load EditConfig Commit SessionServer SessionApi CliFormat Process.

Open Scope go_scope.

(** ** The test *)

Inductive test_event := TError (text : string) | TLog (text : string).
Definition is_failure (e : test_event) : bool := match e with TError _ => true | TLog _ => false end.

Definition bool_text (b : bool) : string := if b then "true" else "false".
(** [fmt.Sprintln] of strings. *)
Definition Sprintln (l : list string) : string := Join l " " +:+ nl.

(** ** Tables *)

Definition Operation := Z.
Definition SET : Operation := 0.
Definition SET_PATH : Operation := 1.
Definition DELETE : Operation := 2.
Definition SET_AND_COMMIT : Operation := 3.
Definition DELETE_AND_COMMIT : Operation := 4.

Record ValidateOpTbl := {
  Description : string;
  Path : list string;
  Value : string;
  Result : bool     (** of the commit if there is one, else of set or delete *)
}.
Definition NewValOpTblEntry (desc : string) (path : list string) (value : string) (result : bool) : ValidateOpTbl :=
  {| Description := desc; Path := path; Value := value; Result := result |}.

Definition SessOp := Z.
Definition COMMIT_OP : SessOp := 0.
Definition VALIDATE_OP : SessOp := 1.
Definition SessOp_String (s : SessOp) : string :=
  if bool_decide (s = COMMIT_OP) then "commit" else if bool_decide (s = VALIDATE_OP) then "validate" else "undefined".

Record ValidateStatusTbl := { st_Path : list string; st_Status : NodeStatus; st_Err : bool }.
Definition NewValStatusTblEntry (path : list string) (status : NodeStatus) (err : bool) : ValidateStatusTbl :=
  {| st_Path := path; st_Status := status; st_Err := err |}.

Definition CommitDebugOff : bool := false.
Definition CommitDebugOn : bool := true.
Definition NoCfgCheck : bool := false.
Definition CfgCheck : bool := true.
Definition emptypath : list string := [].

Section Validate.
Context {L : ConfigLib} {SL : StateLib} {CL : CommitLib} {E : ErrorLib}.
Context (xml_config : string -> list xml_elem + error) (fuel : nat) (term : bool).
(** [Output.String] of danos/utils/exec. *)
Context (Output_String : ExecOutput -> string).
(** [testutils.LogStackFatal]: what it reports, whether the test ends there;
    and the package variable that switches it. *)
Context (LogStackFatal : list test_event * bool) (stackLogEnabled : bool).

Abbreviation P := (Process.P test_event hst).

(** ** Reporting *)

Definition Errorf (text : string) : P unit := put (TError text).
Definition Log (text : string) : P unit := put (TLog text).
Definition FailNow {A} : P A := pexit 1%Z.
Definition Fatal {A} (text : string) : P A := put (TError text) ;-- FailNow.

Definition logStack : P unit :=
  if stackLogEnabled then
    each (fst LogStackFatal) put ;-- (if snd LogStackFatal then FailNow else pret tt)
  else pret tt.

(** A call of the session. *)
Definition on_session {A} (m : M hst A) : P A := fun p =>
  match m (p_state p) with
  | Some (a, h) => Some (inl a, Proc h (p_trace p))
  | None => None
  end.

Definition is_error (e : option error) : bool := match e with Some _ => true | None => false end.

(** ** The checks *)

Section Checks.
Context (ctx : Context).

Definition ValidateExists (path : list string) (exp : bool) : P unit :=
  exist <-- on_session (Exists xml_config fuel term ctx path) ;;
  if bool_decide (exist <> exp) then
    Errorf ("Path [" +:+ Pathstr path +:+ "] existence not as expected; expected " +:+ bool_text exp) ;--
    logStack
  else pret tt.

Definition ValidateSetPath (path : list string) (exp : bool) : P unit :=
  err <-- on_session (ValidateSet xml_config fuel term ctx path) ;;
  if bool_decide (is_error err <> exp) then
    match err with
    | None => Errorf ("Unexpected validate set path result for path [" +:+ Pathstr path +:+ "]")
    | Some e => Errorf ("Unexpected validate set path result for path [" +:+ Pathstr path +:+ "]; " +:+ Error e)
    end ;--
    logStack
  else pret tt.

Definition ValidateSet (path : list string) (exp : bool) : P unit :=
  err <-- on_session (Set_ xml_config fuel term ctx path) ;;
  if bool_decide (is_error err <> exp) then
    match err with
    | None => Errorf ("Unexpected success from set path [" +:+ Pathstr path +:+ "]")
    | Some e => Errorf ("Unexpected error from set path [" +:+ Pathstr path +:+ "]; " +:+ Error e)
    end ;--
    logStack
  else if negb exp then ValidateExists path true else pret tt.

Definition validateShowInternal (path : list string) (hideSecrets : bool) (expectedExactCfgOrError : string)
    (showDefaults expectCfgPresent : bool) (expToContain : list string) : P unit :=
  r <-- on_session (Show xml_config fuel term ctx path hideSecrets showDefaults) ;;
  match snd r with
  | Some e =>
      let actualErr := Error e +:+ nl in
      (if bool_decide (expectedExactCfgOrError <> "") then
         if bool_decide (actualErr <> expectedExactCfgOrError) then
           Errorf (Sprintln ["Unexpected error showing exact error"]) ;--
           Log ("Received: " +:+ nl +:+ "---" +:+ nl +:+ actualErr +:+ "XXX" +:+ nl) ;--
           Log ("Expected: " +:+ nl +:+ "---" +:+ nl +:+ expectedExactCfgOrError +:+ "XXX" +:+ nl) ;--
           logStack
         else pret tt
       else pret tt) ;--
      each expToContain (fun exp =>
        if negb (Contains actualErr exp) then
          Errorf (Sprintln ["Unexpected error checking output content"]) ;--
          Log ("Full error:" +:+ nl +:+ "---" +:+ nl +:+ actualErr +:+ "XXX" +:+ nl) ;--
          Log ("Expected to contain:" +:+ nl +:+ "---" +:+ nl +:+ exp +:+ "XXX" +:+ nl) ;--
          logStack
        else pret tt)
  | None =>
      let cfg := fst r in
      if expectCfgPresent then
        if bool_decide (cfg <> expectedExactCfgOrError) then
          Errorf "Config mismatch" ;--
          Log ("Received:" +:+ nl +:+ cfg) ;--
          Log ("Expected:" +:+ nl +:+ expectedExactCfgOrError) ;--
          logStack
        else pret tt
      else
        if Contains cfg expectedExactCfgOrError then
          Errorf "Config present unexpectedly" ;--
          Log ("Received      :" +:+ nl +:+ cfg) ;--
          Log ("Did not expect:" +:+ nl +:+ expectedExactCfgOrError) ;--
          logStack
        else pret tt
  end.

Definition ValidateShowWithDefaults path hideSecrets expectedCfgOrError expectCfgPresent : P unit :=
  validateShowInternal path hideSecrets expectedCfgOrError true expectCfgPresent [].
Definition ValidateShow path hideSecrets expectedCfgOrError expectCfgPresent : P unit :=
  validateShowInternal path hideSecrets expectedCfgOrError false expectCfgPresent [].
Definition ValidateShowContains path hideSecrets expectCfgPresent expectedToContain : P unit :=
  validateShowInternal path hideSecrets "" false expectCfgPresent expectedToContain.

(** The text of [[]error] and of [[]*exec.Output]. *)
Definition errors_text (l : list error) : string := "[" +:+ Join (map Error l) " " +:+ "]".
Definition outputs_text (l : list ExecOutput) : string := "[" +:+ Join (map Output_String l) " " +:+ "]".

(** What the expected strings are looked for in. *)
Definition commit_output (expPass : bool) (r : commitresp) : string :=
  if expPass then String.concat "" (map Output_String (cr_out r))
  else String.concat "" (map (fun e => Error e +:+ nl) (cr_err r)).

Definition validateCommitInternal (debug cfgCheck expPass : bool) (expCfg : string)
    (expOutOrErr : list string) : P unit :=
  Log (Sprintln ["ValidateCommit"]) ;--
  r <-- on_session (Commit_ xml_config fuel term ctx "" debug) ;;
  if bool_decide (cr_ok r <> expPass) then
    if negb (cr_ok r) then
      Errorf (Sprintln ["Unexpected commit failure"]) ;-- Fatal (Sprintln [errors_text (cr_err r)])
    else
      Errorf (Sprintln ["Unexpected commit success"]) ;-- Fatal (Sprintln [outputs_text (cr_out r)])
  else
    (if expPass && cfgCheck then ValidateShow emptypath false expCfg true else pret tt) ;--
    each expOutOrErr (fun o =>
      let outStr := commit_output expPass r in
      let descStr := if expPass then "output" else "error" in
      if negb (Contains outStr o) then
        Errorf ("Unexpected " +:+ descStr +:+ " from commit") ;--
        Log ("Received: " +:+ nl +:+ outStr) ;--
        Log ("Expected to contain: " +:+ nl +:+ o) ;--
        logStack
      else pret tt).

(** The expected debug output is not looked at. *)
Definition ValidateCommitWithDebug (expPass : bool) (expCfg : string) (expOut : list string)
    (expDebug : string) : P unit :=
  validateCommitInternal CommitDebugOn CfgCheck expPass expCfg expOut.
Definition ValidateCommitMultipleOutput (expPass : bool) (expCfg : string) (expOut : list string) : P unit :=
  validateCommitInternal CommitDebugOff CfgCheck expPass expCfg expOut.
Definition ValidateCommit (expPass : bool) (expOut : list string) : P unit :=
  match expOut with
  | [] => validateCommitInternal CommitDebugOff NoCfgCheck expPass "" []
  | [cfg] => validateCommitInternal CommitDebugOff CfgCheck expPass cfg []
  | cfg :: rest => validateCommitInternal CommitDebugOff CfgCheck expPass cfg rest
  end.

Definition ValidateDelete (path : list string) (exp : bool) : P unit :=
  Log (Sprintln ["ValidateDelete"; SprintSlice path]) ;--
  err <-- on_session (Delete xml_config fuel term ctx path) ;;
  if bool_decide (is_error err <> exp) then
    match err with
    | None => Errorf ("Unexpected result from delete path [" +:+ Pathstr path +:+ "]")
    | Some e => Errorf ("Unexpedted result from delete path [" +:+ Pathstr path +:+ "]; " +:+ Error e)
    end ;--
    logStack
  else if negb exp then
    d <-- on_session (IsDefault xml_config fuel term ctx path) ;;
    match snd d with
    | Some e =>
        Errorf ("Unable to get default for path [" +:+ Pathstr path +:+ "]; " +:+ Error e) ;-- logStack
    | None => if negb (fst d) then ValidateExists path false else pret tt
    end
  else pret tt.

(** One turn of the loop over the table. *)
Definition operation (op : Operation) (path : list string) (result : bool) : P unit :=
  if bool_decide (op = SET) then ValidateSet path result
  else if bool_decide (op = SET_PATH) then ValidateSetPath path result
  else if bool_decide (op = SET_AND_COMMIT) then ValidateSet path false ;-- ValidateCommit result []
  else if bool_decide (op = DELETE) then ValidateDelete path result
  else if bool_decide (op = DELETE_AND_COMMIT) then ValidateDelete path false ;-- ValidateCommit result []
  else pret tt.
Definition entry_path (e : ValidateOpTbl) : list string :=
  if bool_decide (Value e <> "") then CopyAppend (Path e) (Value e) else Path e.
Definition ValidateOperationTable (tbl : list ValidateOpTbl) (op : Operation) : P unit :=
  each (imap pair tbl) (fun '(key, e) =>
    let desc := if bool_decide (Description e <> "") then Description e else "Table" in
    Log (desc +:+ ": index " +:+ Itoa (Z.of_nat key)) ;--
    operation op (entry_path e) (Result e)).
Definition ValidateSetPathTable tbl : P unit := ValidateOperationTable tbl SET_PATH.
Definition ValidateSetTable tbl : P unit := ValidateOperationTable tbl SET.
Definition ValidateDeleteTable tbl : P unit := ValidateOperationTable tbl DELETE.

Definition ValidateChanged (exp : bool) : P unit :=
  c <-- on_session (Changed xml_config fuel term ctx) ;;
  if bool_decide (c <> exp) then
    Errorf ("Session marked with incorrect changed state; expected " +:+ bool_text exp)
  else pret tt.

(** The two texts are the wrong way round. *)
Definition ValidateStatus (exp : ValidateStatusTbl) : P unit :=
  r <-- on_session (GetStatus xml_config fuel term ctx (st_Path exp)) ;;
  let '(status, err) := r in
  if bool_decide (is_error err <> st_Err exp) then
    match err with
    | None => Errorf ("Unexpected error from get status of  path [" +:+ Pathstr (st_Path exp) +:+ "]")
    | Some e => Errorf ("Unexpeced error from to get status of path [" +:+ Pathstr (st_Path exp) +:+ "]; " +:+ Error e)
    end ;--
    logStack
  else if bool_decide (status <> st_Status exp) then
    Errorf ("Unexpected status from path [" +:+ Pathstr (st_Path exp) +:+ "]") ;--
    Log ("Received: " +:+ NodeStatus_String status +:+ "(" +:+ Itoa status +:+ ")") ;--
    Log ("Expected: " +:+ NodeStatus_String (st_Status exp) +:+ "(" +:+ Itoa (st_Status exp) +:+ ")") ;--
    logStack
  else pret tt.

Definition ValidateSessOpOutput (exp : bool) (expOut : string) (op : SessOp) : P unit :=
  r <-- (if bool_decide (op = COMMIT_OP) then on_session (Commit_ xml_config fuel term ctx "" false)
         else if bool_decide (op = VALIDATE_OP) then on_session (Validate_ xml_config fuel term ctx)
         else pret (CommitResp [] [] false)) ;;
  if bool_decide (cr_ok r <> exp) then
    (if negb (cr_ok r) then
       Errorf ("Unexpected " +:+ SessOp_String op +:+ " failure") ;-- Log (Sprintln [errors_text (cr_err r)])
     else
       Errorf ("Unexpected " +:+ SessOp_String op +:+ " success") ;-- Log (Sprintln [outputs_text (cr_out r)])) ;--
    logStack
  else if exp then
    let outString := String.concat "" (map Output_String (cr_out r)) in
    if bool_decide (outString <> expOut) then
      Errorf ("Unexpected " +:+ SessOp_String op +:+ " output") ;--
      Log ("Expected: " +:+ expOut) ;--
      Fatal ("Received: " +:+ outString)
    else pret tt
  else pret tt.

(** ** What a check establishes

    [decides m S]: run without a failure before, [m] comes to its end without
    reporting one exactly when the session has gone from [h] to [h'] in the way
    [S] says. *)

Definition clean (p : proc test_event hst) : Prop := Forall (fun e => is_failure e = false) (p_trace p).
Definition spec := hst -> hst -> Prop.
Definition passes (m : P unit) (p : proc test_event hst) (h' : hst) : Prop :=
  exists q, m p = Some (inl tt, q) /\ clean q /\ p_state q = h'.
Definition decides (m : P unit) (S : spec) : Prop :=
  grows m /\ forall p h', clean p -> passes m p h' <-> S (p_state p) h'.

Fixpoint steps {A} (S : A -> spec) (l : list A) : spec :=
  match l with
  | [] => fun h h' => h' = h
  | x :: l' => fun h h'' => exists h', S x h h' /\ steps S l' h' h''
  end.
Definition same : spec := fun h h' => h' = h.
Definition never : spec := fun _ _ => False.
Definition answer {A} (m : M hst A) (S : A -> spec) : spec :=
  fun h h'' => exists a h', m h = Some (a, h') /\ S a h' h''.

Lemma grows_clean {A} (m : P A) p r q : grows m -> m p = Some (r, q) -> clean q -> clean p.
Proof. intros Hm Hr. destruct (Hm _ _ _ Hr) as [l Hl]. unfold clean. rewrite Hl. by intros [? _]%Forall_app. Qed.

Lemma decides_iff m S S' : (forall h h', S h h' <-> S' h h') -> decides m S -> decides m S'.
Proof. intros H [Hg Hd]. split; [done|]. intros p h' Hp. by rewrite Hd, H. Qed.

Lemma decides_ret : decides (pret tt) same.
Proof.
  split; [apply grows_ret|]. intros p h' Hp. unfold passes, same. split.
  - intros (q & [= <-] & _ & <-). done.
  - intros ->. by exists p.
Qed.

Lemma on_session_grows {A} (m : M hst A) : grows (on_session m).
Proof.
  intros p r q. unfold on_session. destruct (m (p_state p)) as [[a h]|]; [|done].
  intros [= <- <-]. exists []. by rewrite app_nil_r.
Qed.

Lemma decides_call {A} (m : M hst A) k S : (forall a, decides (k a) (S a)) ->
  decides (pbind (on_session m) k) (answer m S).
Proof.
  intros Hk. split; [apply grows_bind; [apply on_session_grows|intros a; apply Hk]|].
  intros p h'' Hp. unfold passes, answer, pbind, bind, on_session at 1.
  destruct (m (p_state p)) as [[a h]|] eqn:Em.
  - destruct (Hk a) as [_ Hd]. specialize (Hd (Proc h (p_trace p)) h'' Hp). unfold passes in Hd.
    rewrite Hd. cbn [p_state]. split; [by eauto|]. by intros (a' & h' & [= <- <-] & H).
  - split; [by intros (q & ? & _)|by intros (a & h' & ? & _)].
Qed.

Lemma decides_then m k S S' : decides m S -> decides k S' ->
  decides (m ;-- k) (fun h h'' => exists h', S h h' /\ S' h' h'').
Proof.
  intros [Gm Hm] [Gk Hk]. split; [by apply grows_bind|]. intros p h'' Hp. split.
  - intros (q & Hq & Hc & Hs). unfold pbind, bind in Hq.
    destruct (m p) as [[[[]|st] p1]|] eqn:E1; try done.
    assert (Hc1 : clean p1) by (by eapply grows_clean).
    exists (p_state p1). split; [apply Hm; [done|by exists p1]|apply Hk; [done|by exists q]].
  - intros (h' & H1 & H2). apply Hm in H1 as (p1 & E1 & Hc1 & <-); [|done].
    apply Hk in H2 as (q & Hq & Hc & Hs); [|done]. exists q. split; [|done].
    unfold pbind. by rewrite (bind_eq _ _ _ _ _ E1).
Qed.

(** A check that has reported is over. *)
Lemma Errorf_never text : decides (Errorf text) never.
Proof.
  split; [apply grows_put|]. intros p h' Hp. split; [|done]. intros (q & [= <-] & Hc & _).
  apply Forall_app in Hc as [_ Hc]. by apply Forall_cons in Hc as [Hc _].
Qed.
Lemma never_then m (k : P unit) : decides m never -> grows k -> decides (m ;-- k) never.
Proof.
  intros [Gm Hm] Gk. split; [by apply grows_bind|]. intros p h' Hp. split; [|done].
  intros (q & Hq & Hc & Hs). unfold pbind, bind in Hq.
  destruct (m p) as [[[[]|st] p1]|] eqn:E1; try done. eapply grows_clean in Hc; [|exact Gk|exact Hq].
  apply (Hm p (p_state p1) Hp). by exists p1.
Qed.

Lemma decides_log text k S : decides k S -> decides (Log text ;-- k) S.
Proof.
  intros [Hg Hk]. split; [apply grows_bind; [apply grows_put|done]|]. intros p h' Hp.
  rewrite <- (Hk (Proc (p_state p) (p_trace p ++ [TLog text])) h').
  - unfold passes, Log. by rewrite put_then.
  - apply Forall_app. split; [exact Hp|by repeat constructor].
Qed.

Lemma decides_when {b : bool} m k S S' : (b = true -> decides m S) -> (b = false -> decides k S') ->
  decides (if b then m else k) (if b then S else S').
Proof. intros Hm Hk. destruct b; [by apply Hm|by apply Hk]. Qed.

(** What is reported unless it holds. *)
Lemma decides_expect Q `{Decision Q} m k S : decides m never -> decides k S ->
  decides (if bool_decide (~ Q) then m else k) (fun h h' => Q /\ S h h').
Proof.
  intros Hm Hk. destruct (decide Q) as [Hq|Hq].
  - rewrite bool_decide_false by tauto. eapply decides_iff; [|exact Hk]. tauto.
  - rewrite bool_decide_true by done. eapply decides_iff; [|exact Hm]. unfold never. tauto.
Qed.
Lemma decides_expect_b (b : bool) m k S : decides m never -> decides k S ->
  decides (if negb b then m else k) (fun h h' => b = true /\ S h h').
Proof.
  intros Hm Hk. destruct b; cbn; [eapply decides_iff; [|exact Hk]; tauto|].
  eapply decides_iff; [|exact Hm]. unfold never. intros h h'. split; [done|by intros []].
Qed.

Lemma decides_refuse {A} (o : option A) m k S : (forall e, decides (m e) never) -> decides k S ->
  decides (match o with Some e => m e | None => k end) (fun h h' => o = None /\ S h h').
Proof.
  intros Hm Hk. destruct o as [e|].
  - eapply decides_iff; [|exact (Hm e)]. unfold never. intros h h'. split; [done|by intros []].
  - eapply decides_iff; [|exact Hk]. tauto.
Qed.

Lemma decides_each {A} (l : list A) f S : (forall x, decides (f x) (S x)) -> decides (each l f) (steps S l).
Proof.
  intros Hf. induction l as [|x l IH]; cbn [each steps].
  - exact decides_ret.
  - exact (decides_then _ _ _ _ (Hf x) IH).
Qed.

Lemma logStack_grows : grows logStack.
Proof. unfold logStack, FailNow. repeat grows_step. Qed.
Lemma Log_grows text : grows (Log text). Proof. apply grows_put. Qed.
Lemma Fatal_grows text : grows (Fatal text : P unit). Proof. unfold Fatal, FailNow. repeat grows_step. Qed.

Ltac check_step :=
  match goal with
  | |- decides (Errorf _) never => apply Errorf_never
  | |- decides (pbind _ _) never => apply never_then
  | |- decides (if ?b then _ else _) never => destruct b
  | |- decides (match ?x with _ => _ end) never => destruct x
  | |- grows logStack => apply logStack_grows
  | |- grows (Log _) => apply Log_grows
  | |- grows (Fatal _) => apply Fatal_grows
  | |- grows _ => grows_step
  | |- decides (let _ := _ in _) _ => cbv zeta
  | |- decides (pret tt) _ => apply decides_ret
  | |- decides (pbind (Log _) _) _ => apply decides_log
  | |- decides (pbind (on_session _) _) _ => apply decides_call; intros ?
  | |- decides (if bool_decide (~ _) then _ else _) _ => apply decides_expect
  | |- decides (if negb (Contains _ _) then _ else pret tt) _ => apply decides_expect_b
  | |- decides (match snd _ with Some _ => _ | None => _ end) _ => apply decides_refuse; intros
  | |- decides (if _ then _ else _) _ => apply decides_when; intros _
  | |- decides (each _ _) _ => apply decides_each; intros ?
  end.

(** *** The checks, in terms of the session *)

Definition exists_ok (path : list string) (exp : bool) : spec :=
  fun h h' => Exists xml_config fuel term ctx path h = Some (exp, h').
Definition set_path_ok (path : list string) (exp : bool) : spec := fun h h' =>
  exists err, SessionApi.ValidateSet xml_config fuel term ctx path h = Some (err, h') /\ is_error err = exp.
(** The error is as expected, and what was set is there. *)
Definition set_ok (path : list string) (exp : bool) : spec := fun h h'' =>
  exists err h', Set_ xml_config fuel term ctx path h = Some (err, h') /\ is_error err = exp /\
    if exp then h'' = h' else exists_ok path true h' h''.
(** What was deleted is gone, unless it is there by default. *)
Definition delete_ok (path : list string) (exp : bool) : spec := fun h h3 =>
  exists err h1, Delete xml_config fuel term ctx path h = Some (err, h1) /\ is_error err = exp /\
    if exp then h3 = h1
    else exists (def : bool) h2, IsDefault xml_config fuel term ctx path h1 = Some ((def, None), h2) /\
      if def then h3 = h2 else exists_ok path false h2 h3.
Definition show_ok (path : list string) (hide : bool) (exact : string) (defaults present : bool)
    (contain : list string) : spec := fun h h' =>
  exists cfg err, Show xml_config fuel term ctx path hide defaults h = Some ((cfg, err), h') /\
    match err with
    | Some e => (exact <> "" -> Error e +:+ nl = exact) /\
        forall o, o ∈ contain -> Contains (Error e +:+ nl) o = true
    | None => if present then cfg = exact else Contains cfg exact = false
    end.
Definition commit_ok (debug cfgCheck expPass : bool) (expCfg : string) (outs : list string) : spec :=
  fun h h'' =>
  exists r h', Commit_ xml_config fuel term ctx "" debug h = Some (r, h') /\ cr_ok r = expPass /\
    (if expPass && cfgCheck then show_ok emptypath false expCfg false true [] h' h'' else h'' = h') /\
    forall o, o ∈ outs -> Contains (commit_output expPass r) o = true.

(** Rearranging what was said of the calls. *)
Ltac by_cases_of_spec :=
  unfold answer, same, never; intros h h'; split; naive_solver.

Lemma ValidateExists_decides path exp : decides (ValidateExists path exp) (exists_ok path exp).
Proof.
  eapply decides_iff; [|unfold ValidateExists; repeat check_step].
  unfold exists_ok. by_cases_of_spec.
Qed.
Lemma ValidateSetPath_decides path exp : decides (ValidateSetPath path exp) (set_path_ok path exp).
Proof.
  eapply decides_iff; [|unfold ValidateSetPath; repeat check_step].
  unfold set_path_ok. by_cases_of_spec.
Qed.
Lemma ValidateSet_decides path exp : decides (ValidateSet path exp) (set_ok path exp).
Proof.
  eapply decides_iff; [|unfold ValidateSet; repeat first [apply ValidateExists_decides | check_step]].
  unfold set_ok. destruct exp; by_cases_of_spec.
Qed.
Lemma ValidateDelete_decides path exp : decides (ValidateDelete path exp) (delete_ok path exp).
Proof.
  eapply decides_iff; [|unfold ValidateDelete; repeat first [apply ValidateExists_decides | check_step]].
  unfold delete_ok. destruct exp; [by_cases_of_spec|]. unfold answer. cbn [negb]. intros h h'. split.
  - intros (err & h1 & Hm & He & [def ?] & h2 & Hd & Hn & Hr). cbn [fst snd] in *. subst.
    exists err, h1. split_and!; [done..|]. exists def, h2. split; [done|]. by destruct def.
  - intros (err & h1 & Hm & He & def & h2 & Hd & Hr). exists err, h1. split_and!; [done..|].
    exists (def, None), h2. split_and!; [done..|]. by destruct def.
Qed.
Lemma steps_all {A} (Q : A -> Prop) l h h' :
  steps (fun x h h' => Q x /\ same h h') l h h' <-> (forall x, x ∈ l -> Q x) /\ h' = h.
Proof.
  revert h. induction l as [|x l IH]; intros h; cbn [steps].
  - split; [intros ->; split; [intros x Hx; by apply not_elem_of_nil in Hx|done]|by intros [_ ->]].
  - setoid_rewrite IH. unfold same. setoid_rewrite elem_of_cons. naive_solver.
Qed.

Lemma validateShowInternal_decides path hide exact defaults present contain :
  decides (validateShowInternal path hide exact defaults present contain)
    (show_ok path hide exact defaults present contain).
Proof.
  eapply decides_iff; [|unfold validateShowInternal; apply decides_call; intros r;
    instantiate (1 := fun r h h' => match snd r with
      | Some e => ((exact <> "" -> Error e +:+ nl = exact) /\
          forall o, o ∈ contain -> Contains (Error e +:+ nl) o = true) /\ h' = h
      | None => (if present then fst r = exact else Contains (fst r) exact = false) /\ h' = h end); cbv beta].
  - intros h h'. unfold answer, show_ok. split.
    + intros ([cfg [e|]] & h1 & Hm & Hc & ->); exists cfg; [exists (Some e)|exists None]; done.
    + intros (cfg & err & Hm & Hc). exists (cfg, err), h'. split; [done|]. by destruct err.
  - destruct (snd r) as [e|].
    + cbv zeta. eapply decides_iff; [|apply decides_then; [apply decides_when; intros _|]; repeat check_step].
      cbv beta. setoid_rewrite steps_all. unfold same. intros h h'.
      destruct (decide (exact = "")); [rewrite bool_decide_false by tauto|rewrite bool_decide_true by done];
        naive_solver.
    + cbv zeta. destruct present.
      * eapply decides_iff; [|repeat check_step]. unfold same. intros h h'. cbv beta. tauto.
      * destruct (Contains _ _).
        -- apply (decides_iff _ never); [|repeat check_step]. unfold never. intros h h'. cbv beta. by split; [|intros []].
        -- eapply decides_iff; [|apply decides_ret]. unfold same. intros h h'. cbv beta. tauto.
Qed.

Lemma validateCommitInternal_decides debug cfgCheck expPass expCfg outs :
  decides (validateCommitInternal debug cfgCheck expPass expCfg outs)
    (commit_ok debug cfgCheck expPass expCfg outs).
Proof.
  eapply decides_iff; [|unfold validateCommitInternal, ValidateShow; apply decides_log, decides_call; intros r;
    apply decides_expect; [repeat check_step|
      apply decides_then; [apply decides_when; intros _; [apply validateShowInternal_decides|apply decides_ret]|
      repeat check_step]]].
  unfold answer. cbv beta. setoid_rewrite steps_all. unfold commit_ok, same. intros h h''.
  split.
  - intros (r & h' & Hm & Ho & h2 & Hs & Hc & ->). exists r, h'. split_and!; try done.
    by destruct (expPass && cfgCheck).
  - intros (r & h' & Hm & Ho & Hs & Hc). exists r, h'. split_and!; [done..|]. exists h''.
    split; [|done]. by destruct (expPass && cfgCheck).
Qed.

Lemma ValidateCommit_decides expPass expOut : decides (ValidateCommit expPass expOut)
  (commit_ok false (bool_decide (expOut <> [])) expPass (hd "" expOut) (tail expOut)).
Proof. destruct expOut as [|cfg [|o l]]; apply validateCommitInternal_decides. Qed.

(** One row of a table. *)
Definition operation_ok (op : Operation) (path : list string) (result : bool) : spec := fun h h'' =>
  if bool_decide (op = SET) then set_ok path result h h''
  else if bool_decide (op = SET_PATH) then set_path_ok path result h h''
  else if bool_decide (op = SET_AND_COMMIT) then
    exists h', set_ok path false h h' /\ commit_ok false false result "" [] h' h''
  else if bool_decide (op = DELETE) then delete_ok path result h h''
  else if bool_decide (op = DELETE_AND_COMMIT) then
    exists h', delete_ok path false h h' /\ commit_ok false false result "" [] h' h''
  else h'' = h.

Lemma operation_decides op path result : decides (operation op path result) (operation_ok op path result).
Proof.
  unfold operation, operation_ok.
  repeat case_bool_decide; first
    [ apply ValidateSet_decides | apply ValidateSetPath_decides | apply ValidateDelete_decides
    | apply decides_ret
    | apply decides_then; [first [apply ValidateSet_decides | apply ValidateDelete_decides]
                          |apply (ValidateCommit_decides result [])] ].
Qed.

Lemma steps_imap {A} (S : A -> spec) l : forall f h h', (forall k x, snd (f k x) = x) ->
  steps (fun e : nat * A => S (snd e)) (imap f l) h h' <-> steps S l h h'.
Proof.
  induction l as [|x l IH]; intros f h h' Hf; [done|]. cbn [imap steps]. rewrite Hf.
  setoid_rewrite IH; [done|]. intros k y. apply Hf.
Qed.

(** A table of operations passes exactly when every one of them, in the
    order of the table, has done to the session what its row says: the call gave
    an error or not as expected, what was set is there and what was deleted is
    gone, the commit came out as expected. *)
Theorem table_passes tbl op p h' : clean p ->
  passes (ValidateOperationTable tbl op) p h' <->
  steps (fun e => operation_ok op (entry_path e) (Result e)) tbl (p_state p) h'.
Proof.
  intros Hp. unfold ValidateOperationTable.
  assert (Hd : forall rows, decides (each rows (fun '(key, e) =>
      let desc := if bool_decide (Description e <> "") then Description e else "Table" in
      Log (desc +:+ ": index " +:+ Itoa (Z.of_nat key)) ;--
      operation op (entry_path e) (Result e)))
    (steps (fun e => operation_ok op (entry_path (snd e)) (Result (snd e))) rows)).
  { intros rows. apply decides_each. intros [key e]. cbv zeta. apply decides_log, operation_decides. }
  rewrite (proj2 (Hd _) p h' Hp).
  by apply (steps_imap (fun e => operation_ok op (entry_path e) (Result e))).
Qed.

(** [ValidateShowContains] compares what is shown with nothing: what it should
    contain is only looked at when there is an error. *)
Theorem show_contains_blind path hide present wanted p cfg h' : clean p ->
  Show xml_config fuel term ctx path hide false (p_state p) = Some ((cfg, None), h') ->
  passes (ValidateShowContains path hide present wanted) p h' <-> present = true /\ cfg = "".
Proof.
  intros Hp Hs. unfold ValidateShowContains.
  rewrite (proj2 (validateShowInternal_decides path hide "" false present wanted) p h' Hp).
  unfold show_ok. rewrite Hs. split.
  - intros (c & e & [= <- <-] & H0). destruct present; [done|]. by destruct cfg.
  - intros [-> ->]. by exists "", None.
Qed.

Lemma ValidateChanged_decides exp : decides (ValidateChanged exp)
  (fun h h' => Changed xml_config fuel term ctx h = Some (exp, h')).
Proof.
  eapply decides_iff; [|unfold ValidateChanged; repeat check_step]. by_cases_of_spec.
Qed.

Lemma ValidateStatus_decides exp : decides (ValidateStatus exp) (fun h h' => exists err,
  GetStatus xml_config fuel term ctx (st_Path exp) h = Some ((st_Status exp, err), h') /\ is_error err = st_Err exp).
Proof.
  eapply decides_iff; [|unfold ValidateStatus; apply decides_call; intros [status err]; 
    instantiate (1 := fun r h h' => is_error (snd r) = st_Err exp /\ fst r = st_Status exp /\ same h h');
    repeat check_step].
  unfold answer, same. intros h h'. split.
  - intros ([status err] & h1 & Hm & He & Hs & ->). cbn in *. subst. by exists err.
  - intros (err & Hm & He). by exists (st_Status exp, err), h'.
Qed.

Lemma ValidateSessOpOutput_decides exp expOut :
  decides (ValidateSessOpOutput exp expOut COMMIT_OP) (fun h h' => exists r,
    Commit_ xml_config fuel term ctx "" false h = Some (r, h') /\ cr_ok r = exp /\
    (exp = true -> String.concat "" (map Output_String (cr_out r)) = expOut)) /\
  decides (ValidateSessOpOutput exp expOut VALIDATE_OP) (fun h h' => exists r,
    Validate_ xml_config fuel term ctx h = Some (r, h') /\ cr_ok r = exp /\
    (exp = true -> String.concat "" (map Output_String (cr_out r)) = expOut)).
Proof.
  split; unfold ValidateSessOpOutput;
    [rewrite bool_decide_true by done|rewrite bool_decide_false, bool_decide_true by done];
    (eapply decides_iff; [|repeat check_step]); unfold answer, same; intros h h'; destruct exp; naive_solver.
Qed.
End Checks.
End Validate.

(** ** At the sample configuration *)

Module SampleChecks.
Import Sample.
Abbreviation user := (Sample.client 10 1000 Sample.allow).
Definition row (desc : string) (path : list string) (value : string) (fails : bool) : ValidateOpTbl :=
  NewValOpTblEntry desc path value fails.
(** Two that can be set, one that cannot. *)
Definition table : list ValidateOpTbl :=
  [row "service" ["service"] "" false; row "" ["system"; "host-name"] "x" false;
   row "unknown" ["nowhere"] "" true].
Abbreviation check := (ValidateOperationTable (SL := SampleState.statelib) (CL := SampleCommit.commitlib)
  (E := SampleFormat.errors) SampleEdit.xml 3 false eo_Output ([], true) true user).
Definition before : hst := Hst (sample_world 10) [].
Definition after : hst :=
  match check table SET (start before) with Some (_, q) => p_state q | None => before end.
Abbreviation row_ok := (operation_ok (SL := SampleState.statelib) (CL := SampleCommit.commitlib)
  (E := SampleFormat.errors) SampleEdit.xml 3 false eo_Output user SET).

Lemma table_passes_witness :
  clean (start before) /\ steps (fun e => row_ok (entry_path e) (Result e)) table before after.
Proof.
  split; [constructor|].
  apply (table_passes (SL := SampleState.statelib) (CL := SampleCommit.commitlib)
    (E := SampleFormat.errors) SampleEdit.xml 3 false eo_Output ([], true) true user table SET
    (start before) after); [constructor|].
  destruct (check table SET (start before)) as [[r q]|] eqn:Ec; vm_compute in Ec; [|discriminate].
  injection Ec as <- <-. eexists. split; [vm_compute; reflexivity|]. split; [repeat constructor|].
  vm_compute. reflexivity.
Defined.

(** The same table deleted: what is still there is reported, and the test ends. *)
Lemma delete_reported : exists q, check table DELETE (start before) = Some (inr 1%Z, q) /\ ~ clean q.
Proof.
  destruct (check table DELETE (start before)) as [[r q]|] eqn:Ec; vm_compute in Ec; [|discriminate].
  injection Ec as <- <-. eexists. split; [reflexivity|]. intros H.
  repeat (apply Forall_cons in H as [? H]; try discriminate).
Qed.
End SampleChecks.
