(* ===== verification/TestSpec.v ===== *)
(** [session/sessiontest/sessiontest.go]: what the test suites run against.  A
    test is specified step by step ([TestSpec]), its YANG modules are built from
    snippets, and [Init] makes the sessions a server would have and one more to
    test with. *)

From S2P Require Import Prelude GoLib Errors Rpc GoFmt External Configd LogLevel Sample Session.
From S2P Require Import StateTree Load EditConfig Commit SessionServer SessionApi SessionMgr Service.
From S2P Require Import Daemon Progress CliFormat Components Process Checks.

Open Scope go_scope.

(** For some operations [false] is a pass, for others [true]. *)
Definition SetPass : bool := false.
Definition SetFail : bool := true.
Definition CommitPass : bool := true.
Definition CommitFail : bool := false.
Definition NotConfigdUser : bool := false.
Definition ConfigdUser : bool := true.
Definition NotInSecretsGroup : bool := false.
Definition IsInSecretsGroup : bool := true.

(** ** YANG modules from snippets *)

Record NameDef := { Namespace : string; Prefix : string }.
Definition no_name : NameDef := {| Namespace := ""; Prefix := "" |}.
(** [Prefix] of the module itself is in its name; the field is not used. *)
Record TestSchema := {
  ts_Name : NameDef;
  ts_Imports : list NameDef;
  ts_Includes : list string;
  ts_BelongsTo : NameDef;
  ts_SchemaSnippet : string
}.

Definition NewTestSchema (namespace prefix : string) : TestSchema :=
  {| ts_Name := {| Namespace := namespace; Prefix := prefix |}; ts_Imports := []; ts_Includes := [];
     ts_BelongsTo := no_name; ts_SchemaSnippet := "" |}.
Definition AddInclude (ts : TestSchema) (module : string) : TestSchema :=
  {| ts_Name := ts_Name ts; ts_Imports := ts_Imports ts; ts_Includes := ts_Includes ts ++ [module];
     ts_BelongsTo := ts_BelongsTo ts; ts_SchemaSnippet := ts_SchemaSnippet ts |}.
Definition AddBelongsTo (ts : TestSchema) (namespace prefix : string) : TestSchema :=
  {| ts_Name := ts_Name ts; ts_Imports := ts_Imports ts; ts_Includes := ts_Includes ts;
     ts_BelongsTo := {| Namespace := namespace; Prefix := prefix |}; ts_SchemaSnippet := ts_SchemaSnippet ts |}.
Definition AddImport (ts : TestSchema) (namespace prefix : string) : TestSchema :=
  {| ts_Name := ts_Name ts; ts_Imports := ts_Imports ts ++ [{| Namespace := namespace; Prefix := prefix |}];
     ts_Includes := ts_Includes ts; ts_BelongsTo := ts_BelongsTo ts; ts_SchemaSnippet := ts_SchemaSnippet ts |}.
Definition AddSchemaSnippet (ts : TestSchema) (snippet : string) : TestSchema :=
  {| ts_Name := ts_Name ts; ts_Imports := ts_Imports ts; ts_Includes := ts_Includes ts;
     ts_BelongsTo := ts_BelongsTo ts; ts_SchemaSnippet := snippet |}.

Definition tab : string := String (ascii_of_nat 9) "".
Definition dq (s : string) : string :=
  String (ascii_of_nat 34) "" +:+ s +:+ String (ascii_of_nat 34) "".
Definition lines (l : list string) : string := String.concat "" (map (fun s => s +:+ nl) l).

(** What every module says of itself. *)
Definition boilerplate (snippet : string) : list string :=
  [tab +:+ "organization " +:+ dq "Brocade Communications Systems, Inc." +:+ ";";
   tab +:+ "contact";
   tab +:+ tab +:+ String (ascii_of_nat 34) "Brocade Communications Systems, Inc.";
   tab +:+ tab +:+ " Postal: 130 Holger Way";
   tab +:+ tab +:+ "         San Jose, CA 95134";
   tab +:+ tab +:+ " E-mail: support@Brocade.com";
   tab +:+ tab +:+ " Web: www.brocade.com" +:+ String (ascii_of_nat 34) ";";
   tab +:+ "revision 2014-12-29 {";
   tab +:+ tab +:+ "description " +:+ dq "Test schema for configd" +:+ ";";
   tab +:+ "}";
   tab +:+ snippet;
   "}"].
(** The templates, with the operands of [Sprintf] in their places. *)
Definition schemaTemplate (snippet : string) : string :=
  nl +:+ lines (["module test-configd-session {";
    tab +:+ "namespace " +:+ dq "urn:vyatta.com:test:configd-session" +:+ ";";
    tab +:+ "prefix test;"] ++ boilerplate snippet).
Definition schemaImportTemplate (module prefix : string) : string :=
  nl +:+ lines [tab +:+ "import " +:+ module +:+ " {"; tab +:+ "    prefix " +:+ prefix +:+ ";"; "    }"].
Definition schemaIncludeTemplate (module : string) : string :=
  nl +:+ lines [tab +:+ "include " +:+ module +:+ ";"].
Definition schemaModuleTemplate (module namespace prefix imports includes snippet : string) : string :=
  nl +:+ lines (["module " +:+ module +:+ " {";
    tab +:+ "namespace " +:+ dq ("urn:vyatta.com:test:" +:+ namespace) +:+ ";";
    tab +:+ "prefix " +:+ prefix +:+ ";";
    "    " +:+ imports; "    " +:+ includes] ++ boilerplate snippet).
Definition schemaSubmoduleTemplate (module parent prefix includes snippet : string) : string :=
  nl +:+ lines ["submodule " +:+ module +:+ " {"; tab +:+ "belongs-to " +:+ parent +:+ " {";
    tab +:+ tab +:+ "prefix " +:+ prefix +:+ ";"; tab +:+ "}"; tab +:+ includes; tab +:+ snippet; "}"].

(** A submodule gets no imports. *)
Definition constructSchema (d : TestSchema) : string :=
  let includeStr := fold_left (fun s inc => s +:+ schemaIncludeTemplate inc) (ts_Includes d) "" in
  if bool_decide (Namespace (ts_BelongsTo d) <> "") then
    schemaSubmoduleTemplate (Namespace (ts_Name d)) (Namespace (ts_BelongsTo d)) (Prefix (ts_BelongsTo d))
      includeStr (ts_SchemaSnippet d)
  else
    let importStr := fold_left (fun s imp => s +:+ schemaImportTemplate (Namespace imp) (Prefix imp))
                       (ts_Imports d) "" in
    schemaModuleTemplate (Namespace (ts_Name d)) (Namespace (ts_Name d)) (Prefix (ts_Name d))
      importStr includeStr (ts_SchemaSnippet d).

(** ** The specification of a test *)

(** schema.TestCompMgr: a component manager that logs what it is asked. *)
Class TestComponents `{ConfigLib} := {
  TestCompMgr : Type;
  ComponentNSMappings : Type;
  (** the error is not looked at *)
  CreateComponentNSMappings : ModelSet -> string -> list ServiceConfig -> ComponentNSMappings;
  NewTestCompMgr : ModelSet -> ComponentNSMappings -> TestCompMgr;
  ClearLogEntries : TestCompMgr -> TestCompMgr;
  SetCurrentState_mgr : TestCompMgr -> string -> string -> TestCompMgr;
  TestLogEntry : Type;
  (** what it reports to the test *)
  CheckLogEntries : TestCompMgr -> string -> list TestLogEntry -> string -> list test_event
}.

(** What the tests ask of the machine and of the libraries around the tests. *)
Class TestHost `{ConfigLib} := {
  (** testutils.NewModelSetSpec: schemas, or a directory, and capabilities *)
  GenerateModelSets : list string -> string -> string -> (ModelSet * ModelSet) + error;
  ParseConfiguration : string -> ServiceConfig + error;
  (** the file of a component named dummy with the base model *)
  dummyTestComp : string;
  (** user.Current: name, home, uid *)
  user_Current : (string * string * string) + error;
  (** the authorisation of [auth.NewAuth] for a user *)
  default_auth : string -> Auth;
  TempFile : string + error;
  WriteTemp : string -> string -> option error
}.

Record TestSpec `{TestComponents} := {
  singleSchema : string;
  schemaDir : string;
  schemaDefs : option (list TestSchema);      (** nil, or the slice *)
  t_config : string;
  t_capabilities : string;
  t_components : list string;
  t_compMgr : option TestCompMgr;
  auther : option Auth;
  isConfigdUser : bool;
  inSecretsGroup : bool;
  modelSetName : string;
  schemas : list string;
  capsDir : string                            (** nothing sets it *)
}.

Record TstSrv `{ConfigLib} := {
  srv_Ms : ModelSet;
  srv_MsFull : ModelSet;
  srv_sessions : daemon;                      (** [Smgr], [Cmgr] *)
  srv_Ctx : Context;
  srv_username : string;
  srv_capsdir : string
}.

Section Spec.
Context {L : ConfigLib} {SL : StateLib} {CL : CommitLib} {E : ErrorLib} {TC : TestComponents} {TH : TestHost}.
Context (xml_config : string -> list xml_elem + error) (fuel : nat).

Abbreviation P := (Process.P test_event TestSpec).

Definition Fatalf {A} (text : string) : P A := put (TError text) ;-- pexit 1%Z.

(** Tests hang without a newline at the end. *)
Definition NewTestSpec : TestSpec :=
  {| singleSchema := ""; schemaDir := ""; schemaDefs := None; t_config := nl; t_capabilities := "";
     t_components := []; t_compMgr := None; auther := None; isConfigdUser := ConfigdUser;
     inSecretsGroup := NotInSecretsGroup; modelSetName := ""; schemas := []; capsDir := "" |}.

Definition with_source (single dir : string) (defs : option (list TestSchema)) (ts : TestSpec) : TestSpec :=
  {| singleSchema := single; schemaDir := dir; schemaDefs := defs; t_config := t_config ts;
     t_capabilities := t_capabilities ts; t_components := t_components ts; t_compMgr := t_compMgr ts;
     auther := auther ts; isConfigdUser := isConfigdUser ts; inSecretsGroup := inSecretsGroup ts;
     modelSetName := modelSetName ts; schemas := schemas ts; capsDir := capsDir ts |}.
Definition with_run (config caps msName : string) (comps : list string) (mgr : option TestCompMgr)
    (a : option Auth) (isConfigd inSecrets : bool) (l : list string) (ts : TestSpec) : TestSpec :=
  {| singleSchema := singleSchema ts; schemaDir := schemaDir ts; schemaDefs := schemaDefs ts;
     t_config := config; t_capabilities := caps; t_components := comps; t_compMgr := mgr; auther := a;
     isConfigdUser := isConfigd; inSecretsGroup := inSecrets; modelSetName := msName; schemas := l;
     capsDir := capsDir ts |}.

Definition SetConfig (config : string) : P unit := change (fun ts =>
  with_run (config +:+ nl) (t_capabilities ts) (modelSetName ts) (t_components ts) (t_compMgr ts) (auther ts)
    (isConfigdUser ts) (inSecretsGroup ts) (schemas ts) ts).
Definition SetCapabilities (caps : string) : P unit := change (fun ts =>
  with_run (t_config ts) caps (modelSetName ts) (t_components ts) (t_compMgr ts) (auther ts)
    (isConfigdUser ts) (inSecretsGroup ts) (schemas ts) ts).
Definition SetComponents (msName : string) (comps : list string) : P unit := change (fun ts =>
  with_run (t_config ts) (t_capabilities ts) msName comps (t_compMgr ts) (auther ts)
    (isConfigdUser ts) (inSecretsGroup ts) (schemas ts) ts).
Definition SetAuther (a : option Auth) (isConfigd inSecrets : bool) : P unit := change (fun ts =>
  with_run (t_config ts) (t_capabilities ts) (modelSetName ts) (t_components ts) (t_compMgr ts) a
    isConfigd inSecrets (schemas ts) ts).
Definition set_compMgr (mgr : TestCompMgr) : P unit := change (fun ts =>
  with_run (t_config ts) (t_capabilities ts) (modelSetName ts) (t_components ts) (Some mgr) (auther ts)
    (isConfigdUser ts) (inSecretsGroup ts) (schemas ts) ts).
Definition set_schemas (l : list string) : P unit := change (fun ts =>
  with_run (t_config ts) (t_capabilities ts) (modelSetName ts) (t_components ts) (t_compMgr ts) (auther ts)
    (isConfigdUser ts) (inSecretsGroup ts) l ts).

Definition is_nil {A} (l : option A) : bool := match l with None => true | Some _ => false end.

Definition SetSingleSchema (single : string) : P unit :=
  ts <-- look id ;;
  if bool_decide (schemaDir ts <> "") || negb (is_nil (schemaDefs ts)) then
    Fatalf ("Can't set single schema - schema already set." +:+ nl)
  else change (with_source single (schemaDir ts) (schemaDefs ts)).
Definition SetSchemaDir (dir : string) : P unit :=
  ts <-- look id ;;
  if bool_decide (singleSchema ts <> "") || negb (is_nil (schemaDefs ts)) then
    Fatalf ("Can't set schema dir - schema already set." +:+ nl)
  else change (with_source (singleSchema ts) dir (schemaDefs ts)).
Definition SetSchemaDefs (defs : option (list TestSchema)) : P unit :=
  ts <-- look id ;;
  if bool_decide (schemaDir ts <> "") || bool_decide (singleSchema ts <> "") then
    Fatalf ("Can't set schemaDefs - schema already set." +:+ nl)
  else change (with_source (singleSchema ts) (schemaDir ts) defs).
(** [append]: nothing appended to nil is nil. *)
Definition SetSchemaDefsByRef (defs : list TestSchema) : P unit :=
  ts <-- look id ;;
  if bool_decide (schemaDir ts <> "") || bool_decide (singleSchema ts <> "") then
    Fatalf ("Can't set schemaDefs - schema already set." +:+ nl)
  else
    change (with_source (singleSchema ts) (schemaDir ts)
      (match defs with [] => schemaDefs ts | _ => Some (default [] (schemaDefs ts) ++ defs) end)).

Definition checkAndProcessSchemas : P unit :=
  ts <-- look id ;;
  if bool_decide (singleSchema ts <> "") then set_schemas (schemas ts ++ [schemaTemplate (singleSchema ts)])
  else match schemaDefs ts with
       | Some defs => set_schemas (map constructSchema defs)
       | None => pret tt
       end.

Definition generateModelSets : P ((ModelSet * ModelSet) + error) :=
  checkAndProcessSchemas ;--
  ts <-- look id ;;
  pret (GenerateModelSets (schemas ts) (schemaDir ts) (t_capabilities ts)).

Fixpoint getComponentConfigs (files : list string) : P (list ServiceConfig) :=
  match files with
  | [] => pret []
  | file :: files' =>
      match ParseConfiguration file with
      | inr e => Fatalf ("Unexpected component config parse failure:" +:+ nl +:+ "  " +:+ Error e +:+ nl +:+ nl)
      | inl cfg => cfgs <-- getComponentConfigs files' ;; pret (cfg :: cfgs)
      end
  end.

(** [tstInit]: the sessions of a server over the configuration given. *)
Definition tst_config (capDir : string) : Config := {|
  cf_User := ""; cf_Runfile := "session_test.runfile"; cf_Logfile := ""; cf_Pidfile := "";
  cf_Yangdir := "../../yang"; cf_Socket := ""; cf_SecretsGroup := ""; cf_SuperGroup := "";
  cf_Capabilities := capDir |}.
Definition tst_context (username home : string) (uid : Z) (capDir : string) (a : Auth)
    (isConfigd inSecrets : bool) : Context := {|
  Configd := isConfigd; cx_Auth := a; Pid := SYSTEM; Uid := uid mod 2 ^ 32; User := username;
  UserHome := home; Groups := if inSecrets then [cf_SecretsGroup (tst_config capDir)] else [];
  Superuser := false; cx_Config := tst_config capDir; Noexec := false |}.
Definition no_sessions (rt : data) (ms : ModelSet) (log : Settings) (rodisk : bool) : daemon :=
  Daemon ∅ (CMgr rt None ms false false) log rodisk [].

Definition tstInit (ms msFull : ModelSet) (config capDir : string) (a : option Auth)
    (isConfigd inSecrets : bool) (log : Settings) (rodisk : bool) : TstSrv + error :=
  match load_Load "config" (Some config) ms with
  | (inr e, _) => inr e
  | (inl _, e :: es) => inr (EGo ("Unable to set the following path(s):" +:+ nl
                                  +:+ errors_text (e :: es) +:+ nl))
  | (inl rt, []) =>
      match user_Current with
      | inr e => inr e
      | inl (username, home, uid_text) =>
          match Atoi uid_text with
          | None => inr (EGo ("strconv.Atoi: parsing " +:+ dq uid_text +:+ ": invalid syntax"))
          | Some uid =>
              let ctx := tst_context username home uid capDir (default (default_auth username) a)
                           isConfigd inSecrets in
              inl {| srv_Ms := ms; srv_MsFull := msFull;
                     srv_sessions := start_sessions ctx ms msFull (no_sessions rt ms log rodisk);
                     srv_Ctx := ctx; srv_username := username; srv_capsdir := capDir |}
          end
      end
  end.

(** The session under test is not in the table of the server's. *)
Definition test_world (srv : TstSrv) : world :=
  world_of (NewSession "TEST" (srv_Ms srv) (srv_MsFull srv) None) (srv_sessions srv).

Definition Init (log : Settings) (rodisk : bool) : P (TstSrv * hst) :=
  r <-- generateModelSets ;;
  match r with
  | inr e => Fatalf ("Unable to generate model sets: " +:+ Error e)
  | inl (ms, msFull) =>
      ts <-- look id ;;
      (if bool_decide (t_components ts = []) then SetComponents "DummyModelSetV1" [dummyTestComp] else pret tt) ;--
      ts <-- look id ;;
      cfgs <-- getComponentConfigs (t_components ts) ;;
      set_compMgr (NewTestCompMgr msFull (CreateComponentNSMappings msFull (modelSetName ts) cfgs)) ;--
      match tstInit ms msFull (t_config ts) (capsDir ts) (auther ts) (isConfigdUser ts) (inSecretsGroup ts)
              log rodisk with
      | inr e => Fatalf ("Unable to initialize testspec; " +:+ Error e)
      | inl srv =>
          match Validate_ xml_config fuel false (srv_Ctx srv) (Hst (test_world srv) []) with
          | None => ppanic
          | Some (r, h) =>
              (if negb (cr_ok r) then
                 Fatalf ("Unable to validate initial configuration: " +:+ errors_text (cr_err r))
               else pret tt) ;--
              pret (srv, h)
          end
      end
  end.

(** *** Starting in one call *)

Definition TstStartup (schema config : string) log rodisk : P (TstSrv * hst) :=
  SetSingleSchema schema ;-- SetConfig config ;-- Init log rodisk.
Definition TstStartupWithCapabilities (schema config caps : string) log rodisk : P (TstSrv * hst) :=
  SetSingleSchema schema ;-- SetConfig config ;-- SetCapabilities caps ;-- Init log rodisk.
Definition TstStartupWithCustomAuth (schema config : string) (a : option Auth) (isConfigd inSecrets : bool)
    log rodisk : P (TstSrv * hst) :=
  SetSingleSchema schema ;-- SetConfig config ;-- SetAuther a isConfigd inSecrets ;-- Init log rodisk.
Definition TstStartupMultipleSchemas (defs : option (list TestSchema)) (config : string) log rodisk
  : P (TstSrv * hst) :=
  SetSchemaDefs defs ;-- SetConfig config ;-- Init log rodisk.
Definition TstStartupMultipleSchemasWithCustomAuth (defs : option (list TestSchema)) (config : string)
    (a : option Auth) (isConfigd inSecrets : bool) log rodisk : P (TstSrv * hst) :=
  SetSchemaDefs defs ;-- SetConfig config ;-- SetAuther a isConfigd inSecrets ;-- Init log rodisk.
Definition TstStartupSchemaDir (dir config capabilities : string) log rodisk : P (TstSrv * hst) :=
  SetSchemaDir dir ;-- SetCapabilities capabilities ;-- SetConfig config ;-- Init log rodisk.

(** The directory removed, if any, and the server without it. *)
Definition Cleanup (srv : TstSrv) : option string * TstSrv :=
  if bool_decide (srv_capsdir srv <> "") then
    (Some (srv_capsdir srv),
     {| srv_Ms := srv_Ms srv; srv_MsFull := srv_MsFull srv; srv_sessions := srv_sessions srv;
        srv_Ctx := srv_Ctx srv; srv_username := srv_username srv; srv_capsdir := "" |})
  else (None, srv).

(** [LoadConfig]: through a file that is removed at the end. *)
Definition LoadConfig (srv : TstSrv) (config : string) : Process.P test_event hst unit :=
  match TempFile with
  | inr _ => put (TError ("Unable to create config file" +:+ nl)) ;-- pexit 1%Z
  | inl name =>
      match WriteTemp name config with
      | Some _ => put (TError ("Unable to write config file" +:+ nl)) ;-- pexit 1%Z
      | None =>
          r <-- on_session (Load_ xml_config fuel false (srv_Ctx srv) name None) ;;
          match fst r with
          | Some e => put (TError ("Load Error: " +:+ Error e +:+ nl)) ;-- pexit 1%Z
          | None => pret tt
          end
      end
  end.

(** *** The component manager of the test *)

Definition with_mgr (f : TestCompMgr -> P unit) : P unit :=
  ts <-- look id ;;
  match t_compMgr ts with Some m => f m | None => ppanic end.
Definition ClearCompLogEntries : P unit := with_mgr (fun m => set_compMgr (ClearLogEntries m)).
Definition CheckCompLogEntries (name filter : string) (entries : list TestLogEntry) : P unit :=
  with_mgr (fun m => each (CheckLogEntries m name entries filter) put).
Definition SetCurrentState (model stateJson : string) : P unit :=
  with_mgr (fun m => set_compMgr (SetCurrentState_mgr m model stateJson)).

(** ** One source of YANG *)

Inductive setter :=
  | PutConfig (c : string) | PutCapabilities (c : string) | PutComponents (n : string) (l : list string)
  | PutAuther (a : option Auth) (b1 b2 : bool)
  | PutSingle (s : string) | PutDir (s : string) | PutDefs (l : option (list TestSchema))
  | PutDefsByRef (l : list TestSchema).
Definition set_one (o : setter) : P unit :=
  match o with
  | PutConfig c => SetConfig c | PutCapabilities c => SetCapabilities c | PutComponents n l => SetComponents n l
  | PutAuther a b1 b2 => SetAuther a b1 b2
  | PutSingle s => SetSingleSchema s | PutDir s => SetSchemaDir s | PutDefs l => SetSchemaDefs l
  | PutDefsByRef l => SetSchemaDefsByRef l
  end.

(** No two of the three are given. *)
Definition one_source (ts : TestSpec) : Prop :=
  (singleSchema ts = "" \/ schemaDir ts = "") /\
  (schemaDefs ts = None \/ singleSchema ts = "" /\ schemaDir ts = "").

Lemma set_one_source o p r q : one_source (p_state p) -> set_one o p = Some (r, q) -> one_source (p_state q).
Proof.
  intros Hp. destruct o; cbn [set_one].
  1-4: by intros [= <- <-].
  all: unfold SetSingleSchema, SetSchemaDir, SetSchemaDefs, SetSchemaDefsByRef, pbind, bind, look; cbn [id].
  all: destruct (_ || _) eqn:Eb; [by intros [= <- <-]|].
  all: apply orb_false_iff in Eb as [E1 E2]; apply bool_decide_eq_false, dec_stable in E1.
  1, 2: apply negb_false_iff in E2; destruct (schemaDefs (p_state p)) eqn:Ed; [done|].
  3, 4: apply bool_decide_eq_false, dec_stable in E2.
  all: intros [= <- <-]; unfold one_source; cbn; intuition.
Qed.

Lemma set_all_one_source l : forall p r q,
  one_source (p_state p) -> each l set_one p = Some (r, q) -> one_source (p_state q).
Proof.
  induction l as [|o l IH]; intros p r q Hp; cbn [each]; [by intros [= <- <-]|].
  unfold pbind, bind.
  destruct (set_one o p) as [[[u|st] p1]|] eqn:E1; [|by intros [= <- <-]; eapply set_one_source|done].
  intros Hq. eapply IH; [|exact Hq]. by eapply set_one_source.
Qed.

(** However a test is put together, as long as it goes on there is one source of
    YANG at most. *)
Theorem spec_one_source l r q tr : run (each l set_one) NewTestSpec = Some (r, q, tr) -> one_source q.
Proof.
  unfold run. destruct (each l set_one _) as [[r' p']|] eqn:Ee; [|done]. intros [= <- <- <-].
  eapply set_all_one_source; [|exact Ee]. split; by left.
Qed.

(** The imports of a submodule go nowhere. *)
Lemma submodule_imports_dropped d namespace prefix : Namespace (ts_BelongsTo d) <> "" ->
  constructSchema (AddImport d namespace prefix) = constructSchema d.
Proof. intros Hn. unfold constructSchema. cbn. by rewrite !bool_decide_true. Qed.

(** ** Tests end *)

Section Ends.
Context `{DC : !Documented fuel}.
Abbreviation Ready := (live effective_ready).

Lemma Validate_ready ctx h : Ready h ->
  exists r h', Validate_ xml_config fuel false ctx h = Some (r, h') /\ Ready h'.
Proof. intros Hh. exact (processreq_ready xml_config fuel (validatereq ctx) None h Hh). Qed.

Lemma tstInit_ready ms msFull config capDir a isConfigd inSecrets log rodisk srv :
  tstInit ms msFull config capDir a isConfigd inSecrets log rodisk = inl srv ->
  dm_ready (srv_sessions srv) /\ srv_capsdir srv = capDir /\ Pid (srv_Ctx srv) = SYSTEM.
Proof.
  unfold tstInit. destruct (load_Load _ _ _) as [[rt|] [|]]; try done.
  destruct user_Current as [[[u h] uid]|]; [|done]. destruct (Atoi uid); [|done].
  intros [= <-]. cbn. split; [by apply start_ready|done].
Qed.

Lemma Fatalf_ends {A} text : ends (Fatalf text : P A).
Proof. unfold Fatalf. repeat ends_step. Qed.
Lemma Fatalf_leads {A} text Q : leads (Fatalf text : P A) Q.
Proof. intros p. unfold Fatalf. rewrite put_then. by eexists (inr _), _. Qed.
Lemma getComponentConfigs_ends files : ends (getComponentConfigs files).
Proof.
  induction files as [|f files IH]; cbn [getComponentConfigs]; repeat first [exact IH | apply Fatalf_ends | ends_step].
Qed.
Lemma generateModelSets_ends : ends generateModelSets.
Proof. unfold generateModelSets, checkAndProcessSchemas. repeat ends_step. Qed.

Ltac leads_step := eapply leads_bind; [apply leads_ends; repeat ends_step|intros ? _].

(** Setting up a test always comes to an end: a report, or a server as the
    daemon starts with it, whose sessions answer, and a session to test with that
    answers too. *)
Theorem Init_ready log rodisk : leads (Init log rodisk) (fun '(srv, h) =>
  dm_ready (srv_sessions srv) /\ Ready h /\ Pid (srv_Ctx srv) = SYSTEM).
Proof.
  unfold Init. eapply leads_bind; [apply leads_ends, generateModelSets_ends|]. intros [[ms msFull]|e] _;
    [|apply Fatalf_leads].
  do 3 leads_step. eapply leads_bind; [apply leads_ends, getComponentConfigs_ends|]. intros cfgs _. leads_step.
  destruct (tstInit _ _ _ _ _ _ _ _ _) as [srv|e] eqn:Et; [|apply Fatalf_leads].
  apply tstInit_ready in Et as (Hd & _ & Hp).
  destruct (Validate_ready (srv_Ctx srv) (Hst (test_world srv) [])) as (r & h & -> & Hh).
  { split; [|constructor]. exact (proj1 Hd). }
  eapply leads_bind; [apply leads_ends; destruct (cr_ok r); [apply ends_ret|apply Fatalf_ends]|]. intros _ _.
  by apply leads_ret.
Qed.

(** No test hangs or crashes in its checks: a table of operations, on a session
    that is ready, comes to the end of the test or of the table. *)
Definition finishes {A} (m : Process.P test_event hst A) : Prop :=
  forall p, Ready (p_state p) -> exists r q, m p = Some (r, q) /\ Ready (p_state q).

Lemma finishes_bind {A B} (m : Process.P test_event hst A) (k : A -> Process.P test_event hst B) :
  finishes m -> (forall a, finishes (k a)) -> finishes (pbind m k).
Proof.
  intros Hm Hk p Hp. destruct (Hm p Hp) as (r & q & E' & Hq). unfold pbind. rewrite (bind_eq _ _ _ _ _ E').
  destruct r as [a|st]; [by apply Hk|by eexists _, _].
Qed.
Lemma finishes_ret {A} (a : A) : finishes (pret a). Proof. intros p Hp. by eexists _, _. Qed.
Lemma finishes_exit {A} st : finishes (@pexit _ _ A st). Proof. intros p Hp. by eexists _, _. Qed.
Lemma finishes_put e : finishes (put e). Proof. intros p Hp. by eexists _, _. Qed.
Lemma finishes_each {A} (l : list A) f : (forall x, finishes (f x)) -> finishes (each l f).
Proof. intros Hf. induction l; [apply finishes_ret|apply finishes_bind; [apply Hf|by intros _]]. Qed.
Lemma finishes_request {A} (r : request A) term def : finishes (on_session (call xml_config fuel term r def)).
Proof.
  intros p Hp. unfold on_session, call. destruct term; [by eexists _, _|].
  destruct (processreq_ready xml_config fuel r None _ Hp) as (a & h & -> & Hh). by eexists _, _.
Qed.

Ltac finish_step :=
  match goal with
  | |- finishes (pbind _ _) => apply finishes_bind; [|intros ?]
  | |- finishes (if ?b then _ else _) => destruct b
  | |- finishes (match ?x with _ => _ end) => destruct x
  | |- finishes (let _ := _ in _) => cbv zeta
  | |- finishes (each _ _) => apply finishes_each; intros ?
  | |- finishes (put _) => apply finishes_put
  | |- finishes (pret _) => apply finishes_ret
  | |- finishes (pexit _) => apply finishes_exit
  | |- finishes (on_session _) => apply finishes_request
  end.

Theorem table_finishes Output_String LogStackFatal enabled term ctx tbl op :
  finishes (ValidateOperationTable xml_config fuel term Output_String LogStackFatal enabled ctx tbl op).
Proof.
  unfold ValidateOperationTable, operation, ValidateSet, ValidateSetPath, ValidateDelete, ValidateCommit,
    validateCommitInternal, ValidateShow, validateShowInternal, ValidateExists, logStack, Errorf, Log, Fatal, FailNow.
  repeat finish_step.
Qed.
End Ends.
End Spec.
